(** * The loop block device driver (drivers/block/loop.c)

    A shallow embedding of the driver's configuration state machine, its
    transfer table, its status conversions, its ioctl interface, its
    request path and request router, the control device and the module's
    initialisation, followed by the properties of the design document that
    were checked against it and by further properties of the driver.

    Conventions.  C integers are [Z]; a value stored into a fixed-width
    object goes through the matching [wrap_*] function.  Functions that
    return an [int] status return [0] or a negated errno.  Results of calls
    that leave the driver (descriptor lookup, memory allocation, the backing
    file's methods) are inputs of the embedded function.  A function that
    releases [lo_mutex] more than once also returns the device as each
    release leaves it.  Reference counts of files, modules and group handles
    are not represented.

    The headers the driver includes are not part of the sources at hand:
    errno values, flag bits and the sizes of include/uapi/linux/loop.h carry
    their values from the kernel's user interface, and the widths of the
    architecture-dependent types of the legacy status structures are
    parameters ([abi]). *)

From Stdlib Require Import ZArith Lia Bool List.
From stdpp Require Import base list.
Import ListNotations.

Local Open Scope Z_scope.

(** ** Errno values (include/uapi/asm-generic/errno-base.h, errno.h) *)

Definition EPERM : Z := 1.
Definition EINTR : Z := 4.
Definition EIO : Z := 5.
Definition ENXIO : Z := 6.
Definition EBADF : Z := 9.
Definition EAGAIN : Z := 11.
Definition ENOMEM : Z := 12.
Definition EFAULT : Z := 14.
Definition EBUSY : Z := 16.
Definition EEXIST : Z := 17.
Definition EINVAL : Z := 22.
Definition EOVERFLOW : Z := 75.
Definition EOPNOTSUPP : Z := 95.

(** ** Fixed-width integers *)

(** The value of an unsigned object of [w] bits holding [z]. *)
Definition wrap_u (w : Z) (z : Z) : Z := z mod 2 ^ w.

(** The value of a two's complement object of [w] bits holding [z]. *)
Definition wrap_s (w : Z) (z : Z) : Z := (z + 2 ^ (w - 1)) mod 2 ^ w - 2 ^ (w - 1).

Definition wrap_u32 : Z -> Z := wrap_u 32.
Definition wrap_s32 : Z -> Z := wrap_s 32.
Definition wrap_s64 : Z -> Z := wrap_s 64.

Definition LLONG_MAX : Z := 2 ^ 63 - 1.
Definition UINT_MAX : Z := 2 ^ 32 - 1.

(** ** Memory as the driver sees it *)

(** A page, a key or a name is an array of [char]; a cell holds 0..255. *)
Definition to_char (v : Z) : Z := Z.land v 255.

(** [p[i]]; reading outside the array is undefined in C and gives 0 here. *)
Definition byte_at (p : list Z) (i : Z) : Z := default 0 (p !! Z.to_nat i).

Definition is_char (v : Z) : Prop := 0 <= v < 256.

(** ** transfer_xor *)

Definition READ : Z := 0.
Definition WRITE : Z := 1.

(** The body of [for (i = 0; i < size; i++) *out++ = *in++ ^ key[(i & 511) % keysize];]
    started at index [i] with [n] iterations left.  [inb] and [out] are the
    two distinct pages behind [in] and [out]. *)
Fixpoint xor_loop (key : list Z) (keysize : Z) (inb : list Z) (in_off : Z)
    (out : list Z) (out_off : Z) (i : Z) (n : nat) : list Z :=
  match n with
  | O => out
  | S n' =>
      let c := to_char (Z.lxor (byte_at inb (in_off + i))
                               (byte_at key (Z.rem (Z.land i 511) keysize))) in
      xor_loop key keysize inb in_off
        (<[Z.to_nat (out_off + i) := c]> out) out_off (i + 1) n'
  end.

(** [transfer_xor(lo, cmd, raw_page, raw_off, loop_page, loop_off, size,
    real_block)], with [lo->lo_encrypt_key] and [lo->lo_encrypt_key_size]
    passed for [lo].  Returns the status and both pages. *)
Definition transfer_xor (lo_encrypt_key : list Z) (lo_encrypt_key_size : Z)
    (cmd : Z) (raw_page : list Z) (raw_off : Z) (loop_page : list Z)
    (loop_off : Z) (size : Z) (real_block : Z) : Z * list Z * list Z :=
  if cmd =? READ then
    (0, raw_page,
     xor_loop lo_encrypt_key lo_encrypt_key_size raw_page raw_off
       loop_page loop_off 0 (Z.to_nat size))
  else
    (0,
     xor_loop lo_encrypt_key lo_encrypt_key_size loop_page loop_off
       raw_page raw_off 0 (Z.to_nat size),
     loop_page).

(** ** get_size *)

(** [get_size(offset, sizelimit, file)], with [i_size_read(file->f_mapping->host)]
    passed for [file].  All three are [loff_t]. *)
Definition get_size (offset sizelimit i_size : Z) : Z :=
  let loopsize := i_size in
  let loopsize := if 0 <? offset then wrap_s64 (loopsize - offset) else loopsize in
  if loopsize <? 0 then 0
  else
    let loopsize :=
      if (0 <? sizelimit) && (sizelimit <? loopsize) then sizelimit else loopsize in
    Z.shiftr loopsize 9.

(** ** Constants of the user interface (include/uapi/linux/loop.h) *)

Definition LO_NAME_SIZE : Z := 64.
Definition LO_KEY_SIZE : Z := 32.
Definition MAX_LO_CRYPT : Z := 20.

Definition LO_CRYPT_NONE : Z := 0.
Definition LO_CRYPT_XOR : Z := 1.
Definition LO_CRYPT_CRYPTOAPI : Z := 18.

Definition LO_FLAGS_READ_ONLY : Z := 1.
Definition LO_FLAGS_AUTOCLEAR : Z := 4.
Definition LO_FLAGS_PARTSCAN : Z := 8.
Definition LO_FLAGS_DIRECT_IO : Z := 16.

Definition LOOP_SET_STATUS_SETTABLE_FLAGS : Z :=
  Z.lor LO_FLAGS_AUTOCLEAR LO_FLAGS_PARTSCAN.
Definition LOOP_SET_STATUS_CLEARABLE_FLAGS : Z := LO_FLAGS_AUTOCLEAR.
Definition LOOP_CONFIGURE_SETTABLE_FLAGS : Z :=
  Z.lor (Z.lor (Z.lor LO_FLAGS_READ_ONLY LO_FLAGS_AUTOCLEAR) LO_FLAGS_PARTSCAN)
        LO_FLAGS_DIRECT_IO.

Definition FALLOC_FL_KEEP_SIZE : Z := 1.
Definition FALLOC_FL_PUNCH_HOLE : Z := 2.
Definition FALLOC_FL_ZERO_RANGE : Z := 16.

(** [x & flag] as a C condition. *)
Definition flag_set (x flag : Z) : bool := negb (Z.land x flag =? 0).

(** [~x] on a 32-bit [int]. *)
Definition not32 (x : Z) : Z := Z.lxor x UINT_MAX.

(** [memcpy(dst, src, n)] on arrays of [char]. *)
Definition memcpy (dst src : list Z) (n : Z) : list Z :=
  take (Z.to_nat n) src ++ drop (Z.to_nat n) dst.

(** [memset(dst, 0, n)]. *)
Definition memset0 (dst : list Z) (n : Z) : list Z :=
  replicate (Z.to_nat n) 0 ++ drop (Z.to_nat n) dst.

(** ** The structures *)

(** What the driver reads from a [struct file] and the objects behind it.
    The methods of the backing file are represented by what they return. *)
Record file := Build_file {
  f_ident : Z;                        (* which file this is *)
  f_mode_write : bool;                (* f_mode & FMODE_WRITE *)
  f_o_direct : bool;                  (* f_flags & O_DIRECT *)
  f_op_write_iter : bool;             (* f_op->write_iter != NULL *)
  f_op_fsync : bool;                  (* f_op->fsync != NULL *)
  f_op_fallocate : option (Z -> Z -> Z -> Z);
                                      (* f_op->fallocate(file, mode, pos, len) *)
  a_ops_direct_IO : bool;             (* f_mapping->a_ops->direct_IO != NULL *)
  f_gfp_mask : Z;                     (* mapping_gfp_mask(f_mapping) *)
  i_size : Z;                         (* i_size_read(f_mapping->host) *)
  i_isblk : bool;                     (* S_ISBLK(inode->i_mode) *)
  s_bdev_lbs : option Z;              (* bdev_logical_block_size(i_sb->s_bdev) *)
  s_bdev_nonrot : bool;               (* blk_queue_nonrot of that device *)
  statfs_err : Z;                     (* vfs_statfs(&file->f_path, &sbuf) *)
  statfs_bsize : Z;                   (* sbuf.f_bsize *)
  bq_max_write_zeroes_sectors : Z;    (* limits of the backing block device *)
  bq_discard_granularity : Z;
  bq_physical_block_size : Z
}.

(** [struct loop_info64]; a field [f] is [info_f] here. *)
Record loop_info64 := Build_loop_info64 {
  info_lo_device : Z;
  info_lo_inode : Z;
  info_lo_rdevice : Z;
  info_lo_offset : Z;
  info_lo_sizelimit : Z;
  info_lo_number : Z;
  info_lo_encrypt_type : Z;
  info_lo_encrypt_key_size : Z;
  info_lo_flags : Z;
  info_lo_file_name : list Z;
  info_lo_crypt_name : list Z;
  info_lo_encrypt_key : list Z;
  info_lo_init : Z * Z
}.

(** The type of a transfer function; [lo] is represented by the key and the
    key size, the only fields [transfer_xor] reads. *)
Definition transfer_fn : Type :=
  list Z -> Z -> Z -> list Z -> Z -> list Z -> Z -> Z -> Z -> Z * list Z * list Z.

(** [struct loop_func_table].  [init] and [release] are represented by the
    status they return; [owner_live] is what [try_module_get(owner)] answers. *)
Record loop_func_table := Build_loop_func_table {
  number : Z;
  xfer_transfer : option transfer_fn;
  xfer_init : option (loop_info64 -> Z);
  xfer_release : option Z;
  xfer_ioctl : bool;
  owner_live : bool
}.

Inductive lo_state_t := Lo_unbound | Lo_bound | Lo_rundown | Lo_deleting.

Definition lo_state_eqb (a b : lo_state_t) : bool :=
  match a, b with
  | Lo_unbound, Lo_unbound | Lo_bound, Lo_bound
  | Lo_rundown, Lo_rundown | Lo_deleting, Lo_deleting => true
  | _, _ => false
  end.

(** [struct loop_cmd]; a null [css] pointer is 0. *)
Record loop_cmd := Build_loop_cmd {
  cmd_rq : Z;                         (* the request the command belongs to *)
  use_aio : bool;
  blkcg_css : Z;
  memcg_css : Z
}.

(** [struct loop_worker].  Membership in [lo->idle_worker_list] is kept in
    the device. *)
Record loop_worker := Build_loop_worker {
  w_blkcg_css : Z;
  w_cmd_list : list loop_cmd;
  last_ran_at : Z
}.

(** [struct rb_root] with the workers embedded in the nodes. *)
Inductive rb_tree :=
| rb_nil
| rb_node (rb_left : rb_tree) (w : loop_worker) (rb_right : rb_tree).

(** [struct request_queue] with its limits, and [struct gendisk]. *)
Record request_queue := Build_request_queue {
  queue_flag_discard : bool;
  queue_flag_nomerges : bool;
  queue_flag_wc : bool;
  queue_flag_nonrot : bool;
  logical_block_size : Z;
  physical_block_size : Z;
  io_min : Z;
  discard_granularity : Z;
  discard_alignment : Z;
  max_discard_sectors : Z;
  max_write_zeroes_sectors : Z
}.

Definition set_queue_flag_discard (v : bool) (r : request_queue) : request_queue :=
  {| queue_flag_discard := v; queue_flag_nomerges := queue_flag_nomerges r;
     queue_flag_wc := queue_flag_wc r; queue_flag_nonrot := queue_flag_nonrot r;
     logical_block_size := logical_block_size r;
     physical_block_size := physical_block_size r; io_min := io_min r;
     discard_granularity := discard_granularity r;
     discard_alignment := discard_alignment r;
     max_discard_sectors := max_discard_sectors r;
     max_write_zeroes_sectors := max_write_zeroes_sectors r |}.

Definition set_queue_flag_nomerges (v : bool) (r : request_queue) : request_queue :=
  {| queue_flag_discard := queue_flag_discard r; queue_flag_nomerges := v;
     queue_flag_wc := queue_flag_wc r; queue_flag_nonrot := queue_flag_nonrot r;
     logical_block_size := logical_block_size r;
     physical_block_size := physical_block_size r; io_min := io_min r;
     discard_granularity := discard_granularity r;
     discard_alignment := discard_alignment r;
     max_discard_sectors := max_discard_sectors r;
     max_write_zeroes_sectors := max_write_zeroes_sectors r |}.

Definition set_queue_flag_wc (v : bool) (r : request_queue) : request_queue :=
  {| queue_flag_discard := queue_flag_discard r;
     queue_flag_nomerges := queue_flag_nomerges r; queue_flag_wc := v;
     queue_flag_nonrot := queue_flag_nonrot r;
     logical_block_size := logical_block_size r;
     physical_block_size := physical_block_size r; io_min := io_min r;
     discard_granularity := discard_granularity r;
     discard_alignment := discard_alignment r;
     max_discard_sectors := max_discard_sectors r;
     max_write_zeroes_sectors := max_write_zeroes_sectors r |}.

Definition set_queue_flag_nonrot (v : bool) (r : request_queue) : request_queue :=
  {| queue_flag_discard := queue_flag_discard r;
     queue_flag_nomerges := queue_flag_nomerges r; queue_flag_wc := queue_flag_wc r;
     queue_flag_nonrot := v; logical_block_size := logical_block_size r;
     physical_block_size := physical_block_size r; io_min := io_min r;
     discard_granularity := discard_granularity r;
     discard_alignment := discard_alignment r;
     max_discard_sectors := max_discard_sectors r;
     max_write_zeroes_sectors := max_write_zeroes_sectors r |}.

Definition set_logical_block_size (v : Z) (r : request_queue) : request_queue :=
  {| queue_flag_discard := queue_flag_discard r;
     queue_flag_nomerges := queue_flag_nomerges r; queue_flag_wc := queue_flag_wc r;
     queue_flag_nonrot := queue_flag_nonrot r; logical_block_size := v;
     physical_block_size := physical_block_size r; io_min := io_min r;
     discard_granularity := discard_granularity r;
     discard_alignment := discard_alignment r;
     max_discard_sectors := max_discard_sectors r;
     max_write_zeroes_sectors := max_write_zeroes_sectors r |}.

Definition set_physical_block_size (v : Z) (r : request_queue) : request_queue :=
  {| queue_flag_discard := queue_flag_discard r;
     queue_flag_nomerges := queue_flag_nomerges r; queue_flag_wc := queue_flag_wc r;
     queue_flag_nonrot := queue_flag_nonrot r;
     logical_block_size := logical_block_size r; physical_block_size := v;
     io_min := io_min r; discard_granularity := discard_granularity r;
     discard_alignment := discard_alignment r;
     max_discard_sectors := max_discard_sectors r;
     max_write_zeroes_sectors := max_write_zeroes_sectors r |}.

Definition set_io_min (v : Z) (r : request_queue) : request_queue :=
  {| queue_flag_discard := queue_flag_discard r;
     queue_flag_nomerges := queue_flag_nomerges r; queue_flag_wc := queue_flag_wc r;
     queue_flag_nonrot := queue_flag_nonrot r;
     logical_block_size := logical_block_size r;
     physical_block_size := physical_block_size r; io_min := v;
     discard_granularity := discard_granularity r;
     discard_alignment := discard_alignment r;
     max_discard_sectors := max_discard_sectors r;
     max_write_zeroes_sectors := max_write_zeroes_sectors r |}.

Definition set_discard_granularity (v : Z) (r : request_queue) : request_queue :=
  {| queue_flag_discard := queue_flag_discard r;
     queue_flag_nomerges := queue_flag_nomerges r; queue_flag_wc := queue_flag_wc r;
     queue_flag_nonrot := queue_flag_nonrot r;
     logical_block_size := logical_block_size r;
     physical_block_size := physical_block_size r; io_min := io_min r;
     discard_granularity := v; discard_alignment := discard_alignment r;
     max_discard_sectors := max_discard_sectors r;
     max_write_zeroes_sectors := max_write_zeroes_sectors r |}.

Definition set_discard_alignment (v : Z) (r : request_queue) : request_queue :=
  {| queue_flag_discard := queue_flag_discard r;
     queue_flag_nomerges := queue_flag_nomerges r; queue_flag_wc := queue_flag_wc r;
     queue_flag_nonrot := queue_flag_nonrot r;
     logical_block_size := logical_block_size r;
     physical_block_size := physical_block_size r; io_min := io_min r;
     discard_granularity := discard_granularity r; discard_alignment := v;
     max_discard_sectors := max_discard_sectors r;
     max_write_zeroes_sectors := max_write_zeroes_sectors r |}.

Definition set_max_discard_sectors (v : Z) (r : request_queue) : request_queue :=
  {| queue_flag_discard := queue_flag_discard r;
     queue_flag_nomerges := queue_flag_nomerges r; queue_flag_wc := queue_flag_wc r;
     queue_flag_nonrot := queue_flag_nonrot r;
     logical_block_size := logical_block_size r;
     physical_block_size := physical_block_size r; io_min := io_min r;
     discard_granularity := discard_granularity r;
     discard_alignment := discard_alignment r; max_discard_sectors := v;
     max_write_zeroes_sectors := max_write_zeroes_sectors r |}.

Definition set_max_write_zeroes_sectors (v : Z) (r : request_queue) : request_queue :=
  {| queue_flag_discard := queue_flag_discard r;
     queue_flag_nomerges := queue_flag_nomerges r; queue_flag_wc := queue_flag_wc r;
     queue_flag_nonrot := queue_flag_nonrot r;
     logical_block_size := logical_block_size r;
     physical_block_size := physical_block_size r; io_min := io_min r;
     discard_granularity := discard_granularity r;
     discard_alignment := discard_alignment r;
     max_discard_sectors := max_discard_sectors r; max_write_zeroes_sectors := v |}.

Record gendisk := Build_gendisk {
  capacity : Z;
  disk_ro : bool;
  gd_suppress_part_scan : bool
}.

Definition set_capacity (v : Z) (r : gendisk) : gendisk :=
  {| capacity := v; disk_ro := disk_ro r;
     gd_suppress_part_scan := gd_suppress_part_scan r |}.

Definition set_disk_ro (v : bool) (r : gendisk) : gendisk :=
  {| capacity := capacity r; disk_ro := v;
     gd_suppress_part_scan := gd_suppress_part_scan r |}.

Definition set_gd_suppress_part_scan (v : bool) (r : gendisk) : gendisk :=
  {| capacity := capacity r; disk_ro := disk_ro r; gd_suppress_part_scan := v |}.

(** [struct loop_device].  [workqueue] tells whether the pointer is set;
    [pending_work] lists the work items handed to [queue_work] (0 for
    [rootcg_work], the group handle for a worker's item). *)
Record loop_device := Build_loop_device {
  lo_number : Z;
  lo_refcnt : Z;
  lo_offset : Z;
  lo_sizelimit : Z;
  lo_flags : Z;
  lo_file_name : list Z;
  lo_crypt_name : list Z;
  lo_encrypt_key : list Z;
  lo_encrypt_key_size : Z;
  lo_encryption : option loop_func_table;
  lo_init : Z * Z;                    (* __u32 lo_init[2] *)
  lo_key_owner : Z;
  transfer : option transfer_fn;
  ioctl : bool;
  lo_backing_file : option file;
  lo_backing_virt_file : option file;
  lo_device : option Z;
  old_gfp_mask : Z;
  lo_state : lo_state_t;
  use_dio : bool;
  sysfs_inited : bool;
  workqueue : bool;
  worker_tree : rb_tree;
  idle_worker_list : list Z;
  rootcg_cmd_list : list loop_cmd;
  pending_work : list Z;
  lo_queue : request_queue;
  lo_disk : gendisk
}.

Definition set_lo_number (v : Z) (r : loop_device) : loop_device :=
  {| lo_number := v; lo_refcnt := lo_refcnt r; lo_offset := lo_offset r;
     lo_sizelimit := lo_sizelimit r; lo_flags := lo_flags r;
     lo_file_name := lo_file_name r; lo_crypt_name := lo_crypt_name r;
     lo_encrypt_key := lo_encrypt_key r; lo_encrypt_key_size := lo_encrypt_key_size r;
     lo_encryption := lo_encryption r; lo_init := lo_init r;
     lo_key_owner := lo_key_owner r; transfer := transfer r; ioctl := ioctl r;
     lo_backing_file := lo_backing_file r;
     lo_backing_virt_file := lo_backing_virt_file r; lo_device := lo_device r;
     old_gfp_mask := old_gfp_mask r; lo_state := lo_state r; use_dio := use_dio r;
     sysfs_inited := sysfs_inited r; workqueue := workqueue r;
     worker_tree := worker_tree r; idle_worker_list := idle_worker_list r;
     rootcg_cmd_list := rootcg_cmd_list r; pending_work := pending_work r;
     lo_queue := lo_queue r; lo_disk := lo_disk r |}.

Definition set_lo_refcnt (v : Z) (r : loop_device) : loop_device :=
  {| lo_number := lo_number r; lo_refcnt := v; lo_offset := lo_offset r;
     lo_sizelimit := lo_sizelimit r; lo_flags := lo_flags r;
     lo_file_name := lo_file_name r; lo_crypt_name := lo_crypt_name r;
     lo_encrypt_key := lo_encrypt_key r; lo_encrypt_key_size := lo_encrypt_key_size r;
     lo_encryption := lo_encryption r; lo_init := lo_init r;
     lo_key_owner := lo_key_owner r; transfer := transfer r; ioctl := ioctl r;
     lo_backing_file := lo_backing_file r;
     lo_backing_virt_file := lo_backing_virt_file r; lo_device := lo_device r;
     old_gfp_mask := old_gfp_mask r; lo_state := lo_state r; use_dio := use_dio r;
     sysfs_inited := sysfs_inited r; workqueue := workqueue r;
     worker_tree := worker_tree r; idle_worker_list := idle_worker_list r;
     rootcg_cmd_list := rootcg_cmd_list r; pending_work := pending_work r;
     lo_queue := lo_queue r; lo_disk := lo_disk r |}.

Definition set_lo_offset (v : Z) (r : loop_device) : loop_device :=
  {| lo_number := lo_number r; lo_refcnt := lo_refcnt r; lo_offset := v;
     lo_sizelimit := lo_sizelimit r; lo_flags := lo_flags r;
     lo_file_name := lo_file_name r; lo_crypt_name := lo_crypt_name r;
     lo_encrypt_key := lo_encrypt_key r; lo_encrypt_key_size := lo_encrypt_key_size r;
     lo_encryption := lo_encryption r; lo_init := lo_init r;
     lo_key_owner := lo_key_owner r; transfer := transfer r; ioctl := ioctl r;
     lo_backing_file := lo_backing_file r;
     lo_backing_virt_file := lo_backing_virt_file r; lo_device := lo_device r;
     old_gfp_mask := old_gfp_mask r; lo_state := lo_state r; use_dio := use_dio r;
     sysfs_inited := sysfs_inited r; workqueue := workqueue r;
     worker_tree := worker_tree r; idle_worker_list := idle_worker_list r;
     rootcg_cmd_list := rootcg_cmd_list r; pending_work := pending_work r;
     lo_queue := lo_queue r; lo_disk := lo_disk r |}.

Definition set_lo_sizelimit (v : Z) (r : loop_device) : loop_device :=
  {| lo_number := lo_number r; lo_refcnt := lo_refcnt r; lo_offset := lo_offset r;
     lo_sizelimit := v; lo_flags := lo_flags r; lo_file_name := lo_file_name r;
     lo_crypt_name := lo_crypt_name r; lo_encrypt_key := lo_encrypt_key r;
     lo_encrypt_key_size := lo_encrypt_key_size r; lo_encryption := lo_encryption r;
     lo_init := lo_init r; lo_key_owner := lo_key_owner r; transfer := transfer r;
     ioctl := ioctl r; lo_backing_file := lo_backing_file r;
     lo_backing_virt_file := lo_backing_virt_file r; lo_device := lo_device r;
     old_gfp_mask := old_gfp_mask r; lo_state := lo_state r; use_dio := use_dio r;
     sysfs_inited := sysfs_inited r; workqueue := workqueue r;
     worker_tree := worker_tree r; idle_worker_list := idle_worker_list r;
     rootcg_cmd_list := rootcg_cmd_list r; pending_work := pending_work r;
     lo_queue := lo_queue r; lo_disk := lo_disk r |}.

Definition set_lo_flags (v : Z) (r : loop_device) : loop_device :=
  {| lo_number := lo_number r; lo_refcnt := lo_refcnt r; lo_offset := lo_offset r;
     lo_sizelimit := lo_sizelimit r; lo_flags := v; lo_file_name := lo_file_name r;
     lo_crypt_name := lo_crypt_name r; lo_encrypt_key := lo_encrypt_key r;
     lo_encrypt_key_size := lo_encrypt_key_size r; lo_encryption := lo_encryption r;
     lo_init := lo_init r; lo_key_owner := lo_key_owner r; transfer := transfer r;
     ioctl := ioctl r; lo_backing_file := lo_backing_file r;
     lo_backing_virt_file := lo_backing_virt_file r; lo_device := lo_device r;
     old_gfp_mask := old_gfp_mask r; lo_state := lo_state r; use_dio := use_dio r;
     sysfs_inited := sysfs_inited r; workqueue := workqueue r;
     worker_tree := worker_tree r; idle_worker_list := idle_worker_list r;
     rootcg_cmd_list := rootcg_cmd_list r; pending_work := pending_work r;
     lo_queue := lo_queue r; lo_disk := lo_disk r |}.

Definition set_lo_file_name (v : list Z) (r : loop_device) : loop_device :=
  {| lo_number := lo_number r; lo_refcnt := lo_refcnt r; lo_offset := lo_offset r;
     lo_sizelimit := lo_sizelimit r; lo_flags := lo_flags r; lo_file_name := v;
     lo_crypt_name := lo_crypt_name r; lo_encrypt_key := lo_encrypt_key r;
     lo_encrypt_key_size := lo_encrypt_key_size r; lo_encryption := lo_encryption r;
     lo_init := lo_init r; lo_key_owner := lo_key_owner r; transfer := transfer r;
     ioctl := ioctl r; lo_backing_file := lo_backing_file r;
     lo_backing_virt_file := lo_backing_virt_file r; lo_device := lo_device r;
     old_gfp_mask := old_gfp_mask r; lo_state := lo_state r; use_dio := use_dio r;
     sysfs_inited := sysfs_inited r; workqueue := workqueue r;
     worker_tree := worker_tree r; idle_worker_list := idle_worker_list r;
     rootcg_cmd_list := rootcg_cmd_list r; pending_work := pending_work r;
     lo_queue := lo_queue r; lo_disk := lo_disk r |}.

Definition set_lo_crypt_name (v : list Z) (r : loop_device) : loop_device :=
  {| lo_number := lo_number r; lo_refcnt := lo_refcnt r; lo_offset := lo_offset r;
     lo_sizelimit := lo_sizelimit r; lo_flags := lo_flags r;
     lo_file_name := lo_file_name r; lo_crypt_name := v;
     lo_encrypt_key := lo_encrypt_key r; lo_encrypt_key_size := lo_encrypt_key_size r;
     lo_encryption := lo_encryption r; lo_init := lo_init r;
     lo_key_owner := lo_key_owner r; transfer := transfer r; ioctl := ioctl r;
     lo_backing_file := lo_backing_file r;
     lo_backing_virt_file := lo_backing_virt_file r; lo_device := lo_device r;
     old_gfp_mask := old_gfp_mask r; lo_state := lo_state r; use_dio := use_dio r;
     sysfs_inited := sysfs_inited r; workqueue := workqueue r;
     worker_tree := worker_tree r; idle_worker_list := idle_worker_list r;
     rootcg_cmd_list := rootcg_cmd_list r; pending_work := pending_work r;
     lo_queue := lo_queue r; lo_disk := lo_disk r |}.

Definition set_lo_encrypt_key (v : list Z) (r : loop_device) : loop_device :=
  {| lo_number := lo_number r; lo_refcnt := lo_refcnt r; lo_offset := lo_offset r;
     lo_sizelimit := lo_sizelimit r; lo_flags := lo_flags r;
     lo_file_name := lo_file_name r; lo_crypt_name := lo_crypt_name r;
     lo_encrypt_key := v; lo_encrypt_key_size := lo_encrypt_key_size r;
     lo_encryption := lo_encryption r; lo_init := lo_init r;
     lo_key_owner := lo_key_owner r; transfer := transfer r; ioctl := ioctl r;
     lo_backing_file := lo_backing_file r;
     lo_backing_virt_file := lo_backing_virt_file r; lo_device := lo_device r;
     old_gfp_mask := old_gfp_mask r; lo_state := lo_state r; use_dio := use_dio r;
     sysfs_inited := sysfs_inited r; workqueue := workqueue r;
     worker_tree := worker_tree r; idle_worker_list := idle_worker_list r;
     rootcg_cmd_list := rootcg_cmd_list r; pending_work := pending_work r;
     lo_queue := lo_queue r; lo_disk := lo_disk r |}.

Definition set_lo_encrypt_key_size (v : Z) (r : loop_device) : loop_device :=
  {| lo_number := lo_number r; lo_refcnt := lo_refcnt r; lo_offset := lo_offset r;
     lo_sizelimit := lo_sizelimit r; lo_flags := lo_flags r;
     lo_file_name := lo_file_name r; lo_crypt_name := lo_crypt_name r;
     lo_encrypt_key := lo_encrypt_key r; lo_encrypt_key_size := v;
     lo_encryption := lo_encryption r; lo_init := lo_init r;
     lo_key_owner := lo_key_owner r; transfer := transfer r; ioctl := ioctl r;
     lo_backing_file := lo_backing_file r;
     lo_backing_virt_file := lo_backing_virt_file r; lo_device := lo_device r;
     old_gfp_mask := old_gfp_mask r; lo_state := lo_state r; use_dio := use_dio r;
     sysfs_inited := sysfs_inited r; workqueue := workqueue r;
     worker_tree := worker_tree r; idle_worker_list := idle_worker_list r;
     rootcg_cmd_list := rootcg_cmd_list r; pending_work := pending_work r;
     lo_queue := lo_queue r; lo_disk := lo_disk r |}.

Definition set_lo_encryption (v : option loop_func_table) (r : loop_device) : loop_device :=
  {| lo_number := lo_number r; lo_refcnt := lo_refcnt r; lo_offset := lo_offset r;
     lo_sizelimit := lo_sizelimit r; lo_flags := lo_flags r;
     lo_file_name := lo_file_name r; lo_crypt_name := lo_crypt_name r;
     lo_encrypt_key := lo_encrypt_key r; lo_encrypt_key_size := lo_encrypt_key_size r;
     lo_encryption := v; lo_init := lo_init r; lo_key_owner := lo_key_owner r;
     transfer := transfer r; ioctl := ioctl r; lo_backing_file := lo_backing_file r;
     lo_backing_virt_file := lo_backing_virt_file r; lo_device := lo_device r;
     old_gfp_mask := old_gfp_mask r; lo_state := lo_state r; use_dio := use_dio r;
     sysfs_inited := sysfs_inited r; workqueue := workqueue r;
     worker_tree := worker_tree r; idle_worker_list := idle_worker_list r;
     rootcg_cmd_list := rootcg_cmd_list r; pending_work := pending_work r;
     lo_queue := lo_queue r; lo_disk := lo_disk r |}.

Definition set_lo_init (v : Z * Z) (r : loop_device) : loop_device :=
  {| lo_number := lo_number r; lo_refcnt := lo_refcnt r; lo_offset := lo_offset r;
     lo_sizelimit := lo_sizelimit r; lo_flags := lo_flags r;
     lo_file_name := lo_file_name r; lo_crypt_name := lo_crypt_name r;
     lo_encrypt_key := lo_encrypt_key r; lo_encrypt_key_size := lo_encrypt_key_size r;
     lo_encryption := lo_encryption r; lo_init := v; lo_key_owner := lo_key_owner r;
     transfer := transfer r; ioctl := ioctl r; lo_backing_file := lo_backing_file r;
     lo_backing_virt_file := lo_backing_virt_file r; lo_device := lo_device r;
     old_gfp_mask := old_gfp_mask r; lo_state := lo_state r; use_dio := use_dio r;
     sysfs_inited := sysfs_inited r; workqueue := workqueue r;
     worker_tree := worker_tree r; idle_worker_list := idle_worker_list r;
     rootcg_cmd_list := rootcg_cmd_list r; pending_work := pending_work r;
     lo_queue := lo_queue r; lo_disk := lo_disk r |}.

Definition set_lo_key_owner (v : Z) (r : loop_device) : loop_device :=
  {| lo_number := lo_number r; lo_refcnt := lo_refcnt r; lo_offset := lo_offset r;
     lo_sizelimit := lo_sizelimit r; lo_flags := lo_flags r;
     lo_file_name := lo_file_name r; lo_crypt_name := lo_crypt_name r;
     lo_encrypt_key := lo_encrypt_key r; lo_encrypt_key_size := lo_encrypt_key_size r;
     lo_encryption := lo_encryption r; lo_init := lo_init r; lo_key_owner := v;
     transfer := transfer r; ioctl := ioctl r; lo_backing_file := lo_backing_file r;
     lo_backing_virt_file := lo_backing_virt_file r; lo_device := lo_device r;
     old_gfp_mask := old_gfp_mask r; lo_state := lo_state r; use_dio := use_dio r;
     sysfs_inited := sysfs_inited r; workqueue := workqueue r;
     worker_tree := worker_tree r; idle_worker_list := idle_worker_list r;
     rootcg_cmd_list := rootcg_cmd_list r; pending_work := pending_work r;
     lo_queue := lo_queue r; lo_disk := lo_disk r |}.

Definition set_transfer (v : option transfer_fn) (r : loop_device) : loop_device :=
  {| lo_number := lo_number r; lo_refcnt := lo_refcnt r; lo_offset := lo_offset r;
     lo_sizelimit := lo_sizelimit r; lo_flags := lo_flags r;
     lo_file_name := lo_file_name r; lo_crypt_name := lo_crypt_name r;
     lo_encrypt_key := lo_encrypt_key r; lo_encrypt_key_size := lo_encrypt_key_size r;
     lo_encryption := lo_encryption r; lo_init := lo_init r;
     lo_key_owner := lo_key_owner r; transfer := v; ioctl := ioctl r;
     lo_backing_file := lo_backing_file r;
     lo_backing_virt_file := lo_backing_virt_file r; lo_device := lo_device r;
     old_gfp_mask := old_gfp_mask r; lo_state := lo_state r; use_dio := use_dio r;
     sysfs_inited := sysfs_inited r; workqueue := workqueue r;
     worker_tree := worker_tree r; idle_worker_list := idle_worker_list r;
     rootcg_cmd_list := rootcg_cmd_list r; pending_work := pending_work r;
     lo_queue := lo_queue r; lo_disk := lo_disk r |}.

Definition set_ioctl (v : bool) (r : loop_device) : loop_device :=
  {| lo_number := lo_number r; lo_refcnt := lo_refcnt r; lo_offset := lo_offset r;
     lo_sizelimit := lo_sizelimit r; lo_flags := lo_flags r;
     lo_file_name := lo_file_name r; lo_crypt_name := lo_crypt_name r;
     lo_encrypt_key := lo_encrypt_key r; lo_encrypt_key_size := lo_encrypt_key_size r;
     lo_encryption := lo_encryption r; lo_init := lo_init r;
     lo_key_owner := lo_key_owner r; transfer := transfer r; ioctl := v;
     lo_backing_file := lo_backing_file r;
     lo_backing_virt_file := lo_backing_virt_file r; lo_device := lo_device r;
     old_gfp_mask := old_gfp_mask r; lo_state := lo_state r; use_dio := use_dio r;
     sysfs_inited := sysfs_inited r; workqueue := workqueue r;
     worker_tree := worker_tree r; idle_worker_list := idle_worker_list r;
     rootcg_cmd_list := rootcg_cmd_list r; pending_work := pending_work r;
     lo_queue := lo_queue r; lo_disk := lo_disk r |}.

Definition set_lo_backing_file (v : option file) (r : loop_device) : loop_device :=
  {| lo_number := lo_number r; lo_refcnt := lo_refcnt r; lo_offset := lo_offset r;
     lo_sizelimit := lo_sizelimit r; lo_flags := lo_flags r;
     lo_file_name := lo_file_name r; lo_crypt_name := lo_crypt_name r;
     lo_encrypt_key := lo_encrypt_key r; lo_encrypt_key_size := lo_encrypt_key_size r;
     lo_encryption := lo_encryption r; lo_init := lo_init r;
     lo_key_owner := lo_key_owner r; transfer := transfer r; ioctl := ioctl r;
     lo_backing_file := v; lo_backing_virt_file := lo_backing_virt_file r;
     lo_device := lo_device r; old_gfp_mask := old_gfp_mask r; lo_state := lo_state r;
     use_dio := use_dio r; sysfs_inited := sysfs_inited r; workqueue := workqueue r;
     worker_tree := worker_tree r; idle_worker_list := idle_worker_list r;
     rootcg_cmd_list := rootcg_cmd_list r; pending_work := pending_work r;
     lo_queue := lo_queue r; lo_disk := lo_disk r |}.

Definition set_lo_backing_virt_file (v : option file) (r : loop_device) : loop_device :=
  {| lo_number := lo_number r; lo_refcnt := lo_refcnt r; lo_offset := lo_offset r;
     lo_sizelimit := lo_sizelimit r; lo_flags := lo_flags r;
     lo_file_name := lo_file_name r; lo_crypt_name := lo_crypt_name r;
     lo_encrypt_key := lo_encrypt_key r; lo_encrypt_key_size := lo_encrypt_key_size r;
     lo_encryption := lo_encryption r; lo_init := lo_init r;
     lo_key_owner := lo_key_owner r; transfer := transfer r; ioctl := ioctl r;
     lo_backing_file := lo_backing_file r; lo_backing_virt_file := v;
     lo_device := lo_device r; old_gfp_mask := old_gfp_mask r; lo_state := lo_state r;
     use_dio := use_dio r; sysfs_inited := sysfs_inited r; workqueue := workqueue r;
     worker_tree := worker_tree r; idle_worker_list := idle_worker_list r;
     rootcg_cmd_list := rootcg_cmd_list r; pending_work := pending_work r;
     lo_queue := lo_queue r; lo_disk := lo_disk r |}.

Definition set_lo_device (v : option Z) (r : loop_device) : loop_device :=
  {| lo_number := lo_number r; lo_refcnt := lo_refcnt r; lo_offset := lo_offset r;
     lo_sizelimit := lo_sizelimit r; lo_flags := lo_flags r;
     lo_file_name := lo_file_name r; lo_crypt_name := lo_crypt_name r;
     lo_encrypt_key := lo_encrypt_key r; lo_encrypt_key_size := lo_encrypt_key_size r;
     lo_encryption := lo_encryption r; lo_init := lo_init r;
     lo_key_owner := lo_key_owner r; transfer := transfer r; ioctl := ioctl r;
     lo_backing_file := lo_backing_file r;
     lo_backing_virt_file := lo_backing_virt_file r; lo_device := v;
     old_gfp_mask := old_gfp_mask r; lo_state := lo_state r; use_dio := use_dio r;
     sysfs_inited := sysfs_inited r; workqueue := workqueue r;
     worker_tree := worker_tree r; idle_worker_list := idle_worker_list r;
     rootcg_cmd_list := rootcg_cmd_list r; pending_work := pending_work r;
     lo_queue := lo_queue r; lo_disk := lo_disk r |}.

Definition set_old_gfp_mask (v : Z) (r : loop_device) : loop_device :=
  {| lo_number := lo_number r; lo_refcnt := lo_refcnt r; lo_offset := lo_offset r;
     lo_sizelimit := lo_sizelimit r; lo_flags := lo_flags r;
     lo_file_name := lo_file_name r; lo_crypt_name := lo_crypt_name r;
     lo_encrypt_key := lo_encrypt_key r; lo_encrypt_key_size := lo_encrypt_key_size r;
     lo_encryption := lo_encryption r; lo_init := lo_init r;
     lo_key_owner := lo_key_owner r; transfer := transfer r; ioctl := ioctl r;
     lo_backing_file := lo_backing_file r;
     lo_backing_virt_file := lo_backing_virt_file r; lo_device := lo_device r;
     old_gfp_mask := v; lo_state := lo_state r; use_dio := use_dio r;
     sysfs_inited := sysfs_inited r; workqueue := workqueue r;
     worker_tree := worker_tree r; idle_worker_list := idle_worker_list r;
     rootcg_cmd_list := rootcg_cmd_list r; pending_work := pending_work r;
     lo_queue := lo_queue r; lo_disk := lo_disk r |}.

Definition set_lo_state (v : lo_state_t) (r : loop_device) : loop_device :=
  {| lo_number := lo_number r; lo_refcnt := lo_refcnt r; lo_offset := lo_offset r;
     lo_sizelimit := lo_sizelimit r; lo_flags := lo_flags r;
     lo_file_name := lo_file_name r; lo_crypt_name := lo_crypt_name r;
     lo_encrypt_key := lo_encrypt_key r; lo_encrypt_key_size := lo_encrypt_key_size r;
     lo_encryption := lo_encryption r; lo_init := lo_init r;
     lo_key_owner := lo_key_owner r; transfer := transfer r; ioctl := ioctl r;
     lo_backing_file := lo_backing_file r;
     lo_backing_virt_file := lo_backing_virt_file r; lo_device := lo_device r;
     old_gfp_mask := old_gfp_mask r; lo_state := v; use_dio := use_dio r;
     sysfs_inited := sysfs_inited r; workqueue := workqueue r;
     worker_tree := worker_tree r; idle_worker_list := idle_worker_list r;
     rootcg_cmd_list := rootcg_cmd_list r; pending_work := pending_work r;
     lo_queue := lo_queue r; lo_disk := lo_disk r |}.

Definition set_use_dio (v : bool) (r : loop_device) : loop_device :=
  {| lo_number := lo_number r; lo_refcnt := lo_refcnt r; lo_offset := lo_offset r;
     lo_sizelimit := lo_sizelimit r; lo_flags := lo_flags r;
     lo_file_name := lo_file_name r; lo_crypt_name := lo_crypt_name r;
     lo_encrypt_key := lo_encrypt_key r; lo_encrypt_key_size := lo_encrypt_key_size r;
     lo_encryption := lo_encryption r; lo_init := lo_init r;
     lo_key_owner := lo_key_owner r; transfer := transfer r; ioctl := ioctl r;
     lo_backing_file := lo_backing_file r;
     lo_backing_virt_file := lo_backing_virt_file r; lo_device := lo_device r;
     old_gfp_mask := old_gfp_mask r; lo_state := lo_state r; use_dio := v;
     sysfs_inited := sysfs_inited r; workqueue := workqueue r;
     worker_tree := worker_tree r; idle_worker_list := idle_worker_list r;
     rootcg_cmd_list := rootcg_cmd_list r; pending_work := pending_work r;
     lo_queue := lo_queue r; lo_disk := lo_disk r |}.

Definition set_sysfs_inited (v : bool) (r : loop_device) : loop_device :=
  {| lo_number := lo_number r; lo_refcnt := lo_refcnt r; lo_offset := lo_offset r;
     lo_sizelimit := lo_sizelimit r; lo_flags := lo_flags r;
     lo_file_name := lo_file_name r; lo_crypt_name := lo_crypt_name r;
     lo_encrypt_key := lo_encrypt_key r; lo_encrypt_key_size := lo_encrypt_key_size r;
     lo_encryption := lo_encryption r; lo_init := lo_init r;
     lo_key_owner := lo_key_owner r; transfer := transfer r; ioctl := ioctl r;
     lo_backing_file := lo_backing_file r;
     lo_backing_virt_file := lo_backing_virt_file r; lo_device := lo_device r;
     old_gfp_mask := old_gfp_mask r; lo_state := lo_state r; use_dio := use_dio r;
     sysfs_inited := v; workqueue := workqueue r; worker_tree := worker_tree r;
     idle_worker_list := idle_worker_list r; rootcg_cmd_list := rootcg_cmd_list r;
     pending_work := pending_work r; lo_queue := lo_queue r; lo_disk := lo_disk r |}.

Definition set_workqueue (v : bool) (r : loop_device) : loop_device :=
  {| lo_number := lo_number r; lo_refcnt := lo_refcnt r; lo_offset := lo_offset r;
     lo_sizelimit := lo_sizelimit r; lo_flags := lo_flags r;
     lo_file_name := lo_file_name r; lo_crypt_name := lo_crypt_name r;
     lo_encrypt_key := lo_encrypt_key r; lo_encrypt_key_size := lo_encrypt_key_size r;
     lo_encryption := lo_encryption r; lo_init := lo_init r;
     lo_key_owner := lo_key_owner r; transfer := transfer r; ioctl := ioctl r;
     lo_backing_file := lo_backing_file r;
     lo_backing_virt_file := lo_backing_virt_file r; lo_device := lo_device r;
     old_gfp_mask := old_gfp_mask r; lo_state := lo_state r; use_dio := use_dio r;
     sysfs_inited := sysfs_inited r; workqueue := v; worker_tree := worker_tree r;
     idle_worker_list := idle_worker_list r; rootcg_cmd_list := rootcg_cmd_list r;
     pending_work := pending_work r; lo_queue := lo_queue r; lo_disk := lo_disk r |}.

Definition set_worker_tree (v : rb_tree) (r : loop_device) : loop_device :=
  {| lo_number := lo_number r; lo_refcnt := lo_refcnt r; lo_offset := lo_offset r;
     lo_sizelimit := lo_sizelimit r; lo_flags := lo_flags r;
     lo_file_name := lo_file_name r; lo_crypt_name := lo_crypt_name r;
     lo_encrypt_key := lo_encrypt_key r; lo_encrypt_key_size := lo_encrypt_key_size r;
     lo_encryption := lo_encryption r; lo_init := lo_init r;
     lo_key_owner := lo_key_owner r; transfer := transfer r; ioctl := ioctl r;
     lo_backing_file := lo_backing_file r;
     lo_backing_virt_file := lo_backing_virt_file r; lo_device := lo_device r;
     old_gfp_mask := old_gfp_mask r; lo_state := lo_state r; use_dio := use_dio r;
     sysfs_inited := sysfs_inited r; workqueue := workqueue r; worker_tree := v;
     idle_worker_list := idle_worker_list r; rootcg_cmd_list := rootcg_cmd_list r;
     pending_work := pending_work r; lo_queue := lo_queue r; lo_disk := lo_disk r |}.

Definition set_idle_worker_list (v : list Z) (r : loop_device) : loop_device :=
  {| lo_number := lo_number r; lo_refcnt := lo_refcnt r; lo_offset := lo_offset r;
     lo_sizelimit := lo_sizelimit r; lo_flags := lo_flags r;
     lo_file_name := lo_file_name r; lo_crypt_name := lo_crypt_name r;
     lo_encrypt_key := lo_encrypt_key r; lo_encrypt_key_size := lo_encrypt_key_size r;
     lo_encryption := lo_encryption r; lo_init := lo_init r;
     lo_key_owner := lo_key_owner r; transfer := transfer r; ioctl := ioctl r;
     lo_backing_file := lo_backing_file r;
     lo_backing_virt_file := lo_backing_virt_file r; lo_device := lo_device r;
     old_gfp_mask := old_gfp_mask r; lo_state := lo_state r; use_dio := use_dio r;
     sysfs_inited := sysfs_inited r; workqueue := workqueue r;
     worker_tree := worker_tree r; idle_worker_list := v;
     rootcg_cmd_list := rootcg_cmd_list r; pending_work := pending_work r;
     lo_queue := lo_queue r; lo_disk := lo_disk r |}.

Definition set_rootcg_cmd_list (v : list loop_cmd) (r : loop_device) : loop_device :=
  {| lo_number := lo_number r; lo_refcnt := lo_refcnt r; lo_offset := lo_offset r;
     lo_sizelimit := lo_sizelimit r; lo_flags := lo_flags r;
     lo_file_name := lo_file_name r; lo_crypt_name := lo_crypt_name r;
     lo_encrypt_key := lo_encrypt_key r; lo_encrypt_key_size := lo_encrypt_key_size r;
     lo_encryption := lo_encryption r; lo_init := lo_init r;
     lo_key_owner := lo_key_owner r; transfer := transfer r; ioctl := ioctl r;
     lo_backing_file := lo_backing_file r;
     lo_backing_virt_file := lo_backing_virt_file r; lo_device := lo_device r;
     old_gfp_mask := old_gfp_mask r; lo_state := lo_state r; use_dio := use_dio r;
     sysfs_inited := sysfs_inited r; workqueue := workqueue r;
     worker_tree := worker_tree r; idle_worker_list := idle_worker_list r;
     rootcg_cmd_list := v; pending_work := pending_work r; lo_queue := lo_queue r;
     lo_disk := lo_disk r |}.

Definition set_pending_work (v : list Z) (r : loop_device) : loop_device :=
  {| lo_number := lo_number r; lo_refcnt := lo_refcnt r; lo_offset := lo_offset r;
     lo_sizelimit := lo_sizelimit r; lo_flags := lo_flags r;
     lo_file_name := lo_file_name r; lo_crypt_name := lo_crypt_name r;
     lo_encrypt_key := lo_encrypt_key r; lo_encrypt_key_size := lo_encrypt_key_size r;
     lo_encryption := lo_encryption r; lo_init := lo_init r;
     lo_key_owner := lo_key_owner r; transfer := transfer r; ioctl := ioctl r;
     lo_backing_file := lo_backing_file r;
     lo_backing_virt_file := lo_backing_virt_file r; lo_device := lo_device r;
     old_gfp_mask := old_gfp_mask r; lo_state := lo_state r; use_dio := use_dio r;
     sysfs_inited := sysfs_inited r; workqueue := workqueue r;
     worker_tree := worker_tree r; idle_worker_list := idle_worker_list r;
     rootcg_cmd_list := rootcg_cmd_list r; pending_work := v; lo_queue := lo_queue r;
     lo_disk := lo_disk r |}.

Definition set_lo_queue (v : request_queue) (r : loop_device) : loop_device :=
  {| lo_number := lo_number r; lo_refcnt := lo_refcnt r; lo_offset := lo_offset r;
     lo_sizelimit := lo_sizelimit r; lo_flags := lo_flags r;
     lo_file_name := lo_file_name r; lo_crypt_name := lo_crypt_name r;
     lo_encrypt_key := lo_encrypt_key r; lo_encrypt_key_size := lo_encrypt_key_size r;
     lo_encryption := lo_encryption r; lo_init := lo_init r;
     lo_key_owner := lo_key_owner r; transfer := transfer r; ioctl := ioctl r;
     lo_backing_file := lo_backing_file r;
     lo_backing_virt_file := lo_backing_virt_file r; lo_device := lo_device r;
     old_gfp_mask := old_gfp_mask r; lo_state := lo_state r; use_dio := use_dio r;
     sysfs_inited := sysfs_inited r; workqueue := workqueue r;
     worker_tree := worker_tree r; idle_worker_list := idle_worker_list r;
     rootcg_cmd_list := rootcg_cmd_list r; pending_work := pending_work r;
     lo_queue := v; lo_disk := lo_disk r |}.

Definition set_lo_disk (v : gendisk) (r : loop_device) : loop_device :=
  {| lo_number := lo_number r; lo_refcnt := lo_refcnt r; lo_offset := lo_offset r;
     lo_sizelimit := lo_sizelimit r; lo_flags := lo_flags r;
     lo_file_name := lo_file_name r; lo_crypt_name := lo_crypt_name r;
     lo_encrypt_key := lo_encrypt_key r; lo_encrypt_key_size := lo_encrypt_key_size r;
     lo_encryption := lo_encryption r; lo_init := lo_init r;
     lo_key_owner := lo_key_owner r; transfer := transfer r; ioctl := ioctl r;
     lo_backing_file := lo_backing_file r;
     lo_backing_virt_file := lo_backing_virt_file r; lo_device := lo_device r;
     old_gfp_mask := old_gfp_mask r; lo_state := lo_state r; use_dio := use_dio r;
     sysfs_inited := sysfs_inited r; workqueue := workqueue r;
     worker_tree := worker_tree r; idle_worker_list := idle_worker_list r;
     rootcg_cmd_list := rootcg_cmd_list r; pending_work := pending_work r;
     lo_queue := lo_queue r; lo_disk := v |}.

(** ** The transfer table *)

(** [xor_init]; [info->lo_encrypt_key_size] is a [__u32]. *)
Definition xor_init (info : loop_info64) : Z :=
  if wrap_u32 (info_lo_encrypt_key_size info) <=? 0 then - EINVAL else 0.

Definition none_funcs : loop_func_table :=
  {| number := LO_CRYPT_NONE; xfer_transfer := None; xfer_init := None;
     xfer_release := None; xfer_ioctl := false; owner_live := true |}.

Definition xor_funcs : loop_func_table :=
  {| number := LO_CRYPT_XOR; xfer_transfer := Some transfer_xor;
     xfer_init := Some xor_init; xfer_release := None; xfer_ioctl := false;
     owner_live := true |}.

(** [xfer_funcs[MAX_LO_CRYPT]] as the initialiser leaves it. *)
Definition xfer_funcs_init : list (option loop_func_table) :=
  [Some none_funcs; Some xor_funcs] ++ replicate (Z.to_nat (MAX_LO_CRYPT - 2)) None.

(** [xfer_funcs[n]]: the pointer stored in slot [n]. *)
Definition xfer_slot (xfer_funcs : list (option loop_func_table)) (n : Z)
    : option loop_func_table :=
  default None (xfer_funcs !! Z.to_nat n).

Definition loop_register_transfer (xfer_funcs : list (option loop_func_table))
    (funcs : loop_func_table) : Z * list (option loop_func_table) :=
  let n := wrap_u32 (number funcs) in
  if (n >=? MAX_LO_CRYPT) || bool_decide (is_Some (xfer_slot xfer_funcs n)) then
    (- EINVAL, xfer_funcs)
  else (0, <[Z.to_nat n := Some funcs]> xfer_funcs).

Definition loop_unregister_transfer (xfer_funcs : list (option loop_func_table))
    (number : Z) : Z * list (option loop_func_table) :=
  let n := wrap_u32 number in
  if (n =? 0) || (n >=? MAX_LO_CRYPT)
     || negb (bool_decide (is_Some (xfer_slot xfer_funcs n))) then
    (- EINVAL, xfer_funcs)
  else (0, <[Z.to_nat n := None]> xfer_funcs).

(** ** Selecting a transfer *)

Definition loop_release_xfer (lo : loop_device) : Z * loop_device :=
  match lo_encryption lo with
  | Some xfer =>
      let err := match xfer_release xfer with Some r => r | None => 0 end in
      (err, set_lo_encryption None (set_transfer None lo))
  | None => (0, lo)
  end.

Definition loop_init_xfer (lo : loop_device) (xfer : option loop_func_table)
    (i : loop_info64) : Z * loop_device :=
  match xfer with
  | Some x =>
      if negb (owner_live x) then (- EINVAL, lo)
      else
        let err := match xfer_init x with Some init => init i | None => 0 end in
        if negb (err =? 0) then (err, lo)
        else (err, set_lo_encryption (Some x) lo)
  | None => (0, lo)
  end.

(** The assignments of [loop_set_status_from_info] that follow its last
    check; [xfer] is the table entry selected, if any. *)
Definition loop_set_status_assign (lo : loop_device) (info : loop_info64)
    (xfer : option loop_func_table) (uid : Z) : loop_device :=
  let lo := set_lo_offset (info_lo_offset info) lo in
  let lo := set_lo_sizelimit (info_lo_sizelimit info) lo in
  let lo := set_lo_file_name
              (<[Z.to_nat (LO_NAME_SIZE - 1) := 0]>
                 (memcpy (lo_file_name lo) (info_lo_file_name info) LO_NAME_SIZE))
              lo in
  let lo := set_lo_crypt_name
              (<[Z.to_nat (LO_NAME_SIZE - 1) := 0]>
                 (memcpy (lo_crypt_name lo) (info_lo_crypt_name info) LO_NAME_SIZE))
              lo in
  let xfer := match xfer with Some x => x | None => none_funcs end in
  let lo := set_transfer (xfer_transfer xfer) lo in
  let lo := set_ioctl (xfer_ioctl xfer) lo in
  let lo := set_lo_flags (info_lo_flags info) lo in
  let lo := set_lo_encrypt_key_size (info_lo_encrypt_key_size info) lo in
  let lo := set_lo_init (wrap_u32 (info_lo_init info).1, wrap_u32 (info_lo_init info).2) lo in
  if negb (info_lo_encrypt_key_size info =? 0) then
    set_lo_key_owner uid
      (set_lo_encrypt_key
         (memcpy (lo_encrypt_key lo) (info_lo_encrypt_key info)
            (info_lo_encrypt_key_size info)) lo)
  else lo.

(** [loop_set_status_from_info]; [uid] is [current_uid()]. *)
Definition loop_set_status_from_info (xfer_funcs : list (option loop_func_table))
    (lo : loop_device) (info : loop_info64) (uid : Z) : Z * loop_device :=
  if wrap_u32 (info_lo_encrypt_key_size info) >? LO_KEY_SIZE then (- EINVAL, lo)
  else
    let '(err, lo) := loop_release_xfer lo in
    if negb (err =? 0) then (err, lo)
    else
      let type := wrap_u32 (info_lo_encrypt_type info) in
      if negb (info_lo_encrypt_type info =? 0) && (type >=? MAX_LO_CRYPT) then
        (- EINVAL, lo)
      else if negb (info_lo_encrypt_type info =? 0)
              && negb (bool_decide (is_Some (xfer_slot xfer_funcs type))) then
        (- EINVAL, lo)
      else
        let xfer :=
          if negb (info_lo_encrypt_type info =? 0) then xfer_slot xfer_funcs type
          else None in
        let '(err, lo) := loop_init_xfer lo xfer info in
        if negb (err =? 0) then (err, lo)
        else if (info_lo_offset info >? LLONG_MAX)
                || (info_lo_sizelimit info >? LLONG_MAX) then (- EOVERFLOW, lo)
        else (0, loop_set_status_assign lo info xfer uid).

(** ** Queue limits derived from the backing file *)

(** [loop_config_discard].  It runs with a backing file attached; without
    one the C code would dereference a null pointer, the model leaves the
    device alone. *)
Definition loop_config_discard (lo : loop_device) : loop_device :=
  match lo_backing_file lo with
  | None => lo
  | Some file =>
      let q := lo_queue lo in
      let '(max_discard, granularity) :=
        if i_isblk file && (lo_encrypt_key_size lo =? 0) then
          (bq_max_write_zeroes_sectors file,
           if negb (bq_discard_granularity file =? 0) then bq_discard_granularity file
           else bq_physical_block_size file)
        else if negb (bool_decide (is_Some (f_op_fallocate file)))
                || negb (lo_encrypt_key_size lo =? 0) then (0, 0)
        else if statfs_err file =? 0 then
          (Z.shiftr UINT_MAX 9, wrap_u32 (statfs_bsize file))
        else (0, 0) in
      let q :=
        if negb (max_discard =? 0) then
          set_queue_flag_discard true
            (set_max_write_zeroes_sectors max_discard
               (set_max_discard_sectors max_discard
                  (set_discard_granularity granularity q)))
        else
          set_queue_flag_discard false
            (set_max_write_zeroes_sectors 0
               (set_max_discard_sectors 0 (set_discard_granularity 0 q))) in
      set_lo_queue (set_discard_alignment 0 q) lo
  end.

Definition loop_update_rotational (lo : loop_device) : loop_device :=
  match lo_backing_file lo with
  | None => lo
  | Some file =>
      let nonrot :=
        match s_bdev_lbs file with Some _ => s_bdev_nonrot file | None => true end in
      set_lo_queue (set_queue_flag_nonrot nonrot (lo_queue lo)) lo
  end.

(** [__loop_update_dio(lo, dio)]; [sb_bsize] is an [unsigned short] and
    [dio_align] an [unsigned]. *)
Definition __loop_update_dio (lo : loop_device) (dio : bool) : loop_device :=
  match lo_backing_file lo with
  | None => lo
  | Some file =>
      let '(sb_bsize, dio_align) :=
        match s_bdev_lbs file with
        | Some b => (wrap_u 16 b, wrap_u32 (wrap_u 16 b - 1))
        | None => (0, 0)
        end in
      let new_dio :=
        if dio then
          (logical_block_size (lo_queue lo) >=? sb_bsize)
          && (Z.land (lo_offset lo) dio_align =? 0)
          && a_ops_direct_IO file
          && negb (bool_decide (is_Some (transfer lo)))
        else false in
      if Bool.eqb (use_dio lo) new_dio then lo
      else
        let lo := set_use_dio new_dio lo in
        if new_dio then
          set_lo_flags (Z.lor (lo_flags lo) LO_FLAGS_DIRECT_IO)
            (set_lo_queue (set_queue_flag_nomerges false (lo_queue lo)) lo)
        else
          set_lo_flags (Z.land (lo_flags lo) (not32 LO_FLAGS_DIRECT_IO))
            (set_lo_queue (set_queue_flag_nomerges true (lo_queue lo)) lo)
  end.

Definition loop_update_dio (lo : loop_device) : loop_device :=
  __loop_update_dio lo
    (match lo_backing_file lo with Some f => f_o_direct f | None => false end
     || use_dio lo).

(** [loop_set_size]: [set_capacity_and_notify] stores the new capacity. *)
Definition loop_set_size (lo : loop_device) (size : Z) : loop_device :=
  set_lo_disk (set_capacity size (lo_disk lo)) lo.

Definition get_loop_size (lo : loop_device) (file : file) : Z :=
  get_size (lo_offset lo) (lo_sizelimit lo) (i_size file).

(** The three calls [blk_queue_logical_block_size], [blk_queue_physical_block_size]
    and [blk_queue_io_min] with the same size. *)
Definition blk_queue_block_sizes (q : request_queue) (bsize : Z) : request_queue :=
  set_io_min bsize (set_physical_block_size bsize (set_logical_block_size bsize q)).

(** ** The worker tree *)

(** The lookup loop of [loop_queue_work]: a node whose handle is smaller
    than the one looked for sends the search to [rb_left]. *)
Fixpoint rb_search (t : rb_tree) (css : Z) : option loop_worker :=
  match t with
  | rb_nil => None
  | rb_node l w r =>
      if w_blkcg_css w =? css then Some w
      else if w_blkcg_css w <? css then rb_search l css
      else rb_search r css
  end.

(** [rb_link_node(&worker->rb_node, parent, node)] at the null link where
    the lookup for the worker's handle stopped.  [rb_insert_color] then
    recolours and rotates (lib/rbtree.c); rotations are not represented. *)
Fixpoint rb_link_node (t : rb_tree) (worker : loop_worker) : rb_tree :=
  match t with
  | rb_nil => rb_node rb_nil worker rb_nil
  | rb_node l w r =>
      if w_blkcg_css w =? w_blkcg_css worker then t
      else if w_blkcg_css w <? w_blkcg_css worker then
        rb_node (rb_link_node l worker) w r
      else rb_node l w (rb_link_node r worker)
  end.

(** A store through the [worker] pointer the lookup returned. *)
Fixpoint rb_update (t : rb_tree) (css : Z) (f : loop_worker -> loop_worker) : rb_tree :=
  match t with
  | rb_nil => rb_nil
  | rb_node l w r =>
      if w_blkcg_css w =? css then rb_node l (f w) r
      else if w_blkcg_css w <? css then rb_node (rb_update l css f) w r
      else rb_node l w (rb_update r css f)
  end.

Fixpoint rb_join (l r : rb_tree) : rb_tree :=
  match l with
  | rb_nil => r
  | rb_node ll w lr => rb_node ll w (rb_join lr r)
  end.

(** [rb_erase] of the nodes whose worker is on the list [idle]. *)
Fixpoint rb_erase_all (idle : list Z) (t : rb_tree) : rb_tree :=
  match t with
  | rb_nil => rb_nil
  | rb_node l w r =>
      let l' := rb_erase_all idle l in
      let r' := rb_erase_all idle r in
      if existsb (Z.eqb (w_blkcg_css w)) idle then rb_join l' r'
      else rb_node l' w r'
  end.

(** ** loop_configure *)

Definition FMODE_WRITE : Z := 2.
Definition FMODE_EXCL : Z := 128.

Record loop_config := Build_loop_config {
  fd : Z;
  block_size : Z;
  info : loop_info64
}.

(** What the rest of the kernel answers during one [loop_configure] or
    [loop_set_status] call. *)
Record configure_env := Build_configure_env {
  fget_file : option file;            (* fget(config->fd) *)
  real_file : option file;            (* loop_real_file(file) *)
  claim_err : Z;                      (* bd_prepare_to_claim(bdev, ...) *)
  lock_err : Z;                       (* the killable lock *)
  validate_err : Z;                   (* loop_validate_file(file, bdev) *)
  block_size_err : Z -> Z;            (* blk_validate_block_size *)
  workqueue_ok : bool;                (* alloc_workqueue(...) != NULL *)
  sysfs_ok : bool;                    (* !sysfs_create_group(...) *)
  current_uid : Z;
  capable_admin : bool;               (* capable(CAP_SYS_ADMIN) *)
  nrpages : Z                         (* bd_inode->i_mapping->nrpages *)
}.

(** The part of [loop_configure] after [alloc_workqueue] succeeded. *)
Definition loop_configure_commit (part_shift : Z) (env : configure_env)
    (lo : loop_device) (bdev : Z) (config : loop_config)
    (virt_file : option file) (file : file) : loop_device :=
  let lo := set_lo_disk
              (set_disk_ro (flag_set (lo_flags lo) LO_FLAGS_READ_ONLY) (lo_disk lo)) lo in
  let lo := set_pending_work [] (set_rootcg_cmd_list [] lo) in
  let lo := set_idle_worker_list [] lo in
  let lo := set_worker_tree rb_nil lo in
  let lo := set_use_dio (flag_set (lo_flags lo) LO_FLAGS_DIRECT_IO) lo in
  let lo := set_lo_device (Some bdev) lo in
  let lo := set_lo_backing_file (Some file) lo in
  let lo := set_lo_backing_virt_file virt_file lo in
  let lo := set_old_gfp_mask (f_gfp_mask file) lo in
  let lo :=
    if negb (flag_set (lo_flags lo) LO_FLAGS_READ_ONLY) && f_op_fsync file then
      set_lo_queue (set_queue_flag_wc true (lo_queue lo)) lo
    else lo in
  let bsize :=
    if negb (block_size config =? 0) then wrap_u 16 (block_size config)
    else if f_o_direct file && bool_decide (is_Some (s_bdev_lbs file)) then
      wrap_u 16 (default 0 (s_bdev_lbs file))
    else 512 in
  let lo := set_lo_queue (blk_queue_block_sizes (lo_queue lo) bsize) lo in
  let lo := loop_config_discard lo in
  let lo := loop_update_rotational lo in
  let lo := loop_update_dio lo in
  let lo := set_sysfs_inited (sysfs_ok env) lo in
  let size := get_loop_size lo file in
  let lo := loop_set_size lo size in
  let lo := set_lo_state Lo_bound lo in
  let lo :=
    if negb (part_shift =? 0) then
      set_lo_flags (Z.lor (lo_flags lo) LO_FLAGS_PARTSCAN) lo
    else lo in
  if flag_set (lo_flags lo) LO_FLAGS_PARTSCAN then
    set_lo_disk (set_gd_suppress_part_scan false (lo_disk lo)) lo
  else lo.

(** [loop_configure(lo, mode, bdev, config)].  The whole body from the
    state check to the return runs under [lo->lo_mutex]; the device returned
    is the one visible when the mutex is released. *)
Definition loop_configure (xfer_funcs : list (option loop_func_table))
    (part_shift : Z) (env : configure_env) (lo : loop_device) (mode : Z)
    (bdev : Z) (config : loop_config) : Z * loop_device :=
  match fget_file env with
  | None => (- EBADF, lo)
  | Some file0 =>
      let '(file, virt_file) :=
        match real_file env with
        | Some f => (f, Some file0)
        | None => (file0, None)
        end in
      if negb (flag_set mode FMODE_EXCL) && negb (claim_err env =? 0) then
        (claim_err env, lo)
      else if negb (lock_err env =? 0) then (lock_err env, lo)
      else if negb (lo_state_eqb (lo_state lo) Lo_unbound) then (- EBUSY, lo)
      else if negb (validate_err env =? 0) then (validate_err env, lo)
      else if negb (Z.land (info_lo_flags (info config))
                      (not32 LOOP_CONFIGURE_SETTABLE_FLAGS) =? 0) then (- EINVAL, lo)
      else if negb (block_size config =? 0)
              && negb (block_size_err env (block_size config) =? 0) then
        (block_size_err env (block_size config), lo)
      else
        let '(error, lo) :=
          loop_set_status_from_info xfer_funcs lo (info config) (current_uid env) in
        if negb (error =? 0) then (error, lo)
        else
          let lo :=
            if negb (f_mode_write file) || negb (flag_set mode FMODE_WRITE)
               || negb (f_op_write_iter file) then
              set_lo_flags (Z.lor (lo_flags lo) LO_FLAGS_READ_ONLY) lo
            else lo in
          let lo := set_workqueue (workqueue_ok env) lo in
          if negb (workqueue lo) then (- ENOMEM, lo)
          else (0, loop_configure_commit part_shift env lo bdev config virt_file file)
  end.

(** ** Tearing a binding down *)

(** [__loop_clr_fd], first locked region (from [mutex_lock(&lo->lo_mutex)]
    to the [mutex_unlock] at [out_unlock]).  Returns [err], [partscan],
    [filp] and the device as the unlock leaves it. *)
Definition __loop_clr_fd_locked1 (lo : loop_device)
    : Z * bool * option file * loop_device :=
  let bdev := lo_device lo in
  if negb (lo_state_eqb (lo_state lo) Lo_rundown) then (- ENXIO, false, None, lo)
  else
    match lo_backing_file lo with
    | None => (- EINVAL, false, None, lo)
    | Some filp =>
        let lo :=
          if queue_flag_wc (lo_queue lo) then
            set_lo_queue (set_queue_flag_wc false (lo_queue lo)) lo
          else lo in
        let lo := set_worker_tree (rb_erase_all (idle_worker_list lo) (worker_tree lo)) lo in
        let lo := set_idle_worker_list [] lo in
        let lo := set_lo_backing_file None lo in
        let lo := set_lo_backing_virt_file None lo in
        let lo := (loop_release_xfer lo).2 in
        let lo := set_transfer None lo in
        let lo := set_ioctl false lo in
        let lo := set_lo_device None lo in
        let lo := set_lo_encryption None lo in
        let lo := set_lo_offset 0 lo in
        let lo := set_lo_sizelimit 0 lo in
        let lo := set_lo_encrypt_key_size 0 lo in
        let lo := set_lo_encrypt_key (memset0 (lo_encrypt_key lo) LO_KEY_SIZE) lo in
        let lo := set_lo_crypt_name (memset0 (lo_crypt_name lo) LO_NAME_SIZE) lo in
        let lo := set_lo_file_name (memset0 (lo_file_name lo) LO_NAME_SIZE) lo in
        let lo := set_lo_queue (blk_queue_block_sizes (lo_queue lo) 512) lo in
        let lo := set_lo_disk (set_capacity 0 (lo_disk lo)) lo in
        let partscan :=
          flag_set (lo_flags lo) LO_FLAGS_PARTSCAN && bool_decide (is_Some bdev) in
        (0, partscan, Some filp, lo)
    end.

(** [__loop_clr_fd], second locked region. *)
Definition __loop_clr_fd_locked2 (part_shift : Z) (lo : loop_device) : loop_device :=
  let lo := set_lo_flags 0 lo in
  let lo :=
    if part_shift =? 0 then
      set_lo_disk (set_gd_suppress_part_scan true (lo_disk lo)) lo
    else lo in
  set_lo_state Lo_unbound lo.

(** [__loop_clr_fd(lo, release)]: the status, the device at each
    [mutex_unlock(&lo->lo_mutex)] in order, and the device on return.
    [release] only selects who takes [open_mutex] around the partition
    rescan, whose own status is dropped. *)
Definition __loop_clr_fd (part_shift : Z) (lo : loop_device) (release : bool)
    : Z * list loop_device * loop_device :=
  let '(err, partscan, filp, lo1) := __loop_clr_fd_locked1 lo in
  let err := if partscan then 0 else err in
  let lo2 := __loop_clr_fd_locked2 part_shift lo1 in
  (err, [lo1; lo2], lo2).

(** [loop_clr_fd(lo)]; [lock] is what [mutex_lock_killable] returns. *)
Definition loop_clr_fd (part_shift : Z) (lock : Z) (lo : loop_device)
    : Z * list loop_device * loop_device :=
  if negb (lock =? 0) then (lock, [], lo)
  else if negb (lo_state_eqb (lo_state lo) Lo_bound) then (- ENXIO, [lo], lo)
  else if lo_refcnt lo >? 1 then
    let lo := set_lo_flags (Z.lor (lo_flags lo) LO_FLAGS_AUTOCLEAR) lo in
    (0, [lo], lo)
  else
    let lo := set_lo_state Lo_rundown lo in
    let '(err, unlocks, lo') := __loop_clr_fd part_shift lo false in
    (err, lo :: unlocks, lo').

(** [lo_release(disk, mode)]: the devices at each [mutex_unlock] and the
    device on return. *)
Definition lo_release (part_shift : Z) (lo : loop_device)
    : list loop_device * loop_device :=
  let lo := set_lo_refcnt (lo_refcnt lo - 1) lo in
  if negb (lo_refcnt lo =? 0) then ([lo], lo)
  else if flag_set (lo_flags lo) LO_FLAGS_AUTOCLEAR then
    if negb (lo_state_eqb (lo_state lo) Lo_bound) then ([lo], lo)
    else
      let lo := set_lo_state Lo_rundown lo in
      let '(_, unlocks, lo') := __loop_clr_fd part_shift lo true in
      (lo :: unlocks, lo')
  else ([lo], lo).

(** ** Discard and zero-range requests *)

(** [lo_fallocate(lo, rq, pos, mode)], with [blk_rq_bytes(rq)] passed for
    [rq].  A bound device has a backing file; were the pointer or the
    method null the C code would fault, the model answers [-EIO]. *)
Definition lo_fallocate (lo : loop_device) (rq_bytes : Z) (pos : Z) (mode : Z) : Z :=
  let mode := Z.lor mode FALLOC_FL_KEEP_SIZE in
  if negb (queue_flag_discard (lo_queue lo)) then - EOPNOTSUPP
  else
    match lo_backing_file lo with
    | Some file =>
        match f_op_fallocate file with
        | Some fallocate =>
            let ret := fallocate mode pos rq_bytes in
            if negb (ret =? 0) && negb (ret =? - EINVAL) && negb (ret =? - EOPNOTSUPP)
            then - EIO else ret
        | None => - EIO
        end
    | None => - EIO
    end.

(** ** loop_set_status *)

Definition loop_set_status (xfer_funcs : list (option loop_func_table))
    (env : configure_env) (lo : loop_device) (info : loop_info64) : Z * loop_device :=
  if negb (lock_err env =? 0) then (lock_err env, lo)
  else if negb (lo_encrypt_key_size lo =? 0)
          && negb (lo_key_owner lo =? current_uid env)
          && negb (capable_admin env) then (- EPERM, lo)
  else if negb (lo_state_eqb (lo_state lo) Lo_bound) then (- ENXIO, lo)
  else
    let size_changed :=
      negb (lo_offset lo =? info_lo_offset info)
      || negb (lo_sizelimit lo =? info_lo_sizelimit info) in
    if size_changed && negb (nrpages env =? 0) then (- EAGAIN, lo)
    else
      let prev_lo_flags := lo_flags lo in
      let '(err, lo) :=
        loop_set_status_from_info xfer_funcs lo info (current_uid env) in
      if negb (err =? 0) then (err, lo)
      else
        let lo := set_lo_flags (Z.land (lo_flags lo) LOOP_SET_STATUS_SETTABLE_FLAGS) lo in
        let lo := set_lo_flags
                    (Z.lor (lo_flags lo)
                       (Z.land prev_lo_flags (not32 LOOP_SET_STATUS_SETTABLE_FLAGS))) lo in
        let lo := set_lo_flags
                    (Z.lor (lo_flags lo)
                       (Z.land prev_lo_flags (not32 LOOP_SET_STATUS_CLEARABLE_FLAGS))) lo in
        let lo :=
          if size_changed then
            loop_set_size lo
              (get_size (lo_offset lo) (lo_sizelimit lo)
                 (match lo_backing_file lo with Some f => i_size f | None => 0 end))
          else lo in
        let lo := loop_config_discard lo in
        let lo := __loop_update_dio lo (use_dio lo) in
        let lo :=
          if flag_set (lo_flags lo) LO_FLAGS_PARTSCAN
             && negb (flag_set prev_lo_flags LO_FLAGS_PARTSCAN) then
            set_lo_disk (set_gd_suppress_part_scan false (lo_disk lo)) lo
          else lo in
        (0, lo).

(** ** The legacy status structures *)

(** Widths that depend on the architecture the kernel is built for:
    [unsigned long], [__kernel_old_dev_t] and [compat_dev_t]. *)
Record abi := Build_abi {
  long_bits : Z;
  old_dev_bits : Z;
  compat_dev_bits : Z
}.

(** [struct loop_info]; a field [f] is [old_f] here.  [int] fields are
    32-bit two's complement, [lo_device] and [lo_rdevice] are
    [__kernel_old_dev_t], [lo_inode] and [lo_init] are [unsigned long]. *)
Record loop_info := Build_loop_info {
  old_lo_number : Z;
  old_lo_device : Z;
  old_lo_inode : Z;
  old_lo_rdevice : Z;
  old_lo_offset : Z;
  old_lo_encrypt_type : Z;
  old_lo_encrypt_key_size : Z;
  old_lo_flags : Z;
  old_lo_name : list Z;
  old_lo_encrypt_key : list Z;
  old_lo_init : Z * Z
}.

(** [struct compat_loop_info]; a field [f] is [compat_f] here. *)
Record compat_loop_info := Build_compat_loop_info {
  compat_lo_number : Z;               (* compat_int_t *)
  compat_lo_device : Z;               (* compat_dev_t *)
  compat_lo_inode : Z;                (* compat_ulong_t *)
  compat_lo_rdevice : Z;              (* compat_dev_t *)
  compat_lo_offset : Z;               (* compat_int_t *)
  compat_lo_encrypt_type : Z;
  compat_lo_encrypt_key_size : Z;
  compat_lo_flags : Z;
  compat_lo_name : list Z;
  compat_lo_encrypt_key : list Z;
  compat_lo_init : Z * Z              (* compat_ulong_t[2] *)
}.

(** A zeroed array of [n] chars, as [memset] with 0 leaves it. *)
Definition zeros (n : Z) : list Z := replicate (Z.to_nat n) 0.

(** The value an operand has once converted to [__u64] for a comparison
    or an assignment. *)
Definition to_u64 : Z -> Z := wrap_u 64.

Definition loop_info64_from_old (info : loop_info) : loop_info64 :=
  {| info_lo_number := wrap_u32 (old_lo_number info);
     info_lo_device := to_u64 (old_lo_device info);
     info_lo_inode := to_u64 (old_lo_inode info);
     info_lo_rdevice := to_u64 (old_lo_rdevice info);
     info_lo_offset := to_u64 (old_lo_offset info);
     info_lo_sizelimit := 0;
     info_lo_encrypt_type := wrap_u32 (old_lo_encrypt_type info);
     info_lo_encrypt_key_size := wrap_u32 (old_lo_encrypt_key_size info);
     info_lo_flags := wrap_u32 (old_lo_flags info);
     info_lo_init := (to_u64 (old_lo_init info).1, to_u64 (old_lo_init info).2);
     info_lo_crypt_name :=
       if old_lo_encrypt_type info =? LO_CRYPT_CRYPTOAPI
       then memcpy (zeros LO_NAME_SIZE) (old_lo_name info) LO_NAME_SIZE
       else zeros LO_NAME_SIZE;
     info_lo_file_name :=
       if old_lo_encrypt_type info =? LO_CRYPT_CRYPTOAPI
       then zeros LO_NAME_SIZE
       else memcpy (zeros LO_NAME_SIZE) (old_lo_name info) LO_NAME_SIZE;
     info_lo_encrypt_key :=
       memcpy (zeros LO_KEY_SIZE) (old_lo_encrypt_key info) LO_KEY_SIZE |}.

Definition loop_info64_to_old (a : abi) (info64 : loop_info64) : Z * loop_info :=
  let encrypt_type := wrap_s32 (info_lo_encrypt_type info64) in
  let info :=
    {| old_lo_number := wrap_s32 (info_lo_number info64);
       old_lo_device := wrap_u (old_dev_bits a) (info_lo_device info64);
       old_lo_inode := wrap_u (long_bits a) (info_lo_inode info64);
       old_lo_rdevice := wrap_u (old_dev_bits a) (info_lo_rdevice info64);
       old_lo_offset := wrap_s32 (info_lo_offset info64);
       old_lo_encrypt_type := encrypt_type;
       old_lo_encrypt_key_size := wrap_s32 (info_lo_encrypt_key_size info64);
       old_lo_flags := wrap_s32 (info_lo_flags info64);
       old_lo_init := (wrap_u (long_bits a) (info_lo_init info64).1,
                       wrap_u (long_bits a) (info_lo_init info64).2);
       old_lo_name :=
         if encrypt_type =? LO_CRYPT_CRYPTOAPI
         then memcpy (zeros LO_NAME_SIZE) (info_lo_crypt_name info64) LO_NAME_SIZE
         else memcpy (zeros LO_NAME_SIZE) (info_lo_file_name info64) LO_NAME_SIZE;
       old_lo_encrypt_key :=
         memcpy (zeros LO_KEY_SIZE) (info_lo_encrypt_key info64) LO_KEY_SIZE |} in
  if negb (to_u64 (old_lo_device info) =? info_lo_device info64)
     || negb (to_u64 (old_lo_rdevice info) =? info_lo_rdevice info64)
     || negb (to_u64 (old_lo_inode info) =? info_lo_inode info64)
     || negb (to_u64 (old_lo_offset info) =? info_lo_offset info64)
  then (- EOVERFLOW, info)
  else (0, info).

(** [loop_info64_from_compat], given the structure [copy_from_user] read
    ([None] when the copy faults). *)
Definition loop_info64_from_compat (arg : option compat_loop_info)
    : Z * option loop_info64 :=
  match arg with
  | None => (- EFAULT, None)
  | Some info =>
      (0, Some
        {| info_lo_number := wrap_u32 (compat_lo_number info);
           info_lo_device := to_u64 (compat_lo_device info);
           info_lo_inode := to_u64 (compat_lo_inode info);
           info_lo_rdevice := to_u64 (compat_lo_rdevice info);
           info_lo_offset := to_u64 (compat_lo_offset info);
           info_lo_sizelimit := 0;
           info_lo_encrypt_type := wrap_u32 (compat_lo_encrypt_type info);
           info_lo_encrypt_key_size := wrap_u32 (compat_lo_encrypt_key_size info);
           info_lo_flags := wrap_u32 (compat_lo_flags info);
           info_lo_init := (to_u64 (compat_lo_init info).1,
                            to_u64 (compat_lo_init info).2);
           info_lo_crypt_name :=
             if compat_lo_encrypt_type info =? LO_CRYPT_CRYPTOAPI
             then memcpy (zeros LO_NAME_SIZE) (compat_lo_name info) LO_NAME_SIZE
             else zeros LO_NAME_SIZE;
           info_lo_file_name :=
             if compat_lo_encrypt_type info =? LO_CRYPT_CRYPTOAPI
             then zeros LO_NAME_SIZE
             else memcpy (zeros LO_NAME_SIZE) (compat_lo_name info) LO_NAME_SIZE;
           info_lo_encrypt_key :=
             memcpy (zeros LO_KEY_SIZE) (compat_lo_encrypt_key info) LO_KEY_SIZE |})
  end.

(** [loop_info64_to_compat]; [copy_ok] tells whether [copy_to_user]
    succeeds.  The structure is the one built on the stack. *)
Definition loop_info64_to_compat (a : abi) (copy_ok : bool) (info64 : loop_info64)
    : Z * compat_loop_info :=
  let encrypt_type := wrap_s32 (info_lo_encrypt_type info64) in
  let info :=
    {| compat_lo_number := wrap_s32 (info_lo_number info64);
       compat_lo_device := wrap_u (compat_dev_bits a) (info_lo_device info64);
       compat_lo_inode := wrap_u32 (info_lo_inode info64);
       compat_lo_rdevice := wrap_u (compat_dev_bits a) (info_lo_rdevice info64);
       compat_lo_offset := wrap_s32 (info_lo_offset info64);
       compat_lo_encrypt_type := encrypt_type;
       compat_lo_encrypt_key_size := wrap_s32 (info_lo_encrypt_key_size info64);
       compat_lo_flags := wrap_s32 (info_lo_flags info64);
       compat_lo_init := (wrap_u32 (info_lo_init info64).1,
                          wrap_u32 (info_lo_init info64).2);
       compat_lo_name :=
         if encrypt_type =? LO_CRYPT_CRYPTOAPI
         then memcpy (zeros LO_NAME_SIZE) (info_lo_crypt_name info64) LO_NAME_SIZE
         else memcpy (zeros LO_NAME_SIZE) (info_lo_file_name info64) LO_NAME_SIZE;
       compat_lo_encrypt_key :=
         memcpy (zeros LO_KEY_SIZE) (info_lo_encrypt_key info64) LO_KEY_SIZE |} in
  if negb (to_u64 (compat_lo_device info) =? info_lo_device info64)
     || negb (to_u64 (compat_lo_rdevice info) =? info_lo_rdevice info64)
     || negb (to_u64 (compat_lo_inode info) =? info_lo_inode info64)
     || negb (to_u64 (compat_lo_offset info) =? info_lo_offset info64)
     || negb (to_u64 (compat_lo_init info).1 =? (info_lo_init info64).1)
     || negb (to_u64 (compat_lo_init info).2 =? (info_lo_init info64).2)
  then (- EOVERFLOW, info)
  else if negb copy_ok then (- EFAULT, info)
  else (0, info).

(** ** Buffered and transforming reads *)

(** A segment ([struct bio_vec]) is represented by the [bv_len] bytes it
    designates; a bio by its segments from [bi_iter] on; a request by its
    bios. *)
Definition bio_vec : Type := list Z.
Definition bio : Type := list bio_vec.
Definition request : Type := list bio.

(** Modelled from the spec: [vfs_iter_read] (fs/read_write.c) is not part
    of the sources at hand.  A read of [count] bytes at [pos] from a file
    holding [data] stores the bytes the file has from [pos] on at the start
    of the buffer, fewer than [count] when the file ends first (a short
    read), and advances [pos] by the number stored, which it returns. *)
Definition vfs_iter_read (data : list Z) (buf : list Z) (count : nat) (pos : Z)
    : Z * list Z * Z :=
  if pos <? 0 then (- EINVAL, buf, pos)
  else
    let got := take count (drop (Z.to_nat pos) data) in
    (Z.of_nat (length got), got ++ drop (length got) buf, pos + Z.of_nat (length got)).

(** Modelled from the spec: [zero_fill_bio] (block/bio.c) is not part of
    the sources at hand.  It is handed the bio and nothing else, and clears
    every segment the bio designates. *)
Definition zero_fill_bio (b : bio) : bio :=
  map (fun bv : bio_vec => replicate (length bv) 0) b.

(** How the body of [rq_for_each_segment] was left. *)
Inductive loop_exit :=
| Completed (pos : Z)                 (* every segment was visited *)
| Break                               (* the [break] after a short read *)
| Return (ret : Z).                   (* [return len] or [goto out_free_page] *)

(** The body of the loop of [lo_read_simple] over the segments of one bio. *)
Fixpoint lo_read_simple_segments (data : list Z) (segs : bio) (pos : Z)
    : loop_exit * bio :=
  match segs with
  | [] => (Completed pos, [])
  | bvec :: rest =>
      let '(len, bvec', pos') := vfs_iter_read data bvec (length bvec) pos in
      if len <? 0 then (Return len, bvec' :: rest)
      else if negb (len =? Z.of_nat (length bvec)) then (Break, bvec' :: rest)
      else
        let '(e, rest') := lo_read_simple_segments data rest pos' in
        (e, bvec' :: rest')
  end.

Fixpoint lo_read_simple_bios (data : list Z) (rq : request) (pos : Z)
    : loop_exit * request :=
  match rq with
  | [] => (Completed pos, [])
  | b :: rest =>
      match lo_read_simple_segments data b pos with
      | (Completed pos', b') =>
          let '(e, rest') := lo_read_simple_bios data rest pos' in
          (e, b' :: rest')
      | (e, b') => (e, b' :: rest)
      end
  end.

(** [lo_read_simple(lo, rq, pos)], with the content of [lo->lo_backing_file]
    passed for [lo] and the function called as [zero_fill_bio] made
    explicit.  Returns the status and the request's buffers. *)
Definition lo_read_simple (zero_fill : bio -> bio) (data : list Z) (rq : request)
    (pos : Z) : Z * request :=
  match lo_read_simple_bios data rq pos with
  | (Return len, rq') => (len, rq')
  | (Break, rq') => (0, map zero_fill rq')
  | (Completed _, rq') => (0, rq')
  end.

(** The body of the loop of [lo_read_transfer] over the segments of one
    bio; [page] is the scratch page. *)
Fixpoint lo_read_transfer_segments (transfer : transfer_fn) (key : list Z)
    (keysize : Z) (data : list Z) (page : list Z) (segs : bio) (pos : Z)
    : loop_exit * list Z * bio :=
  match segs with
  | [] => (Completed pos, page, [])
  | bvec :: rest =>
      let offset := pos in
      let '(len, page, pos') := vfs_iter_read data page (length bvec) pos in
      if len <? 0 then (Return len, page, bvec :: rest)
      else
        let '(ret, page, bvec') :=
          transfer key keysize READ page 0 bvec 0 len (Z.shiftr offset 9) in
        if negb (ret =? 0) then (Return ret, page, bvec' :: rest)
        else if negb (len =? Z.of_nat (length bvec)) then (Break, page, bvec' :: rest)
        else
          let '(e, page, rest') :=
            lo_read_transfer_segments transfer key keysize data page rest pos' in
          (e, page, bvec' :: rest')
  end.

Fixpoint lo_read_transfer_bios (transfer : transfer_fn) (key : list Z)
    (keysize : Z) (data : list Z) (page : list Z) (rq : request) (pos : Z)
    : loop_exit * request :=
  match rq with
  | [] => (Completed pos, [])
  | b :: rest =>
      match lo_read_transfer_segments transfer key keysize data page b pos with
      | (Completed pos', page, b') =>
          let '(e, rest') :=
            lo_read_transfer_bios transfer key keysize data page rest pos' in
          (e, b' :: rest')
      | (e, _, b') => (e, b' :: rest)
      end
  end.

(** [lo_read_transfer(lo, rq, pos)]; [page] is what [alloc_page] returns,
    [transfer], [key] and [keysize] are [lo->transfer], [lo->lo_encrypt_key]
    and [lo->lo_encrypt_key_size]. *)
Definition lo_read_transfer (zero_fill : bio -> bio) (transfer : transfer_fn)
    (key : list Z) (keysize : Z) (page : option (list Z)) (data : list Z)
    (rq : request) (pos : Z) : Z * request :=
  match page with
  | None => (- ENOMEM, rq)
  | Some page =>
      match lo_read_transfer_bios transfer key keysize data page rq pos with
      | (Return ret, rq') => (ret, rq')
      | (Break, rq') => (0, map zero_fill rq')
      | (Completed _, rq') => (0, rq')
      end
  end.

(** The bytes of a request's buffers in order. *)
Definition rq_bytes (rq : request) : list Z := concat (concat rq).

(** ** The request router *)

(** [queue_on_root_worker] (CONFIG_BLK_CGROUP); [blkcg_root_css] is the
    address of the root group's handle. *)
Definition queue_on_root_worker (blkcg_root_css : Z) (css : Z) : bool :=
  (css =? 0) || (css =? blkcg_root_css).

(** [queue_work(lo->workqueue, work)]: the item becomes pending unless it
    is already. *)
Definition queue_work (pending : list Z) (work : Z) : list Z :=
  if existsb (Z.eqb work) pending then pending else pending ++ [work].

(** [loop_queue_work(lo, cmd)]; [kzalloc_ok] tells whether the allocation of
    a worker succeeds.  Returns the device and the command as queued. *)
Definition loop_queue_work (blkcg_root_css : Z) (kzalloc_ok : bool)
    (lo : loop_device) (cmd : loop_cmd) : loop_device * loop_cmd :=
  let queue_root (lo : loop_device) (cmd : loop_cmd) :=
    (set_pending_work (queue_work (pending_work lo) 0)
       (set_rootcg_cmd_list (rootcg_cmd_list lo ++ [cmd]) lo), cmd) in
  let queue_worker (lo : loop_device) (cmd : loop_cmd) :=
    let css := blkcg_css cmd in
    let lo := set_idle_worker_list
                (filter (fun k => k ≠ css) (idle_worker_list lo)) lo in
    let lo := set_worker_tree
                (rb_update (worker_tree lo) css
                   (fun w => {| w_blkcg_css := w_blkcg_css w;
                                w_cmd_list := w_cmd_list w ++ [cmd];
                                last_ran_at := last_ran_at w |})) lo in
    (set_pending_work (queue_work (pending_work lo) css) lo, cmd) in
  if queue_on_root_worker blkcg_root_css (blkcg_css cmd) then queue_root lo cmd
  else
    match rb_search (worker_tree lo) (blkcg_css cmd) with
    | Some _ => queue_worker lo cmd
    | None =>
        if negb kzalloc_ok then
          queue_root lo
            {| cmd_rq := cmd_rq cmd; use_aio := use_aio cmd;
               blkcg_css := 0; memcg_css := 0 |}
        else
          let worker :=
            {| w_blkcg_css := blkcg_css cmd; w_cmd_list := []; last_ran_at := 0 |} in
          queue_worker (set_worker_tree (rb_link_node (worker_tree lo) worker) lo) cmd
    end.

(** The queues of a device: the root queue, then the queue of every worker
    in the tree. *)
Fixpoint rb_queues (t : rb_tree) : list (list loop_cmd) :=
  match t with
  | rb_nil => []
  | rb_node l w r => rb_queues l ++ w_cmd_list w :: rb_queues r
  end.

Definition all_queues (lo : loop_device) : list (list loop_cmd) :=
  rootcg_cmd_list lo :: rb_queues (worker_tree lo).

(** The queue of the worker serving group [css], empty when there is none. *)
Definition worker_queue (lo : loop_device) (css : Z) : list loop_cmd :=
  match rb_search (worker_tree lo) css with
  | Some w => w_cmd_list w
  | None => []
  end.

(** ** Predicates used in the statements *)

(** P1 of the design document. *)
Definition P1 (lo : loop_device) : Prop :=
  lo_backing_file lo <> None <-> (lo_state lo = Lo_bound \/ lo_state lo = Lo_rundown).

(** P1 without its claim on a device in rundown: a backing file implies
    Bound or Rundown, and Bound implies a backing file. *)
Definition P1_rundown (lo : loop_device) : Prop :=
  (lo_backing_file lo <> None -> lo_state lo = Lo_bound \/ lo_state lo = Lo_rundown)
  /\ (lo_state lo = Lo_bound -> lo_backing_file lo <> None).

(** The fields [loop_set_status_from_info] never writes. *)
Definition same_binding (lo lo' : loop_device) : Prop :=
  lo_state lo' = lo_state lo /\ lo_backing_file lo' = lo_backing_file lo
  /\ lo_backing_virt_file lo' = lo_backing_virt_file lo
  /\ lo_queue lo' = lo_queue lo /\ lo_disk lo' = lo_disk lo
  /\ lo_refcnt lo' = lo_refcnt lo /\ lo_number lo' = lo_number lo.

(** The fields it writes only once every check has passed. *)
Definition same_settings (lo lo' : loop_device) : Prop :=
  lo_offset lo' = lo_offset lo /\ lo_sizelimit lo' = lo_sizelimit lo
  /\ lo_flags lo' = lo_flags lo /\ lo_file_name lo' = lo_file_name lo
  /\ lo_crypt_name lo' = lo_crypt_name lo
  /\ lo_encrypt_key_size lo' = lo_encrypt_key_size lo
  /\ lo_encrypt_key lo' = lo_encrypt_key lo.

(** The transfer a successful [loop_set_status_from_info] selects for [info]. *)
Definition selected_xfer (xfer_funcs : list (option loop_func_table))
    (info : loop_info64) : option loop_func_table :=
  if info_lo_encrypt_type info =? 0 then None
  else xfer_slot xfer_funcs (wrap_u32 (info_lo_encrypt_type info)).

(** The fields the queue-limit helpers leave alone. *)
Definition same_core (lo lo' : loop_device) : Prop :=
  lo_state lo' = lo_state lo /\ lo_backing_file lo' = lo_backing_file lo
  /\ lo_offset lo' = lo_offset lo /\ lo_sizelimit lo' = lo_sizelimit lo
  /\ lo_encrypt_key_size lo' = lo_encrypt_key_size lo
  /\ transfer lo' = transfer lo /\ lo_encryption lo' = lo_encryption lo
  /\ lo_disk lo' = lo_disk lo /\ lo_refcnt lo' = lo_refcnt lo.

(** The file a configure binds and the file it was reached through. *)
Definition configure_files (env : configure_env) : option (file * option file) :=
  match fget_file env with
  | None => None
  | Some file0 =>
      Some match real_file env with
           | Some f => (f, Some file0)
           | None => (file0, None)
           end
  end.

(** The read-only decision of [loop_configure]. *)
Definition force_read_only (f : file) (mode : Z) (lo : loop_device) : loop_device :=
  if negb (f_mode_write f) || negb (flag_set mode FMODE_WRITE)
     || negb (f_op_write_iter f)
  then set_lo_flags (Z.lor (lo_flags lo) LO_FLAGS_READ_ONLY) lo
  else lo.

(** ** Concrete devices, files and calls for the examples *)

Definition set_i_size (v : Z) (r : file) : file :=
  {| f_ident := f_ident r; f_mode_write := f_mode_write r; f_o_direct := f_o_direct r;
     f_op_write_iter := f_op_write_iter r; f_op_fsync := f_op_fsync r;
     f_op_fallocate := f_op_fallocate r; a_ops_direct_IO := a_ops_direct_IO r;
     f_gfp_mask := f_gfp_mask r; i_size := v; i_isblk := i_isblk r;
     s_bdev_lbs := s_bdev_lbs r; s_bdev_nonrot := s_bdev_nonrot r;
     statfs_err := statfs_err r; statfs_bsize := statfs_bsize r;
     bq_max_write_zeroes_sectors := bq_max_write_zeroes_sectors r;
     bq_discard_granularity := bq_discard_granularity r;
     bq_physical_block_size := bq_physical_block_size r |}.

(** The same answers from the kernel, for a backing file of another size. *)
Definition env_with_i_size (size : Z) (env : configure_env) : configure_env :=
  {| fget_file := set_i_size size <$> fget_file env;
     real_file := set_i_size size <$> real_file env;
     claim_err := claim_err env; lock_err := lock_err env;
     validate_err := validate_err env; block_size_err := block_size_err env;
     workqueue_ok := workqueue_ok env; sysfs_ok := sysfs_ok env;
     current_uid := current_uid env; capable_admin := capable_admin env;
     nrpages := nrpages env |}.

(** A device as [loop_add] leaves it. *)
Definition lo_fresh : loop_device :=
  {| lo_number := 0; lo_refcnt := 0; lo_offset := 0; lo_sizelimit := 0; lo_flags := 0;
     lo_file_name := zeros LO_NAME_SIZE; lo_crypt_name := zeros LO_NAME_SIZE;
     lo_encrypt_key := zeros LO_KEY_SIZE; lo_encrypt_key_size := 0;
     lo_encryption := None; lo_init := (0, 0); lo_key_owner := 0; transfer := None;
     ioctl := false; lo_backing_file := None; lo_backing_virt_file := None;
     lo_device := None; old_gfp_mask := 0; lo_state := Lo_unbound; use_dio := false;
     sysfs_inited := false; workqueue := false; worker_tree := rb_nil;
     idle_worker_list := []; rootcg_cmd_list := []; pending_work := [];
     lo_queue :=
       {| queue_flag_discard := false; queue_flag_nomerges := true;
          queue_flag_wc := false; queue_flag_nonrot := false;
          logical_block_size := 512; physical_block_size := 512; io_min := 512;
          discard_granularity := 0; discard_alignment := 0;
          max_discard_sectors := 0; max_write_zeroes_sectors := 0 |};
     lo_disk := {| capacity := 0; disk_ro := false; gd_suppress_part_scan := true |} |}.

(** A writable regular file of [size] bytes on a filesystem that supports
    hole punching. *)
Definition image_file (size : Z) : file :=
  {| f_ident := 1; f_mode_write := true; f_o_direct := false;
     f_op_write_iter := true; f_op_fsync := true;
     f_op_fallocate := Some (fun _ _ _ => 0); a_ops_direct_IO := true;
     f_gfp_mask := 0; i_size := size; i_isblk := false; s_bdev_lbs := Some 512;
     s_bdev_nonrot := true; statfs_err := 0; statfs_bsize := 4096;
     bq_max_write_zeroes_sectors := 0; bq_discard_granularity := 0;
     bq_physical_block_size := 0 |}.

(** A call during which nothing outside the driver fails. *)
Definition env_ok (f : file) : configure_env :=
  {| fget_file := Some f; real_file := None; claim_err := 0; lock_err := 0;
     validate_err := 0; block_size_err := fun _ => 0; workqueue_ok := true;
     sysfs_ok := true; current_uid := 1000; capable_admin := false; nrpages := 0 |}.

(** The same call when [alloc_workqueue] fails. *)
Definition env_no_workqueue (f : file) : configure_env :=
  {| fget_file := Some f; real_file := None; claim_err := 0; lock_err := 0;
     validate_err := 0; block_size_err := fun _ => 0; workqueue_ok := false;
     sysfs_ok := true; current_uid := 1000; capable_admin := false; nrpages := 0 |}.

Definition info_plain (offset sizelimit : Z) : loop_info64 :=
  {| info_lo_device := 0; info_lo_inode := 0; info_lo_rdevice := 0;
     info_lo_offset := offset; info_lo_sizelimit := sizelimit; info_lo_number := 0;
     info_lo_encrypt_type := 0; info_lo_encrypt_key_size := 0; info_lo_flags := 0;
     info_lo_file_name := zeros LO_NAME_SIZE; info_lo_crypt_name := zeros LO_NAME_SIZE;
     info_lo_encrypt_key := zeros LO_KEY_SIZE; info_lo_init := (0, 0) |}.

(** A status selecting transfer [type] with a key of [keysize] bytes. *)
Definition info_crypt (type keysize : Z) : loop_info64 :=
  {| info_lo_device := 0; info_lo_inode := 0; info_lo_rdevice := 0;
     info_lo_offset := 0; info_lo_sizelimit := 0; info_lo_number := 0;
     info_lo_encrypt_type := type; info_lo_encrypt_key_size := keysize;
     info_lo_flags := 0;
     info_lo_file_name := zeros LO_NAME_SIZE; info_lo_crypt_name := zeros LO_NAME_SIZE;
     info_lo_encrypt_key := replicate (Z.to_nat LO_KEY_SIZE) 90; info_lo_init := (0, 0) |}.

Definition config_of (i : loop_info64) : loop_config :=
  {| fd := 3; block_size := 0; info := i |}.

(** [lo_fresh] bound to a 1 MiB image, opened once. *)
Definition lo_bound : loop_device :=
  set_lo_refcnt 1
    (loop_configure xfer_funcs_init 0 (env_ok (image_file 1048576)) lo_fresh
       FMODE_WRITE 7 (config_of (info_plain 0 0))).2.

(** A transfer that needs no key: every byte is complemented. *)
Definition transfer_not : transfer_fn :=
  fun _ _ cmd raw_page raw_off loop_page loop_off size real_block =>
    transfer_xor [255] 1 cmd raw_page raw_off loop_page loop_off size real_block.

(** A module's table entry for it, in slot 2, with no [init] hook. *)
Definition not_funcs : loop_func_table :=
  {| number := 2; xfer_transfer := Some transfer_not; xfer_init := None;
     xfer_release := None; xfer_ioctl := false; owner_live := true |}.

(** [lo_bound] when the first locked region of its teardown unlocks. *)
Definition lo_mid_teardown : loop_device :=
  (__loop_clr_fd_locked1 (set_lo_state Lo_rundown lo_bound)).2.

(** A configure of [lo_fresh] with offset 4096 and size limit 8192 during
    which [alloc_workqueue] fails. *)
Definition configure_no_workqueue : Z * loop_device :=
  loop_configure xfer_funcs_init 0 (env_no_workqueue (image_file 1048576)) lo_fresh
    FMODE_WRITE 7 (config_of (info_plain 4096 8192)).

(** A configure of [lo_fresh] selecting the XOR transfer with a 4-byte key
    and an offset that does not fit a [loff_t]. *)
Definition configure_xor_overflow : Z * loop_device :=
  loop_configure xfer_funcs_init 0 (env_ok (image_file 1048576)) lo_fresh
    FMODE_WRITE 7
    (config_of
       {| info_lo_device := 0; info_lo_inode := 0; info_lo_rdevice := 0;
          info_lo_offset := 2 ^ 63; info_lo_sizelimit := 0; info_lo_number := 0;
          info_lo_encrypt_type := LO_CRYPT_XOR; info_lo_encrypt_key_size := 4;
          info_lo_flags := 0;
          info_lo_file_name := zeros LO_NAME_SIZE;
          info_lo_crypt_name := zeros LO_NAME_SIZE;
          info_lo_encrypt_key := replicate (Z.to_nat LO_KEY_SIZE) 90;
          info_lo_init := (0, 0) |}).

(** A configure of [lo_fresh] selecting the XOR transfer with an empty key,
    which [xor_init] refuses. *)
Definition configure_xor_no_key : Z * loop_device :=
  loop_configure xfer_funcs_init 0 (env_ok (image_file 1048576)) lo_fresh
    FMODE_WRITE 7 (config_of (info_crypt LO_CRYPT_XOR 0)).

(** [lo_bound] held open by two users. *)
Definition lo_bound_busy : loop_device := set_lo_refcnt 2 lo_bound.



(** A configure of [lo_fresh] selecting the XOR transfer with a 4-byte key. *)
Definition configure_xor : Z * loop_device :=
  loop_configure xfer_funcs_init 0 (env_ok (image_file 1048576)) lo_fresh
    FMODE_WRITE 7 (config_of (info_crypt LO_CRYPT_XOR 4)).

(** A [struct loop_info64] whose integer fields hold values of their types. *)
Definition wf_info64 (x : loop_info64) : Prop :=
  0 <= info_lo_device x < 2 ^ 64 /\ 0 <= info_lo_inode x < 2 ^ 64
  /\ 0 <= info_lo_rdevice x < 2 ^ 64 /\ 0 <= info_lo_offset x < 2 ^ 64
  /\ 0 <= info_lo_sizelimit x < 2 ^ 64
  /\ 0 <= info_lo_number x < 2 ^ 32 /\ 0 <= info_lo_encrypt_type x < 2 ^ 32
  /\ 0 <= info_lo_encrypt_key_size x < 2 ^ 32 /\ 0 <= info_lo_flags x < 2 ^ 32
  /\ 0 <= (info_lo_init x).1 < 2 ^ 64 /\ 0 <= (info_lo_init x).2 < 2 ^ 64.





Definition abi_lp64 : abi := {| long_bits := 64; old_dev_bits := 64; compat_dev_bits := 16 |}.
Definition abi_ilp32 : abi := {| long_bits := 32; old_dev_bits := 16; compat_dev_bits := 16 |}.

(** A backing file of 100 bytes holding 1, 2, ..., 100. *)
Definition file_100 : list Z := map Z.of_nat (seq 1 100).

(** A read request of one 512-byte segment whose buffer holds 255s. *)
Definition rq_512 : request := [[replicate 512 255]].

(** A device routing for group 7 already and for no other. *)
Definition lo_routing : loop_device :=
  set_worker_tree
    (rb_node rb_nil {| w_blkcg_css := 7; w_cmd_list := []; last_ran_at := 0 |} rb_nil)
    lo_bound.

(* ================================================================== *)
(** * The ioctl interface *)
(* ================================================================== *)

(** ** Opening the device *)

(** [lo_open(bdev, mode)]; [lock] is what [mutex_lock_killable] returns and
    [lo_refcnt] is an [atomic_t]. *)
Definition lo_open (lock : Z) (lo : loop_device) : Z * loop_device :=
  if negb (lock =? 0) then (lock, lo)
  else if lo_state_eqb (lo_state lo) Lo_deleting then (- ENXIO, lo)
  else (0, set_lo_refcnt (wrap_s32 (lo_refcnt lo + 1)) lo).

(** ** Reading the status *)

(** What [vfs_getattr(&path, &stat, STATX_INO, AT_STATX_SYNC_AS_STAT)]
    answers: its status and, from [stat], [huge_encode_dev(stat.dev)],
    [stat.ino] and [huge_encode_dev(stat.rdev)]. *)
Record kstat := Build_kstat {
  getattr_err : Z;
  st_dev : Z;
  st_ino : Z;
  st_rdev : Z
}.

(** [loop_get_status(lo, info)]: the status and the structure [info] points
    to, which the early returns leave as it was. *)
Definition loop_get_status (lock : Z) (capable_admin : bool) (stat : kstat)
    (lo : loop_device) (info : loop_info64) : Z * loop_info64 :=
  if negb (lock =? 0) then (lock, info)
  else if negb (lo_state_eqb (lo_state lo) Lo_bound) then (- ENXIO, info)
  else
    let with_key := negb (lo_encrypt_key_size lo =? 0) && capable_admin in
    let filled (device inode rdevice : Z) :=
      {| info_lo_device := device;
         info_lo_inode := inode;
         info_lo_rdevice := rdevice;
         info_lo_offset := to_u64 (lo_offset lo);
         info_lo_sizelimit := to_u64 (lo_sizelimit lo);
         info_lo_number := wrap_u32 (lo_number lo);
         info_lo_encrypt_type :=
           wrap_u32 (match lo_encryption lo with Some x => number x | None => 0 end);
         info_lo_encrypt_key_size :=
           if with_key then wrap_u32 (lo_encrypt_key_size lo) else 0;
         info_lo_flags := wrap_u32 (lo_flags lo);
         info_lo_file_name :=
           memcpy (zeros LO_NAME_SIZE) (lo_file_name lo) LO_NAME_SIZE;
         info_lo_crypt_name :=
           memcpy (zeros LO_NAME_SIZE) (lo_crypt_name lo) LO_NAME_SIZE;
         info_lo_encrypt_key :=
           if with_key then
             memcpy (zeros LO_KEY_SIZE) (lo_encrypt_key lo) (lo_encrypt_key_size lo)
           else zeros LO_KEY_SIZE;
         info_lo_init := (0, 0) |} in
    if negb (getattr_err stat =? 0) then (getattr_err stat, filled 0 0 0)
    else (0, filled (to_u64 (st_dev stat)) (to_u64 (st_ino stat))
                    (to_u64 (st_rdev stat))).

(** The three entry points that write a status.  [arg] is the structure
    [copy_from_user] read, [None] when the copy faults. *)
Definition loop_set_status_old (xfer_funcs : list (option loop_func_table))
    (env : configure_env) (lo : loop_device) (arg : option loop_info)
    : Z * loop_device :=
  match arg with
  | None => (- EFAULT, lo)
  | Some info => loop_set_status xfer_funcs env lo (loop_info64_from_old info)
  end.

Definition loop_set_status64 (xfer_funcs : list (option loop_func_table))
    (env : configure_env) (lo : loop_device) (arg : option loop_info64)
    : Z * loop_device :=
  match arg with
  | None => (- EFAULT, lo)
  | Some info64 => loop_set_status xfer_funcs env lo info64
  end.

Definition loop_set_status_compat (xfer_funcs : list (option loop_func_table))
    (env : configure_env) (lo : loop_device) (arg : option compat_loop_info)
    : Z * loop_device :=
  match loop_info64_from_compat arg with
  | (_, Some info64) => loop_set_status xfer_funcs env lo info64
  | (ret, None) => (ret, lo)
  end.

(** The three entry points that read it.  [arg_null] tells whether the user
    pointer is null, [copy_ok] whether [copy_to_user] succeeds, [stack] is
    what the uninitialised local [info64] holds; the structure returned is
    the one the user receives, if any. *)
Definition loop_get_status64 (lock : Z) (capable_admin : bool) (stat : kstat)
    (copy_ok : bool) (stack : loop_info64) (lo : loop_device) (arg_null : bool)
    : Z * option loop_info64 :=
  if arg_null then (- EINVAL, None)
  else
    let '(err, info64) := loop_get_status lock capable_admin stat lo stack in
    if negb (err =? 0) then (err, None)
    else if negb copy_ok then (- EFAULT, None)
    else (0, Some info64).

Definition loop_get_status_old (a : abi) (lock : Z) (capable_admin : bool)
    (stat : kstat) (copy_ok : bool) (stack : loop_info64) (lo : loop_device)
    (arg_null : bool) : Z * option loop_info :=
  if arg_null then (- EINVAL, None)
  else
    let '(err, info64) := loop_get_status lock capable_admin stat lo stack in
    if negb (err =? 0) then (err, None)
    else
      let '(err, info) := loop_info64_to_old a info64 in
      if negb (err =? 0) then (err, None)
      else if negb copy_ok then (- EFAULT, None)
      else (0, Some info).

Definition loop_get_status_compat (a : abi) (lock : Z) (capable_admin : bool)
    (stat : kstat) (copy_ok : bool) (stack : loop_info64) (lo : loop_device)
    (arg_null : bool) : Z * option compat_loop_info :=
  if arg_null then (- EINVAL, None)
  else
    let '(err, info64) := loop_get_status lock capable_admin stat lo stack in
    if negb (err =? 0) then (err, None)
    else
      let '(err, info) := loop_info64_to_compat a copy_ok info64 in
      if negb (err =? 0) then (err, None) else (0, Some info).

(** ** The simple commands *)

(** [loop_set_capacity].  A bound device has a backing file; were the
    pointer null the C code would fault, the model reads a size of 0. *)
Definition loop_set_capacity (lo : loop_device) : Z * loop_device :=
  if negb (lo_state_eqb (lo_state lo) Lo_bound) then (- ENXIO, lo)
  else
    let size :=
      get_size (lo_offset lo) (lo_sizelimit lo)
        (match lo_backing_file lo with Some f => i_size f | None => 0 end) in
    (0, loop_set_size lo size).

(** [loop_set_dio(lo, arg)]. *)
Definition loop_set_dio (lo : loop_device) (arg : Z) : Z * loop_device :=
  if negb (lo_state_eqb (lo_state lo) Lo_bound) then (- ENXIO, lo)
  else
    let lo := __loop_update_dio lo (negb (arg =? 0)) in
    if Bool.eqb (use_dio lo) (negb (arg =? 0)) then (0, lo) else (- EINVAL, lo).

(** [loop_set_block_size(lo, arg)]; [env] answers [blk_validate_block_size]
    and tells how many pages [invalidate_bdev] left. *)
Definition loop_set_block_size (env : configure_env) (lo : loop_device) (arg : Z)
    : Z * loop_device :=
  if negb (lo_state_eqb (lo_state lo) Lo_bound) then (- ENXIO, lo)
  else if negb (block_size_err env arg =? 0) then (block_size_err env arg, lo)
  else if logical_block_size (lo_queue lo) =? arg then (0, lo)
  else if negb (nrpages env =? 0) then (- EAGAIN, lo)
  else
    (0, loop_update_dio
          (set_lo_queue (blk_queue_block_sizes (lo_queue lo) (wrap_u32 arg)) lo)).

(** Command numbers (include/uapi/linux/loop.h). *)
Definition LOOP_SET_FD : Z := 0x4C00.
Definition LOOP_CLR_FD : Z := 0x4C01.
Definition LOOP_SET_STATUS : Z := 0x4C02.
Definition LOOP_GET_STATUS : Z := 0x4C03.
Definition LOOP_SET_STATUS64 : Z := 0x4C04.
Definition LOOP_GET_STATUS64 : Z := 0x4C05.
Definition LOOP_CHANGE_FD : Z := 0x4C06.
Definition LOOP_SET_CAPACITY : Z := 0x4C07.
Definition LOOP_SET_DIRECT_IO : Z := 0x4C08.
Definition LOOP_SET_BLOCK_SIZE : Z := 0x4C09.
Definition LOOP_CONFIGURE : Z := 0x4C0A.

(** [lo_simple_ioctl(lo, cmd, arg)]; [xfer_ioctl_ret] is what the transfer's
    own [ioctl] method returns when there is one. *)
Definition lo_simple_ioctl (env : configure_env) (xfer_ioctl_ret : Z)
    (lo : loop_device) (cmd : Z) (arg : Z) : Z * loop_device :=
  if negb (lock_err env =? 0) then (lock_err env, lo)
  else if cmd =? LOOP_SET_CAPACITY then loop_set_capacity lo
  else if cmd =? LOOP_SET_DIRECT_IO then loop_set_dio lo arg
  else if cmd =? LOOP_SET_BLOCK_SIZE then loop_set_block_size env lo arg
  else (if ioctl lo then xfer_ioctl_ret else - EINVAL, lo).

(** ** loop_change_fd *)

(** [loop_change_fd(lo, bdev, arg)].  [fget], [loop_real_file], the killable
    locks and [loop_validate_file] are answered by [env]. *)
Definition loop_change_fd (env : configure_env) (lo : loop_device) (bdev : Z)
    : Z * loop_device :=
  match fget_file env with
  | None => (- EBADF, lo)
  | Some file0 =>
      if negb (lock_err env =? 0) then (lock_err env, lo)
      else if negb (lo_state_eqb (lo_state lo) Lo_bound) then (- ENXIO, lo)
      else if negb (flag_set (lo_flags lo) LO_FLAGS_READ_ONLY) then (- EINVAL, lo)
      else
        let '(file, virt_file) :=
          match real_file env with
          | Some f => (f, Some file0)
          | None => (file0, None)
          end in
        if negb (validate_err env =? 0) then (validate_err env, lo)
        else
          match lo_backing_file lo with
          | None => (- EINVAL, lo)
          | Some old_file =>
              if negb (get_loop_size lo file =? get_loop_size lo old_file) then
                (- EINVAL, lo)
              else
                let lo := set_lo_backing_file (Some file) lo in
                let lo := set_lo_backing_virt_file virt_file lo in
                let lo := set_old_gfp_mask (f_gfp_mask file) lo in
                (0, loop_update_dio lo)
          end
  end.

(** ** lo_ioctl *)

(** What one [ioctl] call reads from the caller and from the kernel around
    the driver. *)
Record ioctl_env := Build_ioctl_env {
  cfg : configure_env;
  user_config : option loop_config;   (* copy_from_user of a struct loop_config *)
  user_info : option loop_info;       (* of a struct loop_info *)
  user_info64 : option loop_info64;   (* of a struct loop_info64 *)
  copy_out_ok : bool;                 (* copy_to_user succeeds *)
  getattr : kstat;
  stack_info64 : loop_info64;         (* the uninitialised local info64 *)
  xfer_ioctl_ret : Z
}.

(** What the caller's buffer received. *)
Inductive ioctl_out :=
| out_none
| out_old (info : loop_info)
| out_64 (info64 : loop_info64)
| out_compat (info : compat_loop_info).

(** A [struct loop_info64] after [memset(.., 0, ..)]. *)
Definition loop_info64_zero : loop_info64 :=
  {| info_lo_device := 0; info_lo_inode := 0; info_lo_rdevice := 0;
     info_lo_offset := 0; info_lo_sizelimit := 0; info_lo_number := 0;
     info_lo_encrypt_type := 0; info_lo_encrypt_key_size := 0; info_lo_flags := 0;
     info_lo_file_name := zeros LO_NAME_SIZE; info_lo_crypt_name := zeros LO_NAME_SIZE;
     info_lo_encrypt_key := zeros LO_KEY_SIZE; info_lo_init := (0, 0) |}.

(** [lo_ioctl(bdev, mode, cmd, arg)].  Returns the status, the device on
    return and what was copied out. *)
Definition lo_ioctl (xfer_funcs : list (option loop_func_table)) (part_shift : Z)
    (a : abi) (e : ioctl_env) (lo : loop_device) (bdev : Z) (mode : Z) (cmd : Z)
    (arg : Z) : Z * loop_device * ioctl_out :=
  let env := cfg e in
  let may_write := flag_set mode FMODE_WRITE || capable_admin env in
  if cmd =? LOOP_SET_FD then
    let config := {| fd := wrap_u32 arg; block_size := 0; info := loop_info64_zero |} in
    (loop_configure xfer_funcs part_shift env lo mode bdev config, out_none)
  else if cmd =? LOOP_CONFIGURE then
    match user_config e with
    | None => (- EFAULT, lo, out_none)
    | Some config =>
        (loop_configure xfer_funcs part_shift env lo mode bdev config, out_none)
    end
  else if cmd =? LOOP_CHANGE_FD then (loop_change_fd env lo bdev, out_none)
  else if cmd =? LOOP_CLR_FD then
    let '(err, _, lo') := loop_clr_fd part_shift (lock_err env) lo in
    (err, lo', out_none)
  else if cmd =? LOOP_SET_STATUS then
    if may_write then (loop_set_status_old xfer_funcs env lo (user_info e), out_none)
    else (- EPERM, lo, out_none)
  else if cmd =? LOOP_GET_STATUS then
    let '(err, out) :=
      loop_get_status_old a (lock_err env) (capable_admin env) (getattr e)
        (copy_out_ok e) (stack_info64 e) lo (arg =? 0) in
    (err, lo, match out with Some i => out_old i | None => out_none end)
  else if cmd =? LOOP_SET_STATUS64 then
    if may_write then (loop_set_status64 xfer_funcs env lo (user_info64 e), out_none)
    else (- EPERM, lo, out_none)
  else if cmd =? LOOP_GET_STATUS64 then
    let '(err, out) :=
      loop_get_status64 (lock_err env) (capable_admin env) (getattr e)
        (copy_out_ok e) (stack_info64 e) lo (arg =? 0) in
    (err, lo, match out with Some i => out_64 i | None => out_none end)
  else if ((cmd =? LOOP_SET_CAPACITY) || (cmd =? LOOP_SET_DIRECT_IO)
           || (cmd =? LOOP_SET_BLOCK_SIZE)) && negb may_write then
    (- EPERM, lo, out_none)
  else (lo_simple_ioctl env (xfer_ioctl_ret e) lo cmd arg, out_none).

(** ** lo_compat_ioctl *)

Definition ENOIOCTLCMD : Z := 515.

(** [lo_compat_ioctl(bdev, mode, cmd, arg)] (CONFIG_COMPAT), the [ioctl]
    entry of a 32-bit caller.  [user_compat] is the structure
    [copy_from_user] reads for [LOOP_SET_STATUS] ([None] when the copy
    faults); [compat_ptr] keeps the low 32 bits of [arg]. *)
Definition lo_compat_ioctl (xfer_funcs : list (option loop_func_table))
    (part_shift : Z) (a : abi) (e : ioctl_env)
    (user_compat : option compat_loop_info) (lo : loop_device)
    (bdev : Z) (mode : Z) (cmd : Z) (arg : Z) : Z * loop_device * ioctl_out :=
  let env := cfg e in
  if cmd =? LOOP_SET_STATUS then
    (loop_set_status_compat xfer_funcs env lo user_compat, out_none)
  else if cmd =? LOOP_GET_STATUS then
    let '(err, out) :=
      loop_get_status_compat a (lock_err env) (capable_admin env) (getattr e)
        (copy_out_ok e) (stack_info64 e) lo (arg =? 0) in
    (err, lo, match out with Some i => out_compat i | None => out_none end)
  else if (cmd =? LOOP_SET_CAPACITY) || (cmd =? LOOP_CLR_FD)
          || (cmd =? LOOP_GET_STATUS64) || (cmd =? LOOP_SET_STATUS64)
          || (cmd =? LOOP_CONFIGURE) then
    lo_ioctl xfer_funcs part_shift a e lo bdev mode cmd (wrap_u32 arg)
  else if (cmd =? LOOP_SET_FD) || (cmd =? LOOP_CHANGE_FD)
          || (cmd =? LOOP_SET_BLOCK_SIZE) || (cmd =? LOOP_SET_DIRECT_IO) then
    lo_ioctl xfer_funcs part_shift a e lo bdev mode cmd arg
  else (- ENOIOCTLCMD, lo, out_none).

(* ================================================================== *)
(** * The request path *)
(* ================================================================== *)

(** ** Writes *)

(** The content of a file once [buf] was stored at byte [p]: the file is
    extended when it ends before [p + length buf], a gap reading as zeros. *)
Definition pwrite (data buf : list Z) (p : nat) : list Z :=
  match buf with
  | [] => data
  | _ => take p data ++ replicate (p - length data) 0 ++ buf
         ++ drop (p + length buf) data
  end.

(** Modelled from the spec: [vfs_iter_write] (fs/read_write.c) is not part
    of the sources at hand.  A buffered write of the bytes of [buf] at [pos]
    to a file holding [data] stores all of them, advances [pos] by their
    number and returns it. *)
Definition vfs_iter_write (data buf : list Z) (pos : Z) : Z * list Z * Z :=
  if pos <? 0 then (- EINVAL, data, pos)
  else (Z.of_nat (length buf), pwrite data buf (Z.to_nat pos),
        pos + Z.of_nat (length buf)).

(** The type of a function called as [vfs_iter_write] on one backing file:
    from the content, the buffer and the position to the count returned,
    the new content and the new position. *)
Definition write_fn : Type := list Z -> list Z -> Z -> Z * list Z * Z.

(** [lo_write_bvec(file, bvec, ppos)]. *)
Definition lo_write_bvec (write : write_fn) (data : list Z) (bvec : bio_vec) (pos : Z)
    : Z * list Z * Z :=
  let '(bw, data, pos) := write data bvec pos in
  if bw =? Z.of_nat (length bvec) then (0, data, pos)
  else if bw >=? 0 then (- EIO, data, pos)
  else (bw, data, pos).

(** The walk of one bio's segments in [lo_write_simple]: the inner loop of
    [rq_for_each_segment], the one a [break] leaves.  [ret] is the
    function's variable as the walk finds it. *)
Fixpoint lo_write_simple_segments (write : write_fn) (data : list Z)
    (segs : bio) (pos ret : Z) : Z * list Z * Z :=
  match segs with
  | [] => (ret, data, pos)
  | bvec :: rest =>
      let '(ret, data, pos) := lo_write_bvec write data bvec pos in
      if ret <? 0 then (ret, data, pos)
      else lo_write_simple_segments write data rest pos ret
  end.

(** The loop over the request's bios, the outer loop of
    [rq_for_each_segment]: after a [break] the walk goes on with the next
    bio. *)
Fixpoint lo_write_simple_bios (write : write_fn) (data : list Z)
    (bios : request) (pos ret : Z) : Z * list Z * Z :=
  match bios with
  | [] => (ret, data, pos)
  | b :: rest =>
      let '(ret, data, pos) := lo_write_simple_segments write data b pos ret in
      lo_write_simple_bios write data rest pos ret
  end.

(** [lo_write_simple(lo, rq, pos)]: the status and the content of the
    backing file. *)
Definition lo_write_simple (write : write_fn) (data : list Z) (rq : request) (pos : Z)
    : Z * list Z :=
  (lo_write_simple_bios write data rq pos 0).1.

(** [lo_do_transfer]: the call through [lo->transfer]; the message it
    prints on failure is not represented. *)
Definition lo_do_transfer (transfer : transfer_fn) (key : list Z) (keysize : Z)
    (cmd : Z) (rpage : list Z) (roffs : Z) (lpage : list Z) (loffs : Z) (size : Z)
    (rblock : Z) : Z * list Z * list Z :=
  transfer key keysize cmd rpage roffs lpage loffs size rblock.

(** The walk of one bio's segments in [lo_write_transfer], the loop a
    [break] leaves; [page] is the scratch page and [ret] the function's
    variable as the walk finds it. *)
Fixpoint lo_write_transfer_segments (write : write_fn) (transfer : transfer_fn)
    (key : list Z) (keysize : Z) (page : list Z) (data : list Z)
    (segs : bio) (pos ret : Z) : Z * list Z * list Z * Z :=
  match segs with
  | [] => (ret, page, data, pos)
  | bvec :: rest =>
      let '(ret, page, _) :=
        lo_do_transfer transfer key keysize WRITE page 0 bvec 0
          (Z.of_nat (length bvec)) (Z.shiftr pos 9) in
      if negb (ret =? 0) then (ret, page, data, pos)
      else
        let b := take (length bvec) page in
        let '(ret, data, pos) := lo_write_bvec write data b pos in
        if ret <? 0 then (ret, page, data, pos)
        else lo_write_transfer_segments write transfer key keysize page data rest
               pos ret
  end.

(** The loop over the request's bios: after a [break] the walk goes on with
    the next bio. *)
Fixpoint lo_write_transfer_bios (write : write_fn) (transfer : transfer_fn)
    (key : list Z) (keysize : Z) (page : list Z) (data : list Z)
    (bios : request) (pos ret : Z) : Z * list Z * list Z * Z :=
  match bios with
  | [] => (ret, page, data, pos)
  | b :: rest =>
      let '(ret, page, data, pos) :=
        lo_write_transfer_segments write transfer key keysize page data b pos ret in
      lo_write_transfer_bios write transfer key keysize page data rest pos ret
  end.

(** [lo_write_transfer(lo, rq, pos)]; [page] is what [alloc_page] returns. *)
Definition lo_write_transfer (write : write_fn) (transfer : transfer_fn)
    (key : list Z) (keysize : Z) (page : option (list Z)) (data : list Z)
    (rq : request) (pos : Z) : Z * list Z :=
  match page with
  | None => (- ENOMEM, data)
  | Some page =>
      let '(ret, _, data, _) :=
        lo_write_transfer_bios write transfer key keysize page data rq pos 0 in
      (ret, data)
  end.

(** ** Flush *)

(** [lo_req_flush]; [fsync_ret] is what [vfs_fsync(file, 0)] returns. *)
Definition lo_req_flush (fsync_ret : Z) : Z :=
  if negb (fsync_ret =? 0) && negb (fsync_ret =? - EINVAL) then - EIO else fsync_ret.

(** ** Dispatch by operation *)

(** Request operations and status codes (include/linux/blk_types.h). *)
Definition REQ_OP_READ : Z := 0.
Definition REQ_OP_WRITE : Z := 1.
Definition REQ_OP_FLUSH : Z := 2.
Definition REQ_OP_DISCARD : Z := 3.
Definition REQ_OP_WRITE_ZEROES : Z := 9.

Definition BLK_STS_OK : Z := 0.
Definition BLK_STS_IOERR : Z := 10.

(** [op_is_write(op)]. *)
Definition op_is_write (op : Z) : bool := negb (Z.land op 1 =? 0).

(** What the driver reads from a [struct request]. *)
Record blk_rq := Build_blk_rq {
  rq_op : Z;                          (* req_op(rq) *)
  rq_nounmap : bool;                  (* rq->cmd_flags & REQ_NOUNMAP *)
  rq_sector : Z;                      (* blk_rq_pos(rq) *)
  rq_data_len : Z;                    (* blk_rq_bytes(rq) *)
  rq_bios : request                   (* the buffers from rq->bio on *)
}.

(** What the kernel around the driver answers while one request is
    carried out. *)
Record io_env := Build_io_env {
  io_write : write_fn;                (* vfs_iter_write on the backing file *)
  io_page : option (list Z);          (* alloc_page(GFP_NOIO) *)
  io_kmalloc_ok : bool;               (* kmalloc_array(...) != NULL *)
  io_fsync_ret : Z                    (* vfs_fsync(file, 0) *)
}.

(** [lo_rw_aio]: the status of the submission.  The transfer itself is
    carried out by the backing file's [read_iter] or [write_iter] and
    reported through [lo_rw_aio_complete]; neither is represented here. *)
Definition lo_rw_aio (e : io_env) (rq : blk_rq) : Z :=
  if (1 <? Z.of_nat (length (rq_bios rq))) && negb (io_kmalloc_ok e) then - EIO else 0.

(** [do_req_filebacked(lo, rq)]: the status, the content of the backing
    file and the request's buffers.  [use_aio] is [cmd->use_aio], [data]
    the content of the backing file.  The bytes a successful [fallocate]
    clears in the file are not represented. *)
Definition do_req_filebacked (zero_fill : bio -> bio) (e : io_env) (lo : loop_device)
    (use_aio : bool) (rq : blk_rq) (data : list Z) : Z * list Z * request :=
  let pos := wrap_s64 (Z.shiftl (rq_sector rq) 9 + lo_offset lo) in
  if rq_op rq =? REQ_OP_FLUSH then
    (lo_req_flush (io_fsync_ret e), data, rq_bios rq)
  else if rq_op rq =? REQ_OP_WRITE_ZEROES then
    (lo_fallocate lo (rq_data_len rq) pos
       (if rq_nounmap rq then FALLOC_FL_ZERO_RANGE else FALLOC_FL_PUNCH_HOLE),
     data, rq_bios rq)
  else if rq_op rq =? REQ_OP_DISCARD then
    (lo_fallocate lo (rq_data_len rq) pos FALLOC_FL_PUNCH_HOLE, data, rq_bios rq)
  else if rq_op rq =? REQ_OP_WRITE then
    match transfer lo with
    | Some t =>
        let '(ret, data) :=
          lo_write_transfer (io_write e) t (lo_encrypt_key lo)
            (lo_encrypt_key_size lo) (io_page e) data (rq_bios rq) pos in
        (ret, data, rq_bios rq)
    | None =>
        if use_aio then (lo_rw_aio e rq, data, rq_bios rq)
        else
          let '(ret, data) := lo_write_simple (io_write e) data (rq_bios rq) pos in
          (ret, data, rq_bios rq)
    end
  else if rq_op rq =? REQ_OP_READ then
    match transfer lo with
    | Some t =>
        let '(ret, bios) :=
          lo_read_transfer zero_fill t (lo_encrypt_key lo) (lo_encrypt_key_size lo)
            (io_page e) data (rq_bios rq) pos in
        (ret, data, bios)
    | None =>
        if use_aio then (lo_rw_aio e rq, data, rq_bios rq)
        else
          let '(ret, bios) := lo_read_simple zero_fill data (rq_bios rq) pos in
          (ret, data, bios)
    end
  else (- EIO, data, rq_bios rq).

(** [loop_handle_cmd(cmd)]: [cmd->ret] when the request is completed here
    ([None] when an asynchronous transfer was submitted and completes
    later), the content of the backing file and the request's buffers. *)
Definition loop_handle_cmd (zero_fill : bio -> bio) (e : io_env) (lo : loop_device)
    (cmd : loop_cmd) (rq : blk_rq) (data : list Z) : option Z * list Z * request :=
  let '(ret, data', bios) :=
    if op_is_write (rq_op rq) && flag_set (lo_flags lo) LO_FLAGS_READ_ONLY then
      (- EIO, data, rq_bios rq)
    else do_req_filebacked zero_fill e lo (use_aio cmd) rq data in
  if negb (use_aio cmd) || negb (ret =? 0) then
    (Some (if ret =? - EOPNOTSUPP then ret
           else if negb (ret =? 0) then - EIO else 0), data', bios)
  else (None, data', bios).

(** [loop_queue_rq(hctx, bd)]; [rq_id] names the request, [bio_css] is the
    group handle of its first bio (0 when it has no bio or the bio no
    group) and [bio_memcg] the memory group handle found for it. *)
Definition loop_queue_rq (blkcg_root_css : Z) (kzalloc_ok : bool) (lo : loop_device)
    (rq_id : Z) (rq : blk_rq) (bio_css bio_memcg : Z)
    : Z * loop_device * option loop_cmd :=
  if negb (lo_state_eqb (lo_state lo) Lo_bound) then (BLK_STS_IOERR, lo, None)
  else
    let aio :=
      if (rq_op rq =? REQ_OP_FLUSH) || (rq_op rq =? REQ_OP_DISCARD)
         || (rq_op rq =? REQ_OP_WRITE_ZEROES) then false
      else use_dio lo in
    let cmd :=
      {| cmd_rq := rq_id; use_aio := aio; blkcg_css := bio_css;
         memcg_css := if bio_css =? 0 then 0 else bio_memcg |} in
    let '(lo, cmd) := loop_queue_work blkcg_root_css kzalloc_ok lo cmd in
    (BLK_STS_OK, lo, Some cmd).

(** How [lo_complete_rq] leaves the request. *)
Inductive rq_outcome :=
| rq_ended (status : Z)               (* blk_mq_end_request(rq, status) *)
| rq_requeued (done : Z).             (* advanced by [done] bytes and requeued *)

(** [lo_complete_rq(rq)]: the outcome, [cmd->ret] afterwards and the
    request's buffers.  [errno_to_blk_status] is the block layer's. *)
Definition lo_complete_rq (errno_to_blk_status : Z -> Z) (use_aio : bool)
    (cmd_ret : Z) (rq : blk_rq) : rq_outcome * Z * request :=
  if negb use_aio || (cmd_ret <? 0) || (cmd_ret =? rq_data_len rq)
     || negb (rq_op rq =? REQ_OP_READ) then
    (rq_ended (if cmd_ret <? 0 then errno_to_blk_status cmd_ret else BLK_STS_OK),
     cmd_ret, rq_bios rq)
  else if negb (cmd_ret =? 0) then (rq_requeued cmd_ret, 0, rq_bios rq)
  else
    (rq_ended BLK_STS_IOERR, cmd_ret,
     if use_aio then map zero_fill_bio (rq_bios rq) else rq_bios rq).

(* ================================================================== *)
(** * Loop devices on loop devices *)
(* ================================================================== *)

(** [loop_validate_file(file, bdev)] walks from one loop device to the
    next.  [loop_rdev f] is [f->f_mapping->host->i_rdev] when
    [is_loop_device(f)] holds and [None] otherwise; [lo_of rdev] is the
    device behind that number; [bd_dev] is [bdev->bd_dev].  The loop is
    run for at most [fuel] iterations; [None] means it has not left the
    loop by then.  A bound device has a backing file; were the pointer null
    the C code would fault, the model answers [-EINVAL]. *)
Fixpoint loop_validate_file_walk (fuel : nat) (loop_rdev : file -> option Z)
    (lo_of : Z -> loop_device) (f : file) (bd_dev : Z) : option Z :=
  match fuel with
  | O => None
  | S n =>
      match loop_rdev f with
      | None => Some 0
      | Some rdev =>
          if rdev =? bd_dev then Some (- EBADF)
          else
            let l := lo_of rdev in
            if negb (lo_state_eqb (lo_state l) Lo_bound) then Some (- EINVAL)
            else
              match lo_backing_file l with
              | Some f' => loop_validate_file_walk n loop_rdev lo_of f' bd_dev
              | None => Some (- EINVAL)
              end
      end
  end.

(** [is_reg file] is [S_ISREG(inode->i_mode)] for the inode of [file]. *)
Definition loop_validate_file (fuel : nat) (loop_rdev : file -> option Z)
    (is_reg : file -> bool) (lo_of : Z -> loop_device) (file : file) (bd_dev : Z)
    : option Z :=
  match loop_validate_file_walk fuel loop_rdev lo_of file bd_dev with
  | Some 0 => Some (if negb (is_reg file) && negb (i_isblk file) then - EINVAL else 0)
  | r => r
  end.

(** The loop devices a walk from [f] goes through, in order, when it comes
    to an end: at a file that is no loop device, or at a loop device that
    is not bound. *)
Inductive loop_chain (loop_rdev : file -> option Z) (lo_of : Z -> loop_device)
    : file -> list Z -> Prop :=
| chain_end f :
    loop_rdev f = None -> loop_chain loop_rdev lo_of f []
| chain_stop f rdev :
    loop_rdev f = Some rdev ->
    lo_state (lo_of rdev) <> Lo_bound \/ lo_backing_file (lo_of rdev) = None ->
    loop_chain loop_rdev lo_of f [rdev]
| chain_step f rdev f' l :
    loop_rdev f = Some rdev ->
    lo_state (lo_of rdev) = Lo_bound -> lo_backing_file (lo_of rdev) = Some f' ->
    loop_chain loop_rdev lo_of f' l ->
    loop_chain loop_rdev lo_of f (rdev :: l).

(** No walk goes round in circles. *)
Definition loops_acyclic (loop_rdev : file -> option Z) (lo_of : Z -> loop_device)
    : Prop :=
  forall f, exists l, loop_chain loop_rdev lo_of f l.

(** The devices once device [bd_dev] is [lo]. *)
Definition lo_of_update (lo_of : Z -> loop_device) (bd_dev : Z) (lo : loop_device)
    : Z -> loop_device :=
  fun rdev => if rdev =? bd_dev then lo else lo_of rdev.

(* ================================================================== *)
(** * The control device *)
(* ================================================================== *)

Definition ENODEV : Z := 19.
Definition ENOSPC : Z := 28.
Definition ENOSYS : Z := 38.

(** ** The index of devices *)

(** What [loop_index_idr] holds under an id: the device and its
    [idr_visible] flag.  The index itself is the list of what it holds
    under the ids 0, 1, 2, ... *)
Record idr_entry := Build_idr_entry {
  ent_lo : loop_device;
  idr_visible : bool
}.

(** [idr_find(&loop_index_idr, id)]. *)
Definition idr_find (t : list (option idr_entry)) (id : Z) : option idr_entry :=
  if id <? 0 then None else default None (t !! Z.to_nat id).

(** The pointer stored under [id] replaced by [p]; the array grows when
    [id] lies beyond its end. *)
Definition idr_store (t : list (option idr_entry)) (id : nat) (p : option idr_entry) : list (option idr_entry) :=
  if decide (id < length t)%nat then <[id := p]> t
  else t ++ replicate (id - length t) None ++ [p].

(** [idr_remove(&loop_index_idr, id)]. *)
Definition idr_remove (t : list (option idr_entry)) (id : Z) : list (option idr_entry) :=
  if id <? 0 then t
  else if decide (Z.to_nat id < length t)%nat then <[Z.to_nat id := None]> t
  else t.

(** The smallest id from [i] on under which nothing is stored, [t] being
    the array from [i] on. *)
Fixpoint idr_first_free (t : list (option idr_entry)) (i : nat) : nat :=
  match t with
  | Some _ :: rest => idr_first_free rest (S i)
  | _ => i
  end.

(** [idr_alloc(&loop_index_idr, ptr, start, end, GFP_KERNEL)] for the two
    ways [loop_add] calls it: with [end = start + 1], which asks for the id
    [start], and with [start = end = 0], which asks for the smallest unused
    id up to [INT_MAX].  [nomem] tells whether the allocation of a node
    fails. *)
Definition idr_alloc (nomem : bool) (t : list (option idr_entry)) (p : idr_entry) (start end_ : Z)
    : Z * list (option idr_entry) :=
  if nomem then (- ENOMEM, t)
  else if end_ =? 0 then
    let id := idr_first_free t O in
    if Z.of_nat id >? 2 ^ 31 - 1 then (- ENOSPC, t)
    else (Z.of_nat id, idr_store t id (Some p))
  else
    match idr_find t start with
    | Some _ => (- ENOSPC, t)
    | None => (start, idr_store t (Z.to_nat start) (Some p))
    end.

(** The first id, in increasing order, whose entry satisfies [ok]: the
    loop of [idr_for_each_entry] with a [goto] out of it.  [t] is the array
    from [i] on. *)
Fixpoint idr_first (ok : idr_entry -> bool) (t : list (option idr_entry)) (i : nat) : option nat :=
  match t with
  | [] => None
  | Some ent :: rest => if ok ent then Some i else idr_first ok rest (S i)
  | None :: rest => idr_first ok rest (S i)
  end.

(** ** Adding and removing devices *)

(** What the kernel answers during one [loop_add]. *)
Record add_env := Build_add_env {
  add_kzalloc_ok : bool;              (* kzalloc of the device succeeds *)
  ctl_lock_err : Z;                   (* mutex_lock_killable(&loop_ctl_mutex) *)
  idr_nomem : bool;                   (* idr_alloc runs out of memory *)
  tag_set_err : Z;                    (* blk_mq_alloc_tag_set(&lo->tag_set) *)
  alloc_disk_err : Z                  (* PTR_ERR of blk_mq_alloc_disk, 0 if none *)
}.

(** The device [loop_add] sets up under id [i]. *)
Definition loop_add_device (part_shift : Z) (i : Z) : loop_device :=
  set_lo_number i
    (set_lo_disk (set_gd_suppress_part_scan (part_shift =? 0) (lo_disk lo_fresh))
       lo_fresh).

(** [loop_add(i)]: the id or the error, and the index afterwards. *)
Definition loop_add (part_shift : Z) (e : add_env) (t : list (option idr_entry)) (i : Z) : Z * list (option idr_entry) :=
  if negb (add_kzalloc_ok e) then (- ENOMEM, t)
  else if negb (ctl_lock_err e =? 0) then (ctl_lock_err e, t)
  else
    let hidden := {| ent_lo := set_lo_state Lo_unbound lo_fresh; idr_visible := false |} in
    let '(err, t1) :=
      if i >=? 0 then
        let '(err, t1) := idr_alloc (idr_nomem e) t hidden i (i + 1) in
        (if err =? - ENOSPC then - EEXIST else err, t1)
      else idr_alloc (idr_nomem e) t hidden 0 0 in
    if err <? 0 then (err, t1)
    else
      let i := err in
      if negb (tag_set_err e =? 0) then (tag_set_err e, idr_remove t1 i)
      else if negb (alloc_disk_err e =? 0) then (alloc_disk_err e, idr_remove t1 i)
      else
        (i, idr_store t1 (Z.to_nat i)
              (Some {| ent_lo := loop_add_device part_shift i; idr_visible := true |})).

(** [loop_remove(lo)]. *)
Definition loop_remove (t : list (option idr_entry)) (lo : loop_device) : list (option idr_entry) :=
  idr_remove t (lo_number lo).

(** [loop_control_remove(idx)]; [ctl_lock] and [lo_lock] are what the two
    killable locks return. *)
Definition loop_control_remove (ctl_lock lo_lock : Z) (t : list (option idr_entry)) (idx : Z) : Z * list (option idr_entry) :=
  if idx <? 0 then (- EINVAL, t)
  else if negb (ctl_lock =? 0) then (ctl_lock, t)
  else
    match idr_find t idx with
    | None => (- ENODEV, t)
    | Some ent =>
        if negb (idr_visible ent) then (- ENODEV, t)
        else
          let lo := ent_lo ent in
          let t_hidden :=
            idr_store t (Z.to_nat idx) (Some {| ent_lo := lo; idr_visible := false |}) in
          let t_shown :=
            idr_store t_hidden (Z.to_nat idx)
              (Some {| ent_lo := lo; idr_visible := true |}) in
          if negb (lo_lock =? 0) then (lo_lock, t_shown)
          else if negb (lo_state_eqb (lo_state lo) Lo_unbound) || (lo_refcnt lo >? 0)
          then (- EBUSY, t_shown)
          else (0, loop_remove t_hidden (set_lo_state Lo_deleting lo))
    end.

(** [loop_control_get_free(idx)]. *)
Definition loop_control_get_free (part_shift : Z) (e : add_env) (ctl_lock : Z)
    (t : list (option idr_entry)) : Z * list (option idr_entry) :=
  if negb (ctl_lock =? 0) then (ctl_lock, t)
  else
    match idr_first
            (fun ent => idr_visible ent
                        && lo_state_eqb (lo_state (ent_lo ent)) Lo_unbound) t O with
    | Some id => (Z.of_nat id, t)
    | None => loop_add part_shift e t (- 1)
    end.

Definition LOOP_CTL_ADD : Z := 0x4C80.
Definition LOOP_CTL_REMOVE : Z := 0x4C81.
Definition LOOP_CTL_GET_FREE : Z := 0x4C82.

(** [loop_control_ioctl(file, cmd, parm)]; [parm] is converted to [int]. *)
Definition loop_control_ioctl (part_shift : Z) (e : add_env) (ctl_lock lo_lock : Z)
    (t : list (option idr_entry)) (cmd : Z) (parm : Z) : Z * list (option idr_entry) :=
  if cmd =? LOOP_CTL_ADD then loop_add part_shift e t (wrap_s32 parm)
  else if cmd =? LOOP_CTL_REMOVE then
    loop_control_remove ctl_lock lo_lock t (wrap_s32 parm)
  else if cmd =? LOOP_CTL_GET_FREE then loop_control_get_free part_shift e ctl_lock t
  else (- ENOSYS, t).

(* ================================================================== *)
(** * Loading the module *)
(* ================================================================== *)

Definition DISK_MAX_PARTS : Z := 256.
Definition MINORBITS : Z := 20.

(** Modelled from the spec: [fls] (include/asm-generic/bitops/fls.h) is not
    part of the sources at hand.  It takes an [unsigned int] and returns the
    position of its most significant set bit, counted from 1, and 0 for the
    word 0. *)
Definition fls (x : Z) : Z :=
  if wrap_u32 x =? 0 then 0 else Z.log2 (wrap_u32 x) + 1.

(** What the kernel answers during [loop_init]; [init_add_env i] is what it
    answers during the call [loop_add(i)]. *)
Record init_env := Build_init_env {
  misc_register_err : Z;              (* misc_register(&loop_misc) *)
  register_blkdev_err : Z;            (* __register_blkdev(LOOP_MAJOR, ...) *)
  init_add_env : Z -> add_env
}.

(** The module's variables [part_shift] and [max_part] and the index, as
    [loop_init] leaves them. *)
Record loop_module := Build_loop_module {
  mod_part_shift : Z;
  mod_max_part : Z;
  mod_index : list (option idr_entry)
}.

(** The loop [for (i = 0; i < max_loop; i++) loop_add(i);] from [i] on,
    with [n] iterations left; what [loop_add] returns is dropped. *)
Fixpoint loop_init_adds (part_shift : Z) (envs : Z -> add_env)
    (t : list (option idr_entry)) (i : Z) (n : nat) : list (option idr_entry) :=
  match n with
  | O => t
  | S n' =>
      loop_init_adds part_shift envs (loop_add part_shift (envs i) t i).2 (i + 1) n'
  end.

(** [loop_init()]; [max_part] and [max_loop] are the module parameters,
    [t] the index.  [1UL] is an [unsigned long]. *)
Definition loop_init (a : abi) (e : init_env) (max_part max_loop : Z)
    (t : list (option idr_entry)) : Z * loop_module :=
  let ulong := wrap_u (long_bits a) in
  let part_shift := if max_part >? 0 then fls max_part else 0 in
  let max_part :=
    if max_part >? 0 then wrap_s32 (ulong (ulong (Z.shiftl 1 part_shift) - 1))
    else max_part in
  let m t := {| mod_part_shift := part_shift; mod_max_part := max_part;
                mod_index := t |} in
  if ulong (Z.shiftl 1 part_shift) >? DISK_MAX_PARTS then (- EINVAL, m t)
  else if ulong max_loop >? ulong (Z.shiftl 1 (MINORBITS - part_shift)) then
    (- EINVAL, m t)
  else if misc_register_err e <? 0 then (misc_register_err e, m t)
  else if negb (register_blkdev_err e =? 0) then (- EIO, m t)
  else (0, m (loop_init_adds part_shift (init_add_env e) t 0 (Z.to_nat max_loop))).

(** ** Predicates on the legacy structures *)

(** Widths a C implementation can have for the three types. *)
Definition wf_abi (a : abi) : Prop :=
  0 < long_bits a <= 64 /\ 0 < old_dev_bits a <= 64 /\ 0 < compat_dev_bits a <= 64.

Definition is_int (x : Z) : Prop := - 2 ^ 31 <= x < 2 ^ 31.

(** A [struct loop_info] whose fields hold values of their types. *)
Definition wf_loop_info (a : abi) (i : loop_info) : Prop :=
  is_int (old_lo_number i) /\ is_int (old_lo_offset i)
  /\ is_int (old_lo_encrypt_type i) /\ is_int (old_lo_encrypt_key_size i)
  /\ is_int (old_lo_flags i)
  /\ 0 <= old_lo_device i < 2 ^ old_dev_bits a
  /\ 0 <= old_lo_rdevice i < 2 ^ old_dev_bits a
  /\ 0 <= old_lo_inode i < 2 ^ long_bits a
  /\ 0 <= (old_lo_init i).1 < 2 ^ long_bits a
  /\ 0 <= (old_lo_init i).2 < 2 ^ long_bits a
  /\ length (old_lo_name i) = Z.to_nat LO_NAME_SIZE
  /\ length (old_lo_encrypt_key i) = Z.to_nat LO_KEY_SIZE.

(** A [struct compat_loop_info] whose fields hold values of their types. *)
Definition wf_compat_loop_info (a : abi) (i : compat_loop_info) : Prop :=
  is_int (compat_lo_number i) /\ is_int (compat_lo_offset i)
  /\ is_int (compat_lo_encrypt_type i) /\ is_int (compat_lo_encrypt_key_size i)
  /\ is_int (compat_lo_flags i)
  /\ 0 <= compat_lo_device i < 2 ^ compat_dev_bits a
  /\ 0 <= compat_lo_rdevice i < 2 ^ compat_dev_bits a
  /\ 0 <= compat_lo_inode i < 2 ^ 32
  /\ 0 <= (compat_lo_init i).1 < 2 ^ 32
  /\ 0 <= (compat_lo_init i).2 < 2 ^ 32
  /\ length (compat_lo_name i) = Z.to_nat LO_NAME_SIZE
  /\ length (compat_lo_encrypt_key i) = Z.to_nat LO_KEY_SIZE.

(** A legacy status with a negative offset and a name. *)
Definition old_info_sample : loop_info :=
  {| old_lo_number := 3; old_lo_device := 7; old_lo_inode := 12; old_lo_rdevice := 0;
     old_lo_offset := - 512; old_lo_encrypt_type := LO_CRYPT_CRYPTOAPI;
     old_lo_encrypt_key_size := 16; old_lo_flags := 4;
     old_lo_name := replicate 63 97 ++ [0];
     old_lo_encrypt_key := replicate 32 90;
     old_lo_init := (1, 2) |}.

Definition compat_info_sample : compat_loop_info :=
  {| compat_lo_number := 3; compat_lo_device := 7; compat_lo_inode := 12;
     compat_lo_rdevice := 0; compat_lo_offset := - 512;
     compat_lo_encrypt_type := LO_CRYPT_XOR;
     compat_lo_encrypt_key_size := 16; compat_lo_flags := 4;
     compat_lo_name := replicate 63 97 ++ [0];
     compat_lo_encrypt_key := replicate 32 90;
     compat_lo_init := (1, 2) |}.

(** A legacy status that asks for an offset of 512 and nothing else. *)
Definition compat_info_offset_512 : compat_loop_info :=
  {| compat_lo_number := 0; compat_lo_device := 0; compat_lo_inode := 0;
     compat_lo_rdevice := 0; compat_lo_offset := 512;
     compat_lo_encrypt_type := 0;
     compat_lo_encrypt_key_size := 0; compat_lo_flags := 0;
     compat_lo_name := zeros LO_NAME_SIZE;
     compat_lo_encrypt_key := zeros LO_KEY_SIZE;
     compat_lo_init := (0, 0) |}.

(** ** Predicates on the device and the transfer table *)

(** The table has its [MAX_LO_CRYPT] slots, and slot [n] holds nothing or
    the entry whose [number] is [n]. *)
Definition xfer_funcs_numbered (xfer_funcs : list (option loop_func_table)) : Prop :=
  length xfer_funcs = Z.to_nat MAX_LO_CRYPT
  /\ forall (k : nat) (x : loop_func_table),
       xfer_funcs !! k = Some (Some x) -> number x = Z.of_nat k.

(** Everything but the flags, the direct I/O switch, the queue and the
    disk: the fields the helpers that derive queue limits and capacity
    leave alone. *)
Definition same_config (lo lo' : loop_device) : Prop :=
  lo_state lo' = lo_state lo /\ lo_backing_file lo' = lo_backing_file lo
  /\ lo_backing_virt_file lo' = lo_backing_virt_file lo
  /\ lo_device lo' = lo_device lo
  /\ lo_offset lo' = lo_offset lo /\ lo_sizelimit lo' = lo_sizelimit lo
  /\ lo_encrypt_key_size lo' = lo_encrypt_key_size lo
  /\ lo_encrypt_key lo' = lo_encrypt_key lo
  /\ lo_key_owner lo' = lo_key_owner lo
  /\ transfer lo' = transfer lo /\ ioctl lo' = ioctl lo
  /\ lo_encryption lo' = lo_encryption lo
  /\ lo_file_name lo' = lo_file_name lo /\ lo_crypt_name lo' = lo_crypt_name lo
  /\ lo_number lo' = lo_number lo /\ lo_refcnt lo' = lo_refcnt lo
  /\ lo_init lo' = lo_init lo.

(** The flag word [loop_set_status] computes from the flags the device had
    and the ones the caller passed. *)
Definition merged_flags (prev new : Z) : Z :=
  Z.lor (Z.lor (Z.land new LOOP_SET_STATUS_SETTABLE_FLAGS)
               (Z.land prev (not32 LOOP_SET_STATUS_SETTABLE_FLAGS)))
        (Z.land prev (not32 LOOP_SET_STATUS_CLEARABLE_FLAGS)).

(** A status selecting the XOR transfer with a 4-byte key, an offset of
    4096 and a size limit of 8192, and both names filled. *)
Definition info_sample : loop_info64 :=
  {| info_lo_device := 0; info_lo_inode := 0; info_lo_rdevice := 0;
     info_lo_offset := 4096; info_lo_sizelimit := 8192; info_lo_number := 0;
     info_lo_encrypt_type := LO_CRYPT_XOR; info_lo_encrypt_key_size := 4;
     info_lo_flags := LO_FLAGS_AUTOCLEAR;
     info_lo_file_name := replicate 64 97;
     info_lo_crypt_name := replicate 64 98;
     info_lo_encrypt_key := replicate 32 90; info_lo_init := (0, 0) |}.

Definition stat_sample : kstat :=
  {| getattr_err := 0; st_dev := 2049; st_ino := 12; st_rdev := 0 |}.

(** [lo_bound] once its owner (uid 1000) selected the XOR transfer with
    [info_sample]. *)
Definition lo_keyed : loop_device :=
  (loop_set_status xfer_funcs_init (env_ok (image_file 1048576)) lo_bound
     info_sample).2.

(** A call by another user, without [CAP_SYS_ADMIN]. *)
Definition env_other_user : configure_env :=
  {| fget_file := None; real_file := None; claim_err := 0; lock_err := 0;
     validate_err := 0; block_size_err := fun _ => 0; workqueue_ok := true;
     sysfs_ok := true; current_uid := 1001; capable_admin := false; nrpages := 0 |}.

(** [lo_bound] when it was configured read-only. *)
Definition lo_bound_ro : loop_device :=
  set_lo_refcnt 1
    (loop_configure xfer_funcs_init 0 (env_ok (image_file 1048576)) lo_fresh
       FMODE_WRITE 7
       (config_of
          {| info_lo_device := 0; info_lo_inode := 0; info_lo_rdevice := 0;
             info_lo_offset := 0; info_lo_sizelimit := 0; info_lo_number := 0;
             info_lo_encrypt_type := 0; info_lo_encrypt_key_size := 0;
             info_lo_flags := LO_FLAGS_READ_ONLY;
             info_lo_file_name := zeros LO_NAME_SIZE;
             info_lo_crypt_name := zeros LO_NAME_SIZE;
             info_lo_encrypt_key := zeros LO_KEY_SIZE; info_lo_init := (0, 0) |})).2.

(** Another image of the same size, and one that is larger. *)
Definition image_file_2 (size : Z) : file :=
  {| f_ident := 2; f_mode_write := true; f_o_direct := false;
     f_op_write_iter := true; f_op_fsync := true;
     f_op_fallocate := None; a_ops_direct_IO := false;
     f_gfp_mask := 0; i_size := size; i_isblk := false; s_bdev_lbs := Some 512;
     s_bdev_nonrot := true; statfs_err := 0; statfs_bsize := 4096;
     bq_max_write_zeroes_sectors := 0; bq_discard_granularity := 0;
     bq_physical_block_size := 0 |}.

(** [n] calls of [lo_release] in a row: the device after the last. *)
Fixpoint lo_release_n (part_shift : Z) (n : nat) (lo : loop_device) : loop_device :=
  match n with
  | O => lo
  | S k => lo_release_n part_shift k (lo_release part_shift lo).2
  end.

(** ** Requests and files for the examples *)

(** A backing file of 2048 bytes holding 0, 1, ..., 255, 0, 1, ... *)
Definition file_2048 : list Z := map (fun i => Z.of_nat i mod 256) (seq 0 2048).

(** A kernel in which pages can be allocated and writes go through. *)
Definition io_env_ok : io_env :=
  {| io_write := vfs_iter_write; io_page := Some (replicate 4096 0);
     io_kmalloc_ok := true; io_fsync_ret := 0 |}.

(** A read of 1024 bytes at sector 1, in two bios and three segments. *)
Definition rq_read_1024 : blk_rq :=
  {| rq_op := REQ_OP_READ; rq_nounmap := false; rq_sector := 1; rq_data_len := 1024;
     rq_bios := [[replicate 512 255]; [replicate 256 255; replicate 256 255]] |}.

(** A write of 1024 bytes at sector 1, in one bio of two segments. *)
Definition rq_write_1024 : blk_rq :=
  {| rq_op := REQ_OP_WRITE; rq_nounmap := false; rq_sector := 1; rq_data_len := 1024;
     rq_bios := [[replicate 512 170; replicate 512 85]] |}.

(** A read of the same shape. *)
Definition rq_read_same : blk_rq :=
  {| rq_op := REQ_OP_READ; rq_nounmap := false; rq_sector := 1; rq_data_len := 1024;
     rq_bios := [[replicate 512 0; replicate 512 0]] |}.

(** The bytes of a segment combined with the key the way [transfer_xor]
    combines them: byte [i] with key byte [(i & 511) % keysize]. *)
Definition xor_bytes (key : list Z) (keysize : Z) (buf : list Z) : list Z :=
  imap (fun i v =>
          to_char (Z.lxor v (byte_at key (Z.rem (Z.land (Z.of_nat i) 511) keysize))))
       buf.

(** [lo_bound] with the XOR transfer selected by [info_crypt]: offset 0 and
    a 4-byte key. *)
Definition lo_xor : loop_device :=
  (loop_set_status xfer_funcs_init (env_ok (image_file 1048576)) lo_bound
     (info_crypt LO_CRYPT_XOR 4)).2.

(** A write of twelve bytes at sector 0 in two segments, and a read of the
    same shape. *)
Definition rq_write_12 : blk_rq :=
  {| rq_op := REQ_OP_WRITE; rq_nounmap := false; rq_sector := 0; rq_data_len := 12;
     rq_bios := [[[1; 2; 3; 4]; [5; 6; 7; 8; 9; 10; 11; 12]]] |}.

Definition rq_read_12 : blk_rq :=
  {| rq_op := REQ_OP_READ; rq_nounmap := false; rq_sector := 0; rq_data_len := 12;
     rq_bios := [[[0; 0; 0; 0]; [0; 0; 0; 0; 0; 0; 0; 0]]] |}.

(** A command carried out by the buffered paths, for request 1. *)
Definition cmd_sync : loop_cmd :=
  {| cmd_rq := 1; use_aio := false; blkcg_css := 0; memcg_css := 0 |}.

(** A discard of 1024 bytes at sector 1. *)
Definition rq_discard_1024 : blk_rq :=
  {| rq_op := REQ_OP_DISCARD; rq_nounmap := false; rq_sector := 1;
     rq_data_len := 1024; rq_bios := [] |}.

(** A registry in which no device is bound, with the file numbered 100
    being the node of device 7. *)
Definition loop_rdev_sample (f : file) : option Z :=
  if f_ident f =? 100 then Some 7 else None.

Definition lo_of_fresh (rdev : Z) : loop_device := lo_fresh.

(** ** Predicates on the index of devices *)

(** The device stored under an id has that id as its number. *)
Definition idr_numbered (t : list (option idr_entry)) : Prop :=
  forall id ent, idr_find t id = Some ent -> lo_number (ent_lo ent) = id.

(** A device [loop_control_get_free] may hand out. *)
Definition ent_free (ent : idr_entry) : bool :=
  idr_visible ent && lo_state_eqb (lo_state (ent_lo ent)) Lo_unbound.

(** A kernel in which nothing fails while a device is added. *)
Definition add_env_ok : add_env :=
  {| add_kzalloc_ok := true; ctl_lock_err := 0; idr_nomem := false;
     tag_set_err := 0; alloc_disk_err := 0 |}.

(** An index holding devices 0 and 2, the first of them bound. *)
Definition idr_sample : list (option idr_entry) :=
  [Some {| ent_lo := lo_bound; idr_visible := true |};
   None;
   Some {| ent_lo := loop_add_device 0 2; idr_visible := true |}].

(** Direct I/O is possible on a bound device whose [use_dio] is set: the
    backing file supports direct I/O, no transfer is selected, the offset is
    aligned to the block size of the file system's device and the loop
    device's block size is not below it. *)
Definition dio_sound (lo : loop_device) : Prop :=
  lo_state lo = Lo_bound -> use_dio lo = true ->
  exists f,
    lo_backing_file lo = Some f
    /\ a_ops_direct_IO f = true /\ transfer lo = None
    /\ match s_bdev_lbs f with Some b => b | None => 0 end
       <= logical_block_size (lo_queue lo)
    /\ Z.land (lo_offset lo)
         (match s_bdev_lbs f with Some b => wrap_u32 (b - 1) | None => 0 end) = 0.

(** What [__loop_update_dio] checked holds on a bound device whose [use_dio]
    is set: as [dio_sound], with the block size of the file system's device
    taken as the [unsigned short] the function keeps it in. *)
Definition dio_checked (lo : loop_device) : Prop :=
  lo_state lo = Lo_bound -> use_dio lo = true ->
  exists f,
    lo_backing_file lo = Some f
    /\ a_ops_direct_IO f = true /\ transfer lo = None
    /\ match s_bdev_lbs f with Some b => wrap_u 16 b | None => 0 end
       <= logical_block_size (lo_queue lo)
    /\ Z.land (lo_offset lo)
         (match s_bdev_lbs f with
          | Some b => wrap_u32 (wrap_u 16 b - 1)
          | None => 0
          end) = 0.

(** [image_file] on a device with blocks of 65536 bytes. *)
Definition file_wide_blocks (size : Z) : file :=
  {| f_ident := 1; f_mode_write := true; f_o_direct := false;
     f_op_write_iter := true; f_op_fsync := true;
     f_op_fallocate := Some (fun _ _ _ => 0); a_ops_direct_IO := true;
     f_gfp_mask := 0; i_size := size; i_isblk := false; s_bdev_lbs := Some 65536;
     s_bdev_nonrot := true; statfs_err := 0; statfs_bsize := 4096;
     bq_max_write_zeroes_sectors := 0; bq_discard_granularity := 0;
     bq_physical_block_size := 0 |}.

(** A bound device with direct I/O on. *)
Definition lo_bound_dio : loop_device :=
  (loop_set_dio lo_bound 1).2.

(** A kernel in which nothing fails while the module is loaded. *)
Definition init_env_ok : init_env :=
  {| misc_register_err := 0; register_blkdev_err := 0;
     init_add_env := fun _ => add_env_ok |}.

(** A call of [loop_add] during which nothing fails. *)
Definition add_env_succeeds (e : add_env) : Prop :=
  add_kzalloc_ok e = true /\ ctl_lock_err e = 0 /\ idr_nomem e = false
  /\ tag_set_err e = 0 /\ alloc_disk_err e = 0.

(* ================================================================== *)
(** * Properties *)
(* ================================================================== *)

(** ** Fixed-width arithmetic *)

Lemma wrap_s64_small (z : Z) : - 2 ^ 63 <= z < 2 ^ 63 -> wrap_s64 z = z.
Proof.
  intros H. unfold wrap_s64, wrap_s.
  change (2 ^ (64 - 1)) with (2 ^ 63).
  rewrite Z.mod_small; lia.
Qed.

(** ** transfer_xor *)

Lemma xor_loop_length key ks inb ioff n : forall out ooff i,
  length (xor_loop key ks inb ioff out ooff i n) = length out.
Proof.
  induction n as [|n IH]; intros out ooff i; simpl; [reflexivity|].
  rewrite IH. apply length_insert.
Qed.

(** What one run of the loop leaves in the output page. *)
Lemma xor_loop_lookup key ks inb ioff n : forall out ooff i (j : nat),
  0 <= ooff -> 0 <= i ->
  xor_loop key ks inb ioff out ooff i n !! j =
    if decide (Z.to_nat (ooff + i) <= j < Z.to_nat (ooff + i) + n)%nat
    then (fun _ => to_char (Z.lxor (byte_at inb (ioff + (Z.of_nat j - ooff)))
                     (byte_at key (Z.rem (Z.land (Z.of_nat j - ooff) 511) ks))))
           <$> out !! j
    else out !! j.
Proof.
  induction n as [|n IH]; intros out ooff i j Hoff Hi; simpl.
  - case_decide; [lia | reflexivity].
  - rewrite IH by lia.
    replace (Z.to_nat (ooff + (i + 1))) with (S (Z.to_nat (ooff + i))) by lia.
    destruct (decide (j = Z.to_nat (ooff + i))) as [->|Hne].
    + rewrite decide_False by lia. rewrite decide_True by lia.
      destruct (decide (Z.to_nat (ooff + i) < length out)%nat) as [Hlt|Hge].
      * rewrite list_lookup_insert_eq by assumption.
        destruct (lookup_lt_is_Some_2 out _ Hlt) as [x ->]. simpl.
        replace (Z.of_nat (Z.to_nat (ooff + i)) - ooff) with i by lia.
        reflexivity.
      * rewrite list_insert_ge by lia.
        rewrite (lookup_ge_None_2 out) by lia. reflexivity.
    + rewrite list_lookup_insert_ne by lia.
      repeat case_decide; try lia; reflexivity.
Qed.

Lemma to_char_id v : is_char v -> to_char v = v.
Proof.
  intros H. unfold to_char. change 255 with (Z.ones 8).
  rewrite Z.land_ones by lia. apply Z.mod_small. unfold is_char in H. lia.
Qed.

Lemma to_char_xor_twice v k : to_char (Z.lxor (to_char (Z.lxor v k)) k) = to_char v.
Proof.
  unfold to_char. apply Z.bits_inj'. intros n Hn.
  rewrite !Z.land_spec, !Z.lxor_spec, !Z.land_spec, !Z.lxor_spec.
  destruct (Z.testbit v n), (Z.testbit k n), (Z.testbit 255 n); reflexivity.
Qed.

(** ** get_size *)

Example get_size_short_file : get_size 4096 0 100 = 0.
Proof. reflexivity. Qed.

Example get_size_limit : get_size 512 2048 1048576 = 4.
Proof. reflexivity. Qed.

(** ** C10: the XOR transfer undoes itself *)

(** A WRITE transfer stores, at every index it covers, the data byte XORed
    with the key byte selected by the index alone. *)
Lemma transfer_xor_write_bytes (key : list Z) (keysize : Z) (raw : list Z) (raw_off : Z)
    (loop : list Z) (loop_off size real_block i : Z) :
  0 <= raw_off -> 0 <= i < size ->
  raw_off + size <= Z.of_nat (length raw) ->
  byte_at (transfer_xor key keysize WRITE raw raw_off loop loop_off size real_block).1.2
          (raw_off + i)
  = to_char (Z.lxor (byte_at loop (loop_off + i))
                    (byte_at key (Z.rem (Z.land i 511) keysize))).
Proof.
  intros Hoff Hi Hlen. unfold transfer_xor. simpl.
  unfold byte_at at 1. rewrite xor_loop_lookup by lia.
  rewrite decide_True by lia.
  destruct (lookup_lt_is_Some_2 raw (Z.to_nat (raw_off + i))) as [x ->]; [lia|].
  simpl. replace (Z.of_nat (Z.to_nat (raw_off + i)) - raw_off) with i by lia.
  reflexivity.
Qed.

(** C10.  With a key of positive length, transferring a buffer in the WRITE
    direction stores in the raw page, at every index covered, the buffer's
    byte XORed with the key byte at index [(i & 511) % keysize]; and
    transferring the raw page back in the READ direction (same key, offsets
    and size; any block numbers) into any page at all writes there the
    bytes the buffer held, byte for byte, touches nothing outside the range
    and leaves the raw page as written. *)
Theorem transfer_xor_write_then_read (key : list Z) (keysize : Z) (raw : list Z)
    (raw_off : Z) (loop dst : list Z) (loop_off size block_w block_r : Z) :
  0 < keysize ->
  0 <= raw_off -> 0 <= loop_off -> 0 <= size ->
  raw_off + size <= Z.of_nat (length raw) ->
  loop_off + size <= Z.of_nat (length loop) ->
  loop_off + size <= Z.of_nat (length dst) ->
  Forall is_char loop ->
  let w := transfer_xor key keysize WRITE raw raw_off loop loop_off size block_w in
  let r := transfer_xor key keysize READ w.1.2 raw_off dst loop_off size block_r in
  w.1.1 = 0 /\ r.1.1 = 0
  /\ (forall i, 0 <= i < size ->
       byte_at w.1.2 (raw_off + i)
       = to_char (Z.lxor (byte_at loop (loop_off + i))
                         (byte_at key (Z.rem (Z.land i 511) keysize))))
  /\ take (Z.to_nat size) (drop (Z.to_nat loop_off) r.2)
     = take (Z.to_nat size) (drop (Z.to_nat loop_off) loop)
  /\ take (Z.to_nat loop_off) r.2 = take (Z.to_nat loop_off) dst
  /\ drop (Z.to_nat (loop_off + size)) r.2 = drop (Z.to_nat (loop_off + size)) dst
  /\ length r.2 = length dst
  /\ r.1.2 = w.1.2.
Proof.
  intros Hks Hro Hlo Hsz Hlen Hll Hld Hchar. cbv zeta.
  split; [reflexivity|]. split; [reflexivity|]. split.
  { intros i Hi. apply transfer_xor_write_bytes; lia. }
  assert (Hr : forall j : nat,
            (transfer_xor key keysize READ
               (transfer_xor key keysize WRITE raw raw_off loop loop_off size
                  block_w).1.2 raw_off dst loop_off size block_r).2 !! j
            = if decide (Z.to_nat loop_off <= j < Z.to_nat loop_off + Z.to_nat size)%nat
              then loop !! j else dst !! j).
  { intros j. unfold transfer_xor; cbn [Z.eqb READ WRITE fst snd].
    rewrite xor_loop_lookup by lia. rewrite Z.add_0_r.
    case_decide as Hj; [|reflexivity].
    destruct (lookup_lt_is_Some_2 dst j) as [d ->]; [lia|].
    destruct (lookup_lt_is_Some_2 loop j) as [x Hx]; [lia|].
    rewrite Hx. cbn [fmap option_fmap option_map]. f_equal.
    set (i := Z.of_nat j - loop_off).
    assert (Hi : 0 <= i < size) by (unfold i; lia).
    unfold byte_at at 1. rewrite xor_loop_lookup by lia.
    rewrite decide_True by lia.
    destruct (lookup_lt_is_Some_2 raw (Z.to_nat (raw_off + i))) as [y ->]; [lia|].
    cbn [fmap option_fmap option_map default].
    replace (Z.of_nat (Z.to_nat (raw_off + i)) - raw_off) with i by lia.
    replace (byte_at loop (loop_off + i)) with x.
    - unfold id. rewrite to_char_xor_twice. apply to_char_id.
      eapply Forall_lookup_1; eassumption.
    - unfold byte_at. replace (Z.to_nat (loop_off + i)) with j by (unfold i; lia).
      rewrite Hx. reflexivity. }
  repeat split.
  - apply list_eq. intros j. rewrite !lookup_take, !lookup_drop.
    destruct (decide (j < Z.to_nat size)%nat); [|reflexivity].
    rewrite Hr. rewrite decide_True by lia. reflexivity.
  - apply list_eq. intros j. rewrite !lookup_take.
    destruct (decide (j < Z.to_nat loop_off)%nat); [|reflexivity].
    rewrite Hr. rewrite decide_False by lia. reflexivity.
  - apply list_eq. intros j. rewrite !lookup_drop.
    rewrite Hr. rewrite decide_False by lia. reflexivity.
  - unfold transfer_xor; cbn [Z.eqb READ WRITE fst snd]. apply xor_loop_length.
Qed.

Lemma transfer_xor_write_then_read_witness :
  let key := [90; 165; 60] in
  let w := transfer_xor key 3 WRITE [0; 0; 0; 0; 0; 0] 1 [7; 8; 9; 10; 255] 1 4 0 in
  let r := transfer_xor key 3 READ w.1.2 1 [1; 2; 3; 4; 5; 6] 1 4 5 in
  w.1.1 = 0 /\ r.1.1 = 0
  /\ (forall i, 0 <= i < 4 ->
       byte_at w.1.2 (1 + i)
       = to_char (Z.lxor (byte_at [7; 8; 9; 10; 255] (1 + i))
                         (byte_at key (Z.rem (Z.land i 511) 3))))
  /\ take (Z.to_nat 4) (drop (Z.to_nat 1) r.2)
     = take (Z.to_nat 4) (drop (Z.to_nat 1) [7; 8; 9; 10; 255])
  /\ take (Z.to_nat 1) r.2 = take (Z.to_nat 1) [1; 2; 3; 4; 5; 6]
  /\ drop (Z.to_nat (1 + 4)) r.2 = drop (Z.to_nat (1 + 4)) [1; 2; 3; 4; 5; 6]
  /\ length r.2 = length [1; 2; 3; 4; 5; 6]
  /\ r.1.2 = w.1.2.
Proof.
  apply (transfer_xor_write_then_read [90; 165; 60] 3 [0; 0; 0; 0; 0; 0] 1
           [7; 8; 9; 10; 255] [1; 2; 3; 4; 5; 6] 1 4 0 5).
  - lia.
  - lia.
  - lia.
  - lia.
  - simpl. lia.
  - simpl. lia.
  - simpl. lia.
  - repeat constructor; unfold is_char; lia.
Defined.

(** What the two transfers of the witness leave in the raw page and in the
    page read into. *)
Example transfer_xor_read_back :
  (transfer_xor [90; 165; 60] 3 READ [0; 82; 172; 54; 165; 0] 1
     [1; 2; 3; 4; 5; 6] 1 4 5).2
  = [1; 8; 9; 10; 255; 6].
Proof. reflexivity. Qed.

Example transfer_xor_scrambles :
  (transfer_xor [90; 165; 60] 3 WRITE [0; 0; 0; 0; 0; 0] 1 [7; 8; 9; 10; 255] 1 4 0).1.2
  = [0; 82; 172; 54; 165; 0].
Proof. reflexivity. Qed.

(** ** C5: the capacity published by a configure *)

(** [get_size] on the values a configured device can hold. *)
Lemma get_size_clamp (offset sizelimit i_size : Z) :
  0 <= offset <= LLONG_MAX -> 0 <= sizelimit -> 0 <= i_size <= LLONG_MAX ->
  get_size offset sizelimit i_size =
    Z.shiftr (let avail := Z.max 0 (i_size - offset) in
              if 0 <? sizelimit then Z.min avail sizelimit else avail) 9.
Proof.
  unfold LLONG_MAX. intros Ho Hs Hi. unfold get_size.
  assert (Hw : (if 0 <? offset then wrap_s64 (i_size - offset) else i_size)
               = i_size - offset).
  { destruct (0 <? offset) eqn:E.
    - apply wrap_s64_small. lia.
    - apply Z.ltb_ge in E. lia. }
  rewrite Hw. cbv zeta.
  destruct (i_size - offset <? 0) eqn:Eneg.
  - apply Z.ltb_lt in Eneg. rewrite Z.max_l by lia.
    destruct (0 <? sizelimit) eqn:El; [|reflexivity].
    apply Z.ltb_lt in El. rewrite Z.min_l by lia. reflexivity.
  - apply Z.ltb_ge in Eneg. rewrite Z.max_r by lia.
    destruct (0 <? sizelimit) eqn:El; simpl.
    + destruct (sizelimit <? i_size - offset) eqn:Elt.
      * apply Z.ltb_lt in Elt. rewrite Z.min_r by lia. reflexivity.
      * apply Z.ltb_ge in Elt. rewrite Z.min_l by lia. reflexivity.
    + reflexivity.
Qed.

Lemma get_size_beyond_eof (offset sizelimit i_size : Z) :
  0 <= offset <= LLONG_MAX -> 0 <= sizelimit -> 0 <= i_size <= offset ->
  get_size offset sizelimit i_size = 0.
Proof.
  intros Ho Hs Hi. rewrite get_size_clamp by (unfold LLONG_MAX in *; lia).
  cbv zeta. rewrite Z.max_l by lia.
  destruct (0 <? sizelimit) eqn:El; [|reflexivity].
  apply Z.ltb_lt in El. rewrite Z.min_l by lia. reflexivity.
Qed.

(** ** Frames: what each step of a configuration leaves alone *)

Lemma same_binding_refl lo : same_binding lo lo.
Proof. unfold same_binding; tauto. Qed.

Lemma same_settings_refl lo : same_settings lo lo.
Proof. unfold same_settings; tauto. Qed.

Lemma same_binding_trans a b c : same_binding a b -> same_binding b c -> same_binding a c.
Proof. unfold same_binding. intuition congruence. Qed.

Lemma same_settings_trans a b c :
  same_settings a b -> same_settings b c -> same_settings a c.
Proof. unfold same_settings. intuition congruence. Qed.

Create HintDb loop.
#[local] Hint Resolve same_binding_refl same_settings_refl : loop.

Lemma loop_release_xfer_frame (lo : loop_device) :
  same_binding lo (loop_release_xfer lo).2
  /\ same_settings lo (loop_release_xfer lo).2
  /\ (lo_encryption lo = None -> loop_release_xfer lo = (0, lo))
  /\ lo_encryption (loop_release_xfer lo).2 = None.
Proof.
  unfold loop_release_xfer, same_binding, same_settings.
  destruct (lo_encryption lo) eqn:E; cbn; repeat split; auto; discriminate.
Qed.

Lemma loop_init_xfer_frame (lo : loop_device) (xfer : option loop_func_table)
    (i : loop_info64) :
  let r := loop_init_xfer lo xfer i in
  same_binding lo r.2 /\ same_settings lo r.2
  /\ (r.1 <> 0 -> r.2 = lo)
  /\ (r.1 = 0 -> xfer = None -> r.2 = lo)
  /\ (r.1 = 0 -> forall x, xfer = Some x ->
        r.2 = set_lo_encryption (Some x) lo
        /\ match xfer_init x with Some init => init i = 0 | None => True end).
Proof.
  unfold loop_init_xfer, same_binding, same_settings. destruct xfer as [x|]; cbn.
  - destruct (owner_live x); cbn.
    + destruct (xfer_init x) as [init|] eqn:Einit; cbn.
      * destruct (init i =? 0) eqn:E; cbn.
        -- apply Z.eqb_eq in E.
           repeat split; intros; simplify_eq; rewrite ?Einit; auto.
        -- apply Z.eqb_neq in E.
           repeat split; intros; simplify_eq; auto.
      * repeat split; intros; simplify_eq; rewrite ?Einit; auto.
    + unfold EINVAL. repeat split; intros; simplify_eq; auto; lia.
  - repeat split; intros; simplify_eq; auto.
Qed.

Lemma loop_set_status_assign_fields lo info xfer uid :
  let lo' := loop_set_status_assign lo info xfer uid in
  same_binding lo lo'
  /\ lo_offset lo' = info_lo_offset info
  /\ lo_sizelimit lo' = info_lo_sizelimit info
  /\ lo_flags lo' = info_lo_flags info
  /\ lo_encrypt_key_size lo' = info_lo_encrypt_key_size info
  /\ lo_encryption lo' = lo_encryption lo
  /\ transfer lo' = match xfer with Some x => xfer_transfer x | None => None end.
Proof.
  unfold loop_set_status_assign, same_binding.
  destruct (negb (info_lo_encrypt_key_size info =? 0)), xfer; cbn; tauto.
Qed.

(** Every way [loop_set_status_from_info] can end. *)
Lemma loop_set_status_from_info_cases xfer_funcs lo info uid e lo' :
  loop_set_status_from_info xfer_funcs lo info uid = (e, lo') ->
  same_binding lo lo'
  /\ (e <> 0 ->
        same_settings lo lo'
        /\ (lo_encryption lo = None ->
              lo' = lo
              \/ (e = - EOVERFLOW
                  /\ exists x, selected_xfer xfer_funcs info = Some x
                               /\ lo' = set_lo_encryption (Some x) lo)))
  /\ (e = 0 ->
        lo_offset lo' = info_lo_offset info
        /\ lo_sizelimit lo' = info_lo_sizelimit info
        /\ lo_flags lo' = info_lo_flags info
        /\ lo_encrypt_key_size lo' = info_lo_encrypt_key_size info
        /\ info_lo_offset info <= LLONG_MAX
        /\ info_lo_sizelimit info <= LLONG_MAX
        /\ wrap_u32 (info_lo_encrypt_key_size info) <= LO_KEY_SIZE
        /\ lo_encryption lo' = selected_xfer xfer_funcs info
        /\ transfer lo' =
             match selected_xfer xfer_funcs info with
             | Some x => xfer_transfer x
             | None => None
             end
        /\ match selected_xfer xfer_funcs info with
           | Some x =>
               match xfer_init x with Some init => init info = 0 | None => True end
           | None => info_lo_encrypt_type info = 0
           end).
Proof.
  unfold loop_set_status_from_info. intros H.
  destruct (wrap_u32 (info_lo_encrypt_key_size info) >? LO_KEY_SIZE) eqn:Eks.
  { injection H as <- <-. unfold EINVAL. repeat split; auto with loop; lia. }
  rewrite Z.gtb_ltb in Eks. apply Z.ltb_ge in Eks.
  destruct (loop_release_xfer_frame lo) as (Hb1 & Hs1 & Hn1 & Henc1).
  destruct (loop_release_xfer lo) as [e1 lo1]. cbn [fst snd] in *.
  destruct (e1 =? 0) eqn:Ee1; cbn [negb] in H.
  2:{ apply Z.eqb_neq in Ee1. injection H as <- <-.
      split; [assumption|]. split; [|intros; lia].
      intros _. split; [assumption|].
      intros Hnone. specialize (Hn1 Hnone). injection Hn1 as -> ->. lia. }
  apply Z.eqb_eq in Ee1. subst e1.
  assert (Hlo1 : lo_encryption lo = None -> lo1 = lo).
  { intros Hnone. specialize (Hn1 Hnone). congruence. }
  clear Hn1. unfold selected_xfer.
  destruct (info_lo_encrypt_type info =? 0) eqn:Ety; cbn [negb andb] in H.
  - (* no transfer requested *)
    apply Z.eqb_eq in Ety. cbn [loop_init_xfer negb Z.eqb] in H.
    destruct ((info_lo_offset info >? LLONG_MAX)
              || (info_lo_sizelimit info >? LLONG_MAX)) eqn:Eov.
    + injection H as <- <-.
      split; [assumption|]. split; [|unfold EOVERFLOW; intros; lia].
      intros _. split; [assumption|]. intros Hnone. left. auto.
    + injection H as <- <-.
      apply orb_false_iff in Eov. destruct Eov as [Eo Es].
      rewrite Z.gtb_ltb in Eo, Es. apply Z.ltb_ge in Eo, Es.
      destruct (loop_set_status_assign_fields lo1 info None uid)
        as (Hb & Ho & Hsl & Hf & Hk & Hen & Ht).
      split; [eapply same_binding_trans; eassumption|].
      split; [intros; lia|]. intros _.
      repeat split; auto; congruence.
  - (* a transfer was requested *)
    destruct (wrap_u32 (info_lo_encrypt_type info) >=? MAX_LO_CRYPT) eqn:Erange.
    { injection H as <- <-.
      split; [assumption|]. split; [|unfold EINVAL; intros; lia].
      intros _. split; [assumption|]. intros Hnone. left. auto. }
    destruct (xfer_slot xfer_funcs (wrap_u32 (info_lo_encrypt_type info)))
      as [x|] eqn:Eslot.
    2:{ rewrite bool_decide_eq_false_2 in H by (intros [? ?]; discriminate).
        injection H as <- <-.
        split; [assumption|]. split; [|unfold EINVAL; intros; lia].
        intros _. split; [assumption|]. intros Hnone. left. auto. }
    rewrite bool_decide_eq_true_2 in H by eauto. cbn [negb] in H.
    destruct (loop_init_xfer_frame lo1 (Some x) info) as (Hb2 & Hs2 & He2 & _ & Hx2).
    destruct (loop_init_xfer lo1 (Some x) info) as [e2 lo2]. cbn [fst snd] in *.
    destruct (e2 =? 0) eqn:Ee2; cbn [negb] in H.
    2:{ apply Z.eqb_neq in Ee2. injection H as <- <-.
        specialize (He2 Ee2). subst lo2.
        split; [assumption|]. split; [|intros; lia].
        intros _. split; [assumption|]. intros Hnone. left. auto. }
    apply Z.eqb_eq in Ee2. subst e2.
    destruct (Hx2 eq_refl x eq_refl) as [Hlo2 Hinit]. clear Hx2 He2.
    destruct ((info_lo_offset info >? LLONG_MAX)
              || (info_lo_sizelimit info >? LLONG_MAX)) eqn:Eov.
    + injection H as <- <-.
      split; [eapply same_binding_trans; eassumption|].
      split; [|unfold EOVERFLOW; intros; lia].
      intros _. split; [eapply same_settings_trans; eassumption|].
      intros Hnone. right. split; [reflexivity|]. exists x.
      split; [reflexivity|]. rewrite Hlo2, (Hlo1 Hnone). reflexivity.
    + injection H as <- <-.
      apply orb_false_iff in Eov. destruct Eov as [Eo Es].
      rewrite Z.gtb_ltb in Eo, Es. apply Z.ltb_ge in Eo, Es.
      destruct (loop_set_status_assign_fields lo2 info (Some x) uid)
        as (Hb & Ho & Hsl & Hf & Hk & Hen & Ht).
      split; [eapply same_binding_trans; [|eassumption];
              eapply same_binding_trans; eassumption|].
      split; [intros; lia|]. intros _.
      repeat split; auto.
      rewrite Hen, Hlo2. reflexivity.
Qed.

(** Case analysis on the first conditional of the goal. *)
Ltac break_if :=
  match goal with
  | |- context [if ?b then _ else _] => destruct b eqn:?
  | |- context [match ?x with Some _ => _ | None => _ end] => destruct x eqn:?
  end.

Lemma same_core_refl lo : same_core lo lo.
Proof. unfold same_core; tauto. Qed.

Lemma same_core_trans a b c : same_core a b -> same_core b c -> same_core a c.
Proof. unfold same_core. intuition congruence. Qed.

Lemma loop_config_discard_core lo : same_core lo (loop_config_discard lo).
Proof.
  unfold loop_config_discard, same_core.
  destruct (lo_backing_file lo) as [f|] eqn:Ef; [|tauto].
  repeat break_if; cbn; rewrite ?Ef; tauto.
Qed.

(** Discard stays off whenever a key is configured. *)
Lemma loop_config_discard_keyed lo :
  lo_backing_file lo <> None -> lo_encrypt_key_size lo <> 0 ->
  queue_flag_discard (lo_queue (loop_config_discard lo)) = false.
Proof.
  intros Hf Hk. unfold loop_config_discard.
  destruct (lo_backing_file lo) as [f|]; [|congruence].
  apply Z.eqb_neq in Hk. rewrite Hk, andb_false_r. cbn [negb].
  rewrite orb_true_r. reflexivity.
Qed.

Lemma loop_update_rotational_core lo :
  same_core lo (loop_update_rotational lo)
  /\ queue_flag_discard (lo_queue (loop_update_rotational lo))
     = queue_flag_discard (lo_queue lo).
Proof.
  unfold loop_update_rotational, same_core.
  destruct (lo_backing_file lo) as [f|] eqn:Ef; [|tauto].
  cbn; rewrite ?Ef; tauto.
Qed.

Lemma __loop_update_dio_core lo dio :
  same_core lo (__loop_update_dio lo dio)
  /\ queue_flag_discard (lo_queue (__loop_update_dio lo dio))
     = queue_flag_discard (lo_queue lo).
Proof.
  unfold __loop_update_dio, same_core.
  destruct (lo_backing_file lo) as [f|] eqn:Ef; [|tauto].
  destruct (s_bdev_lbs f); repeat break_if; cbn; rewrite ?Ef; tauto.
Qed.

Lemma loop_update_dio_core lo :
  same_core lo (loop_update_dio lo)
  /\ queue_flag_discard (lo_queue (loop_update_dio lo))
     = queue_flag_discard (lo_queue lo).
Proof. apply __loop_update_dio_core. Qed.

(** What the tail of a successful [loop_configure] establishes. *)
Lemma loop_configure_commit_fields part_shift env lo bdev config virt_file f :
  let lo' := loop_configure_commit part_shift env lo bdev config virt_file f in
  lo_state lo' = Lo_bound
  /\ lo_backing_file lo' = Some f
  /\ lo_offset lo' = lo_offset lo /\ lo_sizelimit lo' = lo_sizelimit lo
  /\ lo_encrypt_key_size lo' = lo_encrypt_key_size lo
  /\ transfer lo' = transfer lo /\ lo_encryption lo' = lo_encryption lo
  /\ lo_refcnt lo' = lo_refcnt lo
  /\ capacity (lo_disk lo') = get_size (lo_offset lo) (lo_sizelimit lo) (i_size f)
  /\ (lo_encrypt_key_size lo <> 0 -> queue_flag_discard (lo_queue lo') = false).
Proof.
  unfold loop_configure_commit.
  match goal with
  | |- context [loop_config_discard ?x] => set (lo0 := x)
  end.
  assert (H0 : lo_state lo0 = lo_state lo /\ lo_backing_file lo0 = Some f
               /\ lo_offset lo0 = lo_offset lo /\ lo_sizelimit lo0 = lo_sizelimit lo
               /\ lo_encrypt_key_size lo0 = lo_encrypt_key_size lo
               /\ transfer lo0 = transfer lo /\ lo_encryption lo0 = lo_encryption lo
               /\ lo_refcnt lo0 = lo_refcnt lo).
  { subst lo0. repeat break_if; cbn; tauto. }
  destruct H0 as (S0 & F0 & O0 & L0 & K0 & T0 & E0 & R0).
  pose proof (loop_config_discard_core lo0) as C1.
  pose proof (loop_update_rotational_core (loop_config_discard lo0)) as [C2 D2].
  pose proof (loop_update_dio_core
                (loop_update_rotational (loop_config_discard lo0))) as [C3 D3].
  set (lo3 := loop_update_dio (loop_update_rotational (loop_config_discard lo0))) in *.
  assert (C : same_core lo0 lo3)
    by (eapply same_core_trans; [|exact C3]; eapply same_core_trans; eassumption).
  destruct C as (S & F & O & L & K & T & E & Dk & R).
  assert (D : lo_encrypt_key_size lo <> 0 -> queue_flag_discard (lo_queue lo3) = false).
  { intros Hk. rewrite D3, D2. apply loop_config_discard_keyed; congruence. }
  clearbody lo3. clear C1 C2 C3 D2 D3. clearbody lo0.
  unfold loop_set_size, get_loop_size.
  repeat break_if; cbn; rewrite ?O, ?L, ?O0, ?L0;
    repeat split; try congruence; auto.
Qed.

(** Every way [loop_configure] can end. *)
Lemma loop_configure_cases xfer_funcs part_shift env lo mode bdev config e lo' :
  loop_configure xfer_funcs part_shift env lo mode bdev config = (e, lo') ->
  (e <> 0
   /\ (lo' = lo
       \/ (lo_state lo = Lo_unbound
           /\ loop_set_status_from_info xfer_funcs lo (info config) (current_uid env)
              = (e, lo'))
       \/ (lo_state lo = Lo_unbound /\ e = - ENOMEM /\ workqueue_ok env = false
           /\ exists f virt lo1,
                configure_files env = Some (f, virt)
                /\ loop_set_status_from_info xfer_funcs lo (info config)
                     (current_uid env) = (0, lo1)
                /\ lo' = set_workqueue false (force_read_only f mode lo1))))
  \/ (e = 0 /\ lo_state lo = Lo_unbound /\ workqueue_ok env = true
      /\ exists f virt lo1,
           configure_files env = Some (f, virt)
           /\ loop_set_status_from_info xfer_funcs lo (info config)
                (current_uid env) = (0, lo1)
           /\ lo' = loop_configure_commit part_shift env
                      (set_workqueue true (force_read_only f mode lo1))
                      bdev config virt f).
Proof.
  unfold loop_configure, configure_files. intros H.
  destruct (fget_file env) as [file0|].
  2:{ injection H as <- <-. left. unfold EBADF. split; [lia|auto]. }
  set (fv := match real_file env with
             | Some f => (f, Some file0)
             | None => (file0, None)
             end) in *.
  destruct fv as [f virt] eqn:Efv.
  destruct (negb (flag_set mode FMODE_EXCL) && negb (claim_err env =? 0)) eqn:E1.
  { injection H as <- <-. left.
    apply andb_true_iff in E1. destruct E1 as [_ E1].
    apply negb_true_iff, Z.eqb_neq in E1. auto. }
  destruct (lock_err env =? 0) eqn:E2; cbn [negb] in H.
  2:{ injection H as <- <-. left. apply Z.eqb_neq in E2. auto. }
  destruct (lo_state_eqb (lo_state lo) Lo_unbound) eqn:E3; cbn [negb] in H.
  2:{ injection H as <- <-. left. unfold EBUSY. split; [lia|auto]. }
  assert (Hst : lo_state lo = Lo_unbound)
    by (destruct (lo_state lo); try discriminate; reflexivity).
  destruct (validate_err env =? 0) eqn:E4; cbn [negb] in H.
  2:{ injection H as <- <-. left. apply Z.eqb_neq in E4. auto. }
  match type of H with
  | (if negb ?c then _ else _) = _ => destruct c eqn:E5; cbn [negb] in H
  end.
  2:{ injection H as <- <-. left. unfold EINVAL. split; [lia|auto]. }
  match type of H with
  | (if ?c then _ else _) = _ => destruct c eqn:E6
  end.
  { injection H as <- <-. left.
    apply andb_true_iff in E6. destruct E6 as [_ E6].
    apply negb_true_iff, Z.eqb_neq in E6. auto. }
  destruct (loop_set_status_from_info xfer_funcs lo (info config) (current_uid env))
    as [e1 lo1] eqn:Einfo.
  destruct (e1 =? 0) eqn:E7; cbn [negb] in H.
  2:{ injection H as <- <-. left. apply Z.eqb_neq in E7. auto. }
  apply Z.eqb_eq in E7. subst e1.
  fold (force_read_only f mode lo1) in H.
  destruct (workqueue_ok env) eqn:E8; cbn in H.
  - injection H as <- <-. right. repeat split; auto.
    exists f, virt, lo1. auto.
  - injection H as <- <-. left. unfold ENOMEM. split; [lia|].
    right. right. repeat split; auto. exists f, virt, lo1. auto.
Qed.

Example lo_bound_state :
  lo_state lo_bound = Lo_bound /\ lo_backing_file lo_bound = Some (image_file 1048576)
  /\ capacity (lo_disk lo_bound) = 2048
  /\ queue_flag_discard (lo_queue lo_bound) = true.
Proof. vm_compute. auto. Qed.

(** The status of a configure does not depend on the size of the file. *)
Lemma loop_configure_status_any_size xfer_funcs part_shift env lo mode bdev config size :
  (loop_configure xfer_funcs part_shift (env_with_i_size size env) lo mode bdev config).1
  = (loop_configure xfer_funcs part_shift env lo mode bdev config).1.
Proof.
  unfold loop_configure, env_with_i_size.
  cbn [fget_file real_file claim_err lock_err validate_err block_size_err
       workqueue_ok current_uid].
  destruct (fget_file env) as [file0|]; cbn [fmap option_fmap option_map]; [|reflexivity].
  destruct (loop_set_status_from_info xfer_funcs lo (info config) (current_uid env))
    as [e1 lo1].
  destruct (real_file env) as [f|]; cbn [fmap option_fmap option_map].
  all: cbn [set_i_size f_mode_write f_op_write_iter].
  all: repeat match goal with
       | |- context [if ?b then _ else _] =>
           lazymatch b with
           | context [workqueue] => fail
           | _ => destruct b
           end
       end.
  all: cbn [workqueue set_workqueue].
  all: destruct (workqueue_ok env); cbn [fst negb]; reflexivity.
Qed.

(** C5.  A configure that succeeds over a backing file of [i_size] bytes
    with a given offset and size limit publishes as capacity the file size
    minus the offset, not below zero and not above a positive size limit,
    in 512-byte sectors.  Over a file that ends before the offset the
    capacity is 0, and the call succeeds whatever the size of the file. *)
Theorem loop_configure_capacity xfer_funcs part_shift env lo mode bdev config
    (f : file) (virt : option file) (lo' : loop_device) :
  configure_files env = Some (f, virt) ->
  0 <= info_lo_offset (info config) ->
  0 <= info_lo_sizelimit (info config) ->
  0 <= i_size f <= LLONG_MAX ->
  loop_configure xfer_funcs part_shift env lo mode bdev config = (0, lo') ->
  lo_backing_file lo' = Some f
  /\ capacity (lo_disk lo') =
       Z.shiftr
         (let avail := Z.max 0 (i_size f - info_lo_offset (info config)) in
          if 0 <? info_lo_sizelimit (info config)
          then Z.min avail (info_lo_sizelimit (info config)) else avail) 9
  /\ (i_size f <= info_lo_offset (info config) -> capacity (lo_disk lo') = 0)
  /\ (forall size,
        (loop_configure xfer_funcs part_shift (env_with_i_size size env)
           lo mode bdev config).1 = 0).
Proof.
  intros Hfiles Hoff Hlim Hsize Hcfg.
  assert (Hany : forall size,
            (loop_configure xfer_funcs part_shift (env_with_i_size size env)
               lo mode bdev config).1 = 0).
  { intros size. rewrite loop_configure_status_any_size, Hcfg. reflexivity. }
  destruct (loop_configure_cases _ _ _ _ _ _ _ _ _ Hcfg)
    as [[Hne _]|(_ & _ & _ & f' & virt' & lo1 & Hf' & Hinfo & ->)]; [lia|].
  rewrite Hfiles in Hf'. injection Hf' as <- <-.
  destruct (loop_set_status_from_info_cases _ _ _ _ _ _ Hinfo) as (_ & _ & Hok).
  destruct (Hok eq_refl) as (Ho & Hl & _ & _ & Homax & Hlmax & _).
  destruct (loop_configure_commit_fields part_shift env
              (set_workqueue true (force_read_only f mode lo1)) bdev config virt f)
    as (_ & Hfile & _ & _ & _ & _ & _ & _ & Hcap & _).
  assert (Ho' : lo_offset (set_workqueue true (force_read_only f mode lo1))
                = info_lo_offset (info config))
    by (unfold force_read_only; break_if; cbn; assumption).
  assert (Hl' : lo_sizelimit (set_workqueue true (force_read_only f mode lo1))
                = info_lo_sizelimit (info config))
    by (unfold force_read_only; break_if; cbn; assumption).
  rewrite Ho', Hl' in Hcap.
  split; [assumption|]. split; [|split; [|assumption]].
  - rewrite Hcap. apply get_size_clamp; lia.
  - intros Hshort. rewrite Hcap. apply get_size_beyond_eof; lia.
Qed.

Lemma loop_configure_capacity_witness :
  capacity (lo_disk (loop_configure xfer_funcs_init 0 (env_ok (image_file 100)) lo_fresh
                       FMODE_WRITE 7 (config_of (info_plain 4096 0))).2) = 0.
Proof.
  refine (proj1 (proj2 (proj2
    (loop_configure_capacity xfer_funcs_init 0 (env_ok (image_file 100)) lo_fresh
       FMODE_WRITE 7 (config_of (info_plain 4096 0)) (image_file 100) None _
       _ _ _ _ _))) _).
  - reflexivity.
  - simpl. lia.
  - simpl. lia.
  - unfold LLONG_MAX. simpl. lia.
  - vm_compute. reflexivity.
  - simpl. lia.
Defined.

(** ** The two locked regions of a teardown *)

Lemma __loop_clr_fd_locked1_proj (lo : loop_device) (f : file) :
  lo_state lo = Lo_rundown -> lo_backing_file lo = Some f ->
  (__loop_clr_fd_locked1 lo).1.1.1 = 0
  /\ (__loop_clr_fd_locked1 lo).1.2 = Some f
  /\ lo_state (__loop_clr_fd_locked1 lo).2 = Lo_rundown
  /\ lo_backing_file (__loop_clr_fd_locked1 lo).2 = None
  /\ lo_offset (__loop_clr_fd_locked1 lo).2 = 0
  /\ lo_sizelimit (__loop_clr_fd_locked1 lo).2 = 0
  /\ lo_encrypt_key_size (__loop_clr_fd_locked1 lo).2 = 0
  /\ transfer (__loop_clr_fd_locked1 lo).2 = None
  /\ lo_encryption (__loop_clr_fd_locked1 lo).2 = None
  /\ capacity (lo_disk (__loop_clr_fd_locked1 lo).2) = 0
  /\ lo_refcnt (__loop_clr_fd_locked1 lo).2 = lo_refcnt lo.
Proof.
  intros Hst Hf. destruct lo. cbn in Hst, Hf. subst.
  destruct lo_queue0 as [? ? wc ? ? ? ? ? ? ? ?].
  destruct lo_encryption0 as [x|], wc; vm_compute; repeat split; reflexivity.
Qed.

Lemma __loop_clr_fd_locked1_fields (lo : loop_device) (f : file) :
  lo_state lo = Lo_rundown -> lo_backing_file lo = Some f ->
  exists partscan lo1,
    __loop_clr_fd_locked1 lo = (0, partscan, Some f, lo1)
    /\ lo_state lo1 = Lo_rundown /\ lo_backing_file lo1 = None
    /\ lo_offset lo1 = 0 /\ lo_sizelimit lo1 = 0 /\ lo_encrypt_key_size lo1 = 0
    /\ transfer lo1 = None /\ lo_encryption lo1 = None
    /\ capacity (lo_disk lo1) = 0 /\ lo_refcnt lo1 = lo_refcnt lo.
Proof.
  intros Hst Hf. pose proof (__loop_clr_fd_locked1_proj lo f Hst Hf) as H.
  destruct (__loop_clr_fd_locked1 lo) as [[[e p] filp] lo1]. cbn [fst snd] in *.
  destruct H as (-> & -> & H). exists p, lo1. split; [reflexivity|exact H].
Qed.

Lemma __loop_clr_fd_locked2_fields (part_shift : Z) (lo : loop_device) :
  let lo2 := __loop_clr_fd_locked2 part_shift lo in
  lo_state lo2 = Lo_unbound /\ lo_flags lo2 = 0
  /\ lo_backing_file lo2 = lo_backing_file lo /\ lo_refcnt lo2 = lo_refcnt lo
  /\ lo_offset lo2 = lo_offset lo /\ lo_sizelimit lo2 = lo_sizelimit lo
  /\ lo_encrypt_key_size lo2 = lo_encrypt_key_size lo
  /\ transfer lo2 = transfer lo /\ lo_encryption lo2 = lo_encryption lo.
Proof.
  unfold __loop_clr_fd_locked2. destruct (part_shift =? 0); cbn; auto 10.
Qed.

(** A teardown entered in Rundown with a backing file attached: the device
    is in Rundown without a backing file when the first region unlocks, and
    Unbound without one on return. *)
Lemma __loop_clr_fd_rundown (part_shift : Z) (lo : loop_device) (release : bool) (f : file) :
  lo_state lo = Lo_rundown -> lo_backing_file lo = Some f ->
  exists lo1 lo2,
    __loop_clr_fd part_shift lo release = (0, [lo1; lo2], lo2)
    /\ lo_state lo1 = Lo_rundown /\ lo_backing_file lo1 = None
    /\ lo_state lo2 = Lo_unbound /\ lo_backing_file lo2 = None
    /\ lo_flags lo2 = 0 /\ lo_offset lo2 = 0 /\ lo_sizelimit lo2 = 0
    /\ lo_encryption lo2 = None /\ lo_refcnt lo2 = lo_refcnt lo.
Proof.
  intros Hst Hf.
  destruct (__loop_clr_fd_locked1_fields lo f Hst Hf)
    as (partscan & lo1 & H1 & S1 & F1 & O1 & L1 & K1 & T1 & E1 & C1 & R1).
  destruct (__loop_clr_fd_locked2_fields part_shift lo1)
    as (S2 & G2 & F2 & R2 & O2 & L2 & K2 & T2 & E2).
  exists lo1, (__loop_clr_fd_locked2 part_shift lo1).
  unfold __loop_clr_fd. rewrite H1.
  split; [destruct partscan; reflexivity|].
  repeat split; congruence.
Qed.

(** ** C1: the backing file and the lifecycle state *)

Lemma P1_same (lo lo' : loop_device) :
  lo_state lo' = lo_state lo -> lo_backing_file lo' = lo_backing_file lo ->
  P1 lo -> P1 lo'.
Proof. unfold P1. intros -> ->. tauto. Qed.

Lemma P1_P1_rundown (lo : loop_device) : P1 lo -> P1_rundown lo.
Proof. unfold P1, P1_rundown. intros [H1 H2]. split; auto. Qed.

Lemma P1_bound_file (lo : loop_device) :
  P1 lo -> lo_state lo = Lo_bound -> exists f, lo_backing_file lo = Some f.
Proof.
  unfold P1. intros [_ H] Hb. destruct (lo_backing_file lo) as [f|]; [eauto|].
  exfalso. apply H; auto.
Qed.

Lemma P1_unbound_none (lo : loop_device) :
  lo_state lo = Lo_unbound -> lo_backing_file lo = None -> P1 lo.
Proof. unfold P1. intros -> ->. split; [congruence|intros [?|?]; discriminate]. Qed.

Lemma P1_rundown_none (lo : loop_device) :
  lo_state lo = Lo_rundown -> lo_backing_file lo = None -> P1_rundown lo /\ ~ P1 lo.
Proof.
  unfold P1, P1_rundown. intros -> ->. split.
  - split; [congruence|discriminate].
  - intros [_ H]. apply H; auto.
Qed.

Lemma P1_rundown_state (lo : loop_device) : lo_state lo = Lo_rundown -> P1_rundown lo.
Proof. unfold P1_rundown. intros ->. split; [auto|discriminate]. Qed.

Lemma lo_state_eqb_eq (a b : lo_state_t) : lo_state_eqb a b = true <-> a = b.
Proof. destruct a, b; cbn; split; congruence. Qed.

Lemma P1_loop_configure xfer_funcs part_shift env lo mode bdev config :
  P1 lo -> P1 (loop_configure xfer_funcs part_shift env lo mode bdev config).2.
Proof.
  intros HP.
  destruct (loop_configure xfer_funcs part_shift env lo mode bdev config)
    as [e lo'] eqn:H. cbn [snd].
  destruct (loop_configure_cases _ _ _ _ _ _ _ _ _ H)
    as [(_ & [->|[(_ & Hinfo)|(_ & _ & _ & f & virt & lo1 & _ & Hinfo & ->)]])
       |(_ & _ & _ & f & virt & lo1 & _ & Hinfo & ->)].
  - assumption.
  - destruct (loop_set_status_from_info_cases _ _ _ _ _ _ Hinfo)
      as ((S & F & _) & _). eapply P1_same; eassumption.
  - destruct (loop_set_status_from_info_cases _ _ _ _ _ _ Hinfo)
      as ((S & F & _) & _).
    apply (P1_same lo); [| |assumption];
      unfold force_read_only; break_if; cbn; assumption.
  - destruct (loop_configure_commit_fields part_shift env
                (set_workqueue true (force_read_only f mode lo1)) bdev config virt f)
      as (S & F & _).
    unfold P1. rewrite S, F. split; [auto|congruence].
Qed.

Lemma P1_loop_clr_fd part_shift lock lo :
  P1 lo ->
  Forall P1_rundown (loop_clr_fd part_shift lock lo).1.2
  /\ P1 (loop_clr_fd part_shift lock lo).2.
Proof.
  intros HP. unfold loop_clr_fd.
  destruct (lock =? 0); cbn [negb]; [|cbn; auto].
  destruct (lo_state_eqb (lo_state lo) Lo_bound) eqn:Eb; cbn [negb].
  2:{ cbn. split; [apply Forall_cons_2; [apply P1_P1_rundown; assumption|apply Forall_nil_2]|assumption]. }
  apply lo_state_eqb_eq in Eb.
  destruct (lo_refcnt lo >? 1).
  { cbn [fst snd].
    assert (P1 (set_lo_flags (Z.lor (lo_flags lo) LO_FLAGS_AUTOCLEAR) lo))
      by (apply (P1_same lo); auto).
    split; [apply Forall_cons_2; [apply P1_P1_rundown; assumption|apply Forall_nil_2]|assumption]. }
  destruct (P1_bound_file lo HP Eb) as [f Hf].
  destruct (__loop_clr_fd_rundown part_shift (set_lo_state Lo_rundown lo) false f)
    as (lo1 & lo2 & -> & S1 & F1 & S2 & F2 & _); [reflexivity|exact Hf|].
  cbn [fst snd]. split; [|apply P1_unbound_none; assumption].
  apply Forall_cons_2; [apply P1_rundown_state; reflexivity|].
  apply Forall_cons_2; [apply P1_rundown_none; assumption|].
  apply Forall_cons_2; [apply P1_P1_rundown, P1_unbound_none; assumption|].
  apply Forall_nil_2.
Qed.

Lemma P1_lo_release part_shift lo :
  P1 lo ->
  Forall P1_rundown (lo_release part_shift lo).1 /\ P1 (lo_release part_shift lo).2.
Proof.
  intros HP. unfold lo_release.
  assert (HP' : P1 (set_lo_refcnt (lo_refcnt lo - 1) lo)) by (apply (P1_same lo); auto).
  set (lo0 := set_lo_refcnt (lo_refcnt lo - 1) lo) in *. clearbody lo0.
  destruct (lo_refcnt lo0 =? 0); cbn [negb].
  2:{ cbn. split; [apply Forall_cons_2; [apply P1_P1_rundown; assumption|apply Forall_nil_2]|assumption]. }
  destruct (flag_set (lo_flags lo0) LO_FLAGS_AUTOCLEAR).
  2:{ cbn. split; [apply Forall_cons_2; [apply P1_P1_rundown; assumption|apply Forall_nil_2]|assumption]. }
  destruct (lo_state_eqb (lo_state lo0) Lo_bound) eqn:Eb; cbn [negb].
  2:{ cbn. split; [apply Forall_cons_2; [apply P1_P1_rundown; assumption|apply Forall_nil_2]|assumption]. }
  apply lo_state_eqb_eq in Eb.
  destruct (P1_bound_file lo0 HP' Eb) as [f Hf].
  destruct (__loop_clr_fd_rundown part_shift (set_lo_state Lo_rundown lo0) true f)
    as (lo1 & lo2 & -> & S1 & F1 & S2 & F2 & _); [reflexivity|exact Hf|].
  cbn [fst snd]. split; [|apply P1_unbound_none; assumption].
  apply Forall_cons_2; [apply P1_rundown_state; reflexivity|].
  apply Forall_cons_2; [apply P1_rundown_none; assumption|].
  apply Forall_cons_2; [apply P1_P1_rundown, P1_unbound_none; assumption|].
  apply Forall_nil_2.
Qed.

Lemma P1___loop_clr_fd part_shift lo release :
  P1 lo -> lo_state lo = Lo_rundown ->
  Forall P1_rundown (__loop_clr_fd part_shift lo release).1.2
  /\ P1 (__loop_clr_fd part_shift lo release).2
  /\ exists lo1 lo2,
       (__loop_clr_fd part_shift lo release).1.2 = [lo1; lo2]
       /\ lo_state lo1 = Lo_rundown /\ lo_backing_file lo1 = None.
Proof.
  intros HP Hr.
  assert (exists f, lo_backing_file lo = Some f) as [f Hf].
  { destruct (lo_backing_file lo) as [f|] eqn:E; [eauto|].
    exfalso. apply HP; auto. }
  destruct (__loop_clr_fd_rundown part_shift lo release f Hr Hf)
    as (lo1 & lo2 & -> & S1 & F1 & S2 & F2 & _).
  cbn [fst snd]. split; [|split; [apply P1_unbound_none; assumption|]].
  - apply Forall_cons_2; [apply P1_rundown_none; assumption|].
    apply Forall_cons_2; [apply P1_P1_rundown, P1_unbound_none; assumption|].
    apply Forall_nil_2.
  - exists lo1, lo2. auto.
Qed.

(** C1 (as amended).  On a device that satisfies P1, [loop_configure],
    [loop_clr_fd], [lo_release] and a teardown entered in Rundown leave, at
    every release of [lo_mutex], a device whose backing file is set only in
    Bound or Rundown and is set in Bound; when the operation returns the
    device satisfies P1 again.  A teardown releases [lo_mutex] twice, the
    first time on a device in Rundown without a backing file. *)
Theorem P1_at_unlocks_and_returns (lo : loop_device) :
  P1 lo ->
  (forall xfer_funcs part_shift env mode bdev config,
     P1 (loop_configure xfer_funcs part_shift env lo mode bdev config).2)
  /\ (forall part_shift lock,
        Forall P1_rundown (loop_clr_fd part_shift lock lo).1.2
        /\ P1 (loop_clr_fd part_shift lock lo).2)
  /\ (forall part_shift,
        Forall P1_rundown (lo_release part_shift lo).1
        /\ P1 (lo_release part_shift lo).2)
  /\ (lo_state lo = Lo_rundown ->
      forall part_shift release,
        Forall P1_rundown (__loop_clr_fd part_shift lo release).1.2
        /\ P1 (__loop_clr_fd part_shift lo release).2
        /\ exists lo1 lo2,
             (__loop_clr_fd part_shift lo release).1.2 = [lo1; lo2]
             /\ lo_state lo1 = Lo_rundown /\ lo_backing_file lo1 = None).
Proof.
  intros HP. split; [|split; [|split]].
  - intros. apply P1_loop_configure. assumption.
  - intros. apply P1_loop_clr_fd. assumption.
  - intros. apply P1_lo_release. assumption.
  - intros. apply P1___loop_clr_fd; assumption.
Qed.

Lemma P1_lo_bound : P1 lo_bound.
Proof.
  unfold P1. split.
  - intros _. left. vm_compute. reflexivity.
  - intros _. vm_compute. discriminate.
Defined.

Lemma P1_at_unlocks_and_returns_witness :
  P1 lo_bound
  /\ Forall P1_rundown (loop_clr_fd 0 0 lo_bound).1.2
  /\ P1 (loop_clr_fd 0 0 lo_bound).2.
Proof.
  split; [exact P1_lo_bound|].
  exact (proj1 (proj2 (P1_at_unlocks_and_returns lo_bound P1_lo_bound)) 0 0).
Defined.

(** C1 as stated fails: [lo_bound] satisfies P1, and when the first locked
    region of its teardown releases [lo_mutex] the device is in Rundown with
    no backing file. *)
Lemma P1_fails_between_teardown_regions :
  P1 lo_bound
  /\ (loop_clr_fd 0 0 lo_bound).1.2 !! 1%nat = Some lo_mid_teardown
  /\ lo_state lo_mid_teardown = Lo_rundown
  /\ lo_backing_file lo_mid_teardown = None
  /\ ~ P1 lo_mid_teardown.
Proof.
  split; [exact P1_lo_bound|].
  split; [vm_compute; reflexivity|].
  assert (S : lo_state lo_mid_teardown = Lo_rundown) by (vm_compute; reflexivity).
  assert (F : lo_backing_file lo_mid_teardown = None) by (vm_compute; reflexivity).
  split; [exact S|]. split; [exact F|].
  apply P1_rundown_none; assumption.
Qed.

(** ** C2: what a failed configure leaves behind *)

(** C2 (as amended).  A [loop_configure] call that returns an error leaves
    the lifecycle state, the backing file, the queue and the disk as they
    were.  Unless the error is the [-ENOMEM] of a failed [alloc_workqueue],
    offset, size limit, flags, names and key are as they were too, and a
    device that had no transfer selected is untouched as long as the error
    is not [-EOVERFLOW].  The [-ENOMEM] of a failed [alloc_workqueue] comes
    back with offset, size limit and key size already taken from the
    configuration. *)
Theorem loop_configure_error xfer_funcs part_shift env lo mode bdev config
    (e : Z) (lo' : loop_device) :
  loop_configure xfer_funcs part_shift env lo mode bdev config = (e, lo') ->
  e <> 0 ->
  same_binding lo lo'
  /\ ((same_settings lo lo'
       /\ (lo_encryption lo = None -> e <> - EOVERFLOW -> lo' = lo))
      \/ (e = - ENOMEM /\ workqueue_ok env = false
          /\ lo_offset lo' = info_lo_offset (info config)
          /\ lo_sizelimit lo' = info_lo_sizelimit (info config)
          /\ lo_encrypt_key_size lo' = info_lo_encrypt_key_size (info config))).
Proof.
  intros H He.
  destruct (loop_configure_cases _ _ _ _ _ _ _ _ _ H)
    as [(_ & [->|[(_ & Hinfo)|(_ & -> & Hwq & f & virt & lo1 & _ & Hinfo & ->)]])
       |(-> & _)]; [| | |lia].
  - split; [apply same_binding_refl|]. left.
    split; [apply same_settings_refl|auto].
  - destruct (loop_set_status_from_info_cases _ _ _ _ _ _ Hinfo) as (Hb & Herr & _).
    destruct (Herr He) as [Hs Hnone].
    split; [assumption|]. left. split; [assumption|].
    intros Henc Hov. destruct (Hnone Henc) as [->|[-> _]]; [reflexivity|lia].
  - destruct (loop_set_status_from_info_cases _ _ _ _ _ _ Hinfo) as (Hb & _ & Hok).
    destruct (Hok eq_refl) as (Ho & Hl & _ & Hk & _).
    split.
    + unfold same_binding in *.
      unfold force_read_only; break_if; cbn; exact Hb.
    + right. split; [reflexivity|]. split; [assumption|].
      unfold force_read_only; break_if; cbn; auto.
Qed.

Lemma loop_configure_error_witness :
  same_binding lo_fresh configure_xor_no_key.2
  /\ ((same_settings lo_fresh configure_xor_no_key.2
       /\ (lo_encryption lo_fresh = None -> - EINVAL <> - EOVERFLOW ->
           configure_xor_no_key.2 = lo_fresh))
      \/ (- EINVAL = - ENOMEM /\ workqueue_ok (env_ok (image_file 1048576)) = false
          /\ lo_offset configure_xor_no_key.2
             = info_lo_offset (info (config_of (info_crypt LO_CRYPT_XOR 0)))
          /\ lo_sizelimit configure_xor_no_key.2
             = info_lo_sizelimit (info (config_of (info_crypt LO_CRYPT_XOR 0)))
          /\ lo_encrypt_key_size configure_xor_no_key.2
             = info_lo_encrypt_key_size (info (config_of (info_crypt LO_CRYPT_XOR 0))))).
Proof.
  assert (Hcall : loop_configure xfer_funcs_init 0 (env_ok (image_file 1048576)) lo_fresh
                    FMODE_WRITE 7 (config_of (info_crypt LO_CRYPT_XOR 0))
                  = (- EINVAL, configure_xor_no_key.2))
    by (vm_compute; reflexivity).
  assert (Herr : - EINVAL <> 0) by (unfold EINVAL; lia).
  exact (loop_configure_error xfer_funcs_init 0 (env_ok (image_file 1048576)) lo_fresh
           FMODE_WRITE 7 (config_of (info_crypt LO_CRYPT_XOR 0))
           (- EINVAL) configure_xor_no_key.2 Hcall Herr).
Defined.

(** C2 as stated fails: a configure whose [alloc_workqueue] fails returns
    [-ENOMEM] with offset and size limit already changed, and a configure
    refused with [-EOVERFLOW] leaves the XOR transfer selected. *)
Lemma loop_configure_error_mutates :
  configure_no_workqueue.1 = - ENOMEM
  /\ lo_state configure_no_workqueue.2 = Lo_unbound
  /\ lo_offset lo_fresh = 0 /\ lo_offset configure_no_workqueue.2 = 4096
  /\ lo_sizelimit lo_fresh = 0 /\ lo_sizelimit configure_no_workqueue.2 = 8192
  /\ configure_xor_overflow.1 = - EOVERFLOW
  /\ lo_encryption lo_fresh = None
  /\ lo_encryption configure_xor_overflow.2 = Some xor_funcs.
Proof. repeat split; reflexivity. Qed.

(** ** C8: unbinding a device that is not bound *)

(** C8 (as amended).  On a device that is not Bound, [loop_clr_fd] changes
    nothing and fails: with [-ENXIO] once it holds [lo_mutex], with the
    status of [mutex_lock_killable] otherwise.  On a Bound device with at
    most one reference and a backing file it returns 0 and leaves the device
    Unbound without a backing file, so that the next call on it is refused
    with [-ENXIO].  On a Bound device with more references it returns 0
    having only set the autoclear flag. *)
Theorem loop_clr_fd_precondition (part_shift lock : Z) (lo : loop_device) :
  (lo_state lo <> Lo_bound ->
     (loop_clr_fd part_shift lock lo).2 = lo
     /\ (lock = 0 -> loop_clr_fd part_shift lock lo = (- ENXIO, [lo], lo))
     /\ (lock <> 0 -> loop_clr_fd part_shift lock lo = (lock, [], lo)))
  /\ (lo_state lo = Lo_bound -> lo_refcnt lo <= 1 -> lo_backing_file lo <> None ->
      lock = 0 ->
        (loop_clr_fd part_shift lock lo).1.1 = 0
        /\ lo_state (loop_clr_fd part_shift lock lo).2 = Lo_unbound
        /\ lo_backing_file (loop_clr_fd part_shift lock lo).2 = None
        /\ loop_clr_fd part_shift lock (loop_clr_fd part_shift lock lo).2
           = (- ENXIO, [(loop_clr_fd part_shift lock lo).2],
              (loop_clr_fd part_shift lock lo).2))
  /\ (lo_state lo = Lo_bound -> 1 < lo_refcnt lo -> lock = 0 ->
      loop_clr_fd part_shift lock lo
      = (0, [set_lo_flags (Z.lor (lo_flags lo) LO_FLAGS_AUTOCLEAR) lo],
         set_lo_flags (Z.lor (lo_flags lo) LO_FLAGS_AUTOCLEAR) lo)).
Proof.
  assert (Hnb : forall l : loop_device, lo_state l <> Lo_bound ->
                  loop_clr_fd part_shift 0 l = (- ENXIO, [l], l)).
  { intros l Hl. unfold loop_clr_fd. cbn [Z.eqb negb].
    destruct (lo_state_eqb (lo_state l) Lo_bound) eqn:E; [|reflexivity].
    apply lo_state_eqb_eq in E. contradiction. }
  split; [|split].
  3:{ intros Hb Hr ->. unfold loop_clr_fd. cbn [Z.eqb negb].
      rewrite Hb. cbn [lo_state_eqb negb].
      replace (lo_refcnt lo >? 1) with true
        by (symmetry; rewrite Z.gtb_ltb; apply Z.ltb_lt; lia).
      reflexivity. }
  - intros Hst. split; [|split].
    + unfold loop_clr_fd. destruct (lock =? 0); [|reflexivity]. cbn [negb].
      destruct (lo_state_eqb (lo_state lo) Lo_bound) eqn:E; [|reflexivity].
      apply lo_state_eqb_eq in E. contradiction.
    + intros ->. apply Hnb. assumption.
    + intros Hl. unfold loop_clr_fd. apply Z.eqb_neq in Hl. rewrite Hl. reflexivity.
  - intros Hb Hr Hf ->.
    destruct (lo_backing_file lo) as [f|] eqn:Ef; [clear Hf|congruence].
    assert (Hcall : exists lo2,
              loop_clr_fd part_shift 0 lo
              = (0, [set_lo_state Lo_rundown lo;
                     (__loop_clr_fd_locked1 (set_lo_state Lo_rundown lo)).2; lo2], lo2)
              /\ lo_state lo2 = Lo_unbound /\ lo_backing_file lo2 = None).
    { unfold loop_clr_fd. cbn [Z.eqb negb]. rewrite Hb. cbn [lo_state_eqb negb].
      replace (lo_refcnt lo >? 1) with false
        by (symmetry; rewrite Z.gtb_ltb; apply Z.ltb_ge; lia).
      destruct (__loop_clr_fd_rundown part_shift (set_lo_state Lo_rundown lo) false f)
        as (lo1 & lo2 & Hc & _ & _ & S2 & F2 & _); [reflexivity|exact Ef|].
      exists lo2. rewrite Hc. split; [|auto].
      unfold __loop_clr_fd in Hc.
      destruct (__loop_clr_fd_locked1 (set_lo_state Lo_rundown lo))
        as [[[e p] filp] l1].
      injection Hc as _ <- _. reflexivity. }
    destruct Hcall as (lo2 & -> & S2 & F2). cbn [fst snd].
    split; [reflexivity|]. split; [assumption|]. split; [assumption|].
    apply Hnb. congruence.
Qed.

Lemma loop_clr_fd_precondition_witness :
  lo_state lo_fresh <> Lo_bound
  /\ (loop_clr_fd 0 0 lo_fresh).2 = lo_fresh
  /\ loop_clr_fd 0 0 lo_fresh = (- ENXIO, [lo_fresh], lo_fresh)
  /\ (loop_clr_fd 0 0 lo_bound).1.1 = 0
  /\ lo_state (loop_clr_fd 0 0 lo_bound).2 = Lo_unbound.
Proof.
  assert (H1 : lo_state lo_fresh <> Lo_bound) by discriminate.
  assert (H2 : lo_state lo_bound = Lo_bound) by reflexivity.
  assert (H3 : lo_refcnt lo_bound <= 1) by (vm_compute; discriminate).
  assert (H4 : lo_backing_file lo_bound <> None) by (vm_compute; discriminate).
  split; [exact H1|].
  split; [exact (proj1 (proj1 (loop_clr_fd_precondition 0 0 lo_fresh) H1))|].
  split; [exact (proj1 (proj2 (proj1 (loop_clr_fd_precondition 0 0 lo_fresh) H1))
                   eq_refl)|].
  split; [exact (proj1 (proj1 (proj2 (loop_clr_fd_precondition 0 0 lo_bound))
                          H2 H3 H4 eq_refl))|].
  exact (proj1 (proj2 (proj1 (proj2 (loop_clr_fd_precondition 0 0 lo_bound))
                         H2 H3 H4 eq_refl))).
Defined.

(** C8 as stated fails: while a second user keeps the device open,
    [loop_clr_fd] returns 0 and leaves it Bound, and so does the next call
    on the same binding. *)
Lemma loop_clr_fd_succeeds_twice :
  lo_state lo_bound_busy = Lo_bound
  /\ (loop_clr_fd 0 0 lo_bound_busy).1.1 = 0
  /\ lo_state (loop_clr_fd 0 0 lo_bound_busy).2 = Lo_bound
  /\ lo_backing_file (loop_clr_fd 0 0 lo_bound_busy).2
     = lo_backing_file lo_bound_busy
  /\ (loop_clr_fd 0 0 (loop_clr_fd 0 0 lo_bound_busy).2).1.1 = 0
  /\ lo_state (loop_clr_fd 0 0 (loop_clr_fd 0 0 lo_bound_busy).2).2 = Lo_bound.
Proof. vm_compute. repeat split; reflexivity. Qed.

(** ** C4: discard on a device with a key *)

Lemma lo_fallocate_no_discard (lo : loop_device) (rq_bytes pos mode : Z) :
  queue_flag_discard (lo_queue lo) = false ->
  lo_fallocate lo rq_bytes pos mode = - EOPNOTSUPP.
Proof. intros H. unfold lo_fallocate. rewrite H. reflexivity. Qed.


(** The same for [loop_set_status] on a device that has a backing file. *)
Lemma loop_set_status_keyed xfer_funcs env lo i lo' (rq_bytes pos mode : Z) :
  loop_set_status xfer_funcs env lo i = (0, lo') ->
  lo_backing_file lo <> None ->
  info_lo_encrypt_key_size i <> 0 ->
  lo_fallocate lo' rq_bytes pos mode = - EOPNOTSUPP.
Proof.
  unfold loop_set_status. intros H Hf Hk.
  destruct (negb (lock_err env =? 0)) eqn:E1.
  { injection H as H _. apply negb_true_iff, Z.eqb_neq in E1. congruence. }
  match type of H with
  | (if ?c then _ else _) = _ => destruct c; [unfold EPERM in H; discriminate|]
  end.
  destruct (negb (lo_state_eqb (lo_state lo) Lo_bound));
    [unfold ENXIO in H; discriminate|].
  match type of H with
  | (if ?c then _ else _) = _ => destruct c; [unfold EAGAIN in H; discriminate|]
  end.
  destruct (loop_set_status_from_info xfer_funcs lo i (current_uid env))
    as [e1 lo1] eqn:Einfo.
  destruct (e1 =? 0) eqn:E2; cbn [negb] in H.
  2:{ apply Z.eqb_neq in E2. injection H as H _. congruence. }
  apply Z.eqb_eq in E2. subst e1.
  destruct (loop_set_status_from_info_cases _ _ _ _ _ _ Einfo)
    as ((_ & F1 & _) & _ & Hok).
  destruct (Hok eq_refl) as (_ & _ & _ & K1 & _).
  injection H as <-.
  apply lo_fallocate_no_discard.
  match goal with
  | |- context [loop_config_discard ?x] => set (lo2 := x)
  end.
  assert (H2 : lo_backing_file lo2 <> None /\ lo_encrypt_key_size lo2 <> 0).
  { subst lo2. break_if; cbn; rewrite F1, K1; auto. }
  destruct H2 as [F2 K2].
  pose proof (loop_config_discard_keyed lo2 F2 K2) as D.
  destruct (__loop_update_dio_core (loop_config_discard lo2)
              (use_dio (loop_config_discard lo2))) as [_ D2].
  break_if; cbn; rewrite D2; exact D.
Qed.



Example configure_xor_selected :
  configure_xor.1 = 0 /\ lo_encryption configure_xor.2 = Some xor_funcs
  /\ transfer configure_xor.2 = Some transfer_xor.
Proof. repeat split; reflexivity. Qed.


(** ** C7: the transfer table *)

Lemma wrap_u32_range (z : Z) : 0 <= wrap_u32 z < 2 ^ 32.
Proof. unfold wrap_u32, wrap_u. apply Z.mod_pos_bound. lia. Qed.

Lemma xfer_slot_insert_eq (tbl : list (option loop_func_table)) (n : Z)
    (v : option loop_func_table) :
  (Z.to_nat n < length tbl)%nat -> xfer_slot (<[Z.to_nat n := v]> tbl) n = v.
Proof.
  intros H. unfold xfer_slot. rewrite list_lookup_insert_eq by assumption. reflexivity.
Qed.

(** C7 (as amended).  On a table of [MAX_LO_CRYPT] slots,
    [loop_register_transfer] fails with [-EINVAL], leaving the table as it
    was, both when the slot number is out of range and when the slot is
    occupied, and otherwise stores the entry in its slot;
    [loop_unregister_transfer] fails with [-EINVAL] when the number is 0,
    out of range, or names an empty slot, and otherwise empties the slot.
    No other slot changes. *)
Theorem loop_transfer_table (xfer_funcs : list (option loop_func_table))
    (funcs : loop_func_table) (num : Z) :
  length xfer_funcs = Z.to_nat MAX_LO_CRYPT ->
  ((wrap_u32 (number funcs) >= MAX_LO_CRYPT
    \/ xfer_slot xfer_funcs (wrap_u32 (number funcs)) <> None) ->
     loop_register_transfer xfer_funcs funcs = (- EINVAL, xfer_funcs))
  /\ (wrap_u32 (number funcs) < MAX_LO_CRYPT ->
      xfer_slot xfer_funcs (wrap_u32 (number funcs)) = None ->
      (loop_register_transfer xfer_funcs funcs).1 = 0
      /\ xfer_slot (loop_register_transfer xfer_funcs funcs).2 (wrap_u32 (number funcs))
         = Some funcs
      /\ forall k : nat, k <> Z.to_nat (wrap_u32 (number funcs)) ->
           (loop_register_transfer xfer_funcs funcs).2 !! k = xfer_funcs !! k)
  /\ ((wrap_u32 num = 0 \/ wrap_u32 num >= MAX_LO_CRYPT
       \/ xfer_slot xfer_funcs (wrap_u32 num) = None) ->
      loop_unregister_transfer xfer_funcs num = (- EINVAL, xfer_funcs))
  /\ (0 < wrap_u32 num < MAX_LO_CRYPT ->
      xfer_slot xfer_funcs (wrap_u32 num) <> None ->
      (loop_unregister_transfer xfer_funcs num).1 = 0
      /\ xfer_slot (loop_unregister_transfer xfer_funcs num).2 (wrap_u32 num) = None
      /\ forall k : nat, k <> Z.to_nat (wrap_u32 num) ->
           (loop_unregister_transfer xfer_funcs num).2 !! k = xfer_funcs !! k).
Proof.
  intros Hlen.
  pose proof (wrap_u32_range (number funcs)) as Hn.
  pose proof (wrap_u32_range num) as Hm.
  unfold loop_register_transfer, loop_unregister_transfer.
  set (n := wrap_u32 (number funcs)) in *. set (m := wrap_u32 num) in *.
  split; [|split; [|split]].
  - intros [Hge|Hocc].
    + replace (n >=? MAX_LO_CRYPT) with true
        by (symmetry; rewrite Z.geb_leb; apply Z.leb_le; lia).
      reflexivity.
    + rewrite bool_decide_eq_true_2, orb_true_r; [reflexivity|].
      destruct (xfer_slot xfer_funcs n); [eauto|congruence].
  - intros Hlt Hnone.
    replace (n >=? MAX_LO_CRYPT) with false
      by (symmetry; rewrite Z.geb_leb; apply Z.leb_gt; lia).
    rewrite bool_decide_eq_false_2 by (rewrite Hnone; intros [? ?]; discriminate).
    cbn [orb fst snd]. split; [reflexivity|]. split.
    + apply xfer_slot_insert_eq. rewrite Hlen. lia.
    + intros k Hk. apply list_lookup_insert_ne. congruence.
  - intros Hbad.
    destruct (m =? 0) eqn:E0; [reflexivity|]. apply Z.eqb_neq in E0.
    destruct (m >=? MAX_LO_CRYPT) eqn:E1; [reflexivity|].
    rewrite Z.geb_leb in E1. apply Z.leb_gt in E1.
    destruct Hbad as [?|[?|Hnone]]; [lia|lia|].
    rewrite bool_decide_eq_false_2 by (rewrite Hnone; intros [? ?]; discriminate).
    reflexivity.
  - intros Hrange Hocc.
    replace (m =? 0) with false by (symmetry; apply Z.eqb_neq; lia).
    replace (m >=? MAX_LO_CRYPT) with false
      by (symmetry; rewrite Z.geb_leb; apply Z.leb_gt; lia).
    rewrite bool_decide_eq_true_2
      by (destruct (xfer_slot xfer_funcs m); [eauto|congruence]).
    cbn [orb negb fst snd]. split; [reflexivity|]. split.
    + apply xfer_slot_insert_eq. rewrite Hlen. lia.
    + intros k Hk. apply list_lookup_insert_ne. congruence.
Qed.

Lemma loop_transfer_table_witness :
  (loop_register_transfer xfer_funcs_init not_funcs).1 = 0
  /\ xfer_slot (loop_register_transfer xfer_funcs_init not_funcs).2
       (wrap_u32 (number not_funcs)) = Some not_funcs
  /\ forall k : nat, k <> Z.to_nat (wrap_u32 (number not_funcs)) ->
       (loop_register_transfer xfer_funcs_init not_funcs).2 !! k = xfer_funcs_init !! k.
Proof.
  assert (Hlen : length xfer_funcs_init = Z.to_nat MAX_LO_CRYPT) by reflexivity.
  assert (Hlt : wrap_u32 (number not_funcs) < MAX_LO_CRYPT) by reflexivity.
  assert (Hnone : xfer_slot xfer_funcs_init (wrap_u32 (number not_funcs)) = None)
    by reflexivity.
  exact (proj1 (proj2 (loop_transfer_table xfer_funcs_init not_funcs 0 Hlen)) Hlt Hnone).
Defined.

(** C7 as stated fails: registering into the occupied slot 1 is refused
    with [-EINVAL], not [-EEXIST]; unregistering the occupied slot 1
    succeeds, and it is the empty slot 5 that is refused. *)
Lemma loop_transfer_table_errors :
  (loop_register_transfer xfer_funcs_init xor_funcs).1 = - EINVAL
  /\ (loop_register_transfer xfer_funcs_init xor_funcs).1 <> - EEXIST
  /\ (loop_unregister_transfer xfer_funcs_init 1).1 = 0
  /\ (loop_unregister_transfer xfer_funcs_init 5).1 = - EINVAL.
Proof.
  assert (H1 : (loop_register_transfer xfer_funcs_init xor_funcs).1 = - EINVAL)
    by (vm_compute; reflexivity).
  split; [exact H1|]. split; [rewrite H1; discriminate|].
  split; vm_compute; reflexivity.
Qed.

(** ** C6: conversions to the legacy status structures *)

(** A field of [w] bits reads back unchanged exactly when the value fits. *)
Lemma to_u64_wrap_u (w x : Z) :
  0 < w <= 64 -> 0 <= x < 2 ^ 64 ->
  (to_u64 (wrap_u w x) =? x) = (x <? 2 ^ w).
Proof.
  intros Hw Hx. unfold to_u64, wrap_u.
  assert (Hp : 0 < 2 ^ w <= 2 ^ 64).
  { split; [apply Z.pow_pos_nonneg; lia|apply Z.pow_le_mono_r; lia]. }
  pose proof (Z.mod_pos_bound x (2 ^ w) ltac:(lia)) as Hm.
  rewrite (Z.mod_small (x mod 2 ^ w)) by lia.
  destruct (x <? 2 ^ w) eqn:E.
  - apply Z.ltb_lt in E. rewrite Z.mod_small by lia. apply Z.eqb_refl.
  - apply Z.ltb_ge in E. apply Z.eqb_neq. lia.
Qed.


Lemma to_u64_wrap_u64 (x : Z) : 0 <= x < 2 ^ 64 -> to_u64 (wrap_u 64 x) = x.
Proof.
  intros H. unfold to_u64, wrap_u.
  rewrite (Z.mod_small x) by lia. apply Z.mod_small. lia.
Qed.







Example legacy_offset_overflow :
  (loop_info64_to_old abi_lp64 (info_plain (2 ^ 31) 0)).1 = - EOVERFLOW
  /\ (loop_info64_to_compat abi_lp64 true (info_plain (2 ^ 31) 0)).1 = - EOVERFLOW
  /\ (loop_info64_to_old abi_lp64 (info_plain (2 ^ 31 - 1) 0)).1 = 0
  /\ (loop_info64_to_compat abi_lp64 true (info_plain (2 ^ 31 - 1) 0)).1 = 0.
Proof. vm_compute. repeat split; reflexivity. Qed.

(** ** C3: short reads *)

Example lo_read_simple_full :
  lo_read_simple zero_fill_bio file_100 [[replicate 4 255; replicate 4 255]] 10
  = (0, [[[11; 12; 13; 14]; [15; 16; 17; 18]]]).
Proof. vm_compute. reflexivity. Qed.

Lemma vfs_iter_read_length (data buf : list Z) (pos : Z) :
  length (vfs_iter_read data buf (length buf) pos).1.2 = length buf.
Proof.
  unfold vfs_iter_read. destruct (pos <? 0); cbn [fst snd]; [reflexivity|].
  rewrite length_app, length_drop.
  assert (length (take (length buf) (drop (Z.to_nat pos) data)) <= length buf)%nat
    by (rewrite length_take; lia).
  lia.
Qed.

Lemma lo_read_simple_segments_length (data : list Z) (segs : bio) : forall pos,
  length (concat (lo_read_simple_segments data segs pos).2) = length (concat segs).
Proof.
  induction segs as [|bvec rest IH]; intros pos; [reflexivity|].
  cbn [lo_read_simple_segments].
  pose proof (vfs_iter_read_length data bvec pos) as Hl.
  destruct (vfs_iter_read data bvec (length bvec) pos) as [[len bvec'] pos'].
  cbn [fst snd] in Hl.
  destruct (len <? 0); [cbn; rewrite !length_app; lia|].
  destruct (negb (len =? Z.of_nat (length bvec))); [cbn; rewrite !length_app; lia|].
  specialize (IH pos').
  destruct (lo_read_simple_segments data rest pos') as [e rest'].
  cbn [snd concat] in *. rewrite !length_app. lia.
Qed.

Lemma lo_read_simple_bios_length (data : list Z) (rq : request) : forall pos,
  length (rq_bytes (lo_read_simple_bios data rq pos).2) = length (rq_bytes rq).
Proof.
  unfold rq_bytes.
  induction rq as [|b rest IH]; intros pos; [reflexivity|].
  cbn [lo_read_simple_bios].
  pose proof (lo_read_simple_segments_length data b pos) as Hl.
  destruct (lo_read_simple_segments data b pos) as [e b']. cbn [snd] in Hl.
  destruct e as [pos'| |ret].
  - specialize (IH pos').
    destruct (lo_read_simple_bios data rest pos') as [e' rest'].
    cbn [snd concat] in *. rewrite !concat_app, !length_app. lia.
  - cbn [snd concat]. rewrite !concat_app, !length_app. lia.
  - cbn [snd concat]. rewrite !concat_app, !length_app. lia.
Qed.

Lemma zero_fill_bio_bytes (b : bio) :
  concat (zero_fill_bio b) = replicate (length (concat b)) 0.
Proof.
  unfold zero_fill_bio. induction b as [|bv rest IH]; [reflexivity|].
  cbn [map concat]. rewrite IH, length_app, replicate_add. reflexivity.
Qed.

Lemma zero_fill_rq_bytes (rq : request) :
  rq_bytes (map zero_fill_bio rq) = replicate (length (rq_bytes rq)) 0.
Proof.
  unfold rq_bytes. induction rq as [|b rest IH]; [reflexivity|].
  cbn [map concat]. rewrite !concat_app, IH, zero_fill_bio_bytes, length_app,
    replicate_add.
  reflexivity.
Qed.

(** C3, what the code does.  When a read of [lo_read_simple] comes back
    short, the call returns 0 and every byte of every segment of the request
    is 0 afterwards, the bytes that were read included. *)
Theorem lo_read_simple_short_read (data : list Z) (rq rq' : request) (pos : Z) :
  lo_read_simple_bios data rq pos = (Break, rq') ->
  lo_read_simple zero_fill_bio data rq pos = (0, map zero_fill_bio rq')
  /\ rq_bytes (lo_read_simple zero_fill_bio data rq pos).2
     = replicate (length (rq_bytes rq)) 0.
Proof.
  intros H. unfold lo_read_simple. rewrite H. split; [reflexivity|].
  cbn [snd]. rewrite zero_fill_rq_bytes.
  pose proof (lo_read_simple_bios_length data rq pos) as Hl.
  rewrite H in Hl. cbn [snd] in Hl. rewrite Hl. reflexivity.
Qed.

(** The 512-byte read of the 100-byte file: 512 zero bytes come back. *)
Lemma lo_read_simple_short_read_witness :
  lo_read_simple zero_fill_bio file_100 rq_512 0
  = (0, map zero_fill_bio [[file_100 ++ replicate 412 255]])
  /\ rq_bytes (lo_read_simple zero_fill_bio file_100 rq_512 0).2
     = replicate (length (rq_bytes rq_512)) 0.
Proof.
  assert (H : lo_read_simple_bios file_100 rq_512 0
              = (Break, [[file_100 ++ replicate 412 255]]))
    by (vm_compute; reflexivity).
  exact (lo_read_simple_short_read file_100 rq_512
           [[file_100 ++ replicate 412 255]] 0 H).
Defined.

Example lo_read_simple_100_of_512 :
  rq_bytes (lo_read_simple zero_fill_bio file_100 rq_512 0).2 = replicate 512 0
  /\ take 100 (rq_bytes (lo_read_simple zero_fill_bio file_100 rq_512 0).2) <> file_100.
Proof. vm_compute. split; [reflexivity|discriminate]. Qed.

(** The same read through [lo_read_transfer] with the XOR transfer. *)
Example lo_read_transfer_100_of_512 :
  lo_read_transfer zero_fill_bio transfer_xor [90; 165; 60; 15] 4
    (Some (replicate 4096 0)) file_100 rq_512 0
  = (0, [[replicate 512 0]]).
Proof. vm_compute. reflexivity. Qed.

(** Whatever function is called as [zero_fill_bio], it is handed the bios
    and not the number of bytes read, so it cannot keep the bytes read and
    clear the rest: two files of different lengths leave the same buffers
    behind. *)
Lemma lo_read_simple_blind_zero_fill (zero_fill : bio -> bio) :
  ~ (rq_bytes (lo_read_simple zero_fill (replicate 100 7) [[replicate 512 7]] 0).2
       = replicate 100 7 ++ replicate 412 0
     /\ rq_bytes (lo_read_simple zero_fill (replicate 200 7) [[replicate 512 7]] 0).2
       = replicate 200 7 ++ replicate 312 0).
Proof.
  intros [H1 H2].
  assert (E : lo_read_simple zero_fill (replicate 100 7) [[replicate 512 7]] 0
              = lo_read_simple zero_fill (replicate 200 7) [[replicate 512 7]] 0)
    by (vm_compute; reflexivity).
  rewrite E, H2 in H1. vm_compute in H1. discriminate.
Qed.

(** ** C9: routing a command to a queue *)

Lemma rb_search_update (t : rb_tree) (css k : Z) (f : loop_worker -> loop_worker) :
  (forall w, w_blkcg_css (f w) = w_blkcg_css w) ->
  rb_search (rb_update t css f) k =
    if k =? css then f <$> rb_search t css else rb_search t k.
Proof.
  intros Hf. induction t as [|l IHl w r IHr]; cbn [rb_update rb_search].
  - destruct (k =? css); reflexivity.
  - destruct (w_blkcg_css w =? css) eqn:E1.
    + apply Z.eqb_eq in E1. cbn [rb_search]. rewrite Hf.
      destruct (k =? css) eqn:E2.
      * apply Z.eqb_eq in E2. subst k. rewrite E1, Z.eqb_refl. reflexivity.
      * rewrite E1, (Z.eqb_sym css k), E2. reflexivity.
    + destruct (w_blkcg_css w <? css) eqn:E3; cbn [rb_search].
      * destruct (k =? css) eqn:E2.
        -- apply Z.eqb_eq in E2. subst k. rewrite E1, E3. exact IHl.
        -- rewrite IHl. reflexivity.
      * destruct (k =? css) eqn:E2.
        -- apply Z.eqb_eq in E2. subst k. rewrite E1, E3. exact IHr.
        -- rewrite IHr. reflexivity.
Qed.

Lemma rb_search_link (t : rb_tree) (worker : loop_worker) (k : Z) :
  rb_search t (w_blkcg_css worker) = None ->
  rb_search (rb_link_node t worker) k =
    if k =? w_blkcg_css worker then Some worker else rb_search t k.
Proof.
  induction t as [|l IHl w r IHr]; cbn [rb_link_node rb_search]; intros Hnone.
  - rewrite (Z.eqb_sym k). destruct (w_blkcg_css worker =? k); [reflexivity|].
    destruct (w_blkcg_css worker <? k); reflexivity.
  - destruct (w_blkcg_css w =? w_blkcg_css worker) eqn:E1; [discriminate|].
    destruct (w_blkcg_css w <? w_blkcg_css worker) eqn:E3; cbn [rb_search].
    + destruct (k =? w_blkcg_css worker) eqn:E2.
      * apply Z.eqb_eq in E2. subst k. rewrite E1, E3. exact (IHl Hnone).
      * rewrite (IHl Hnone). reflexivity.
    + destruct (k =? w_blkcg_css worker) eqn:E2.
      * apply Z.eqb_eq in E2. subst k. rewrite E1, E3. exact (IHr Hnone).
      * rewrite (IHr Hnone). reflexivity.
Qed.

(** The number of commands queued on the workers of a tree. *)
Lemma rb_queues_update_length (t : rb_tree) (css : Z) (cmd : loop_cmd) (w0 : loop_worker) :
  rb_search t css = Some w0 ->
  length (concat (rb_queues
    (rb_update t css
       (fun w => {| w_blkcg_css := w_blkcg_css w; w_cmd_list := w_cmd_list w ++ [cmd];
                    last_ran_at := last_ran_at w |}))))
  = S (length (concat (rb_queues t))).
Proof.
  induction t as [|l IHl w r IHr]; cbn [rb_update rb_search rb_queues]; [discriminate|].
  intros H.
  destruct (w_blkcg_css w =? css).
  - cbn [rb_queues w_cmd_list]. rewrite !concat_app. cbn [concat].
    rewrite !length_app. cbn [length]. lia.
  - destruct (w_blkcg_css w <? css); cbn [rb_queues]; rewrite !concat_app;
      cbn [concat]; rewrite !length_app.
    + rewrite (IHl H). lia.
    + rewrite (IHr H). lia.
Qed.

Lemma rb_queues_link_length (t : rb_tree) (worker : loop_worker) :
  w_cmd_list worker = [] ->
  length (concat (rb_queues (rb_link_node t worker))) = length (concat (rb_queues t)).
Proof.
  intros Hw. induction t as [|l IHl w r IHr]; cbn [rb_link_node rb_queues].
  - rewrite Hw. reflexivity.
  - destruct (w_blkcg_css w =? w_blkcg_css worker); [reflexivity|].
    destruct (w_blkcg_css w <? w_blkcg_css worker); cbn [rb_queues];
      rewrite !concat_app; cbn [concat]; rewrite !length_app; lia.
Qed.

(** C9.  [loop_queue_work] appends the command to exactly one queue and to
    no other: the root queue, leaving the workers alone, or the queue of the
    worker of the command's group, leaving the root queue and the other
    workers alone; the number of queued commands grows by one.  When the
    command belongs to a non-root group that has no worker and the
    allocation of one fails, it is the root queue, and the command is queued
    with both group handles cleared. *)
Theorem loop_queue_work_one_queue (blkcg_root_css : Z) (kzalloc_ok : bool)
    (lo : loop_device) (cmd : loop_cmd) :
  let r := loop_queue_work blkcg_root_css kzalloc_ok lo cmd in
  (queue_on_root_worker blkcg_root_css (blkcg_css cmd) = false ->
   rb_search (worker_tree lo) (blkcg_css cmd) = None ->
   kzalloc_ok = false ->
     r.2 = {| cmd_rq := cmd_rq cmd; use_aio := use_aio cmd;
              blkcg_css := 0; memcg_css := 0 |}
     /\ rootcg_cmd_list r.1 = rootcg_cmd_list lo ++ [r.2]
     /\ worker_tree r.1 = worker_tree lo)
  /\ ((rootcg_cmd_list r.1 = rootcg_cmd_list lo ++ [r.2]
       /\ worker_tree r.1 = worker_tree lo)
      \/ (r.2 = cmd
          /\ rootcg_cmd_list r.1 = rootcg_cmd_list lo
          /\ forall css,
               worker_queue r.1 css =
                 if css =? blkcg_css cmd then worker_queue lo css ++ [cmd]
                 else worker_queue lo css))
  /\ length (concat (all_queues r.1)) = S (length (concat (all_queues lo))).
Proof.
  set (f := fun w : loop_worker =>
              {| w_blkcg_css := w_blkcg_css w; w_cmd_list := w_cmd_list w ++ [cmd];
                 last_ran_at := last_ran_at w |}).
  assert (Hf : forall w, w_blkcg_css (f w) = w_blkcg_css w) by reflexivity.
  assert (Hroot : forall c : loop_cmd,
            length (concat ((rootcg_cmd_list lo ++ [c]) :: rb_queues (worker_tree lo)))
            = S (length (concat (all_queues lo)))).
  { intros c. unfold all_queues. cbn [concat]. rewrite !length_app. cbn [length]. lia. }
  unfold loop_queue_work. cbv zeta. fold f.
  destruct (queue_on_root_worker blkcg_root_css (blkcg_css cmd)) eqn:Eroot.
  { cbn [fst snd rootcg_cmd_list worker_tree set_pending_work set_rootcg_cmd_list].
    split; [discriminate|]. split; [left; auto|]. apply Hroot. }
  destruct (rb_search (worker_tree lo) (blkcg_css cmd)) as [w0|] eqn:Esearch.
  - (* the group has a worker *)
    cbn [fst snd rootcg_cmd_list worker_tree set_pending_work set_worker_tree
         set_idle_worker_list].
    split; [discriminate|]. split.
    + right. split; [reflexivity|]. split; [reflexivity|].
      intros css. unfold worker_queue.
      cbn [worker_tree set_pending_work set_worker_tree set_idle_worker_list].
      rewrite rb_search_update by exact Hf.
      destruct (css =? blkcg_css cmd) eqn:E; [|reflexivity].
      apply Z.eqb_eq in E. subst css. rewrite Esearch. reflexivity.
    + unfold all_queues.
      cbn [rootcg_cmd_list worker_tree set_pending_work set_worker_tree
           set_idle_worker_list concat].
      rewrite !length_app. subst f.
      rewrite (rb_queues_update_length _ _ _ w0 Esearch). lia.
  - destruct kzalloc_ok; cbn [negb].
    + (* a worker is allocated and linked *)
      set (worker := {| w_blkcg_css := blkcg_css cmd; w_cmd_list := [];
                        last_ran_at := 0 |}).
      assert (Hlink : forall k, rb_search (rb_link_node (worker_tree lo) worker) k
                = if k =? blkcg_css cmd then Some worker
                  else rb_search (worker_tree lo) k)
        by (intros k; apply (rb_search_link (worker_tree lo) worker k); exact Esearch).
      cbn [fst snd rootcg_cmd_list worker_tree set_pending_work set_worker_tree
           set_idle_worker_list].
      split; [discriminate|]. split.
      * right. split; [reflexivity|]. split; [reflexivity|].
        intros css. unfold worker_queue.
        cbn [worker_tree set_pending_work set_worker_tree set_idle_worker_list].
        rewrite rb_search_update by exact Hf. rewrite !Hlink, Z.eqb_refl.
        destruct (css =? blkcg_css cmd) eqn:E; [|reflexivity].
        apply Z.eqb_eq in E. subst css. rewrite Esearch. reflexivity.
      * unfold all_queues.
        cbn [rootcg_cmd_list worker_tree set_pending_work set_worker_tree
             set_idle_worker_list concat].
        rewrite !length_app. subst f.
        rewrite (rb_queues_update_length _ _ _ worker)
          by (rewrite Hlink, Z.eqb_refl; reflexivity).
        rewrite rb_queues_link_length by reflexivity. lia.
    + (* no worker can be allocated *)
      cbn [fst snd rootcg_cmd_list worker_tree set_pending_work set_rootcg_cmd_list].
      split; [auto|]. split; [left; auto|]. apply Hroot.
Qed.

Lemma loop_queue_work_one_queue_witness :
  (loop_queue_work 1 false lo_routing
     {| cmd_rq := 41; use_aio := false; blkcg_css := 9; memcg_css := 5 |}).2
  = {| cmd_rq := 41; use_aio := false; blkcg_css := 0; memcg_css := 0 |}
  /\ rootcg_cmd_list
       (loop_queue_work 1 false lo_routing
          {| cmd_rq := 41; use_aio := false; blkcg_css := 9; memcg_css := 5 |}).1
     = rootcg_cmd_list lo_routing
       ++ [(loop_queue_work 1 false lo_routing
              {| cmd_rq := 41; use_aio := false; blkcg_css := 9; memcg_css := 5 |}).2]
  /\ worker_tree
       (loop_queue_work 1 false lo_routing
          {| cmd_rq := 41; use_aio := false; blkcg_css := 9; memcg_css := 5 |}).1
     = worker_tree lo_routing.
Proof.
  exact (proj1 (loop_queue_work_one_queue 1 false lo_routing
                  {| cmd_rq := 41; use_aio := false; blkcg_css := 9; memcg_css := 5 |})
           eq_refl eq_refl eq_refl).
Defined.

Example loop_queue_work_routes :
  worker_queue
    (loop_queue_work 1 true lo_routing
       {| cmd_rq := 42; use_aio := false; blkcg_css := 7; memcg_css := 5 |}).1 7
  = [{| cmd_rq := 42; use_aio := false; blkcg_css := 7; memcg_css := 5 |}]
  /\ worker_queue
       (loop_queue_work 1 true lo_routing
          {| cmd_rq := 43; use_aio := false; blkcg_css := 9; memcg_css := 5 |}).1 9
     = [{| cmd_rq := 43; use_aio := false; blkcg_css := 9; memcg_css := 5 |}]
  /\ rootcg_cmd_list
       (loop_queue_work 1 true lo_routing
          {| cmd_rq := 44; use_aio := false; blkcg_css := 1; memcg_css := 0 |}).1
     = [{| cmd_rq := 44; use_aio := false; blkcg_css := 1; memcg_css := 0 |}].
Proof. vm_compute. repeat split; reflexivity. Qed.

(* ================================================================== *)
(** * Further properties of the driver *)
(* ================================================================== *)

(** ** The legacy structures read back *)

Lemma pow2_le_64 (w : Z) : 0 < w <= 64 -> 0 < 2 ^ w <= 2 ^ 64.
Proof.
  intros H. split; [apply Z.pow_pos_nonneg; lia|apply Z.pow_le_mono_r; lia].
Qed.

Lemma wrap_u_to_u64 (w x : Z) :
  0 < w <= 64 -> 0 <= x < 2 ^ w -> wrap_u w (to_u64 x) = x.
Proof.
  intros Hw Hx. pose proof (pow2_le_64 w Hw). unfold to_u64, wrap_u.
  rewrite (Z.mod_small x (2 ^ 64)) by lia. apply Z.mod_small. lia.
Qed.

Lemma wrap_u_small (w x : Z) : 0 <= x < 2 ^ w -> wrap_u w x = x.
Proof. intros H. unfold wrap_u. apply Z.mod_small. assumption. Qed.

Lemma to_u64_small (x : Z) : 0 <= x < 2 ^ 64 -> to_u64 x = x.
Proof. intros H. unfold to_u64, wrap_u. apply Z.mod_small. lia. Qed.

Lemma wrap_u32_small (x : Z) : 0 <= x < 2 ^ 32 -> wrap_u32 x = x.
Proof. intros H. unfold wrap_u32, wrap_u. apply Z.mod_small. lia. Qed.

Lemma wrap_s32_small (x : Z) : is_int x -> wrap_s32 x = x.
Proof.
  unfold is_int. intros H. unfold wrap_s32, wrap_s.
  change (2 ^ (32 - 1)) with (2 ^ 31). rewrite Z.mod_small; lia.
Qed.

(** An [int] widened to an unsigned type of 32 bits or more and narrowed
    again is the [int] it was. *)
Lemma wrap_s32_wrap_u (k x : Z) :
  0 <= k -> is_int x -> wrap_s32 (wrap_u (32 + k) x) = x.
Proof.
  unfold is_int. intros Hk Hx. unfold wrap_s32, wrap_s, wrap_u.
  change (2 ^ (32 - 1)) with (2 ^ 31).
  rewrite Z.pow_add_r by lia.
  assert (Hp : 0 < 2 ^ k) by (apply Z.pow_pos_nonneg; lia).
  set (m := 2 ^ 32 * 2 ^ k).
  rewrite (Z.mod_eq x m) by (subst m; lia).
  replace (x - m * (x / m) + 2 ^ 31)
    with (x + 2 ^ 31 + (- (2 ^ k * (x / m))) * 2 ^ 32) by (subst m; ring).
  rewrite Z_mod_plus_full. rewrite Z.mod_small; lia.
Qed.

Lemma wrap_s32_wrap_u32 (x : Z) : is_int x -> wrap_s32 (wrap_u32 x) = x.
Proof. intros H. apply (wrap_s32_wrap_u 0); [lia|assumption]. Qed.

Lemma wrap_s32_to_u64 (x : Z) : is_int x -> wrap_s32 (to_u64 x) = x.
Proof. intros H. apply (wrap_s32_wrap_u 32); [lia|assumption]. Qed.

Lemma memcpy_full {A} (dst src : list A) (n : nat) :
  length src = n -> length dst = n -> take n src ++ drop n dst = src.
Proof.
  intros Hs Hd. rewrite take_ge, drop_ge by lia. apply app_nil_r.
Qed.

Lemma memcpy_zeros (src : list Z) (n : Z) :
  length src = Z.to_nat n -> memcpy (zeros n) src n = src.
Proof.
  intros H. unfold memcpy, zeros. apply memcpy_full; [assumption|].
  apply length_replicate.
Qed.

(** X1.  A legacy status structure whose fields hold values of their types
    survives the conversion to the 64-bit structure and back: both
    [loop_info64_to_old] and [loop_info64_to_compat] return 0 and the
    structure that was converted, negative offsets included. *)
Theorem legacy_status_read_back (a : abi) (i : loop_info) (c : compat_loop_info) :
  wf_abi a -> wf_loop_info a i -> wf_compat_loop_info a c ->
  loop_info64_to_old a (loop_info64_from_old i) = (0, i)
  /\ exists x, loop_info64_from_compat (Some c) = (0, Some x)
               /\ loop_info64_to_compat a true x = (0, c).
Proof.
  intros (Hl & Hd & Hc)
    (In & Io & It & Ik & Ifl & Idev & Ird & Iino & Ii1 & Ii2 & Inm & Iky)
    (Cn & Co & Ct & Ck & Cfl & Cdev & Crd & Cino & Ci1 & Ci2 & Cnm & Cky).
  split.
  - destruct i as [n dv ino rd off ty ks fl nm ky [i1 i2]]. cbn in *.
    unfold loop_info64_to_old, loop_info64_from_old. cbn.
    rewrite !wrap_s32_wrap_u32, !wrap_s32_to_u64, !wrap_u_to_u64 by assumption.
    rewrite !Z.eqb_refl. cbn.
    rewrite !(memcpy_zeros ky) by assumption.
    assert (Hnm : (if ty =? LO_CRYPT_CRYPTOAPI
                   then memcpy (zeros LO_NAME_SIZE)
                          (if ty =? LO_CRYPT_CRYPTOAPI
                           then memcpy (zeros LO_NAME_SIZE) nm LO_NAME_SIZE
                           else zeros LO_NAME_SIZE) LO_NAME_SIZE
                   else memcpy (zeros LO_NAME_SIZE)
                          (if ty =? LO_CRYPT_CRYPTOAPI
                           then zeros LO_NAME_SIZE
                           else memcpy (zeros LO_NAME_SIZE) nm LO_NAME_SIZE)
                          LO_NAME_SIZE) = nm).
    { destruct (ty =? LO_CRYPT_CRYPTOAPI); rewrite !(memcpy_zeros nm) by assumption;
        reflexivity. }
    rewrite Hnm. reflexivity.
  - destruct c as [n dv ino rd off ty ks fl nm ky [i1 i2]]. cbn in *.
    eexists. split; [reflexivity|].
    unfold loop_info64_to_compat. cbn.
    rewrite !wrap_s32_wrap_u32, !wrap_s32_to_u64 by assumption.
    rewrite !wrap_u_to_u64 by (assumption || lia).
    unfold wrap_u32. rewrite !wrap_u_to_u64 by (assumption || lia).
    rewrite !Z.eqb_refl. cbn.
    rewrite !(memcpy_zeros ky) by assumption.
    assert (Hnm : (if ty =? LO_CRYPT_CRYPTOAPI
                   then memcpy (zeros LO_NAME_SIZE)
                          (if ty =? LO_CRYPT_CRYPTOAPI
                           then memcpy (zeros LO_NAME_SIZE) nm LO_NAME_SIZE
                           else zeros LO_NAME_SIZE) LO_NAME_SIZE
                   else memcpy (zeros LO_NAME_SIZE)
                          (if ty =? LO_CRYPT_CRYPTOAPI
                           then zeros LO_NAME_SIZE
                           else memcpy (zeros LO_NAME_SIZE) nm LO_NAME_SIZE)
                          LO_NAME_SIZE) = nm).
    { destruct (ty =? LO_CRYPT_CRYPTOAPI); rewrite !(memcpy_zeros nm) by assumption;
        reflexivity. }
    rewrite Hnm. reflexivity.
Qed.

Lemma legacy_status_read_back_witness :
  loop_info64_to_old abi_ilp32 (loop_info64_from_old old_info_sample)
  = (0, old_info_sample)
  /\ exists x, loop_info64_from_compat (Some compat_info_sample) = (0, Some x)
               /\ loop_info64_to_compat abi_ilp32 true x = (0, compat_info_sample).
Proof.
  apply (legacy_status_read_back abi_ilp32 old_info_sample compat_info_sample).
  - vm_compute; repeat split; easy.
  - vm_compute; repeat split; easy.
  - vm_compute; repeat split; easy.
Defined.

(** ** Frames of the helpers *)

Lemma same_config_refl lo : same_config lo lo.
Proof. unfold same_config. repeat split; reflexivity. Qed.

Lemma same_config_trans a b c : same_config a b -> same_config b c -> same_config a c.
Proof. unfold same_config. intuition congruence. Qed.

Lemma set_lo_flags_config v lo : same_config lo (set_lo_flags v lo).
Proof. unfold same_config. cbn. repeat split; reflexivity. Qed.

Lemma set_lo_disk_config v lo : same_config lo (set_lo_disk v lo).
Proof. unfold same_config. cbn. repeat split; reflexivity. Qed.

Lemma set_lo_queue_config v lo : same_config lo (set_lo_queue v lo).
Proof. unfold same_config. cbn. repeat split; reflexivity. Qed.

Lemma loop_set_size_config lo size : same_config lo (loop_set_size lo size).
Proof. apply set_lo_disk_config. Qed.

Lemma loop_config_discard_config lo : same_config lo (loop_config_discard lo).
Proof.
  unfold loop_config_discard.
  destruct (lo_backing_file lo) as [f|]; [|apply same_config_refl].
  match goal with
  | |- context [let '(_, _) := ?c in _] => destruct c as [m g]
  end.
  apply set_lo_queue_config.
Qed.

(** What [__loop_update_dio] does to the flags and to the switch. *)
Lemma __loop_update_dio_flags lo dio :
  let lo' := __loop_update_dio lo dio in
  same_config lo lo' /\ lo_disk lo' = lo_disk lo
  /\ ((use_dio lo' = use_dio lo /\ lo_flags lo' = lo_flags lo
       /\ lo_queue lo' = lo_queue lo)
      \/ (use_dio lo' = true /\ use_dio lo = false
          /\ lo_flags lo' = Z.lor (lo_flags lo) LO_FLAGS_DIRECT_IO)
      \/ (use_dio lo' = false /\ use_dio lo = true
          /\ lo_flags lo' = Z.land (lo_flags lo) (not32 LO_FLAGS_DIRECT_IO))).
Proof.
  unfold __loop_update_dio.
  destruct (lo_backing_file lo) as [f|];
    [|cbn; split; [apply same_config_refl|auto]].
  match goal with
  | |- context [let '(_, _) := ?c in _] => destruct c as [sb al]
  end.
  match goal with
  | |- context [Bool.eqb (use_dio lo) ?n] => generalize n
  end.
  intros n. destruct (use_dio lo) eqn:Eu, n; cbn [Bool.eqb];
    cbn zeta; (split; [|split]);
    try apply same_config_refl; try reflexivity; auto;
    try (unfold same_config; cbn; repeat split; reflexivity).
Qed.

Lemma __loop_update_dio_config lo dio : same_config lo (__loop_update_dio lo dio).
Proof. apply __loop_update_dio_flags. Qed.

Lemma loop_update_dio_config lo : same_config lo (loop_update_dio lo).
Proof. apply __loop_update_dio_config. Qed.

Lemma loop_set_status_assign_config lo info xfer uid :
  let lo' := loop_set_status_assign lo info xfer uid in
  lo_file_name lo'
  = <[Z.to_nat (LO_NAME_SIZE - 1) := 0]>
      (memcpy (lo_file_name lo) (info_lo_file_name info) LO_NAME_SIZE)
  /\ lo_crypt_name lo'
     = <[Z.to_nat (LO_NAME_SIZE - 1) := 0]>
         (memcpy (lo_crypt_name lo) (info_lo_crypt_name info) LO_NAME_SIZE)
  /\ (info_lo_encrypt_key_size info <> 0 ->
        lo_key_owner lo' = uid
        /\ lo_encrypt_key lo'
           = memcpy (lo_encrypt_key lo) (info_lo_encrypt_key info)
               (info_lo_encrypt_key_size info))
  /\ lo_number lo' = lo_number lo /\ lo_refcnt lo' = lo_refcnt lo
  /\ use_dio lo' = use_dio lo.
Proof.
  unfold loop_set_status_assign.
  destruct (info_lo_encrypt_key_size info =? 0) eqn:E; cbn [negb].
  - apply Z.eqb_eq in E. cbn. repeat split; try reflexivity; congruence.
  - cbn. repeat split; reflexivity.
Qed.

Lemma loop_config_discard_queue lo :
  exists q, loop_config_discard lo = set_lo_queue q lo.
Proof.
  unfold loop_config_discard.
  destruct (lo_backing_file lo) as [f|].
  - match goal with
    | |- context [let '(_, _) := ?c in _] => destruct c as [m g]
    end.
    eexists. reflexivity.
  - exists (lo_queue lo). destruct lo. reflexivity.
Qed.

(** What a successful [loop_set_status_from_info] stores besides the
    fields [loop_set_status_from_info_cases] lists. *)
Lemma loop_set_status_from_info_ok xfer_funcs lo info uid lo1 :
  loop_set_status_from_info xfer_funcs lo info uid = (0, lo1) ->
  lo_file_name lo1
  = <[Z.to_nat (LO_NAME_SIZE - 1) := 0]>
      (memcpy (lo_file_name lo) (info_lo_file_name info) LO_NAME_SIZE)
  /\ lo_crypt_name lo1
     = <[Z.to_nat (LO_NAME_SIZE - 1) := 0]>
         (memcpy (lo_crypt_name lo) (info_lo_crypt_name info) LO_NAME_SIZE)
  /\ (info_lo_encrypt_key_size info <> 0 ->
        lo_key_owner lo1 = uid
        /\ lo_encrypt_key lo1
           = memcpy (lo_encrypt_key lo) (info_lo_encrypt_key info)
               (info_lo_encrypt_key_size info)).
Proof.
  unfold loop_set_status_from_info. intros H.
  destruct (wrap_u32 (info_lo_encrypt_key_size info) >? LO_KEY_SIZE);
    [unfold EINVAL in H; discriminate|].
  destruct (loop_release_xfer_frame lo) as (_ & Hs1 & _ & _).
  destruct (loop_release_xfer lo) as [e1 lo0]. cbn [fst snd] in *.
  destruct (e1 =? 0) eqn:Ee1; cbn [negb] in H.
  2:{ apply Z.eqb_neq in Ee1. injection H as H _. congruence. }
  repeat match type of H with
         | (if ?c then _ else _) = _ =>
             destruct c; [unfold EINVAL in H; discriminate|]
         end.
  match type of H with
  | context [loop_init_xfer lo0 ?x info] => set (xfer := x) in H
  end.
  destruct (loop_init_xfer_frame lo0 xfer info) as (_ & Hs2 & _).
  destruct (loop_init_xfer lo0 xfer info) as [e2 lo2]. cbn [fst snd] in *.
  destruct (e2 =? 0) eqn:Ee2; cbn [negb] in H.
  2:{ apply Z.eqb_neq in Ee2. injection H as H _. congruence. }
  match type of H with
  | (if ?c then _ else _) = _ =>
      destruct c; [unfold EOVERFLOW in H; discriminate|]
  end.
  injection H as <-.
  destruct (loop_set_status_assign_config lo2 info xfer uid)
    as (N1 & N2 & K & _).
  destruct Hs1 as (_ & _ & _ & A1 & A2 & _ & A3).
  destruct Hs2 as (_ & _ & _ & B1 & B2 & _ & B3).
  rewrite N1, N2, B1, B2, A1, A2. split; [reflexivity|]. split; [reflexivity|].
  intros Hk. destruct (K Hk) as [K1 K2]. rewrite K1, K2, B3, A3. auto.
Qed.

(** Every successful [loop_set_status]. *)
Lemma loop_set_status_ok xfer_funcs env lo info lo' :
  loop_set_status xfer_funcs env lo info = (0, lo') ->
  exists lo1,
    loop_set_status_from_info xfer_funcs lo info (current_uid env) = (0, lo1)
    /\ lock_err env = 0 /\ lo_state lo = Lo_bound
    /\ same_config lo1 lo'
    /\ (lo_flags lo' = merged_flags (lo_flags lo) (lo_flags lo1)
        \/ lo_flags lo'
           = Z.lor (merged_flags (lo_flags lo) (lo_flags lo1)) LO_FLAGS_DIRECT_IO
        \/ lo_flags lo'
           = Z.land (merged_flags (lo_flags lo) (lo_flags lo1))
               (not32 LO_FLAGS_DIRECT_IO)).
Proof.
  unfold loop_set_status. intros H.
  destruct (lock_err env =? 0) eqn:E1; cbn [negb] in H.
  2:{ apply Z.eqb_neq in E1. injection H as H _. congruence. }
  apply Z.eqb_eq in E1.
  match type of H with
  | (if ?c then _ else _) = _ => destruct c; [unfold EPERM in H; discriminate|]
  end.
  destruct (lo_state_eqb (lo_state lo) Lo_bound) eqn:Eb; cbn [negb] in H;
    [|unfold ENXIO in H; discriminate].
  apply lo_state_eqb_eq in Eb.
  match type of H with
  | (if ?c then _ else _) = _ => destruct c; [unfold EAGAIN in H; discriminate|]
  end.
  destruct (loop_set_status_from_info xfer_funcs lo info (current_uid env))
    as [e1 lo1] eqn:Einfo.
  destruct (e1 =? 0) eqn:E2; cbn [negb] in H.
  2:{ apply Z.eqb_neq in E2. injection H as H _. congruence. }
  apply Z.eqb_eq in E2. subst e1. injection H as <-.
  exists lo1. split; [reflexivity|]. split; [assumption|]. split; [assumption|].
  match goal with
  | |- context [loop_config_discard ?x] => set (X := x)
  end.
  assert (HX : same_config lo1 X
               /\ lo_flags X = merged_flags (lo_flags lo) (lo_flags lo1)).
  { subst X. split.
    - assert (S3 : forall a b c, same_config lo1
                     (set_lo_flags a (set_lo_flags b (set_lo_flags c lo1)))).
      { intros. eapply same_config_trans; [|apply set_lo_flags_config].
        eapply same_config_trans; apply set_lo_flags_config. }
      break_if; [eapply same_config_trans; [apply S3|apply loop_set_size_config]
                |apply S3].
    - break_if; reflexivity. }
  destruct HX as [CX FX].
  destruct (loop_config_discard_queue X) as [q ->].
  set (D := set_lo_queue q X).
  assert (CD : same_config lo1 D)
    by (eapply same_config_trans; [exact CX|apply set_lo_queue_config]).
  assert (FD : lo_flags D = merged_flags (lo_flags lo) (lo_flags lo1)) by exact FX.
  destruct (__loop_update_dio_flags D (use_dio D)) as (CU & _ & FU).
  set (U := __loop_update_dio D (use_dio D)) in *.
  assert (HU : forall R, same_config lo1 R -> lo_flags R = lo_flags U ->
            same_config lo1 R
            /\ (lo_flags R = merged_flags (lo_flags lo) (lo_flags lo1)
                \/ lo_flags R
                   = Z.lor (merged_flags (lo_flags lo) (lo_flags lo1))
                       LO_FLAGS_DIRECT_IO
                \/ lo_flags R
                   = Z.land (merged_flags (lo_flags lo) (lo_flags lo1))
                       (not32 LO_FLAGS_DIRECT_IO))).
  { intros R CR FR. split; [assumption|]. rewrite FR, <- FD.
    destruct FU as [(_ & F & _)|[(_ & _ & F)|(_ & _ & F)]]; auto. }
  assert (C1U : same_config lo1 U) by (eapply same_config_trans; eassumption).
  break_if.
  - apply HU; [|reflexivity].
    eapply same_config_trans; [exact C1U|apply set_lo_disk_config].
  - apply HU; [exact C1U|reflexivity].
Qed.

(** ** The transfer table stays numbered *)

Lemma wrap_u32_int_small (x n : Z) :
  is_int x -> wrap_u32 x = n -> n < 2 ^ 31 -> x = n.
Proof.
  unfold is_int, wrap_u32, wrap_u. intros Hx <- Hn.
  destruct (Z.neg_nonneg_cases x) as [Hneg|Hpos].
  - exfalso.
    replace x with (x + 2 ^ 32 + (- 1) * 2 ^ 32) in Hn by ring.
    rewrite Z_mod_plus_full, Z.mod_small in Hn; lia.
  - rewrite Z.mod_small; lia.
Qed.

Lemma xfer_funcs_init_numbered : xfer_funcs_numbered xfer_funcs_init.
Proof.
  split; [reflexivity|]. intros k x H.
  do 20 (destruct k as [|k]; [cbn in H; simplify_eq; reflexivity|]).
  cbn in H. discriminate.
Qed.

(** X2.  Registering and unregistering keep the transfer table at its
    twenty slots with slot [n] holding nothing or the entry numbered [n],
    whether the call succeeds or not. *)
Theorem xfer_funcs_numbered_kept (t : list (option loop_func_table))
    (funcs : loop_func_table) (n : Z) :
  xfer_funcs_numbered t -> is_int (number funcs) ->
  xfer_funcs_numbered (loop_register_transfer t funcs).2
  /\ xfer_funcs_numbered (loop_unregister_transfer t n).2.
Proof.
  intros [Hlen Hnum] Hint. split.
  - unfold loop_register_transfer.
    destruct (wrap_u32 (number funcs) >=? MAX_LO_CRYPT) eqn:Er; cbn [orb];
      [split; assumption|].
    destruct (bool_decide (is_Some (xfer_slot t (wrap_u32 (number funcs)))));
      [split; assumption|].
    cbn [snd]. split; [rewrite length_insert; assumption|].
    intros k x Hk.
    destruct (decide (k = Z.to_nat (wrap_u32 (number funcs)))) as [->|Hne].
    + rewrite list_lookup_insert_eq in Hk
        by (rewrite Hlen; unfold MAX_LO_CRYPT in *; lia).
      simplify_eq.
      assert (0 <= wrap_u32 (number x))
        by (unfold wrap_u32, wrap_u; apply Z.mod_pos_bound; lia).
      rewrite Z2Nat.id by assumption.
      apply wrap_u32_int_small; [assumption|reflexivity|].
      unfold MAX_LO_CRYPT in Er. lia.
    + rewrite list_lookup_insert_ne in Hk by congruence. eauto.
  - unfold loop_unregister_transfer.
    match goal with
    | |- xfer_funcs_numbered (if ?c then _ else _).2 =>
        destruct c; [split; assumption|]
    end.
    cbn [snd]. split; [rewrite length_insert; assumption|].
    intros k x Hk.
    destruct (decide (k = Z.to_nat (wrap_u32 n))) as [->|Hne].
    + destruct (decide (Z.to_nat (wrap_u32 n) < length t)%nat) as [Hlt|Hge].
      * rewrite list_lookup_insert_eq in Hk by assumption. discriminate.
      * rewrite list_insert_ge in Hk by lia. eauto.
    + rewrite list_lookup_insert_ne in Hk by congruence. eauto.
Qed.

Lemma xfer_funcs_numbered_kept_witness :
  xfer_funcs_numbered (loop_register_transfer xfer_funcs_init not_funcs).2
  /\ xfer_funcs_numbered (loop_unregister_transfer xfer_funcs_init 1).2.
Proof.
  apply (xfer_funcs_numbered_kept xfer_funcs_init not_funcs 1).
  - exact xfer_funcs_init_numbered.
  - vm_compute; repeat split; easy.
Defined.

(** ** A status written and read back *)

Lemma name_read_back (dst src : list Z) :
  length src = Z.to_nat LO_NAME_SIZE ->
  memcpy (zeros LO_NAME_SIZE)
    (<[Z.to_nat (LO_NAME_SIZE - 1) := 0]> (memcpy dst src LO_NAME_SIZE)) LO_NAME_SIZE
  = <[Z.to_nat (LO_NAME_SIZE - 1) := 0]> src.
Proof.
  intros Hs. unfold memcpy, zeros.
  rewrite (take_ge src) by lia.
  rewrite insert_app_l by (rewrite Hs; unfold LO_NAME_SIZE; lia).
  rewrite take_app_le by (rewrite length_insert; lia).
  rewrite take_ge by (rewrite length_insert; lia).
  rewrite drop_ge by (rewrite length_replicate; lia).
  apply app_nil_r.
Qed.

Lemma key_read_back (dst src : list Z) (n : Z) :
  (Z.to_nat n <= length src)%nat ->
  memcpy (zeros LO_KEY_SIZE) (memcpy dst src n) n = memcpy (zeros LO_KEY_SIZE) src n.
Proof.
  intros Hn. unfold memcpy. f_equal.
  rewrite take_app_le by (rewrite length_take; lia).
  rewrite take_take. f_equal. lia.
Qed.

Lemma xfer_slot_numbered t n x :
  xfer_funcs_numbered t -> 0 <= n -> xfer_slot t n = Some x -> number x = n.
Proof.
  intros [_ H] Hn Hx. unfold xfer_slot in Hx.
  destruct (t !! Z.to_nat n) as [o|] eqn:E; cbn in Hx; [|discriminate].
  subst o. rewrite (H _ _ E). lia.
Qed.

(** X3.  What [loop_set_status] stored is what [loop_get_status] reports:
    offset, size limit and transfer type as passed, the two names as passed
    with their last byte cleared, and, to a caller with [CAP_SYS_ADMIN], the
    key size and the key bytes followed by zeros. *)
Theorem loop_set_status_then_get (xfer_funcs : list (option loop_func_table))
    (env : configure_env) (lo : loop_device) (info : loop_info64)
    (stat : kstat) (stack : loop_info64) :
  xfer_funcs_numbered xfer_funcs -> wf_info64 info ->
  length (info_lo_file_name info) = Z.to_nat LO_NAME_SIZE ->
  length (info_lo_crypt_name info) = Z.to_nat LO_NAME_SIZE ->
  length (info_lo_encrypt_key info) = Z.to_nat LO_KEY_SIZE ->
  (loop_set_status xfer_funcs env lo info).1 = 0 ->
  getattr_err stat = 0 ->
  let lo' := (loop_set_status xfer_funcs env lo info).2 in
  let got := (loop_get_status 0 true stat lo' stack).2 in
  (loop_get_status 0 true stat lo' stack).1 = 0
  /\ info_lo_offset got = info_lo_offset info
  /\ info_lo_sizelimit got = info_lo_sizelimit info
  /\ info_lo_encrypt_type got = info_lo_encrypt_type info
  /\ info_lo_file_name got
     = <[Z.to_nat (LO_NAME_SIZE - 1) := 0]> (info_lo_file_name info)
  /\ info_lo_crypt_name got
     = <[Z.to_nat (LO_NAME_SIZE - 1) := 0]> (info_lo_crypt_name info)
  /\ info_lo_encrypt_key_size got = info_lo_encrypt_key_size info
  /\ info_lo_encrypt_key got
     = memcpy (zeros LO_KEY_SIZE) (info_lo_encrypt_key info)
         (info_lo_encrypt_key_size info).
Proof.
  intros Hnum Hwf Lf Lc Lk Hok Hstat.
  destruct (loop_set_status xfer_funcs env lo info) as [e lo'] eqn:Hset.
  cbn [fst snd] in *. subst e.
  destruct (loop_set_status_ok _ _ _ _ _ Hset) as (lo1 & Hinfo & _ & Hb & Hc & _).
  destruct (loop_set_status_from_info_cases _ _ _ _ _ _ Hinfo)
    as ((S1 & _) & _ & Hcase).
  destruct (Hcase eq_refl) as (O1 & L1 & _ & K1 & _ & _ & Kle & E1 & _ & X1).
  destruct (loop_set_status_from_info_ok _ _ _ _ _ Hinfo) as (N1 & N2 & Hkey).
  destruct Hc as (C1 & _ & _ & _ & C5 & C6 & C7 & C8 & _ & _ & _ & C12 & C13 & C14 & _).
  destruct Hwf as (_ & _ & _ & Wo & Wl & _ & Wt & Wk & _).
  unfold loop_get_status. cbn [Z.eqb negb].
  rewrite C1, S1, Hb. cbn [lo_state_eqb negb]. rewrite Hstat. cbn [Z.eqb negb snd fst].
  cbn [info_lo_offset info_lo_sizelimit info_lo_encrypt_type info_lo_file_name
       info_lo_crypt_name info_lo_encrypt_key_size info_lo_encrypt_key].
  rewrite C5, C6, C7, C8, C12, C13, C14, O1, L1, K1, E1, N1, N2, andb_true_r.
  split; [reflexivity|].
  split; [apply to_u64_small; assumption|].
  split; [apply to_u64_small; assumption|].
  split.
  { unfold selected_xfer in *.
    destruct (info_lo_encrypt_type info =? 0) eqn:Et.
    - apply Z.eqb_eq in Et. rewrite Et. reflexivity.
    - destruct (xfer_slot xfer_funcs (wrap_u32 (info_lo_encrypt_type info)))
        as [x|] eqn:Ex; [|apply Z.eqb_neq in Et; contradiction].
      rewrite wrap_u32_small in Ex by assumption.
      rewrite (xfer_slot_numbered _ _ _ Hnum (proj1 Wt) Ex).
      apply wrap_u32_small. assumption. }
  split; [apply name_read_back; assumption|].
  split; [apply name_read_back; assumption|].
  rewrite wrap_u32_small in Kle by assumption.
  destruct (info_lo_encrypt_key_size info =? 0) eqn:Ek; cbn [negb].
  - apply Z.eqb_eq in Ek. rewrite Ek. split; reflexivity.
  - apply Z.eqb_neq in Ek. destruct (Hkey Ek) as [_ ->].
    split; [apply wrap_u32_small; assumption|].
    apply key_read_back. rewrite Lk. unfold LO_KEY_SIZE in *. lia.
Qed.

Lemma loop_set_status_then_get_witness :
  let lo' := (loop_set_status xfer_funcs_init (env_ok (image_file 1048576))
                lo_bound info_sample).2 in
  let got := (loop_get_status 0 true stat_sample lo' loop_info64_zero).2 in
  (loop_get_status 0 true stat_sample lo' loop_info64_zero).1 = 0
  /\ info_lo_offset got = info_lo_offset info_sample
  /\ info_lo_sizelimit got = info_lo_sizelimit info_sample
  /\ info_lo_encrypt_type got = info_lo_encrypt_type info_sample
  /\ info_lo_file_name got
     = <[Z.to_nat (LO_NAME_SIZE - 1) := 0]> (info_lo_file_name info_sample)
  /\ info_lo_crypt_name got
     = <[Z.to_nat (LO_NAME_SIZE - 1) := 0]> (info_lo_crypt_name info_sample)
  /\ info_lo_encrypt_key_size got = info_lo_encrypt_key_size info_sample
  /\ info_lo_encrypt_key got
     = memcpy (zeros LO_KEY_SIZE) (info_lo_encrypt_key info_sample)
         (info_lo_encrypt_key_size info_sample).
Proof.
  apply (loop_set_status_then_get xfer_funcs_init (env_ok (image_file 1048576))
           lo_bound info_sample stat_sample loop_info64_zero).
  - exact xfer_funcs_init_numbered.
  - vm_compute; repeat split; easy.
  - reflexivity.
  - reflexivity.
  - reflexivity.
  - vm_compute; reflexivity.
  - reflexivity.
Defined.

(** ** Who sees and who changes a key *)

(** X4.  A caller without [CAP_SYS_ADMIN] never receives key material: the
    structure any of the three status-reading entry points copies out has a
    key size of 0 and a key of zero bytes. *)
Theorem loop_get_status_hides_key (a : abi) (lock : Z) (stat : kstat)
    (copy_ok : bool) (stack : loop_info64) (lo : loop_device) (arg_null : bool) :
  (forall i,
      (loop_get_status64 lock false stat copy_ok stack lo arg_null).2 = Some i ->
      info_lo_encrypt_key_size i = 0 /\ info_lo_encrypt_key i = zeros LO_KEY_SIZE)
  /\ (forall i,
        (loop_get_status_old a lock false stat copy_ok stack lo arg_null).2 = Some i ->
        old_lo_encrypt_key_size i = 0 /\ old_lo_encrypt_key i = zeros LO_KEY_SIZE)
  /\ (forall i,
        (loop_get_status_compat a lock false stat copy_ok stack lo arg_null).2 = Some i ->
        compat_lo_encrypt_key_size i = 0
        /\ compat_lo_encrypt_key i = zeros LO_KEY_SIZE).
Proof.
  assert (Hget : forall e i, loop_get_status lock false stat lo stack = (e, i) ->
            e = 0 ->
            info_lo_encrypt_key_size i = 0 /\ info_lo_encrypt_key i = zeros LO_KEY_SIZE).
  { unfold loop_get_status. intros e i H He.
    destruct (lock =? 0) eqn:El; cbn [negb] in H.
    2:{ apply Z.eqb_neq in El. injection H as H _. congruence. }
    destruct (lo_state_eqb (lo_state lo) Lo_bound); cbn [negb] in H;
      [|injection H as H _; unfold ENXIO in H; lia].
    rewrite andb_false_r in H.
    destruct (getattr_err stat =? 0); cbn [negb] in H;
      injection H as _ <-; split; reflexivity. }
  split; [|split]; intros i H.
  - unfold loop_get_status64 in H. destruct arg_null; [discriminate|].
    destruct (loop_get_status lock false stat lo stack) as [e i64] eqn:E.
    destruct (e =? 0) eqn:Ee; cbn [negb] in H; [|discriminate].
    apply Z.eqb_eq in Ee. destruct copy_ok; cbn [negb snd] in H; [|discriminate].
    injection H as <-. eapply Hget; eauto.
  - unfold loop_get_status_old in H. destruct arg_null; [discriminate|].
    destruct (loop_get_status lock false stat lo stack) as [e i64] eqn:E.
    destruct (e =? 0) eqn:Ee; cbn [negb] in H; [|discriminate].
    apply Z.eqb_eq in Ee. destruct (Hget _ _ eq_refl Ee) as [K1 K2].
    unfold loop_info64_to_old in H. rewrite K1, K2 in H.
    match type of H with
    | context [if ?c then (- EOVERFLOW, ?x) else (0, ?y)] =>
        destruct c; cbn [fst snd Z.eqb negb] in H
    end; [unfold EOVERFLOW in H; cbn in H; discriminate|].
    destruct copy_ok; cbn [negb snd] in H; [|discriminate].
    injection H as <-. split; reflexivity.
  - unfold loop_get_status_compat in H. destruct arg_null; [discriminate|].
    destruct (loop_get_status lock false stat lo stack) as [e i64] eqn:E.
    destruct (e =? 0) eqn:Ee; cbn [negb] in H; [|discriminate].
    apply Z.eqb_eq in Ee. destruct (Hget _ _ eq_refl Ee) as [K1 K2].
    unfold loop_info64_to_compat in H. rewrite K1, K2 in H.
    match type of H with
    | context [if ?c then (- EOVERFLOW, ?x) else _] =>
        destruct c; cbn [fst snd Z.eqb negb] in H
    end; [unfold EOVERFLOW in H; cbn in H; discriminate|].
    destruct copy_ok; cbn [negb snd fst] in H;
      [|unfold EFAULT in H; cbn in H; discriminate].
    cbn in H. injection H as <-. split; reflexivity.
Qed.

Lemma loop_get_status_hides_key_witness :
  match (loop_get_status64 0 false stat_sample true loop_info64_zero lo_keyed
           false).2 with
  | Some i => info_lo_encrypt_key_size i = 0
              /\ info_lo_encrypt_key i = zeros LO_KEY_SIZE
  | None => False
  end.
Proof.
  pose proof (proj1 (loop_get_status_hides_key abi_lp64 0 stat_sample true
                       loop_info64_zero lo_keyed false)) as H.
  destruct (loop_get_status64 0 false stat_sample true loop_info64_zero lo_keyed
              false).2 as [i|] eqn:E.
  - exact (H i eq_refl).
  - vm_compute in E. discriminate.
Defined.

(** X5.  Once a caller has set a key, [loop_set_status] by any other user
    who lacks [CAP_SYS_ADMIN] is refused with [-EPERM] and changes nothing. *)
Theorem loop_set_status_key_owner (xfer_funcs : list (option loop_func_table))
    (env env' : configure_env) (lo : loop_device) (info info' : loop_info64) :
  (loop_set_status xfer_funcs env lo info).1 = 0 ->
  info_lo_encrypt_key_size info <> 0 ->
  lock_err env' = 0 -> current_uid env' <> current_uid env ->
  capable_admin env' = false ->
  loop_set_status xfer_funcs env' (loop_set_status xfer_funcs env lo info).2 info'
  = (- EPERM, (loop_set_status xfer_funcs env lo info).2).
Proof.
  intros Hok Hk Hl Hu Hc.
  destruct (loop_set_status xfer_funcs env lo info) as [e lo'] eqn:Hset.
  cbn [fst snd] in *. subst e.
  destruct (loop_set_status_ok _ _ _ _ _ Hset) as (lo1 & Hinfo & _ & _ & Hcfg & _).
  destruct (loop_set_status_from_info_cases _ _ _ _ _ _ Hinfo) as (_ & _ & Hcase).
  destruct (Hcase eq_refl) as (_ & _ & _ & K1 & _).
  destruct (loop_set_status_from_info_ok _ _ _ _ _ Hinfo) as (_ & _ & Hkey).
  destruct (Hkey Hk) as [Ow _].
  destruct Hcfg as (_ & _ & _ & _ & _ & _ & C7 & _ & C9 & _).
  unfold loop_set_status. rewrite Hl, Hc, C7, C9, K1, Ow. cbn [Z.eqb negb].
  apply Z.eqb_neq in Hk. rewrite Hk.
  assert (Hne : (current_uid env =? current_uid env') = false)
    by (apply Z.eqb_neq; congruence).
  rewrite Hne. reflexivity.
Qed.

Lemma loop_set_status_key_owner_witness :
  loop_set_status xfer_funcs_init env_other_user
    (loop_set_status xfer_funcs_init (env_ok (image_file 1048576)) lo_bound
       info_sample).2 (info_plain 0 0)
  = (- EPERM,
     (loop_set_status xfer_funcs_init (env_ok (image_file 1048576)) lo_bound
        info_sample).2).
Proof.
  apply (loop_set_status_key_owner xfer_funcs_init (env_ok (image_file 1048576))
           env_other_user lo_bound info_sample (info_plain 0 0)).
  - vm_compute; reflexivity.
  - vm_compute; discriminate.
  - reflexivity.
  - vm_compute; discriminate.
  - reflexivity.
Defined.

(** ** Which flags a status update can change *)

Lemma land_pow2_testbit (x k : Z) :
  0 <= k -> Z.land x (2 ^ k) = if Z.testbit x k then 2 ^ k else 0.
Proof.
  intros Hk. apply Z.bits_inj'. intros n Hn.
  rewrite Z.land_spec, Z.pow2_bits_eqb by assumption.
  destruct (Z.eqb_spec k n) as [->|Hne].
  - destruct (Z.testbit x n);
      rewrite ?Z.pow2_bits_true, ?Z.bits_0 by assumption; reflexivity.
  - rewrite andb_false_r.
    destruct (Z.testbit x k);
      rewrite ?Z.pow2_bits_false, ?Z.bits_0 by auto; reflexivity.
Qed.

Lemma flag_set_testbit (x k : Z) : 0 <= k -> flag_set x (2 ^ k) = Z.testbit x k.
Proof.
  intros Hk. unfold flag_set. rewrite land_pow2_testbit by assumption.
  destruct (Z.testbit x k); [|reflexivity].
  assert (0 < 2 ^ k) by (apply Z.pow_pos_nonneg; lia).
  apply negb_true_iff, Z.eqb_neq. lia.
Qed.

(** Bit [k] of the flag word, for the bits [LOOP_SET_STATUS] deals with. *)
Lemma merged_flags_bits (prev new : Z) :
  Z.testbit (merged_flags prev new) 0 = Z.testbit prev 0
  /\ Z.testbit (merged_flags prev new) 2 = Z.testbit new 2
  /\ Z.testbit (merged_flags prev new) 3 = Z.testbit new 3 || Z.testbit prev 3.
Proof.
  unfold merged_flags.
  rewrite !Z.lor_spec, !Z.land_spec.
  change (Z.testbit LOOP_SET_STATUS_SETTABLE_FLAGS 0) with false.
  change (Z.testbit LOOP_SET_STATUS_SETTABLE_FLAGS 2) with true.
  change (Z.testbit LOOP_SET_STATUS_SETTABLE_FLAGS 3) with true.
  change (Z.testbit (not32 LOOP_SET_STATUS_SETTABLE_FLAGS) 0) with true.
  change (Z.testbit (not32 LOOP_SET_STATUS_SETTABLE_FLAGS) 2) with false.
  change (Z.testbit (not32 LOOP_SET_STATUS_SETTABLE_FLAGS) 3) with false.
  change (Z.testbit (not32 LOOP_SET_STATUS_CLEARABLE_FLAGS) 0) with true.
  change (Z.testbit (not32 LOOP_SET_STATUS_CLEARABLE_FLAGS) 2) with false.
  change (Z.testbit (not32 LOOP_SET_STATUS_CLEARABLE_FLAGS) 3) with true.
  destruct (Z.testbit prev 0), (Z.testbit prev 2), (Z.testbit prev 3),
    (Z.testbit new 0), (Z.testbit new 2), (Z.testbit new 3); repeat split; reflexivity.
Qed.

(** Switching direct I/O touches bit 4 only. *)
Lemma dio_flag_bits (F F' : Z) (k : Z) :
  F' = F \/ F' = Z.lor F LO_FLAGS_DIRECT_IO
  \/ F' = Z.land F (not32 LO_FLAGS_DIRECT_IO) ->
  k = 0 \/ k = 2 \/ k = 3 -> Z.testbit F' k = Z.testbit F k.
Proof.
  intros [->|[->| ->]] Hk; [reflexivity| |].
  - rewrite Z.lor_spec.
    destruct Hk as [->|[->| ->]];
      change (Z.testbit LO_FLAGS_DIRECT_IO _) with false; apply orb_false_r.
  - rewrite Z.land_spec.
    destruct Hk as [->|[->| ->]];
      change (Z.testbit (not32 LO_FLAGS_DIRECT_IO) _) with true; apply andb_true_r.
Qed.

(** X6.  A successful [loop_set_status] leaves the read-only flag as it
    was, takes the autoclear flag from the caller, and can set the
    partition-scan flag but not clear it. *)
Theorem loop_set_status_flags_policy (xfer_funcs : list (option loop_func_table))
    (env : configure_env) (lo : loop_device) (info : loop_info64) :
  (loop_set_status xfer_funcs env lo info).1 = 0 ->
  let lo' := (loop_set_status xfer_funcs env lo info).2 in
  flag_set (lo_flags lo') LO_FLAGS_READ_ONLY = flag_set (lo_flags lo) LO_FLAGS_READ_ONLY
  /\ flag_set (lo_flags lo') LO_FLAGS_AUTOCLEAR
     = flag_set (info_lo_flags info) LO_FLAGS_AUTOCLEAR
  /\ flag_set (lo_flags lo') LO_FLAGS_PARTSCAN
     = flag_set (info_lo_flags info) LO_FLAGS_PARTSCAN
       || flag_set (lo_flags lo) LO_FLAGS_PARTSCAN.
Proof.
  intros Hok.
  destruct (loop_set_status xfer_funcs env lo info) as [e lo'] eqn:Hset.
  cbn [fst snd] in *. subst e.
  destruct (loop_set_status_ok _ _ _ _ _ Hset) as (lo1 & Hinfo & _ & _ & _ & HF).
  destruct (loop_set_status_from_info_cases _ _ _ _ _ _ Hinfo) as (_ & _ & Hcase).
  destruct (Hcase eq_refl) as (_ & _ & F1 & _).
  rewrite F1 in HF.
  destruct (merged_flags_bits (lo_flags lo) (info_lo_flags info)) as (B0 & B2 & B3).
  change LO_FLAGS_READ_ONLY with (2 ^ 0).
  change LO_FLAGS_AUTOCLEAR with (2 ^ 2).
  change LO_FLAGS_PARTSCAN with (2 ^ 3).
  rewrite !flag_set_testbit by lia.
  rewrite (dio_flag_bits _ _ 0 HF), (dio_flag_bits _ _ 2 HF),
    (dio_flag_bits _ _ 3 HF) by auto.
  rewrite B0, B2, B3. auto.
Qed.

Lemma loop_set_status_flags_policy_witness :
  let lo' := (loop_set_status xfer_funcs_init (env_ok (image_file 1048576))
                lo_bound info_sample).2 in
  flag_set (lo_flags lo') LO_FLAGS_READ_ONLY
  = flag_set (lo_flags lo_bound) LO_FLAGS_READ_ONLY
  /\ flag_set (lo_flags lo') LO_FLAGS_AUTOCLEAR
     = flag_set (info_lo_flags info_sample) LO_FLAGS_AUTOCLEAR
  /\ flag_set (lo_flags lo') LO_FLAGS_PARTSCAN
     = flag_set (info_lo_flags info_sample) LO_FLAGS_PARTSCAN
       || flag_set (lo_flags lo_bound) LO_FLAGS_PARTSCAN.
Proof.
  apply (loop_set_status_flags_policy xfer_funcs_init (env_ok (image_file 1048576))
           lo_bound info_sample).
  vm_compute; reflexivity.
Defined.

(** ** What a caller without write access can do *)

(** X7.  A caller that opened the device without [FMODE_WRITE] and lacks
    [CAP_SYS_ADMIN] gets [-EPERM] from [lo_ioctl] for the five commands
    that change settings, and [lo_ioctl] leaves the device as it was unless
    the command is one of [LOOP_SET_FD], [LOOP_CONFIGURE], [LOOP_CHANGE_FD]
    and [LOOP_CLR_FD].  Through [lo_compat_ioctl] the same holds for four
    of the five; [LOOP_SET_STATUS] it hands to [loop_set_status_compat]
    without looking at the mode or the capability, so that it leaves the
    device as it was unless the command is one of the four above or
    [LOOP_SET_STATUS]. *)
Theorem lo_ioctl_without_write (xfer_funcs : list (option loop_func_table))
    (part_shift : Z) (a : abi) (e : ioctl_env)
    (user_compat : option compat_loop_info) (lo : loop_device)
    (bdev mode cmd arg : Z) :
  flag_set mode FMODE_WRITE = false -> capable_admin (cfg e) = false ->
  (cmd = LOOP_SET_STATUS \/ cmd = LOOP_SET_STATUS64 \/ cmd = LOOP_SET_CAPACITY
   \/ cmd = LOOP_SET_DIRECT_IO \/ cmd = LOOP_SET_BLOCK_SIZE ->
   lo_ioctl xfer_funcs part_shift a e lo bdev mode cmd arg = (- EPERM, lo, out_none))
  /\ (cmd <> LOOP_SET_FD -> cmd <> LOOP_CONFIGURE -> cmd <> LOOP_CHANGE_FD ->
      cmd <> LOOP_CLR_FD ->
      (lo_ioctl xfer_funcs part_shift a e lo bdev mode cmd arg).1.2 = lo)
  /\ (cmd = LOOP_SET_STATUS64 \/ cmd = LOOP_SET_CAPACITY
      \/ cmd = LOOP_SET_DIRECT_IO \/ cmd = LOOP_SET_BLOCK_SIZE ->
      lo_compat_ioctl xfer_funcs part_shift a e user_compat lo bdev mode cmd arg
      = (- EPERM, lo, out_none))
  /\ lo_compat_ioctl xfer_funcs part_shift a e user_compat lo bdev mode
       LOOP_SET_STATUS arg
     = (loop_set_status_compat xfer_funcs (cfg e) lo user_compat, out_none)
  /\ (cmd <> LOOP_SET_FD -> cmd <> LOOP_CONFIGURE -> cmd <> LOOP_CHANGE_FD ->
      cmd <> LOOP_CLR_FD -> cmd <> LOOP_SET_STATUS ->
      (lo_compat_ioctl xfer_funcs part_shift a e user_compat lo bdev mode cmd arg).1.2
      = lo).
Proof.
  intros Hm Hc.
  assert (Hperm : forall cmd arg,
            cmd = LOOP_SET_STATUS \/ cmd = LOOP_SET_STATUS64 \/ cmd = LOOP_SET_CAPACITY
            \/ cmd = LOOP_SET_DIRECT_IO \/ cmd = LOOP_SET_BLOCK_SIZE ->
            lo_ioctl xfer_funcs part_shift a e lo bdev mode cmd arg
            = (- EPERM, lo, out_none)).
  { intros c g [->|[->|[->|[->| ->]]]]; unfold lo_ioctl; rewrite Hm, Hc; reflexivity. }
  assert (Hsame : forall cmd arg,
            cmd <> LOOP_SET_FD -> cmd <> LOOP_CONFIGURE -> cmd <> LOOP_CHANGE_FD ->
            cmd <> LOOP_CLR_FD ->
            (lo_ioctl xfer_funcs part_shift a e lo bdev mode cmd arg).1.2 = lo).
  { intros c g N1 N2 N3 N4. unfold lo_ioctl. rewrite Hm, Hc. cbn [orb negb andb].
    apply Z.eqb_neq in N1, N2, N3, N4. rewrite N1, N2, N3, N4.
    destruct (c =? LOOP_SET_STATUS); [reflexivity|].
    destruct (c =? LOOP_GET_STATUS).
    { destruct (loop_get_status_old _ _ _ _ _ _ _ _) as [err out]. reflexivity. }
    destruct (c =? LOOP_SET_STATUS64); [reflexivity|].
    destruct (c =? LOOP_GET_STATUS64).
    { destruct (loop_get_status64 _ _ _ _ _ _ _) as [err out]. reflexivity. }
    destruct (c =? LOOP_SET_CAPACITY) eqn:E1; [reflexivity|].
    destruct (c =? LOOP_SET_DIRECT_IO) eqn:E2; [reflexivity|].
    destruct (c =? LOOP_SET_BLOCK_SIZE) eqn:E3; [reflexivity|].
    cbn [orb andb fst snd]. unfold lo_simple_ioctl. rewrite E1, E2, E3.
    destruct (negb (lock_err (cfg e) =? 0)); reflexivity. }
  split; [apply Hperm|]. split; [apply Hsame|]. split; [|split].
  - intros [->|[->|[->| ->]]]; unfold lo_compat_ioctl;
      cbn [Z.eqb LOOP_SET_STATUS LOOP_GET_STATUS LOOP_SET_STATUS64 LOOP_SET_CAPACITY
           LOOP_SET_DIRECT_IO LOOP_SET_BLOCK_SIZE LOOP_CLR_FD LOOP_GET_STATUS64
           LOOP_CONFIGURE LOOP_SET_FD LOOP_CHANGE_FD Pos.eqb orb];
      apply Hperm; auto.
  - reflexivity.
  - intros N1 N2 N3 N4 N5. unfold lo_compat_ioctl.
    apply Z.eqb_neq in N5. rewrite N5.
    destruct (cmd =? LOOP_GET_STATUS).
    { destruct (loop_get_status_compat _ _ _ _ _ _ _ _) as [err out]. reflexivity. }
    break_if; [apply Hsame; assumption|].
    break_if; [apply Hsame; assumption|]. reflexivity.
Qed.

Lemma lo_ioctl_without_write_witness :
  lo_compat_ioctl xfer_funcs_init 0 abi_lp64
    {| cfg := env_other_user; user_config := None; user_info := None;
       user_info64 := Some info_sample; copy_out_ok := true;
       getattr := stat_sample; stack_info64 := loop_info64_zero;
       xfer_ioctl_ret := 0 |}
    (Some compat_info_sample) lo_bound 7 0 LOOP_SET_STATUS64 0
  = (- EPERM, lo_bound, out_none).
Proof.
  refine (proj1 (proj2 (proj2 (lo_ioctl_without_write xfer_funcs_init 0 abi_lp64 _
                                 (Some compat_info_sample) lo_bound 7 0
                                 LOOP_SET_STATUS64 0 _ _))) _).
  - reflexivity.
  - reflexivity.
  - left. reflexivity.
Defined.

(** The same caller changes the offset of [lo_bound] through the
    [LOOP_SET_STATUS] of [lo_compat_ioctl], which [lo_ioctl] refuses. *)
Example lo_compat_ioctl_set_status_unchecked :
  let e := {| cfg := env_other_user; user_config := None;
              user_info := None; user_info64 := None;
              copy_out_ok := true; getattr := stat_sample;
              stack_info64 := loop_info64_zero; xfer_ioctl_ret := 0 |} in
  let r := lo_compat_ioctl xfer_funcs_init 0 abi_lp64 e
             (Some compat_info_offset_512) lo_bound 7 0 LOOP_SET_STATUS 0 in
  lo_offset lo_bound = 0 /\ r.1.1 = 0 /\ lo_offset r.1.2 = 512
  /\ (lo_ioctl xfer_funcs_init 0 abi_lp64 e lo_bound 7 0 LOOP_SET_STATUS 0).1.1
     = - EPERM.
Proof. cbv zeta. repeat split; reflexivity. Qed.

(** ** Direct I/O *)

(** The switch [__loop_update_dio] computes; the block size of the file
    system's device enters as the [unsigned short] the function keeps it
    in. *)
Lemma __loop_update_dio_use_dio lo dio f :
  lo_backing_file lo = Some f ->
  use_dio (__loop_update_dio lo dio)
  = (if dio then
       (logical_block_size (lo_queue lo)
          >=? match s_bdev_lbs f with Some b => wrap_u 16 b | None => 0 end)
       && (Z.land (lo_offset lo)
             match s_bdev_lbs f with
             | Some b => wrap_u32 (wrap_u 16 b - 1)
             | None => 0
             end =? 0)
       && a_ops_direct_IO f
       && negb (bool_decide (is_Some (transfer lo)))
     else false).
Proof.
  intros Hf. unfold __loop_update_dio. rewrite Hf.
  destruct (s_bdev_lbs f) as [b|];
    match goal with
    | |- context [Bool.eqb (use_dio lo) ?n] => generalize n
    end;
    intros n; destruct (use_dio lo) eqn:Eu, n; cbn; auto.
Qed.

(** X8.  [loop_set_dio] on a bound device: turning direct I/O off always
    succeeds; turning it on fails with [-EINVAL], leaving it off, whenever a
    transfer is selected; and turning it on succeeds, leaving it on,
    exactly when there is no transfer, the backing file supports direct
    I/O, the offset is aligned to the block size of the file system's
    device and the loop device's block size is not below it, that block
    size being taken as the [unsigned short] the driver keeps it in (so
    that 65536 counts as 0, which no offset but a multiple of 2^32 is
    aligned to). *)
Theorem loop_set_dio_conditions (lo : loop_device) (arg : Z) (f : file) :
  lo_state lo = Lo_bound -> lo_backing_file lo = Some f ->
  (arg = 0 ->
   (loop_set_dio lo arg).1 = 0 /\ use_dio (loop_set_dio lo arg).2 = false)
  /\ (arg <> 0 -> transfer lo <> None ->
      (loop_set_dio lo arg).1 = - EINVAL /\ use_dio (loop_set_dio lo arg).2 = false)
  /\ (arg <> 0 ->
      ((loop_set_dio lo arg).1 = 0 \/ (loop_set_dio lo arg).1 = - EINVAL)
      /\ use_dio (loop_set_dio lo arg).2 = ((loop_set_dio lo arg).1 =? 0)
      /\ ((loop_set_dio lo arg).1 = 0 <->
          transfer lo = None /\ a_ops_direct_IO f = true
          /\ match s_bdev_lbs f with
             | Some b =>
                 wrap_u 16 b <= logical_block_size (lo_queue lo)
                 /\ Z.land (lo_offset lo) (wrap_u32 (wrap_u 16 b - 1)) = 0
             | None => 0 <= logical_block_size (lo_queue lo)
             end)).
Proof.
  intros Hb Hf. unfold loop_set_dio. rewrite Hb. cbn [lo_state_eqb negb].
  rewrite (__loop_update_dio_use_dio lo (negb (arg =? 0)) f Hf).
  split; [|split].
  - intros ->. cbn. rewrite (__loop_update_dio_use_dio _ _ f Hf). auto.
  - intros Ha Ht. apply Z.eqb_neq in Ha. rewrite Ha. cbn [negb].
    rewrite bool_decide_eq_true_2 by (destruct (transfer lo); [eauto|congruence]).
    cbn [negb]. rewrite andb_false_r. cbn.
    rewrite (__loop_update_dio_use_dio _ _ f Hf).
    rewrite bool_decide_eq_true_2 by (destruct (transfer lo); [eauto|congruence]).
    cbn [negb]. rewrite andb_false_r. auto.
  - intros Ha. apply Z.eqb_neq in Ha. rewrite Ha. cbn [negb].
    assert (Hcond :
      ((logical_block_size (lo_queue lo)
          >=? match s_bdev_lbs f with Some b => wrap_u 16 b | None => 0 end)
       && (Z.land (lo_offset lo)
             match s_bdev_lbs f with
             | Some b => wrap_u32 (wrap_u 16 b - 1)
             | None => 0
             end =? 0)
       && a_ops_direct_IO f
       && negb (bool_decide (is_Some (transfer lo)))) = true
      <-> transfer lo = None /\ a_ops_direct_IO f = true
          /\ match s_bdev_lbs f with
             | Some b =>
                 wrap_u 16 b <= logical_block_size (lo_queue lo)
                 /\ Z.land (lo_offset lo) (wrap_u32 (wrap_u 16 b - 1)) = 0
             | None => 0 <= logical_block_size (lo_queue lo)
             end).
    { rewrite !andb_true_iff, negb_true_iff, bool_decide_eq_false.
      rewrite Z.geb_leb, Z.leb_le, Z.eqb_eq.
      split.
      - intros [[[H1 H2] H3] H4]. split.
        + destruct (transfer lo); [exfalso; apply H4; eauto|reflexivity].
        + split; [assumption|]. destruct (s_bdev_lbs f); auto.
      - intros (H4 & H3 & H12). split; [split; [|assumption]|].
        + destruct (s_bdev_lbs f); [exact H12|]. split; [assumption|].
          apply Z.land_0_r.
        + rewrite H4. intros [t Ht]. discriminate. }
    match goal with
    | |- context [Bool.eqb ?c true] => destruct c eqn:E
    end; cbn [Bool.eqb fst snd].
    + split; [auto|].
      split; [rewrite (__loop_update_dio_use_dio _ _ f Hf); exact E|].
      split; [intros _; apply Hcond; reflexivity|reflexivity].
    + split; [auto|].
      split; [rewrite (__loop_update_dio_use_dio _ _ f Hf); exact E|].
      unfold EINVAL. split; [intros; lia|].
      intros H. apply Hcond in H. discriminate.
Qed.

Lemma loop_set_dio_conditions_witness :
  (loop_set_dio lo_keyed 1).1 = - EINVAL /\ use_dio (loop_set_dio lo_keyed 1).2 = false.
Proof.
  refine (proj1 (proj2 (loop_set_dio_conditions lo_keyed 1 (image_file 1048576) _ _))
            _ _).
  - reflexivity.
  - reflexivity.
  - discriminate.
  - assert (exists t, transfer lo_keyed = Some t) as [t Ht]
      by (eexists; reflexivity).
    congruence.
Defined.

(** A backing device with blocks of 65536 bytes: the [unsigned short] holds
    0, and direct I/O is granted on a loop device with blocks of 512
    bytes. *)
Example loop_set_dio_wide_blocks :
  let lo := set_lo_backing_file (Some (file_wide_blocks 1048576)) lo_bound in
  logical_block_size (lo_queue lo) = 512
  /\ (loop_set_dio lo 1).1 = 0 /\ use_dio (loop_set_dio lo 1).2 = true.
Proof. cbv zeta. split; [reflexivity|]. split; reflexivity. Qed.

(** ** Switching the backing file *)

(** X9.  [loop_change_fd] is all or nothing.  When it fails the device is
    as it was.  It succeeds only on a bound, read-only device and for a
    file that gives the same loop size as the one attached; the device is
    then bound to the new file, still read-only, with offset, size limit
    and capacity unchanged. *)
Theorem loop_change_fd_all_or_nothing (env : configure_env) (lo : loop_device)
    (bdev : Z) :
  ((loop_change_fd env lo bdev).1 <> 0 -> (loop_change_fd env lo bdev).2 = lo)
  /\ ((loop_change_fd env lo bdev).1 = 0 ->
      lo_state lo = Lo_bound
      /\ flag_set (lo_flags lo) LO_FLAGS_READ_ONLY = true
      /\ exists file virt_file old_file,
           configure_files env = Some (file, virt_file)
           /\ lo_backing_file lo = Some old_file
           /\ get_loop_size lo file = get_loop_size lo old_file
           /\ lo_backing_file (loop_change_fd env lo bdev).2 = Some file
           /\ lo_backing_virt_file (loop_change_fd env lo bdev).2 = virt_file
           /\ lo_state (loop_change_fd env lo bdev).2 = Lo_bound
           /\ flag_set (lo_flags (loop_change_fd env lo bdev).2) LO_FLAGS_READ_ONLY
              = true
           /\ lo_offset (loop_change_fd env lo bdev).2 = lo_offset lo
           /\ lo_sizelimit (loop_change_fd env lo bdev).2 = lo_sizelimit lo
           /\ lo_disk (loop_change_fd env lo bdev).2 = lo_disk lo).
Proof.
  unfold loop_change_fd, configure_files.
  destruct (fget_file env) as [file0|]; [|split; [reflexivity|discriminate]].
  destruct (lock_err env =? 0) eqn:El; cbn [negb].
  2:{ apply Z.eqb_neq in El. split; [reflexivity|cbn; congruence]. }
  destruct (lo_state_eqb (lo_state lo) Lo_bound) eqn:Eb; cbn [negb];
    [|split; [reflexivity|discriminate]].
  apply lo_state_eqb_eq in Eb.
  destruct (flag_set (lo_flags lo) LO_FLAGS_READ_ONLY) eqn:Er; cbn [negb];
    [|split; [reflexivity|discriminate]].
  set (fv := match real_file env with
             | Some f => (f, Some file0)
             | None => (file0, None)
             end).
  destruct fv as [file virt_file] eqn:Efv.
  destruct (validate_err env =? 0) eqn:Ev; cbn [negb].
  2:{ apply Z.eqb_neq in Ev. split; [reflexivity|cbn; congruence]. }
  destruct (lo_backing_file lo) as [old_file|] eqn:Eo;
    [|split; [reflexivity|discriminate]].
  destruct (get_loop_size lo file =? get_loop_size lo old_file) eqn:Es; cbn [negb];
    [|split; [reflexivity|discriminate]].
  apply Z.eqb_eq in Es. cbn [fst snd].
  split; [congruence|]. intros _.
  split; [assumption|]. split; [reflexivity|].
  exists file, virt_file, old_file.
  split; [reflexivity|]. split; [reflexivity|]. split; [assumption|].
  match goal with
  | |- context [loop_update_dio ?x] => set (L := x)
  end.
  destruct (__loop_update_dio_flags L
              (match lo_backing_file L with Some f => f_o_direct f | None => false end
               || use_dio L)) as (Hc & Hd & HF).
  fold (loop_update_dio L) in Hc, Hd, HF.
  destruct Hc as (C1 & C2 & C3 & _ & C5 & C6 & _).
  rewrite C1, C2, C3, C5, C6, Hd.
  repeat split; try reflexivity; try assumption.
  change LO_FLAGS_READ_ONLY with (2 ^ 0) in *.
  rewrite flag_set_testbit in * by lia.
  rewrite (dio_flag_bits (lo_flags L) _ 0); [exact Er| |auto].
  destruct HF as [(_ & F & _)|[(_ & _ & F)|(_ & _ & F)]]; auto.
Qed.

Lemma loop_change_fd_all_or_nothing_witness :
  lo_state lo_bound_ro = Lo_bound
  /\ flag_set (lo_flags lo_bound_ro) LO_FLAGS_READ_ONLY = true
  /\ exists file virt_file old_file,
       configure_files (env_ok (image_file_2 1048576)) = Some (file, virt_file)
       /\ lo_backing_file lo_bound_ro = Some old_file
       /\ get_loop_size lo_bound_ro file = get_loop_size lo_bound_ro old_file
       /\ lo_backing_file
            (loop_change_fd (env_ok (image_file_2 1048576)) lo_bound_ro 7).2
          = Some file
       /\ lo_backing_virt_file
            (loop_change_fd (env_ok (image_file_2 1048576)) lo_bound_ro 7).2
          = virt_file
       /\ lo_state (loop_change_fd (env_ok (image_file_2 1048576)) lo_bound_ro 7).2
          = Lo_bound
       /\ flag_set
            (lo_flags (loop_change_fd (env_ok (image_file_2 1048576)) lo_bound_ro 7).2)
            LO_FLAGS_READ_ONLY = true
       /\ lo_offset (loop_change_fd (env_ok (image_file_2 1048576)) lo_bound_ro 7).2
          = lo_offset lo_bound_ro
       /\ lo_sizelimit (loop_change_fd (env_ok (image_file_2 1048576)) lo_bound_ro 7).2
          = lo_sizelimit lo_bound_ro
       /\ lo_disk (loop_change_fd (env_ok (image_file_2 1048576)) lo_bound_ro 7).2
          = lo_disk lo_bound_ro.
Proof.
  apply (proj2 (loop_change_fd_all_or_nothing (env_ok (image_file_2 1048576))
                  lo_bound_ro 7)).
  vm_compute. reflexivity.
Defined.

(** ** The capacity stays inside the backing file *)

(** X10.  [loop_set_capacity] on a bound device publishes a capacity that
    is not negative, ends at or before the end of the backing file when it
    is not 0, and does not exceed a size limit that is set; nothing but
    the disk changes. *)
Theorem loop_set_capacity_within_file (lo : loop_device) (f : file) :
  lo_state lo = Lo_bound -> lo_backing_file lo = Some f ->
  0 <= lo_offset lo <= LLONG_MAX -> 0 <= lo_sizelimit lo ->
  0 <= i_size f <= LLONG_MAX ->
  let lo' := (loop_set_capacity lo).2 in
  (loop_set_capacity lo).1 = 0
  /\ same_config lo lo' /\ lo_flags lo' = lo_flags lo /\ lo_queue lo' = lo_queue lo
  /\ 0 <= capacity (lo_disk lo')
  /\ (capacity (lo_disk lo') = 0
      \/ lo_offset lo + 512 * capacity (lo_disk lo') <= i_size f)
  /\ (0 < lo_sizelimit lo -> 512 * capacity (lo_disk lo') <= lo_sizelimit lo)
  /\ (lo_sizelimit lo = 0 ->
      i_size f - lo_offset lo < 512 * (capacity (lo_disk lo') + 1)).
Proof.
  intros Hb Hf Ho Hl Hi. unfold loop_set_capacity.
  rewrite Hb, Hf. cbn [lo_state_eqb negb fst snd].
  split; [reflexivity|]. split; [apply loop_set_size_config|].
  split; [reflexivity|]. split; [reflexivity|].
  unfold loop_set_size. cbn [lo_disk set_lo_disk capacity set_capacity].
  rewrite get_size_clamp by assumption.
  rewrite Z.shiftr_div_pow2 by lia. change (2 ^ 9) with 512.
  set (avail := Z.max 0 (i_size f - lo_offset lo)).
  set (size := if 0 <? lo_sizelimit lo then Z.min avail (lo_sizelimit lo) else avail).
  assert (Ha : 0 <= avail) by (subst avail; lia).
  assert (Hs : 0 <= size) by (subst size; destruct (0 <? lo_sizelimit lo); lia).
  pose proof (Z.mul_div_le size 512 ltac:(lia)) as Hle.
  pose proof (Z.div_pos size 512 Hs ltac:(lia)) as Hpos.
  pose proof (Z.mul_succ_div_gt size 512 ltac:(lia)) as Hgt.
  assert (Hsa : size <= avail)
    by (subst size; destruct (0 <? lo_sizelimit lo); lia).
  split; [assumption|]. split; [|split].
  - destruct (Z.eq_dec (size / 512) 0) as [->|Hne]; [left; reflexivity|right].
    assert (0 < avail) by lia. subst avail. lia.
  - intros Hlim. subst size.
    assert (E : (0 <? lo_sizelimit lo) = true) by (apply Z.ltb_lt; assumption).
    rewrite E in *. lia.
  - intros Hz. subst size. rewrite Hz in *. cbn in *. subst avail. lia.
Qed.

Lemma loop_set_capacity_within_file_witness :
  let lo' := (loop_set_capacity lo_bound).2 in
  (loop_set_capacity lo_bound).1 = 0
  /\ same_config lo_bound lo' /\ lo_flags lo' = lo_flags lo_bound
  /\ lo_queue lo' = lo_queue lo_bound
  /\ 0 <= capacity (lo_disk lo')
  /\ (capacity (lo_disk lo') = 0
      \/ lo_offset lo_bound + 512 * capacity (lo_disk lo') <= i_size (image_file 1048576))
  /\ (0 < lo_sizelimit lo_bound -> 512 * capacity (lo_disk lo') <= lo_sizelimit lo_bound)
  /\ (lo_sizelimit lo_bound = 0 ->
      i_size (image_file 1048576) - lo_offset lo_bound
      < 512 * (capacity (lo_disk lo') + 1)).
Proof.
  apply (loop_set_capacity_within_file lo_bound (image_file 1048576)).
  - reflexivity.
  - reflexivity.
  - vm_compute; split; discriminate.
  - vm_compute; discriminate.
  - vm_compute; split; discriminate.
Defined.

(** ** A detach deferred to the last close *)

Lemma set_lo_refcnt_same (lo : loop_device) : set_lo_refcnt (lo_refcnt lo) lo = lo.
Proof. destruct lo. reflexivity. Qed.

(** A close that is not the last one only counts. *)
Lemma lo_release_not_last part_shift lo :
  lo_refcnt lo <> 1 ->
  lo_release part_shift lo
  = ([set_lo_refcnt (lo_refcnt lo - 1) lo], set_lo_refcnt (lo_refcnt lo - 1) lo).
Proof.
  intros H. unfold lo_release. cbn [lo_refcnt set_lo_refcnt].
  destruct (lo_refcnt lo - 1 =? 0) eqn:E; [apply Z.eqb_eq in E; lia|].
  reflexivity.
Qed.

(** The last close of a bound device in autoclear mode detaches it. *)
Lemma lo_release_last_autoclear part_shift lo f :
  lo_refcnt lo = 1 -> flag_set (lo_flags lo) LO_FLAGS_AUTOCLEAR = true ->
  lo_state lo = Lo_bound -> lo_backing_file lo = Some f ->
  lo_state (lo_release part_shift lo).2 = Lo_unbound
  /\ lo_backing_file (lo_release part_shift lo).2 = None
  /\ lo_flags (lo_release part_shift lo).2 = 0.
Proof.
  intros Hr Ha Hb Hf. unfold lo_release.
  cbn [lo_refcnt set_lo_refcnt lo_flags lo_state]. rewrite Hr, Ha, Hb.
  cbn [Z.sub Z.add Z.opp Z.pos_sub Z.eqb negb lo_state_eqb].
  match goal with
  | |- context [__loop_clr_fd part_shift ?l true] => set (L := l)
  end.
  destruct (__loop_clr_fd_rundown part_shift L true f eq_refl Hf)
    as (lo1 & lo2 & -> & _ & _ & S2 & F2 & G2 & _).
  cbn [snd]. auto.
Qed.

Lemma lo_release_n_autoclear part_shift f (n : nat) :
  forall lo,
    lo_refcnt lo = Z.of_nat (S n) ->
    flag_set (lo_flags lo) LO_FLAGS_AUTOCLEAR = true ->
    lo_state lo = Lo_bound -> lo_backing_file lo = Some f ->
    (forall k, (k <= n)%nat ->
       lo_state (lo_release_n part_shift k lo) = Lo_bound
       /\ lo_backing_file (lo_release_n part_shift k lo) = Some f)
    /\ lo_state (lo_release_n part_shift (S n) lo) = Lo_unbound
    /\ lo_backing_file (lo_release_n part_shift (S n) lo) = None
    /\ lo_flags (lo_release_n part_shift (S n) lo) = 0.
Proof.
  induction n as [|n IH]; intros lo Hr Ha Hb Hf.
  - split.
    + intros k Hk. assert (k = O) by lia. subst k. cbn. auto.
    + cbn [lo_release_n]. apply (lo_release_last_autoclear part_shift lo f); auto.
  - assert (Hne : lo_refcnt lo <> 1) by lia.
    pose proof (lo_release_not_last part_shift lo Hne) as Hrel.
    specialize (IH (set_lo_refcnt (lo_refcnt lo - 1) lo)).
    cbn [lo_refcnt set_lo_refcnt lo_flags lo_state lo_backing_file] in IH.
    destruct (IH ltac:(lia) Ha Hb Hf) as (IH1 & IH2).
    split.
    + intros [|k] Hk; [cbn; auto|].
      cbn [lo_release_n]. rewrite Hrel. cbn [snd]. apply IH1. lia.
    + change (lo_release_n part_shift (S (S n)) lo)
        with (lo_release_n part_shift (S n) (lo_release part_shift lo).2).
      rewrite Hrel. cbn [snd]. exact IH2.
Qed.

(** X11.  [LOOP_CLR_FD] on a bound device that [n >= 2] users hold open
    returns 0 and detaches nothing; the device stays bound to its file
    through the next [n - 1] closes, and the [n]-th close leaves it Unbound
    without a backing file and with its flags cleared. *)
Theorem loop_clr_fd_deferred (part_shift : Z) (lo : loop_device) (f : file) (n : nat) :
  lo_state lo = Lo_bound -> lo_backing_file lo = Some f ->
  lo_refcnt lo = Z.of_nat n -> (2 <= n)%nat ->
  let lo1 := (loop_clr_fd part_shift 0 lo).2 in
  (loop_clr_fd part_shift 0 lo).1.1 = 0
  /\ (forall k, (k < n)%nat ->
        lo_state (lo_release_n part_shift k lo1) = Lo_bound
        /\ lo_backing_file (lo_release_n part_shift k lo1) = Some f)
  /\ lo_state (lo_release_n part_shift n lo1) = Lo_unbound
  /\ lo_backing_file (lo_release_n part_shift n lo1) = None
  /\ lo_flags (lo_release_n part_shift n lo1) = 0.
Proof.
  intros Hb Hf Hr Hn. unfold loop_clr_fd. cbn [Z.eqb negb].
  rewrite Hb. cbn [lo_state_eqb negb].
  replace (lo_refcnt lo >? 1) with true
    by (symmetry; rewrite Z.gtb_ltb; apply Z.ltb_lt; lia).
  cbn [fst snd]. split; [reflexivity|].
  destruct n as [|n]; [lia|].
  set (lo1 := set_lo_flags (Z.lor (lo_flags lo) LO_FLAGS_AUTOCLEAR) lo).
  assert (Ha : flag_set (lo_flags lo1) LO_FLAGS_AUTOCLEAR = true).
  { subst lo1. cbn [lo_flags set_lo_flags].
    change LO_FLAGS_AUTOCLEAR with (2 ^ 2). rewrite flag_set_testbit by lia.
    rewrite Z.lor_spec. change (Z.testbit (2 ^ 2) 2) with true. apply orb_true_r. }
  destruct (lo_release_n_autoclear part_shift f n lo1 Hr Ha Hb Hf) as (H1 & H2).
  split; [|exact H2]. intros k Hk. apply H1. lia.
Qed.

Lemma loop_clr_fd_deferred_witness :
  let lo1 := (loop_clr_fd 0 0 lo_bound_busy).2 in
  (loop_clr_fd 0 0 lo_bound_busy).1.1 = 0
  /\ (forall k, (k < 2)%nat ->
        lo_state (lo_release_n 0 k lo1) = Lo_bound
        /\ lo_backing_file (lo_release_n 0 k lo1) = Some (image_file 1048576))
  /\ lo_state (lo_release_n 0 2 lo1) = Lo_unbound
  /\ lo_backing_file (lo_release_n 0 2 lo1) = None
  /\ lo_flags (lo_release_n 0 2 lo1) = 0.
Proof.
  apply (loop_clr_fd_deferred 0 lo_bound_busy (image_file 1048576) 2).
  - reflexivity.
  - reflexivity.
  - reflexivity.
  - lia.
Defined.

(** ** What a detach leaves behind *)

Lemma __loop_clr_fd_locked1_wipe (lo : loop_device) (f : file) :
  lo_state lo = Lo_rundown -> lo_backing_file lo = Some f ->
  lo_encrypt_key (__loop_clr_fd_locked1 lo).2 = memset0 (lo_encrypt_key lo) LO_KEY_SIZE
  /\ lo_file_name (__loop_clr_fd_locked1 lo).2 = memset0 (lo_file_name lo) LO_NAME_SIZE
  /\ lo_crypt_name (__loop_clr_fd_locked1 lo).2
     = memset0 (lo_crypt_name lo) LO_NAME_SIZE
  /\ lo_device (__loop_clr_fd_locked1 lo).2 = None
  /\ lo_backing_virt_file (__loop_clr_fd_locked1 lo).2 = None
  /\ ioctl (__loop_clr_fd_locked1 lo).2 = false
  /\ logical_block_size (lo_queue (__loop_clr_fd_locked1 lo).2) = 512
  /\ physical_block_size (lo_queue (__loop_clr_fd_locked1 lo).2) = 512
  /\ io_min (lo_queue (__loop_clr_fd_locked1 lo).2) = 512
  /\ queue_flag_wc (lo_queue (__loop_clr_fd_locked1 lo).2) = false.
Proof.
  intros Hst Hf. destruct lo. cbn in Hst, Hf. subst.
  destruct lo_queue0 as [? ? wc ? ? ? ? ? ? ? ?].
  destruct lo_encryption0 as [x|], wc; vm_compute; repeat split; reflexivity.
Qed.

Lemma __loop_clr_fd_locked2_wipe (part_shift : Z) (lo : loop_device) :
  let lo2 := __loop_clr_fd_locked2 part_shift lo in
  lo_encrypt_key lo2 = lo_encrypt_key lo /\ lo_file_name lo2 = lo_file_name lo
  /\ lo_crypt_name lo2 = lo_crypt_name lo /\ lo_device lo2 = lo_device lo
  /\ lo_backing_virt_file lo2 = lo_backing_virt_file lo /\ ioctl lo2 = ioctl lo
  /\ lo_queue lo2 = lo_queue lo /\ capacity (lo_disk lo2) = capacity (lo_disk lo).
Proof.
  unfold __loop_clr_fd_locked2. destruct (part_shift =? 0); cbn; auto 10.
Qed.

Lemma memset0_full (l : list Z) (n : Z) :
  length l = Z.to_nat n -> memset0 l n = zeros n.
Proof.
  intros H. unfold memset0, zeros. rewrite drop_ge by lia. apply app_nil_r.
Qed.

(** X12.  A detach that [loop_clr_fd] carries out itself returns 0 and
    wipes the configuration: the key and both names are zero bytes, key
    size, offset, size limit, flags and capacity are 0, no transfer is
    selected, and the block sizes are back at 512. *)
Theorem loop_clr_fd_wipes (part_shift : Z) (lo : loop_device) (f : file) :
  lo_state lo = Lo_bound -> lo_backing_file lo = Some f -> lo_refcnt lo <= 1 ->
  length (lo_encrypt_key lo) = Z.to_nat LO_KEY_SIZE ->
  length (lo_file_name lo) = Z.to_nat LO_NAME_SIZE ->
  length (lo_crypt_name lo) = Z.to_nat LO_NAME_SIZE ->
  let lo' := (loop_clr_fd part_shift 0 lo).2 in
  (loop_clr_fd part_shift 0 lo).1.1 = 0
  /\ lo_encrypt_key lo' = zeros LO_KEY_SIZE /\ lo_encrypt_key_size lo' = 0
  /\ lo_file_name lo' = zeros LO_NAME_SIZE /\ lo_crypt_name lo' = zeros LO_NAME_SIZE
  /\ transfer lo' = None /\ lo_encryption lo' = None /\ ioctl lo' = false
  /\ lo_offset lo' = 0 /\ lo_sizelimit lo' = 0 /\ lo_flags lo' = 0
  /\ lo_device lo' = None /\ capacity (lo_disk lo') = 0
  /\ logical_block_size (lo_queue lo') = 512
  /\ physical_block_size (lo_queue lo') = 512
  /\ io_min (lo_queue lo') = 512.
Proof.
  intros Hb Hf Hr Lk Ln Lc. unfold loop_clr_fd. cbn [Z.eqb negb].
  rewrite Hb. cbn [lo_state_eqb negb].
  replace (lo_refcnt lo >? 1) with false
    by (symmetry; rewrite Z.gtb_ltb; apply Z.ltb_ge; lia).
  set (L := set_lo_state Lo_rundown lo).
  assert (HLs : lo_state L = Lo_rundown) by reflexivity.
  assert (HLf : lo_backing_file L = Some f) by exact Hf.
  destruct (__loop_clr_fd_locked1_fields L f HLs HLf)
    as (partscan & lo1 & H1 & _ & _ & O1 & S1 & K1 & T1 & E1 & C1 & _).
  pose proof (__loop_clr_fd_locked1_wipe L f HLs HLf) as W1.
  rewrite H1 in W1. cbn [snd] in W1.
  destruct W1 as (W1 & W2 & W3 & W4 & _ & W6 & W7 & W8 & W9 & _).
  destruct (__loop_clr_fd_locked2_fields part_shift lo1)
    as (_ & G2 & _ & _ & O2 & S2 & K2 & T2 & E2).
  destruct (__loop_clr_fd_locked2_wipe part_shift lo1)
    as (V1 & V2 & V3 & V4 & _ & V6 & V7 & V8).
  unfold __loop_clr_fd. rewrite H1. cbn [fst snd].
  split; [destruct partscan; reflexivity|].
  rewrite V1, V2, V3, V4, V6, V7, V8, W1, W2, W3, W4, W6, W7, W8, W9,
    G2, O2, S2, K2, T2, E2, O1, S1, K1, T1, E1, C1.
  change (lo_encrypt_key L) with (lo_encrypt_key lo).
  change (lo_file_name L) with (lo_file_name lo).
  change (lo_crypt_name L) with (lo_crypt_name lo).
  rewrite !memset0_full by assumption.
  repeat split; reflexivity.
Qed.

Lemma loop_clr_fd_wipes_witness :
  let lo' := (loop_clr_fd 0 0 (set_lo_refcnt 1 lo_keyed)).2 in
  (loop_clr_fd 0 0 (set_lo_refcnt 1 lo_keyed)).1.1 = 0
  /\ lo_encrypt_key lo' = zeros LO_KEY_SIZE /\ lo_encrypt_key_size lo' = 0
  /\ lo_file_name lo' = zeros LO_NAME_SIZE /\ lo_crypt_name lo' = zeros LO_NAME_SIZE
  /\ transfer lo' = None /\ lo_encryption lo' = None /\ ioctl lo' = false
  /\ lo_offset lo' = 0 /\ lo_sizelimit lo' = 0 /\ lo_flags lo' = 0
  /\ lo_device lo' = None /\ capacity (lo_disk lo') = 0
  /\ logical_block_size (lo_queue lo') = 512
  /\ physical_block_size (lo_queue lo') = 512
  /\ io_min (lo_queue lo') = 512.
Proof.
  apply (loop_clr_fd_wipes 0 (set_lo_refcnt 1 lo_keyed) (image_file 1048576)).
  - reflexivity.
  - reflexivity.
  - vm_compute; discriminate.
  - reflexivity.
  - reflexivity.
  - reflexivity.
Defined.

(** ** Opening and closing *)

(** X13.  [lo_open] refuses a device that is being deleted and otherwise
    only counts.  A close right after the open gives back the device as it
    was, unless that close is the last one of a bound device in autoclear
    mode, in which case the device is detached. *)
Theorem lo_open_then_release (part_shift : Z) (lo : loop_device) :
  - 2 ^ 31 <= lo_refcnt lo < 2 ^ 31 - 1 ->
  (lo_state lo = Lo_deleting -> lo_open 0 lo = (- ENXIO, lo))
  /\ (lo_state lo <> Lo_deleting ->
      (lo_open 0 lo).1 = 0
      /\ same_config (set_lo_refcnt (lo_refcnt lo + 1) lo) (lo_open 0 lo).2
      /\ (lo_refcnt lo <> 0 \/ flag_set (lo_flags lo) LO_FLAGS_AUTOCLEAR = false
          \/ lo_state lo <> Lo_bound ->
          lo_release part_shift (lo_open 0 lo).2 = ([lo], lo))
      /\ (lo_refcnt lo = 0 -> flag_set (lo_flags lo) LO_FLAGS_AUTOCLEAR = true ->
          lo_state lo = Lo_bound -> lo_backing_file lo <> None ->
          lo_state (lo_release part_shift (lo_open 0 lo).2).2 = Lo_unbound
          /\ lo_backing_file (lo_release part_shift (lo_open 0 lo).2).2 = None)).
Proof.
  intros Hr. unfold lo_open. cbn [Z.eqb negb].
  assert (Hw : wrap_s32 (lo_refcnt lo + 1) = lo_refcnt lo + 1)
    by (apply wrap_s32_small; unfold is_int; lia).
  rewrite Hw. split.
  - intros ->. reflexivity.
  - intros Hd.
    assert (E : lo_state_eqb (lo_state lo) Lo_deleting = false).
    { destruct (lo_state_eqb (lo_state lo) Lo_deleting) eqn:E; [|reflexivity].
      apply lo_state_eqb_eq in E. contradiction. }
    rewrite E. cbn [fst snd].
    split; [reflexivity|]. split; [apply same_config_refl|]. split.
    + intros Hcase. unfold lo_release.
      cbn [lo_refcnt set_lo_refcnt lo_flags lo_state].
      replace (lo_refcnt lo + 1 - 1) with (lo_refcnt lo) by lia.
      assert (Hsame : set_lo_refcnt (lo_refcnt lo)
                        (set_lo_refcnt (lo_refcnt lo + 1) lo) = lo)
        by (destruct lo; reflexivity).
      rewrite Hsame.
      destruct (lo_refcnt lo =? 0) eqn:E0; cbn [negb]; [|reflexivity].
      apply Z.eqb_eq in E0.
      destruct (flag_set (lo_flags lo) LO_FLAGS_AUTOCLEAR) eqn:Ea; [|reflexivity].
      destruct (lo_state_eqb (lo_state lo) Lo_bound) eqn:Eb; cbn [negb];
        [|reflexivity].
      apply lo_state_eqb_eq in Eb. destruct Hcase as [?|[?|?]]; congruence.
    + intros H0 Ha Hb Hf.
      destruct (lo_backing_file lo) as [f|] eqn:Ef; [|contradiction].
      destruct (lo_release_last_autoclear part_shift
                  (set_lo_refcnt (lo_refcnt lo + 1) lo) f) as (S & F & _); auto.
      cbn. lia.
Qed.

Lemma lo_open_then_release_witness :
  (lo_open 0 lo_bound).1 = 0
  /\ same_config (set_lo_refcnt (lo_refcnt lo_bound + 1) lo_bound) (lo_open 0 lo_bound).2
  /\ (lo_refcnt lo_bound <> 0
      \/ flag_set (lo_flags lo_bound) LO_FLAGS_AUTOCLEAR = false
      \/ lo_state lo_bound <> Lo_bound ->
      lo_release 0 (lo_open 0 lo_bound).2 = ([lo_bound], lo_bound))
  /\ (lo_refcnt lo_bound = 0 ->
      flag_set (lo_flags lo_bound) LO_FLAGS_AUTOCLEAR = true ->
      lo_state lo_bound = Lo_bound -> lo_backing_file lo_bound <> None ->
      lo_state (lo_release 0 (lo_open 0 lo_bound).2).2 = Lo_unbound
      /\ lo_backing_file (lo_release 0 (lo_open 0 lo_bound).2).2 = None).
Proof.
  refine (proj2 (lo_open_then_release 0 lo_bound _) _).
  - vm_compute; split; [discriminate|reflexivity].
  - intros H. vm_compute in H. discriminate.
Defined.

(** ** The legacy interface on a large offset *)

(** X14.  On a bound device whose offset is 2^31 or more the legacy
    [LOOP_GET_STATUS] fails with [-EOVERFLOW] and copies nothing out, while
    [LOOP_GET_STATUS64] succeeds and reports the offset. *)
Theorem loop_get_status_old_overflow (a : abi) (cap : bool) (stat : kstat)
    (stack : loop_info64) (lo : loop_device) :
  lo_state lo = Lo_bound -> getattr_err stat = 0 ->
  2 ^ 31 <= lo_offset lo <= LLONG_MAX ->
  loop_get_status_old a 0 cap stat true stack lo false = (- EOVERFLOW, None)
  /\ exists i, loop_get_status64 0 cap stat true stack lo false = (0, Some i)
               /\ info_lo_offset i = lo_offset lo.
Proof.
  intros Hb Hs Ho. unfold LLONG_MAX in Ho.
  unfold loop_get_status_old, loop_get_status64, loop_get_status.
  cbn [Z.eqb negb]. rewrite Hb, Hs. cbn [lo_state_eqb negb Z.eqb].
  assert (Hu : to_u64 (lo_offset lo) = lo_offset lo) by (apply to_u64_small; lia).
  split.
  - unfold loop_info64_to_old.
    cbn [info_lo_offset info_lo_device info_lo_rdevice info_lo_inode
         old_lo_offset old_lo_device old_lo_rdevice old_lo_inode].
    rewrite Hu.
    assert (Hne : (to_u64 (wrap_s32 (lo_offset lo)) =? lo_offset lo) = false).
    { apply Z.eqb_neq. intros Heq.
      assert (Hi : is_int (wrap_s32 (lo_offset lo))).
      { unfold is_int, wrap_s32, wrap_s. change (2 ^ (32 - 1)) with (2 ^ 31).
        pose proof (Z.mod_pos_bound (lo_offset lo + 2 ^ 31) (2 ^ 32) ltac:(lia)).
        lia. }
      unfold is_int in Hi. revert Heq. generalize dependent (wrap_s32 (lo_offset lo)).
      intros w Hw Heq. unfold to_u64, wrap_u in Heq.
      destruct (Z.neg_nonneg_cases w) as [Hneg|Hpos].
      - replace w with (w + 2 ^ 64 + (- 1) * 2 ^ 64) in Heq at 1 by ring.
        rewrite Z_mod_plus_full, Z.mod_small in Heq; lia.
      - rewrite Z.mod_small in Heq; lia. }
    rewrite Hne. cbn [negb]. rewrite !orb_true_r. reflexivity.
  - eexists. split; [reflexivity|]. cbn [info_lo_offset]. exact Hu.
Qed.

Lemma loop_get_status_old_overflow_witness :
  loop_get_status_old abi_lp64 0 false stat_sample true loop_info64_zero
    (set_lo_offset (2 ^ 31) lo_bound) false = (- EOVERFLOW, None)
  /\ exists i, loop_get_status64 0 false stat_sample true loop_info64_zero
                 (set_lo_offset (2 ^ 31) lo_bound) false = (0, Some i)
               /\ info_lo_offset i = lo_offset (set_lo_offset (2 ^ 31) lo_bound).
Proof.
  apply (loop_get_status_old_overflow abi_lp64 false stat_sample loop_info64_zero
           (set_lo_offset (2 ^ 31) lo_bound)).
  - reflexivity.
  - reflexivity.
  - vm_compute; split; discriminate.
Defined.

(** ** Bytes written and read *)

Lemma pwrite_nil (data : list Z) (p : nat) : pwrite data [] p = data.
Proof. reflexivity. Qed.

Lemma pwrite_cons (data : list Z) (x : Z) (buf : list Z) (p : nat) :
  pwrite data (x :: buf) p
  = take p data ++ replicate (p - length data) 0 ++ (x :: buf)
    ++ drop (p + length (x :: buf)) data.
Proof. reflexivity. Qed.

Lemma pwrite_prefix_length (data : list Z) (p : nat) :
  length (take p data ++ replicate (p - length data) 0) = p.
Proof. rewrite length_app, length_take, length_replicate. lia. Qed.

(** Reading back where one wrote gives what one wrote. *)
Lemma pwrite_read_back (data buf : list Z) (p : nat) :
  take (length buf) (drop p (pwrite data buf p)) = buf.
Proof.
  destruct buf as [|x buf]; [reflexivity|].
  rewrite pwrite_cons. rewrite app_assoc.
  rewrite drop_app_length' by (symmetry; apply pwrite_prefix_length).
  rewrite take_app_length. reflexivity.
Qed.

Lemma pwrite_length (data buf : list Z) (p : nat) :
  buf <> [] -> length (pwrite data buf p) = Nat.max (length data) (p + length buf).
Proof.
  intros Hne. destruct buf as [|x buf]; [congruence|].
  rewrite pwrite_cons, !length_app, length_take, length_replicate, length_drop. lia.
Qed.

(** Two writes one after the other are one write of both buffers. *)
Lemma pwrite_app (data a b : list Z) (p : nat) :
  pwrite (pwrite data a p) b (p + length a) = pwrite data (a ++ b) p.
Proof.
  destruct a as [|x a]; [cbn [length app]; rewrite Nat.add_0_r; reflexivity|].
  destruct b as [|y b]; [rewrite app_nil_r; reflexivity|].
  set (A := x :: a). set (B := y :: b).
  assert (HA : pwrite data A p
               = (take p data ++ replicate (p - length data) 0) ++ A
                 ++ drop (p + length A) data)
    by (subst A; rewrite pwrite_cons, app_assoc; reflexivity).
  change (pwrite (pwrite data A p) B (p + length A))
    with (take (p + length A) (pwrite data A p)
          ++ replicate (p + length A - length (pwrite data A p)) 0
          ++ B ++ drop (p + length A + length B) (pwrite data A p)).
  change (pwrite data (A ++ B) p)
    with (take p data ++ replicate (p - length data) 0 ++ (A ++ B)
          ++ drop (p + length (A ++ B)) data).
  set (X := take p data ++ replicate (p - length data) 0) in *.
  assert (HX : length X = p) by apply pwrite_prefix_length.
  rewrite HA.
  assert (Hlen : length (X ++ A ++ drop (p + length A) data)
                 = (p + length A + length (drop (p + length A) data))%nat)
    by (rewrite !length_app; lia).
  replace (p + length A - length (X ++ A ++ drop (p + length A) data))%nat
    with O by lia.
  cbn [replicate app].
  rewrite (app_assoc X A).
  rewrite take_app_length' by (rewrite length_app; lia).
  rewrite (drop_app_add' (X ++ A)) by (rewrite length_app; lia).
  rewrite drop_drop, length_app.
  rewrite <- !app_assoc.
  replace (p + length A + length B)%nat with (p + (length A + length B))%nat by lia.
  subst X. rewrite <- !app_assoc. reflexivity.
Qed.

(** A read that the file can serve in full. *)
Lemma vfs_iter_read_full (data buf : list Z) (pos : Z) :
  0 <= pos -> (Z.to_nat pos + length buf <= length data)%nat ->
  vfs_iter_read data buf (length buf) pos
  = (Z.of_nat (length buf), take (length buf) (drop (Z.to_nat pos) data),
     pos + Z.of_nat (length buf)).
Proof.
  intros Hp Hl. unfold vfs_iter_read.
  destruct (pos <? 0) eqn:E; [apply Z.ltb_lt in E; lia|].
  assert (Hg : length (take (length buf) (drop (Z.to_nat pos) data)) = length buf)
    by (rewrite length_take, length_drop; lia).
  rewrite Hg, drop_all, app_nil_r. reflexivity.
Qed.

Lemma lo_read_simple_segments_full (data : list Z) (segs : bio) : forall pos,
  0 <= pos -> (Z.to_nat pos + length (concat segs) <= length data)%nat ->
  (lo_read_simple_segments data segs pos).1
  = Completed (pos + Z.of_nat (length (concat segs)))
  /\ concat (lo_read_simple_segments data segs pos).2
     = take (length (concat segs)) (drop (Z.to_nat pos) data)
  /\ map length (lo_read_simple_segments data segs pos).2 = map length segs.
Proof.
  induction segs as [|bvec rest IH]; intros pos Hp Hl.
  - cbn. rewrite Z.add_0_r. auto.
  - cbn [concat] in Hl. rewrite length_app in Hl.
    cbn [lo_read_simple_segments].
    rewrite vfs_iter_read_full by lia.
    destruct (Z.of_nat (length bvec) <? 0) eqn:E1; [apply Z.ltb_lt in E1; lia|].
    rewrite Z.eqb_refl. cbn [negb].
    destruct (IH (pos + Z.of_nat (length bvec)) ltac:(lia) ltac:(lia))
      as (I1 & I2 & I3).
    destruct (lo_read_simple_segments data rest (pos + Z.of_nat (length bvec)))
      as [e rest']. cbn [fst snd] in *. subst e.
    split; [f_equal; cbn [concat]; rewrite length_app; lia|].
    split.
    + cbn [concat]. rewrite I2, length_app.
      replace (Z.to_nat (pos + Z.of_nat (length bvec)))
        with (Z.to_nat pos + length bvec)%nat by lia.
      rewrite <- drop_drop. apply take_take_drop.
    + cbn [map]. rewrite I3. f_equal.
      rewrite length_take, length_drop. lia.
Qed.

Lemma lo_read_simple_bios_full (data : list Z) (rq : request) : forall pos,
  0 <= pos -> (Z.to_nat pos + length (rq_bytes rq) <= length data)%nat ->
  (lo_read_simple_bios data rq pos).1
  = Completed (pos + Z.of_nat (length (rq_bytes rq)))
  /\ rq_bytes (lo_read_simple_bios data rq pos).2
     = take (length (rq_bytes rq)) (drop (Z.to_nat pos) data)
  /\ map (map length) (lo_read_simple_bios data rq pos).2 = map (map length) rq.
Proof.
  unfold rq_bytes.
  induction rq as [|b rest IH]; intros pos Hp Hl.
  - cbn. rewrite Z.add_0_r. auto.
  - cbn [concat] in Hl. rewrite concat_app, length_app in Hl.
    cbn [lo_read_simple_bios].
    destruct (lo_read_simple_segments_full data b pos Hp ltac:(lia))
      as (S1 & S2 & S3).
    destruct (lo_read_simple_segments data b pos) as [e b']. cbn [fst snd] in *.
    subst e.
    destruct (IH (pos + Z.of_nat (length (concat b))) ltac:(lia) ltac:(lia))
      as (I1 & I2 & I3).
    destruct (lo_read_simple_bios data rest (pos + Z.of_nat (length (concat b))))
      as [e rest']. cbn [fst snd] in *. subst e.
    split; [f_equal; cbn [concat]; rewrite concat_app, length_app; lia|].
    split.
    + cbn [concat]. rewrite !concat_app, I2, S2, length_app.
      replace (Z.to_nat (pos + Z.of_nat (length (concat b))))
        with (Z.to_nat pos + length (concat b))%nat by lia.
      rewrite <- drop_drop. apply take_take_drop.
    + cbn [map]. rewrite I3, S3. reflexivity.
Qed.

Lemma lo_write_simple_segments_all (segs : bio) :
  forall data pos,
    0 <= pos ->
    lo_write_simple_segments vfs_iter_write data segs pos 0
    = (0, pwrite data (concat segs) (Z.to_nat pos),
       pos + Z.of_nat (length (concat segs))).
Proof.
  induction segs as [|bvec rest IH]; intros data pos Hp.
  - cbn. rewrite Z.add_0_r. reflexivity.
  - cbn [lo_write_simple_segments lo_write_bvec vfs_iter_write].
    unfold lo_write_bvec, vfs_iter_write.
    destruct (pos <? 0) eqn:E; [apply Z.ltb_lt in E; lia|].
    rewrite Z.eqb_refl. cbn [Z.ltb Z.compare].
    rewrite IH by lia.
    replace (Z.to_nat (pos + Z.of_nat (length bvec)))
      with (Z.to_nat pos + length bvec)%nat by lia.
    rewrite pwrite_app. cbn [concat]. rewrite length_app.
    f_equal. lia.
Qed.

(** When no write fails every bio is written in turn. *)
Lemma lo_write_simple_bios_all (rq : request) :
  forall data pos,
    0 <= pos ->
    lo_write_simple_bios vfs_iter_write data rq pos 0
    = (0, pwrite data (rq_bytes rq) (Z.to_nat pos),
       pos + Z.of_nat (length (rq_bytes rq))).
Proof.
  unfold rq_bytes.
  induction rq as [|b rest IH]; intros data pos Hp.
  - cbn. rewrite Z.add_0_r. reflexivity.
  - cbn [lo_write_simple_bios]. rewrite lo_write_simple_segments_all by assumption.
    rewrite IH by lia.
    replace (Z.to_nat (pos + Z.of_nat (length (concat b))))
      with (Z.to_nat pos + length (concat b))%nat by lia.
    rewrite pwrite_app. cbn [concat]. rewrite concat_app, length_app.
    f_equal. lia.
Qed.

Lemma request_pos (sector offset : Z) :
  0 <= sector -> 0 <= offset -> 512 * sector + offset < 2 ^ 63 ->
  wrap_s64 (Z.shiftl sector 9 + offset) = 512 * sector + offset.
Proof.
  intros Hs Ho Hlt. rewrite Z.shiftl_mul_pow2 by lia. change (2 ^ 9) with 512.
  rewrite wrap_s64_small by lia. lia.
Qed.

(** A buffered read without transfer, in terms of the file's bytes. *)
Lemma do_req_filebacked_read_spec (zero_fill : bio -> bio) (e : io_env)
    (lo : loop_device) (rq : blk_rq) (data : list Z) :
  rq_op rq = REQ_OP_READ -> transfer lo = None ->
  0 <= rq_sector rq -> 0 <= lo_offset lo ->
  512 * rq_sector rq + lo_offset lo < 2 ^ 63 ->
  (Z.to_nat (512 * rq_sector rq + lo_offset lo) + length (rq_bytes (rq_bios rq))
   <= length data)%nat ->
  let r := do_req_filebacked zero_fill e lo false rq data in
  r.1.1 = 0 /\ r.1.2 = data
  /\ rq_bytes r.2
     = take (length (rq_bytes (rq_bios rq)))
         (drop (Z.to_nat (512 * rq_sector rq + lo_offset lo)) data)
  /\ map (map length) r.2 = map (map length) (rq_bios rq).
Proof.
  intros Hop Ht Hs Ho Hlt Hlen. unfold do_req_filebacked.
  rewrite Hop, Ht, request_pos by assumption.
  cbn [REQ_OP_READ REQ_OP_FLUSH REQ_OP_WRITE_ZEROES REQ_OP_DISCARD REQ_OP_WRITE Z.eqb].
  unfold lo_read_simple.
  destruct (lo_read_simple_bios_full data (rq_bios rq)
              (512 * rq_sector rq + lo_offset lo) ltac:(lia) Hlen) as (B1 & B2 & B3).
  destruct (lo_read_simple_bios data (rq_bios rq)
              (512 * rq_sector rq + lo_offset lo)) as [ex rq'].
  cbn [fst snd] in *. subst ex. cbn [fst snd]. auto.
Qed.

(** X15.  A read request on a device without transfer, carried out by the
    buffered path, returns 0 and fills the request's buffers, whatever
    their segmentation, with the bytes the backing file holds from byte
    [512 * sector + lo_offset] on, provided the file has that many; the
    file is left as it was. *)
Theorem do_req_filebacked_read (zero_fill : bio -> bio) (e : io_env)
    (lo : loop_device) (rq : blk_rq) (data : list Z) :
  rq_op rq = REQ_OP_READ -> transfer lo = None ->
  0 <= rq_sector rq -> 0 <= lo_offset lo ->
  512 * rq_sector rq + lo_offset lo < 2 ^ 63 ->
  (Z.to_nat (512 * rq_sector rq + lo_offset lo) + length (rq_bytes (rq_bios rq))
   <= length data)%nat ->
  let r := do_req_filebacked zero_fill e lo false rq data in
  r.1.1 = 0 /\ r.1.2 = data
  /\ rq_bytes r.2
     = take (length (rq_bytes (rq_bios rq)))
         (drop (Z.to_nat (512 * rq_sector rq + lo_offset lo)) data)
  /\ map (map length) r.2 = map (map length) (rq_bios rq).
Proof. exact (do_req_filebacked_read_spec zero_fill e lo rq data). Qed.


Lemma do_req_filebacked_read_witness :
  let r := do_req_filebacked zero_fill_bio io_env_ok lo_bound false rq_read_1024
             file_2048 in
  r.1.1 = 0 /\ r.1.2 = file_2048
  /\ rq_bytes r.2
     = take (length (rq_bytes (rq_bios rq_read_1024)))
         (drop (Z.to_nat (512 * rq_sector rq_read_1024 + lo_offset lo_bound)) file_2048)
  /\ map (map length) r.2 = map (map length) (rq_bios rq_read_1024).
Proof.
  apply (do_req_filebacked_read zero_fill_bio io_env_ok lo_bound rq_read_1024
           file_2048).
  - reflexivity.
  - reflexivity.
  - vm_compute; discriminate.
  - vm_compute; discriminate.
  - vm_compute; reflexivity.
  - apply Nat.leb_le. vm_compute. reflexivity.
Defined.

(** X16.  On a device without transfer, what a write request stored
    through the buffered path is what a later read request of the same
    sector and length returns, whatever the segmentation of either and
    whether or not the write extended the file. *)
Theorem do_req_filebacked_write_then_read (zero_fill : bio -> bio) (e : io_env)
    (lo : loop_device) (rq_w rq_r : blk_rq) (data : list Z) :
  io_write e = vfs_iter_write -> transfer lo = None ->
  rq_op rq_w = REQ_OP_WRITE -> rq_op rq_r = REQ_OP_READ ->
  rq_sector rq_r = rq_sector rq_w ->
  length (rq_bytes (rq_bios rq_r)) = length (rq_bytes (rq_bios rq_w)) ->
  rq_bytes (rq_bios rq_w) <> [] ->
  0 <= rq_sector rq_w -> 0 <= lo_offset lo ->
  512 * rq_sector rq_w + lo_offset lo < 2 ^ 63 ->
  let w := do_req_filebacked zero_fill e lo false rq_w data in
  let r := do_req_filebacked zero_fill e lo false rq_r w.1.2 in
  w.1.1 = 0 /\ r.1.1 = 0 /\ rq_bytes r.2 = rq_bytes (rq_bios rq_w).
Proof.
  intros Hw Ht Hopw Hopr Hsec Hlen Hne Hs Ho Hlt.
  set (p := 512 * rq_sector rq_w + lo_offset lo).
  assert (Hwrite : do_req_filebacked zero_fill e lo false rq_w data
                   = (0, pwrite data (rq_bytes (rq_bios rq_w)) (Z.to_nat p),
                      rq_bios rq_w)).
  { unfold do_req_filebacked. rewrite Hopw, Ht, Hw, request_pos by assumption.
    cbn [REQ_OP_READ REQ_OP_FLUSH REQ_OP_WRITE_ZEROES REQ_OP_DISCARD REQ_OP_WRITE
         Z.eqb].
    unfold lo_write_simple.
    rewrite lo_write_simple_bios_all by lia.
    reflexivity. }
  rewrite Hwrite. cbn [fst snd]. split; [reflexivity|].
  set (data' := pwrite data (rq_bytes (rq_bios rq_w)) (Z.to_nat p)).
  assert (Hl' : (Z.to_nat (512 * rq_sector rq_r + lo_offset lo)
                 + length (rq_bytes (rq_bios rq_r)) <= length data')%nat).
  { subst data'. rewrite pwrite_length by assumption. rewrite Hsec, Hlen.
    fold p. lia. }
  destruct (do_req_filebacked_read_spec zero_fill e lo rq_r data' Hopr Ht
              ltac:(lia) Ho ltac:(rewrite Hsec; exact Hlt) Hl') as (R1 & _ & R3 & _).
  split; [exact R1|]. rewrite R3, Hsec, Hlen. fold p.
  apply pwrite_read_back.
Qed.

Lemma do_req_filebacked_write_then_read_witness :
  let w := do_req_filebacked zero_fill_bio io_env_ok lo_bound false rq_write_1024
             file_2048 in
  let r := do_req_filebacked zero_fill_bio io_env_ok lo_bound false rq_read_1024
             w.1.2 in
  w.1.1 = 0 /\ r.1.1 = 0 /\ rq_bytes r.2 = rq_bytes (rq_bios rq_write_1024).
Proof.
  apply (do_req_filebacked_write_then_read zero_fill_bio io_env_ok lo_bound
           rq_write_1024 rq_read_1024 file_2048).
  - reflexivity.
  - reflexivity.
  - reflexivity.
  - reflexivity.
  - reflexivity.
  - reflexivity.
  - discriminate.
  - vm_compute; discriminate.
  - vm_compute; discriminate.
  - vm_compute; reflexivity.
Defined.

(** ** The XOR transfer on whole requests *)

Lemma xor_bytes_length key ks buf : length (xor_bytes key ks buf) = length buf.
Proof. unfold xor_bytes. apply length_imap. Qed.

Lemma byte_at_lookup (l : list Z) (j : nat) (x : Z) :
  l !! j = Some x -> byte_at l (Z.of_nat j) = x.
Proof. intros H. unfold byte_at. rewrite Nat2Z.id, H. reflexivity. Qed.

(** The scratch page after the WRITE transfer of a segment. *)
Lemma xor_loop_write key ks (bvec page : list Z) :
  (length bvec <= length page)%nat ->
  take (length bvec) (xor_loop key ks bvec 0 page 0 0 (length bvec))
  = xor_bytes key ks bvec.
Proof.
  intros Hl. apply list_eq. intros j.
  rewrite lookup_take. unfold xor_bytes. rewrite list_lookup_imap.
  case_decide as Hj.
  - rewrite xor_loop_lookup by lia. rewrite decide_True by lia.
    destruct (lookup_lt_is_Some_2 page j ltac:(lia)) as [y ->].
    destruct (lookup_lt_is_Some_2 bvec j Hj) as [x Hx]. rewrite Hx. cbn.
    rewrite Z.sub_0_r, Z.add_0_l, (byte_at_lookup _ _ _ Hx). reflexivity.
  - rewrite lookup_ge_None_2 by lia. reflexivity.
Qed.

(** The segment after the READ transfer of a page holding [b]. *)
Lemma xor_loop_read key ks (page out b : list Z) :
  take (length out) page = b -> length b = length out ->
  xor_loop key ks page 0 out 0 0 (length out) = xor_bytes key ks b.
Proof.
  intros Hb Hl. apply list_eq. intros j.
  rewrite xor_loop_lookup by lia. unfold xor_bytes. rewrite list_lookup_imap.
  destruct (decide (j < length out)%nat) as [Hj|Hj].
  - rewrite decide_True by lia.
    destruct (lookup_lt_is_Some_2 out j Hj) as [y ->].
    destruct (lookup_lt_is_Some_2 b j ltac:(lia)) as [x Hx]. rewrite Hx. cbn.
    assert (Hp : page !! j = Some x).
    { rewrite <- Hb, lookup_take in Hx. rewrite decide_True in Hx by lia. exact Hx. }
    rewrite Z.sub_0_r, Z.add_0_l, (byte_at_lookup _ _ _ Hp). reflexivity.
  - rewrite decide_False by lia.
    rewrite !lookup_ge_None_2 by lia. reflexivity.
Qed.

Lemma xor_bytes_twice key ks (buf : list Z) :
  Forall is_char buf -> xor_bytes key ks (xor_bytes key ks buf) = buf.
Proof.
  intros Hc. apply list_eq. intros j. unfold xor_bytes.
  rewrite !list_lookup_imap.
  destruct (buf !! j) as [x|] eqn:Hx; [|reflexivity]. cbn.
  rewrite to_char_xor_twice, to_char_id; [reflexivity|].
  eapply Forall_lookup_1; eassumption.
Qed.

Lemma vfs_iter_read_count (data buf : list Z) (count : nat) (pos : Z) :
  0 <= pos -> (Z.to_nat pos + count <= length data)%nat ->
  vfs_iter_read data buf count pos
  = (Z.of_nat count, take count (drop (Z.to_nat pos) data) ++ drop count buf,
     pos + Z.of_nat count).
Proof.
  intros Hp Hl. unfold vfs_iter_read.
  destruct (pos <? 0) eqn:E; [apply Z.ltb_lt in E; lia|].
  assert (Hg : length (take count (drop (Z.to_nat pos) data)) = count)
    by (rewrite length_take, length_drop; lia).
  rewrite Hg. reflexivity.
Qed.

Lemma lo_do_transfer_xor_write key ks (page bvec : list Z) (n : nat) (blk : Z) :
  lo_do_transfer transfer_xor key ks WRITE page 0 bvec 0 (Z.of_nat n) blk
  = (0, xor_loop key ks bvec 0 page 0 0 n, bvec).
Proof. unfold lo_do_transfer, transfer_xor. cbn. rewrite Nat2Z.id. reflexivity. Qed.

Lemma lo_write_bvec_all (data b : list Z) (pos : Z) :
  0 <= pos ->
  lo_write_bvec vfs_iter_write data b pos
  = (0, pwrite data b (Z.to_nat pos), pos + Z.of_nat (length b)).
Proof.
  intros Hp. unfold lo_write_bvec, vfs_iter_write.
  destruct (pos <? 0) eqn:E; [apply Z.ltb_lt in E; lia|].
  rewrite Z.eqb_refl. reflexivity.
Qed.

Lemma lo_write_transfer_segments_xor key ks (segs : bio) :
  forall page data pos,
    0 <= pos -> Forall (fun s => (length s <= length page)%nat) segs ->
    exists page',
      lo_write_transfer_segments vfs_iter_write transfer_xor key ks page data segs
        pos 0
      = (0, page', pwrite data (concat (map (xor_bytes key ks) segs)) (Z.to_nat pos),
         pos + Z.of_nat (length (concat segs)))
      /\ length page' = length page.
Proof.
  induction segs as [|bvec rest IH]; intros page data pos Hp Hf.
  - exists page. cbn. rewrite Z.add_0_r. auto.
  - apply Forall_cons in Hf. destruct Hf as [Hb Hr].
    cbn [lo_write_transfer_segments].
    rewrite lo_do_transfer_xor_write. cbn [Z.eqb negb].
    set (page1 := xor_loop key ks bvec 0 page 0 0 (length bvec)).
    assert (Hl1 : length page1 = length page) by apply xor_loop_length.
    assert (Ht : take (length bvec) page1 = xor_bytes key ks bvec)
      by (apply xor_loop_write; assumption).
    rewrite Ht, lo_write_bvec_all by assumption. cbn [Z.ltb Z.compare].
    rewrite xor_bytes_length.
    destruct (IH page1 (pwrite data (xor_bytes key ks bvec) (Z.to_nat pos))
                (pos + Z.of_nat (length bvec)) ltac:(lia)
                ltac:(rewrite Hl1; exact Hr)) as (page' & Heq & Hl').
    exists page'. rewrite Heq. split; [|congruence].
    replace (Z.to_nat (pos + Z.of_nat (length bvec)))
      with (Z.to_nat pos + length (xor_bytes key ks bvec))%nat
      by (rewrite xor_bytes_length; lia).
    rewrite pwrite_app. cbn [map concat]. rewrite length_app.
    f_equal. lia.
Qed.

Lemma xor_bytes_concat_length key ks (segs : list bio_vec) :
  length (concat (map (xor_bytes key ks) segs)) = length (concat segs).
Proof.
  induction segs as [|s segs IH]; [reflexivity|].
  cbn [map concat]. rewrite !length_app, xor_bytes_length, IH. reflexivity.
Qed.

(** When neither a transfer nor a write fails every bio is transferred and
    written in turn. *)
Lemma lo_write_transfer_bios_xor key ks (rq : request) :
  forall page data pos,
    0 <= pos -> Forall (Forall (fun s => (length s <= length page)%nat)) rq ->
    exists page',
      lo_write_transfer_bios vfs_iter_write transfer_xor key ks page data rq pos 0
      = (0, page',
         pwrite data (concat (map (xor_bytes key ks) (concat rq))) (Z.to_nat pos),
         pos + Z.of_nat (length (rq_bytes rq)))
      /\ length page' = length page.
Proof.
  unfold rq_bytes.
  induction rq as [|b rest IH]; intros page data pos Hp Hf.
  - exists page. cbn. rewrite Z.add_0_r. auto.
  - apply Forall_cons in Hf. destruct Hf as [Hb Hr].
    cbn [lo_write_transfer_bios].
    destruct (lo_write_transfer_segments_xor key ks b page data pos Hp Hb)
      as (page1 & Heq1 & Hl1).
    rewrite Heq1.
    destruct (IH page1 (pwrite data (concat (map (xor_bytes key ks) b)) (Z.to_nat pos))
                (pos + Z.of_nat (length (concat b))) ltac:(lia)
                ltac:(rewrite Hl1; exact Hr)) as (page' & Heq & Hl').
    exists page'. rewrite Heq. split; [|congruence].
    replace (Z.to_nat (pos + Z.of_nat (length (concat b))))
      with (Z.to_nat pos + length (concat (map (xor_bytes key ks) b)))%nat
      by (rewrite xor_bytes_concat_length; lia).
    rewrite pwrite_app. cbn [concat]. rewrite map_app, !concat_app, length_app.
    f_equal. lia.
Qed.

Lemma transfer_xor_read key ks (page bvec : list Z) (n : nat) (blk : Z) :
  transfer_xor key ks READ page 0 bvec 0 (Z.of_nat n) blk
  = (0, page, xor_loop key ks page 0 bvec 0 0 n).
Proof. unfold transfer_xor. cbn. rewrite Nat2Z.id. reflexivity. Qed.

(** Splitting what a file holds at [p] into a first part of [n] bytes and
    the rest. *)
Lemma take_drop_split (data e1 e2 : list Z) (p n m : nat) :
  (p + (n + m) <= length data)%nat -> length e1 = n ->
  take (n + m) (drop p data) = e1 ++ e2 ->
  take n (drop p data) = e1 /\ take m (drop (p + n) data) = e2.
Proof.
  intros Hl He H. rewrite <- take_take_drop, drop_drop in H.
  apply app_inj_1 in H; [exact H|].
  rewrite length_take, length_drop. lia.
Qed.

Lemma lo_read_transfer_segments_xor key ks (data : list Z) (segs_w segs_r : bio) :
  Forall2 (fun a b : list Z => length a = length b) segs_w segs_r ->
  forall page pos,
    0 <= pos ->
    (Z.to_nat pos + length (concat segs_w) <= length data)%nat ->
    take (length (concat segs_w)) (drop (Z.to_nat pos) data)
    = concat (map (xor_bytes key ks) segs_w) ->
    exists page',
      lo_read_transfer_segments transfer_xor key ks data page segs_r pos
      = (Completed (pos + Z.of_nat (length (concat segs_w))), page',
         map (xor_bytes key ks) (map (xor_bytes key ks) segs_w)).
Proof.
  induction 1 as [|w r ws rs Hwr Hrest IH]; intros page pos Hp Hl Heq.
  - exists page. cbn. rewrite Z.add_0_r. reflexivity.
  - cbn [concat map] in *. rewrite length_app in *.
    destruct (take_drop_split data (xor_bytes key ks w)
                (concat (map (xor_bytes key ks) ws)) (Z.to_nat pos) (length w)
                (length (concat ws)) Hl (xor_bytes_length _ _ _) Heq) as [H1 H2].
    cbn [lo_read_transfer_segments].
    rewrite vfs_iter_read_count by lia.
    destruct (Z.of_nat (length r) <? 0) eqn:E1; [apply Z.ltb_lt in E1; lia|].
    rewrite transfer_xor_read. cbn [Z.eqb negb]. rewrite Z.eqb_refl. cbn [negb].
    set (page1 := take (length r) (drop (Z.to_nat pos) data) ++ drop (length r) page).
    assert (Hb : take (length r) page1 = xor_bytes key ks w).
    { subst page1. rewrite take_app_length'
        by (rewrite length_take, length_drop; lia).
      rewrite <- Hwr. exact H1. }
    rewrite (xor_loop_read key ks page1 r (xor_bytes key ks w) Hb)
      by (rewrite xor_bytes_length; exact Hwr).
    destruct (IH page1 (pos + Z.of_nat (length r)) ltac:(lia)) as (page' & Hrec).
    + rewrite <- Hwr. lia.
    + rewrite <- Hwr.
      replace (Z.to_nat (pos + Z.of_nat (length w)))
        with (Z.to_nat pos + length w)%nat by lia.
      exact H2.
    + exists page'. rewrite Hrec. f_equal. f_equal. f_equal. lia.
Qed.

Lemma lo_read_transfer_bios_xor key ks (data : list Z) (rq_w rq_r : request) :
  Forall2 (Forall2 (fun a b : list Z => length a = length b)) rq_w rq_r ->
  forall page pos,
    0 <= pos ->
    (Z.to_nat pos + length (rq_bytes rq_w) <= length data)%nat ->
    take (length (rq_bytes rq_w)) (drop (Z.to_nat pos) data)
    = concat (map (xor_bytes key ks) (concat rq_w)) ->
    lo_read_transfer_bios transfer_xor key ks data page rq_r pos
    = (Completed (pos + Z.of_nat (length (rq_bytes rq_w))),
       map (map (xor_bytes key ks)) (map (map (xor_bytes key ks)) rq_w)).
Proof.
  unfold rq_bytes.
  induction 1 as [|w r ws rs Hwr Hrest IH]; intros page pos Hp Hl Heq.
  - cbn. rewrite Z.add_0_r. reflexivity.
  - cbn [concat map] in *. rewrite concat_app, length_app in *.
    rewrite map_app, concat_app in Heq.
    destruct (take_drop_split data (concat (map (xor_bytes key ks) w))
                (concat (map (xor_bytes key ks) (concat ws))) (Z.to_nat pos)
                (length (concat w)) (length (concat (concat ws))) Hl) as [H1 H2].
    { clear. induction w as [|s w IH]; [reflexivity|].
      cbn [map concat]. rewrite !length_app, xor_bytes_length, IH. reflexivity. }
    { exact Heq. }
    cbn [lo_read_transfer_bios].
    destruct (lo_read_transfer_segments_xor key ks data w r Hwr page pos Hp
                ltac:(lia) H1) as (page' & ->).
    rewrite IH; [|lia|lia|].
    + f_equal. f_equal. lia.
    + replace (Z.to_nat (pos + Z.of_nat (length (concat w))))
        with (Z.to_nat pos + length (concat w))%nat by lia.
      exact H2.
Qed.

Lemma xor_bytes_twice_rq key ks (rq : request) :
  Forall (Forall (Forall is_char)) rq ->
  map (map (xor_bytes key ks)) (map (map (xor_bytes key ks)) rq) = rq.
Proof.
  intros H. rewrite <- (map_id rq) at 2. rewrite map_map.
  apply map_ext_Forall. eapply Forall_impl; [exact H|].
  intros b Hb. cbn. rewrite <- (map_id b) at 2. rewrite map_map.
  apply map_ext_Forall. eapply Forall_impl; [exact Hb|].
  intros s Hs. apply xor_bytes_twice. exact Hs.
Qed.

(** X17.  On a device with the XOR transfer, a write request stores in the
    backing file the bytes of each segment combined with the key, and a
    later read request of the same sector and the same segmentation returns
    the bytes that were written. *)
Theorem do_req_filebacked_xor_write_then_read (zero_fill : bio -> bio) (e : io_env)
    (lo : loop_device) (use_aio : bool) (rq_w rq_r : blk_rq) (data page : list Z) :
  io_write e = vfs_iter_write -> io_page e = Some page ->
  transfer lo = Some transfer_xor -> 0 < lo_encrypt_key_size lo ->
  rq_op rq_w = REQ_OP_WRITE -> rq_op rq_r = REQ_OP_READ ->
  rq_sector rq_r = rq_sector rq_w ->
  Forall2 (Forall2 (fun a b : list Z => length a = length b))
    (rq_bios rq_w) (rq_bios rq_r) ->
  Forall (Forall (fun s : list Z => (length s <= length page)%nat)) (rq_bios rq_w) ->
  Forall (Forall (Forall is_char)) (rq_bios rq_w) ->
  rq_bytes (rq_bios rq_w) <> [] ->
  0 <= rq_sector rq_w -> 0 <= lo_offset lo ->
  512 * rq_sector rq_w + lo_offset lo < 2 ^ 63 ->
  let w := do_req_filebacked zero_fill e lo use_aio rq_w data in
  let r := do_req_filebacked zero_fill e lo use_aio rq_r w.1.2 in
  w.1.1 = 0 /\ r.1.1 = 0 /\ r.2 = rq_bios rq_w
  /\ take (length (rq_bytes (rq_bios rq_w)))
       (drop (Z.to_nat (512 * rq_sector rq_w + lo_offset lo)) w.1.2)
     = concat (map (xor_bytes (lo_encrypt_key lo) (lo_encrypt_key_size lo))
                 (concat (rq_bios rq_w))).
Proof.
  intros Hw Hpg Ht Hks Hopw Hopr Hsec Hshape Hfit Hchar Hne Hs Ho Hlt.
  set (p := 512 * rq_sector rq_w + lo_offset lo).
  set (key := lo_encrypt_key lo). set (ks := lo_encrypt_key_size lo).
  set (E := concat (map (xor_bytes key ks) (concat (rq_bios rq_w)))).
  assert (HE : length E = length (rq_bytes (rq_bios rq_w)))
    by apply xor_bytes_concat_length.
  assert (HEne : E <> []).
  { intros HE0. rewrite HE0 in HE. cbn in HE.
    destruct (rq_bytes (rq_bios rq_w)); [congruence|discriminate]. }
  assert (Hwrite : do_req_filebacked zero_fill e lo use_aio rq_w data
                   = (0, pwrite data E (Z.to_nat p), rq_bios rq_w)).
  { unfold do_req_filebacked. rewrite Hopw, Ht, Hw, Hpg, request_pos by assumption.
    cbn [REQ_OP_READ REQ_OP_FLUSH REQ_OP_WRITE_ZEROES REQ_OP_DISCARD REQ_OP_WRITE
         Z.eqb].
    unfold lo_write_transfer.
    destruct (lo_write_transfer_bios_xor key ks (rq_bios rq_w) page
                data p ltac:(subst p; lia) Hfit) as (page' & Hseg & _).
    fold p key ks. rewrite Hseg. reflexivity. }
  rewrite Hwrite. cbn [fst snd]. split; [reflexivity|].
  set (data' := pwrite data E (Z.to_nat p)).
  assert (Hback : take (length (rq_bytes (rq_bios rq_w))) (drop (Z.to_nat p) data')
                  = E).
  { rewrite <- HE. apply pwrite_read_back. }
  assert (Hl' : (Z.to_nat p + length (rq_bytes (rq_bios rq_w)) <= length data')%nat).
  { subst data'. rewrite pwrite_length by assumption. lia. }
  split; [|split; [|exact Hback]].
  - unfold do_req_filebacked. rewrite Hopr, Ht, Hpg, Hsec, request_pos by assumption.
    cbn [REQ_OP_READ REQ_OP_FLUSH REQ_OP_WRITE_ZEROES REQ_OP_DISCARD REQ_OP_WRITE
         Z.eqb].
    unfold lo_read_transfer. fold p key ks.
    rewrite (lo_read_transfer_bios_xor key ks data' (rq_bios rq_w) (rq_bios rq_r)
               Hshape page p ltac:(subst p; lia) Hl' Hback).
    reflexivity.
  - unfold do_req_filebacked. rewrite Hopr, Ht, Hpg, Hsec, request_pos by assumption.
    cbn [REQ_OP_READ REQ_OP_FLUSH REQ_OP_WRITE_ZEROES REQ_OP_DISCARD REQ_OP_WRITE
         Z.eqb].
    unfold lo_read_transfer. fold p key ks.
    rewrite (lo_read_transfer_bios_xor key ks data' (rq_bios rq_w) (rq_bios rq_r)
               Hshape page p ltac:(subst p; lia) Hl' Hback).
    cbn [fst snd]. apply xor_bytes_twice_rq. exact Hchar.
Qed.

Lemma do_req_filebacked_xor_write_then_read_witness :
  let w := do_req_filebacked zero_fill_bio io_env_ok lo_xor false rq_write_12
             file_2048 in
  let r := do_req_filebacked zero_fill_bio io_env_ok lo_xor false rq_read_12 w.1.2 in
  w.1.1 = 0 /\ r.1.1 = 0 /\ r.2 = rq_bios rq_write_12
  /\ take (length (rq_bytes (rq_bios rq_write_12)))
       (drop (Z.to_nat (512 * rq_sector rq_write_12 + lo_offset lo_xor)) w.1.2)
     = concat (map (xor_bytes (lo_encrypt_key lo_xor) (lo_encrypt_key_size lo_xor))
                 (concat (rq_bios rq_write_12))).
Proof.
  apply (do_req_filebacked_xor_write_then_read zero_fill_bio io_env_ok lo_xor false
           rq_write_12 rq_read_12 file_2048 (replicate 4096 0)).
  - reflexivity.
  - reflexivity.
  - reflexivity.
  - reflexivity.
  - reflexivity.
  - reflexivity.
  - reflexivity.
  - repeat constructor.
  - repeat first [apply Forall_nil_2 | apply Forall_cons_2];
      apply Nat.leb_le; vm_compute; reflexivity.
  - repeat constructor; unfold is_char; lia.
  - discriminate.
  - vm_compute; discriminate.
  - vm_compute; discriminate.
  - vm_compute; reflexivity.
Defined.

(** ** Requests on a read-only device, and how requests complete *)

(** X18.  On a read-only device no request changes the backing file, and
    every request whose operation is a write (write, discard, write-zeroes
    and any other odd operation code) is completed with [-EIO] without
    reaching the backing file. *)
Theorem loop_handle_cmd_read_only (zero_fill : bio -> bio) (e : io_env)
    (lo : loop_device) (cmd : loop_cmd) (rq : blk_rq) (data : list Z) :
  flag_set (lo_flags lo) LO_FLAGS_READ_ONLY = true ->
  (loop_handle_cmd zero_fill e lo cmd rq data).1.2 = data
  /\ (op_is_write (rq_op rq) = true ->
      loop_handle_cmd zero_fill e lo cmd rq data = (Some (- EIO), data, rq_bios rq)).
Proof.
  intros Hro. unfold loop_handle_cmd. rewrite Hro, andb_true_r.
  destruct (op_is_write (rq_op rq)) eqn:Ew.
  - cbn [Z.eqb negb orb EIO EOPNOTSUPP Z.opp]. rewrite orb_true_r. cbn. auto.
  - split; [|discriminate].
    assert (Hd : (do_req_filebacked zero_fill e lo (use_aio cmd) rq data).1.2 = data).
    { unfold do_req_filebacked.
      destruct (rq_op rq =? REQ_OP_FLUSH); [reflexivity|].
      destruct (rq_op rq =? REQ_OP_WRITE_ZEROES); [reflexivity|].
      destruct (rq_op rq =? REQ_OP_DISCARD); [reflexivity|].
      destruct (rq_op rq =? REQ_OP_WRITE) eqn:E.
      { apply Z.eqb_eq in E. rewrite E in Ew. discriminate. }
      destruct (rq_op rq =? REQ_OP_READ); [|reflexivity].
      destruct (transfer lo).
      - destruct (lo_read_transfer _ _ _ _ _ _ _ _) as [ret bios]. reflexivity.
      - destruct (use_aio cmd); [reflexivity|].
        destruct (lo_read_simple _ _ _ _) as [ret bios]. reflexivity. }
    destruct (do_req_filebacked zero_fill e lo (use_aio cmd) rq data)
      as [[ret data'] bios]. cbn [fst snd] in Hd. subst data'.
    destruct (negb (use_aio cmd) || negb (ret =? 0)); reflexivity.
Qed.

Lemma loop_handle_cmd_read_only_witness :
  (loop_handle_cmd zero_fill_bio io_env_ok lo_bound_ro cmd_sync rq_discard_1024
     file_2048).1.2 = file_2048
  /\ (op_is_write (rq_op rq_discard_1024) = true ->
      loop_handle_cmd zero_fill_bio io_env_ok lo_bound_ro cmd_sync rq_discard_1024
        file_2048
      = (Some (- EIO), file_2048, rq_bios rq_discard_1024)).
Proof.
  apply (loop_handle_cmd_read_only zero_fill_bio io_env_ok lo_bound_ro cmd_sync
           rq_discard_1024 file_2048).
  reflexivity.
Defined.

(** X19.  A command carried out synchronously is completed by
    [loop_handle_cmd] itself, with 0, [-EIO] or [-EOPNOTSUPP] and no other
    status, 0 exactly when [do_req_filebacked] returned 0; [lo_complete_rq]
    then ends the request, never requeues it, with [BLK_STS_OK] when the
    status is 0 and with the block status of the error otherwise. *)
Theorem loop_handle_cmd_completion (zero_fill : bio -> bio) (e : io_env)
    (lo : loop_device) (cmd : loop_cmd) (rq : blk_rq) (data : list Z)
    (errno_to_blk_status : Z -> Z) :
  use_aio cmd = false ->
  flag_set (lo_flags lo) LO_FLAGS_READ_ONLY = false ->
  exists ret,
    (loop_handle_cmd zero_fill e lo cmd rq data).1.1 = Some ret
    /\ (ret = 0 \/ ret = - EIO \/ ret = - EOPNOTSUPP)
    /\ (ret = 0 <-> (do_req_filebacked zero_fill e lo false rq data).1.1 = 0)
    /\ (ret = - EOPNOTSUPP
        <-> (do_req_filebacked zero_fill e lo false rq data).1.1 = - EOPNOTSUPP)
    /\ lo_complete_rq errno_to_blk_status false ret rq
       = (rq_ended (if ret =? 0 then BLK_STS_OK else errno_to_blk_status ret),
          ret, rq_bios rq).
Proof.
  intros Ha Hro. unfold loop_handle_cmd. rewrite Ha, Hro, andb_false_r.
  destruct (do_req_filebacked zero_fill e lo false rq data) as [[ret data'] bios].
  cbn [negb orb fst snd].
  assert (Hc : forall r, r = 0 \/ r = - EIO \/ r = - EOPNOTSUPP ->
            lo_complete_rq errno_to_blk_status false r rq
            = (rq_ended (if r =? 0 then BLK_STS_OK else errno_to_blk_status r),
               r, rq_bios rq)).
  { intros r [->|[->| ->]]; reflexivity. }
  destruct (ret =? - EOPNOTSUPP) eqn:E1.
  - apply Z.eqb_eq in E1. subst ret. eexists. split; [reflexivity|].
    split; [auto|]. split; [unfold EOPNOTSUPP; lia|]. split; [tauto|].
    apply Hc. auto.
  - apply Z.eqb_neq in E1. destruct (ret =? 0) eqn:E2; cbn [negb].
    + apply Z.eqb_eq in E2. subst ret. eexists. split; [reflexivity|].
      split; [auto|]. split; [tauto|]. split; [unfold EOPNOTSUPP; lia|].
      apply Hc. auto.
    + apply Z.eqb_neq in E2. eexists. split; [reflexivity|].
      split; [auto|]. split; [unfold EIO; lia|].
      split; [unfold EIO, EOPNOTSUPP in *; lia|]. apply Hc. auto.
Qed.

Lemma loop_handle_cmd_completion_witness :
  exists ret,
    (loop_handle_cmd zero_fill_bio io_env_ok lo_bound cmd_sync rq_discard_1024
       file_2048).1.1 = Some ret
    /\ (ret = 0 \/ ret = - EIO \/ ret = - EOPNOTSUPP)
    /\ (ret = 0
        <-> (do_req_filebacked zero_fill_bio io_env_ok lo_bound false rq_discard_1024
               file_2048).1.1 = 0)
    /\ (ret = - EOPNOTSUPP
        <-> (do_req_filebacked zero_fill_bio io_env_ok lo_bound false rq_discard_1024
               file_2048).1.1 = - EOPNOTSUPP)
    /\ lo_complete_rq (fun _ => BLK_STS_IOERR) false ret rq_discard_1024
       = (rq_ended (if ret =? 0 then BLK_STS_OK else BLK_STS_IOERR), ret,
          rq_bios rq_discard_1024).
Proof.
  apply (loop_handle_cmd_completion zero_fill_bio io_env_ok lo_bound cmd_sync
           rq_discard_1024 file_2048 (fun _ => BLK_STS_IOERR)).
  - reflexivity.
  - reflexivity.
Defined.

(** ** Requests during and after a detach *)

(** X20.  [loop_queue_rq] refuses a request with [BLK_STS_IOERR], queueing
    nothing, whenever the device is not Bound; this is the case at every
    release of [lo_mutex] of a detach that [loop_clr_fd] carries out, from
    the one that follows the switch to Rundown on. *)
Theorem loop_queue_rq_fail_fast (blkcg_root_css : Z) (kzalloc_ok : bool)
    (part_shift : Z) (lo : loop_device) (f : file) :
  lo_state lo = Lo_bound -> lo_backing_file lo = Some f -> lo_refcnt lo <= 1 ->
  (loop_clr_fd part_shift 0 lo).1.2 <> []
  /\ Forall (fun l =>
               forall rq_id rq bio_css bio_memcg,
                 loop_queue_rq blkcg_root_css kzalloc_ok l rq_id rq bio_css bio_memcg
                 = (BLK_STS_IOERR, l, None))
       (loop_clr_fd part_shift 0 lo).1.2.
Proof.
  intros Hb Hf Hr.
  assert (Hq : forall l, lo_state l <> Lo_bound ->
            forall rq_id rq bio_css bio_memcg,
              loop_queue_rq blkcg_root_css kzalloc_ok l rq_id rq bio_css bio_memcg
              = (BLK_STS_IOERR, l, None)).
  { intros l Hl rq_id rq c m. unfold loop_queue_rq.
    destruct (lo_state_eqb (lo_state l) Lo_bound) eqn:E; [|reflexivity].
    apply lo_state_eqb_eq in E. contradiction. }
  unfold loop_clr_fd. cbn [Z.eqb negb]. rewrite Hb. cbn [lo_state_eqb negb].
  replace (lo_refcnt lo >? 1) with false
    by (symmetry; rewrite Z.gtb_ltb; apply Z.ltb_ge; lia).
  set (L := set_lo_state Lo_rundown lo).
  destruct (__loop_clr_fd_rundown part_shift L false f eq_refl Hf)
    as (lo1 & lo2 & -> & S1 & _ & S2 & _).
  cbn [fst snd]. split; [discriminate|].
  apply Forall_cons_2; [apply Hq; cbn; discriminate|].
  apply Forall_cons_2; [apply Hq; rewrite S1; discriminate|].
  apply Forall_cons_2; [apply Hq; rewrite S2; discriminate|].
  apply Forall_nil_2.
Qed.

Lemma loop_queue_rq_fail_fast_witness :
  (loop_clr_fd 0 0 lo_bound).1.2 <> []
  /\ Forall (fun l =>
               forall rq_id rq bio_css bio_memcg,
                 loop_queue_rq 1 true l rq_id rq bio_css bio_memcg
                 = (BLK_STS_IOERR, l, None))
       (loop_clr_fd 0 0 lo_bound).1.2.
Proof.
  apply (loop_queue_rq_fail_fast 1 true 0 lo_bound (image_file 1048576)).
  - reflexivity.
  - reflexivity.
  - vm_compute; discriminate.
Defined.

(** ** Loop devices on loop devices *)

Lemma loop_validate_file_walk_chain loop_rdev lo_of f l bd :
  loop_chain loop_rdev lo_of f l ->
  forall fuel, (length l < fuel)%nat ->
    exists e, loop_validate_file_walk fuel loop_rdev lo_of f bd = Some e
              /\ (bd ∈ l -> e = - EBADF) /\ (e = 0 -> bd ∉ l).
Proof.
  induction 1 as [f Hf|f rdev Hf Hstop|f rdev f' l Hf Hb Hback Hch IH];
    intros [|fuel] Hfuel; try (cbn in Hfuel; lia);
    cbn [loop_validate_file_walk]; rewrite Hf.
  - exists 0. split; [reflexivity|].
    split; [intros Hin; apply not_elem_of_nil in Hin; contradiction
           |intros _; apply not_elem_of_nil].
  - destruct (rdev =? bd) eqn:E.
    + apply Z.eqb_eq in E. subst rdev. exists (- EBADF).
      split; [reflexivity|]. split; [auto|unfold EBADF; lia].
    + apply Z.eqb_neq in E. exists (- EINVAL). split.
      * destruct Hstop as [Hs|Hn].
        -- destruct (lo_state_eqb (lo_state (lo_of rdev)) Lo_bound) eqn:Es;
             [apply lo_state_eqb_eq in Es; contradiction|reflexivity].
        -- rewrite Hn.
           destruct (negb (lo_state_eqb (lo_state (lo_of rdev)) Lo_bound));
             reflexivity.
      * split; [|unfold EINVAL; lia].
        intros Hin. apply list_elem_of_singleton in Hin. congruence.
  - destruct (rdev =? bd) eqn:E.
    + apply Z.eqb_eq in E. subst rdev. exists (- EBADF).
      split; [reflexivity|]. split; [auto|unfold EBADF; lia].
    + apply Z.eqb_neq in E. rewrite Hb, Hback. cbn [lo_state_eqb negb].
      destruct (IH fuel ltac:(cbn in Hfuel; lia)) as (e & He & H1 & H2).
      exists e. split; [exact He|]. split.
      * intros Hin. apply elem_of_cons in Hin. destruct Hin as [?|Hin];
          [congruence|auto].
      * intros H0 Hin. apply elem_of_cons in Hin. destruct Hin as [?|Hin];
          [congruence|]. exact (H2 H0 Hin).
Qed.

(** Devices that are not on a chain do not matter to it. *)
Lemma loop_chain_update loop_rdev lo_of bd lo' f l :
  loop_chain loop_rdev lo_of f l -> bd ∉ l ->
  loop_chain loop_rdev (lo_of_update lo_of bd lo') f l.
Proof.
  induction 1 as [f Hf|f rdev Hf Hstop|f rdev f' l Hf Hb Hback Hch IH]; intros Hn.
  - apply chain_end. exact Hf.
  - apply chain_stop; [exact Hf|]. unfold lo_of_update.
    destruct (rdev =? bd) eqn:E; [|exact Hstop].
    apply Z.eqb_eq in E. subst. exfalso. apply Hn. apply list_elem_of_singleton.
    reflexivity.
  - apply not_elem_of_cons in Hn. destruct Hn as [Hne Hn].
    assert (E : (rdev =? bd) = false) by (apply Z.eqb_neq; congruence).
    eapply chain_step; [exact Hf| | |exact (IH Hn)];
      unfold lo_of_update; rewrite E; assumption.
Qed.

(** Binding device [bd] to a file whose chain does not go through [bd]
    leaves every chain finite. *)
Lemma loops_acyclic_bind loop_rdev lo_of bd lo' file lf :
  loops_acyclic loop_rdev lo_of ->
  loop_chain loop_rdev lo_of file lf -> bd ∉ lf ->
  lo_state lo' = Lo_bound -> lo_backing_file lo' = Some file ->
  loops_acyclic loop_rdev (lo_of_update lo_of bd lo').
Proof.
  intros Hac Hlf Hn Hb Hback g.
  pose proof (loop_chain_update loop_rdev lo_of bd lo' file lf Hlf Hn) as Hnew.
  assert (Hbd : forall h, loop_rdev h = Some bd ->
            loop_chain loop_rdev (lo_of_update lo_of bd lo') h (bd :: lf)).
  { intros h Hh. eapply chain_step; [exact Hh| | |exact Hnew];
      unfold lo_of_update; rewrite Z.eqb_refl; assumption. }
  destruct (Hac g) as [lg Hg].
  induction Hg as [f Hf|f rdev Hf Hstop|f rdev f' l Hf Hb' Hback' Hch IH].
  - exists []. apply chain_end. exact Hf.
  - destruct (Z.eq_dec rdev bd) as [->|Hne]; [eauto|].
    exists [rdev]. apply chain_stop; [exact Hf|].
    unfold lo_of_update. apply Z.eqb_neq in Hne. rewrite Hne. exact Hstop.
  - destruct (Z.eq_dec rdev bd) as [->|Hne]; [eauto|].
    destruct IH as [l' Hl'].
    exists (rdev :: l'). apply Z.eqb_neq in Hne.
    eapply chain_step; [exact Hf| | |exact Hl'];
      unfold lo_of_update; rewrite Hne; assumption.
Qed.

(** More iterations do not change the answer of a walk that has ended. *)
Lemma loop_validate_file_walk_mono loop_rdev lo_of bd (a : nat) :
  forall (b : nat) g x,
    loop_validate_file_walk a loop_rdev lo_of g bd = Some x ->
    loop_validate_file_walk (a + b) loop_rdev lo_of g bd = Some x.
Proof.
  induction a as [|a IH]; intros b g x H; [discriminate|].
  cbn [loop_validate_file_walk Nat.add] in *.
  destruct (loop_rdev g) as [r|]; [|exact H].
  destruct (r =? bd); [exact H|].
  destruct (negb (lo_state_eqb (lo_state (lo_of r)) Lo_bound)); [exact H|].
  destruct (lo_backing_file (lo_of r)); [|exact H]. apply IH. exact H.
Qed.

(** X21.  When no chain of loop devices goes round in circles, the walk of
    [loop_validate_file] comes to an end, with the same answer from some
    number of iterations on; the answer is [-EBADF] when the device to be
    bound is on the chain of the file, and it is 0 only when the device is
    not on that chain. *)
Theorem loop_validate_file_walk_ends (loop_rdev : file -> option Z)
    (lo_of : Z -> loop_device) (f : file) (bd : Z) :
  loops_acyclic loop_rdev lo_of ->
  exists fuel e,
    (forall n, (fuel <= n)%nat ->
       loop_validate_file_walk n loop_rdev lo_of f bd = Some e)
    /\ forall l, loop_chain loop_rdev lo_of f l ->
         (bd ∈ l -> e = - EBADF) /\ (e = 0 -> bd ∉ l).
Proof.
  intros Hac. destruct (Hac f) as [l0 H0].
  destruct (loop_validate_file_walk_chain loop_rdev lo_of f l0 bd H0 (S (length l0))
              ltac:(lia)) as (e & He & _).
  exists (S (length l0)), e. split.
  - intros n Hn.
    pose proof (loop_validate_file_walk_mono _ _ _ _ (n - S (length l0)) _ _ He) as M.
    replace (S (length l0) + (n - S (length l0)))%nat with n in M by lia.
    exact M.
  - intros l Hl.
    destruct (loop_validate_file_walk_chain loop_rdev lo_of f l bd Hl
                (S (length l0) + S (length l)) ltac:(lia)) as (e' & He' & H1 & H2).
    pose proof (loop_validate_file_walk_mono _ _ _ _ (S (length l)) _ _ He) as M.
    assert (e' = e) by congruence. subst e'. auto.
Qed.

Lemma loops_acyclic_fresh : loops_acyclic loop_rdev_sample lo_of_fresh.
Proof.
  intros f. destruct (loop_rdev_sample f) as [r|] eqn:E.
  - exists [r]. apply chain_stop; [exact E|]. left. discriminate.
  - exists []. apply chain_end. exact E.
Qed.

Lemma loop_validate_file_walk_ends_witness :
  exists fuel e,
    (forall n, (fuel <= n)%nat ->
       loop_validate_file_walk n loop_rdev_sample lo_of_fresh (image_file 4096) 7
       = Some e)
    /\ forall l, loop_chain loop_rdev_sample lo_of_fresh (image_file 4096) l ->
         (7 ∈ l -> e = - EBADF) /\ (e = 0 -> 7 ∉ l).
Proof.
  apply (loop_validate_file_walk_ends loop_rdev_sample lo_of_fresh (image_file 4096) 7).
  exact loops_acyclic_fresh.
Defined.

Lemma loop_configure_ok_validated xfer_funcs part_shift env lo mode bdev config lo' :
  loop_configure xfer_funcs part_shift env lo mode bdev config = (0, lo') ->
  validate_err env = 0.
Proof.
  unfold loop_configure. intros H.
  destruct (fget_file env) as [file0|]; [|unfold EBADF in H; discriminate].
  match type of H with
  | context [let '(_, _) := ?c in _] => destruct c as [f virt]
  end.
  destruct (negb (flag_set mode FMODE_EXCL) && negb (claim_err env =? 0)) eqn:E1.
  { injection H as H _. apply andb_true_iff in E1. destruct E1 as [_ E1].
    apply negb_true_iff, Z.eqb_neq in E1. contradiction. }
  destruct (lock_err env =? 0) eqn:E2; cbn [negb] in H.
  2:{ injection H as H _. apply Z.eqb_neq in E2. contradiction. }
  destruct (lo_state_eqb (lo_state lo) Lo_unbound); cbn [negb] in H;
    [|unfold EBUSY in H; discriminate].
  destruct (validate_err env =? 0) eqn:E; [apply Z.eqb_eq; exact E|].
  cbn [negb] in H. injection H as H _. exact H.
Qed.

Lemma loop_validate_file_zero fuel loop_rdev is_reg lo_of f bd :
  loop_validate_file fuel loop_rdev is_reg lo_of f bd = Some 0 ->
  loop_validate_file_walk fuel loop_rdev lo_of f bd = Some 0.
Proof.
  unfold loop_validate_file.
  destruct (loop_validate_file_walk fuel loop_rdev lo_of f bd) as [[|p|p]|];
    intros H; congruence.
Qed.

Lemma loop_validate_file_walk_zero fuel loop_rdev lo_of f bd l :
  loop_validate_file_walk fuel loop_rdev lo_of f bd = Some 0 ->
  loop_chain loop_rdev lo_of f l -> bd ∉ l.
Proof.
  intros H0 Hl.
  destruct (loop_validate_file_walk_chain loop_rdev lo_of f l bd Hl
              (fuel + S (length l)) ltac:(lia)) as (e & He & _ & Hn).
  pose proof (loop_validate_file_walk_mono _ _ _ _ (S (length l)) _ _ H0) as M.
  apply Hn. congruence.
Qed.

Lemma loop_change_fd_ok env lo bdev lo' :
  loop_change_fd env lo bdev = (0, lo') ->
  validate_err env = 0
  /\ exists file virt_file,
       configure_files env = Some (file, virt_file)
       /\ lo_state lo' = Lo_bound /\ lo_backing_file lo' = Some file.
Proof.
  unfold loop_change_fd, configure_files. intros H.
  destruct (fget_file env) as [file0|]; [|unfold EBADF in H; discriminate].
  destruct (lock_err env =? 0) eqn:El; cbn [negb] in H.
  2:{ injection H as H _. apply Z.eqb_neq in El. contradiction. }
  destruct (lo_state_eqb (lo_state lo) Lo_bound) eqn:Eb; cbn [negb] in H;
    [|unfold ENXIO in H; discriminate].
  apply lo_state_eqb_eq in Eb.
  destruct (flag_set (lo_flags lo) LO_FLAGS_READ_ONLY); cbn [negb] in H;
    [|unfold EINVAL in H; discriminate].
  match type of H with
  | context [let '(_, _) := ?c in _] => destruct c as [file virt_file]
  end.
  destruct (validate_err env =? 0) eqn:Ev; cbn [negb] in H.
  2:{ injection H as H _. apply Z.eqb_neq in Ev. contradiction. }
  apply Z.eqb_eq in Ev. split; [exact Ev|].
  destruct (lo_backing_file lo) as [old_file|];
    [|unfold EINVAL in H; discriminate].
  destruct (get_loop_size lo file =? get_loop_size lo old_file); cbn [negb] in H;
    [|unfold EINVAL in H; discriminate].
  injection H as <-. exists file, virt_file. split; [reflexivity|].
  match goal with
  | |- context [loop_update_dio ?x] =>
      destruct (loop_update_dio_config x) as (C1 & C2 & _)
  end.
  rewrite C1, C2. cbn. auto.
Qed.

(** X22.  Binding keeps the devices free of cycles: when no chain of loop
    devices goes round in circles and the answer [loop_validate_file] gave
    for the file is the one [loop_configure] or [loop_change_fd] acted on,
    then after a successful call, with the device bound to the file, no
    chain goes round in circles either. *)
Theorem loop_binding_keeps_acyclic (loop_rdev : file -> option Z)
    (is_reg : file -> bool) (lo_of : Z -> loop_device) (fuel : nat)
    (xfer_funcs : list (option loop_func_table)) (part_shift : Z)
    (env : configure_env) (lo : loop_device) (mode bdev : Z) (config : loop_config)
    (virt_file : option file) (file : file) :
  loops_acyclic loop_rdev lo_of ->
  configure_files env = Some (file, virt_file) ->
  loop_validate_file fuel loop_rdev is_reg lo_of file bdev = Some (validate_err env) ->
  ((loop_configure xfer_funcs part_shift env lo mode bdev config).1 = 0 ->
   loops_acyclic loop_rdev
     (lo_of_update lo_of bdev
        (loop_configure xfer_funcs part_shift env lo mode bdev config).2))
  /\ ((loop_change_fd env lo bdev).1 = 0 ->
      loops_acyclic loop_rdev
        (lo_of_update lo_of bdev (loop_change_fd env lo bdev).2)).
Proof.
  intros Hac Hfiles Hval.
  assert (Hbind : forall lo', validate_err env = 0 ->
            lo_state lo' = Lo_bound -> lo_backing_file lo' = Some file ->
            loops_acyclic loop_rdev (lo_of_update lo_of bdev lo')).
  { intros lo' Hv Hb Hf. rewrite Hv in Hval.
    apply loop_validate_file_zero in Hval.
    destruct (Hac file) as [lf Hlf].
    eapply loops_acyclic_bind; eauto.
    eapply loop_validate_file_walk_zero; eauto. }
  split; intros Hok.
  - destruct (loop_configure xfer_funcs part_shift env lo mode bdev config)
      as [e lo'] eqn:Hcfg. cbn [fst snd] in *. subst e.
    pose proof (loop_configure_ok_validated _ _ _ _ _ _ _ _ Hcfg) as Hv.
    destruct (loop_configure_cases _ _ _ _ _ _ _ _ _ Hcfg)
      as [[Hne _]|(_ & _ & _ & f & virt & lo1 & Hf & _ & ->)]; [congruence|].
    rewrite Hfiles in Hf. injection Hf as <- <-.
    destruct (loop_configure_commit_fields part_shift env
                (set_workqueue true (force_read_only file mode lo1)) bdev config
                virt_file file) as (S & F & _).
    apply Hbind; assumption.
  - destruct (loop_change_fd env lo bdev) as [e lo'] eqn:Hchg.
    cbn [fst snd] in *. subst e.
    destruct (loop_change_fd_ok _ _ _ _ Hchg) as (Hv & f & virt & Hf & S & F).
    rewrite Hfiles in Hf. injection Hf as <- <-.
    apply Hbind; assumption.
Qed.

Lemma loop_binding_keeps_acyclic_witness :
  loops_acyclic loop_rdev_sample
    (lo_of_update lo_of_fresh 7
       (loop_configure xfer_funcs_init 0 (env_ok (image_file 1048576)) lo_fresh
          FMODE_WRITE 7 (config_of (info_plain 0 0))).2).
Proof.
  refine (proj1 (loop_binding_keeps_acyclic loop_rdev_sample (fun _ => true)
                   lo_of_fresh 1 xfer_funcs_init 0 (env_ok (image_file 1048576))
                   lo_fresh FMODE_WRITE 7 (config_of (info_plain 0 0))
                   None (image_file 1048576) _ _ _) _).
  - exact loops_acyclic_fresh.
  - reflexivity.
  - reflexivity.
  - reflexivity.
Defined.

(** ** The index of devices *)

Lemma idr_find_nat (t : list (option idr_entry)) (id : Z) :
  0 <= id -> idr_find t id = default None (t !! Z.to_nat id).
Proof.
  intros H. unfold idr_find.
  destruct (id <? 0) eqn:E; [apply Z.ltb_lt in E; lia|reflexivity].
Qed.

Lemma idr_find_neg (t : list (option idr_entry)) (id : Z) : id < 0 -> idr_find t id = None.
Proof. intros H. unfold idr_find. apply Z.ltb_lt in H. rewrite H. reflexivity. Qed.

Lemma idr_store_lookup (t : list (option idr_entry)) (id j : nat) (p : option idr_entry) :
  default None (idr_store t id p !! j)
  = if decide (j = id) then p else default None (t !! j).
Proof.
  unfold idr_store. destruct (decide (id < length t)%nat) as [Hlt|Hge].
  - destruct (decide (j = id)) as [->|Hne].
    + rewrite list_lookup_insert_eq by assumption. reflexivity.
    + rewrite list_lookup_insert_ne by congruence. reflexivity.
  - destruct (decide (j = id)) as [->|Hne].
    + rewrite lookup_app_r by lia.
      rewrite lookup_app_r by (rewrite length_replicate; lia).
      rewrite length_replicate.
      replace (id - length t - (id - length t))%nat with O by lia. reflexivity.
    + destruct (decide (j < length t)%nat) as [Hj|Hj].
      * rewrite lookup_app_l by assumption. reflexivity.
      * rewrite (lookup_ge_None_2 t j) by lia.
        rewrite lookup_app_r by lia.
        destruct (decide (j - length t < id - length t)%nat) as [Hr|Hr].
        -- rewrite lookup_app_l by (rewrite length_replicate; assumption).
           rewrite lookup_replicate_2 by assumption. reflexivity.
        -- rewrite lookup_app_r by (rewrite length_replicate; lia).
           rewrite length_replicate.
           destruct (j - length t - (id - length t))%nat as [|k] eqn:Ek; [lia|].
           reflexivity.
Qed.

Lemma idr_find_store (t : list (option idr_entry)) (id : nat) (p : option idr_entry) (j : Z) :
  idr_find (idr_store t id p) j
  = if decide (j = Z.of_nat id) then p else idr_find t j.
Proof.
  destruct (Z.neg_nonneg_cases j) as [Hneg|Hpos].
  - rewrite !idr_find_neg by assumption. rewrite decide_False by lia. reflexivity.
  - rewrite !idr_find_nat by assumption. rewrite idr_store_lookup.
    destruct (decide (Z.to_nat j = id)), (decide (j = Z.of_nat id));
      try reflexivity; lia.
Qed.

Lemma idr_find_remove (t : list (option idr_entry)) (id j : Z) :
  idr_find (idr_remove t id) j = if decide (j = id) then None else idr_find t j.
Proof.
  unfold idr_remove. destruct (id <? 0) eqn:E.
  - apply Z.ltb_lt in E. destruct (decide (j = id)) as [->|]; [|reflexivity].
    apply idr_find_neg. assumption.
  - apply Z.ltb_ge in E.
    destruct (decide (Z.to_nat id < length t)%nat) as [Hlt|Hge].
    + destruct (Z.neg_nonneg_cases j) as [Hneg|Hpos].
      * rewrite !idr_find_neg by assumption. destruct (decide (j = id)); reflexivity.
      * rewrite !idr_find_nat by assumption.
        destruct (decide (j = id)) as [->|Hne].
        -- rewrite list_lookup_insert_eq by assumption. reflexivity.
        -- rewrite list_lookup_insert_ne by lia. reflexivity.
    + destruct (decide (j = id)) as [->|]; [|reflexivity].
      rewrite idr_find_nat by assumption.
      rewrite lookup_ge_None_2 by lia. reflexivity.
Qed.

(** What [idr_first_free] finds. *)
Lemma idr_first_free_spec (t : list (option idr_entry)) : forall i,
  (i <= idr_first_free t i)%nat
  /\ default None (t !! (idr_first_free t i - i)%nat) = None
  /\ forall j, (j < idr_first_free t i - i)%nat -> default None (t !! j) <> None.
Proof.
  induction t as [|[ent|] rest IH]; intros i; cbn [idr_first_free].
  - split; [lia|]. split; [reflexivity|]. intros j Hj. lia.
  - destruct (IH (S i)) as (H1 & H2 & H3). split; [lia|].
    replace (idr_first_free rest (S i) - i)%nat
      with (S (idr_first_free rest (S i) - S i)) by lia.
    split; [exact H2|]. intros [|j] Hj; [discriminate|].
    cbn. apply H3. lia.
  - split; [lia|]. rewrite Nat.sub_diag. split; [reflexivity|]. intros j Hj. lia.
Qed.

(** What [idr_first] finds. *)
Lemma idr_first_spec (ok : idr_entry -> bool) (t : list (option idr_entry)) : forall i,
  match idr_first ok t i with
  | Some id =>
      (i <= id)%nat
      /\ (exists ent, t !! (id - i)%nat = Some (Some ent) /\ ok ent = true)
      /\ forall j ent, (j < id - i)%nat -> t !! j = Some (Some ent) -> ok ent = false
  | None => forall j ent, t !! j = Some (Some ent) -> ok ent = false
  end.
Proof.
  induction t as [|[ent|] rest IH]; intros i; cbn [idr_first].
  - intros j ent H. discriminate.
  - destruct (ok ent) eqn:Eok.
    + split; [lia|]. rewrite Nat.sub_diag. split; [eauto|]. intros j e Hj. lia.
    + specialize (IH (S i)). destruct (idr_first ok rest (S i)) as [id|].
      * destruct IH as (H1 & (e & H2 & H3) & H4). split; [lia|].
        replace (id - i)%nat with (S (id - S i)) by lia.
        split; [eauto|]. intros [|j] e' Hj Hl; [cbn in Hl; congruence|].
        eapply H4; [|exact Hl]. lia.
      * intros [|j] e Hl; [cbn in Hl; congruence|]. eapply IH. exact Hl.
  - specialize (IH (S i)). destruct (idr_first ok rest (S i)) as [id|].
    + destruct IH as (H1 & (e & H2 & H3) & H4). split; [lia|].
      replace (id - i)%nat with (S (id - S i)) by lia.
      split; [eauto|]. intros [|j] e' Hj Hl; [cbn in Hl; congruence|].
      eapply H4; [|exact Hl]. lia.
    + intros [|j] e Hl; [cbn in Hl; congruence|]. eapply IH. exact Hl.
Qed.

(** ** Removing a device *)

(** What [loop_control_remove] returns and how it leaves the index. *)
Lemma loop_control_remove_spec (ctl_lock lo_lock : Z)
    (t : list (option idr_entry)) (idx : Z) :
  idr_numbered t ->
  let r := loop_control_remove ctl_lock lo_lock t idx in
  (r.1 = 0 ->
   exists ent,
     idr_find t idx = Some ent /\ idr_visible ent = true
     /\ lo_state (ent_lo ent) = Lo_unbound /\ lo_refcnt (ent_lo ent) <= 0
     /\ forall id, idr_find r.2 id = if decide (id = idx) then None else idr_find t id)
  /\ (r.1 <> 0 -> forall id, idr_find r.2 id = idr_find t id)
  /\ (forall ent, idr_find t idx = Some ent -> ctl_lock = 0 -> lo_lock = 0 ->
      idr_visible ent = true ->
      lo_state (ent_lo ent) <> Lo_unbound \/ 0 < lo_refcnt (ent_lo ent) ->
      r.1 = - EBUSY).
Proof.
  intros Hnum. unfold loop_control_remove.
  destruct (idx <? 0) eqn:Eneg.
  { cbn [fst snd]. split; [unfold EINVAL; intros; lia|].
    split; [reflexivity|]. intros ent He. apply Z.ltb_lt in Eneg.
    rewrite idr_find_neg in He by assumption. discriminate. }
  apply Z.ltb_ge in Eneg.
  destruct (ctl_lock =? 0) eqn:Ec; cbn [negb].
  2:{ apply Z.eqb_neq in Ec. cbn [fst snd]. split; [intros; contradiction|].
      split; [reflexivity|]. intros; contradiction. }
  destruct (idr_find t idx) as [ent|] eqn:Ef.
  2:{ cbn [fst snd]. split; [unfold ENODEV; intros; lia|].
      split; [reflexivity|]. intros; discriminate. }
  destruct (idr_visible ent) eqn:Ev; cbn [negb].
  2:{ cbn [fst snd]. split; [unfold ENODEV; intros; lia|].
      split; [reflexivity|]. intros e He _ _ Hv. congruence. }
  set (lo := ent_lo ent).
  set (t_hidden := idr_store t (Z.to_nat idx)
                     (Some {| ent_lo := lo; idr_visible := false |})).
  set (t_shown := idr_store t_hidden (Z.to_nat idx)
                    (Some {| ent_lo := lo; idr_visible := true |})).
  assert (Hshown : forall id, idr_find t_shown id = idr_find t id).
  { intros id. subst t_shown t_hidden. rewrite !idr_find_store.
    destruct (decide (id = Z.of_nat (Z.to_nat idx))) as [->|]; [|reflexivity].
    rewrite Z2Nat.id, Ef by assumption. subst lo. destruct ent. cbn in *.
    congruence. }
  destruct (lo_lock =? 0) eqn:El; cbn [negb].
  2:{ apply Z.eqb_neq in El. cbn [fst snd]. split; [intros; contradiction|].
      split; [intros _; exact Hshown|]. intros; contradiction. }
  destruct (lo_state_eqb (lo_state lo) Lo_unbound) eqn:Es; cbn [negb orb].
  2:{ cbn [fst snd]. split; [unfold EBUSY; intros; lia|].
      split; [intros _; exact Hshown|]. reflexivity. }
  apply lo_state_eqb_eq in Es.
  destruct (lo_refcnt lo >? 0) eqn:Er.
  { cbn [fst snd]. split; [unfold EBUSY; intros; lia|].
    split; [intros _; exact Hshown|]. reflexivity. }
  rewrite Z.gtb_ltb in Er. apply Z.ltb_ge in Er.
  cbn [fst snd]. split; [|split; [intros; contradiction|]].
  - intros _. exists ent. repeat split; try assumption.
    intros id. unfold loop_remove. cbn [lo_number set_lo_state].
    fold (lo_number lo). subst lo. rewrite (Hnum _ _ Ef).
    rewrite idr_find_remove. destruct (decide (id = idx)) as [->|Hne]; [reflexivity|].
    subst t_hidden. rewrite idr_find_store.
    rewrite decide_False by lia. reflexivity.
  - intros e He _ _ _ [Hs|Hr]; injection He as <-; subst lo; [contradiction|lia].
Qed.

Lemma idr_sample_numbered : idr_numbered idr_sample.
Proof.
  intros id ent H. unfold idr_find in H.
  destruct (id <? 0) eqn:E; [discriminate|]. apply Z.ltb_ge in E.
  assert (H0 : lo_number lo_bound = 0) by reflexivity.
  assert (H2 : lo_number (loop_add_device 0 2) = 2) by reflexivity.
  destruct (Z.to_nat id) as [|[|[|n]]] eqn:En; cbn [idr_sample lookup list_lookup default] in H;
    try discriminate; injection H as <-; cbn [ent_lo]; lia.
Qed.

(** X23.  [loop_control_remove] removes a device only when it is visible,
    Unbound and not open; the id is then free and every other id keeps its
    device.  In every other case it fails ([-EBUSY] for a device that is
    bound or open) and the index holds what it held. *)
Theorem loop_control_remove_safe (ctl_lock lo_lock : Z)
    (t : list (option idr_entry)) (idx : Z) :
  idr_numbered t ->
  let r := loop_control_remove ctl_lock lo_lock t idx in
  (r.1 = 0 ->
   exists ent,
     idr_find t idx = Some ent /\ idr_visible ent = true
     /\ lo_state (ent_lo ent) = Lo_unbound /\ lo_refcnt (ent_lo ent) <= 0
     /\ forall id, idr_find r.2 id = if decide (id = idx) then None else idr_find t id)
  /\ (r.1 <> 0 -> forall id, idr_find r.2 id = idr_find t id)
  /\ (forall ent, idr_find t idx = Some ent -> ctl_lock = 0 -> lo_lock = 0 ->
      idr_visible ent = true ->
      lo_state (ent_lo ent) <> Lo_unbound \/ 0 < lo_refcnt (ent_lo ent) ->
      r.1 = - EBUSY).
Proof. exact (loop_control_remove_spec ctl_lock lo_lock t idx). Qed.

Lemma loop_control_remove_safe_witness :
  (loop_control_remove 0 0 idr_sample 0).1 = - EBUSY
  /\ exists ent,
       idr_find idr_sample 2 = Some ent /\ idr_visible ent = true
       /\ lo_state (ent_lo ent) = Lo_unbound /\ lo_refcnt (ent_lo ent) <= 0
       /\ forall id,
            idr_find (loop_control_remove 0 0 idr_sample 2).2 id
            = if decide (id = 2) then None else idr_find idr_sample id.
Proof.
  split.
  - refine (proj2 (proj2 (loop_control_remove_safe 0 0 idr_sample 0
                            idr_sample_numbered)) _ eq_refl eq_refl eq_refl eq_refl _).
    left. discriminate.
  - apply (proj1 (loop_control_remove_safe 0 0 idr_sample 2 idr_sample_numbered)).
    reflexivity.
Defined.

(** ** Adding a device *)

Lemma idr_first_free_find (t : list (option idr_entry)) :
  idr_find t (Z.of_nat (idr_first_free t O)) = None
  /\ forall id, 0 <= id < Z.of_nat (idr_first_free t O) -> idr_find t id <> None.
Proof.
  destruct (idr_first_free_spec t O) as (_ & Hnone & Hbelow).
  rewrite Nat.sub_0_r in Hnone, Hbelow. split.
  - rewrite idr_find_nat by lia. rewrite Nat2Z.id. exact Hnone.
  - intros id Hid. rewrite idr_find_nat by lia. apply Hbelow. lia.
Qed.

(** What [idr_alloc] does in the two ways [loop_add] calls it. *)
Lemma idr_alloc_spec (nomem : bool) (t : list (option idr_entry)) (p : idr_entry)
    (i : Z) :
  let r := if i >=? 0 then idr_alloc nomem t p i (i + 1) else idr_alloc nomem t p 0 0 in
  (0 <= r.1 ->
     idr_find t r.1 = None
     /\ (0 <= i -> r.1 = i)
     /\ (i < 0 -> forall id, 0 <= id < r.1 -> idr_find t id <> None)
     /\ forall id, idr_find r.2 id = if decide (id = r.1) then Some p else idr_find t id)
  /\ (r.1 < 0 -> r.2 = t)
  /\ (nomem = false -> 0 <= i -> idr_find t i <> None -> r.1 = - ENOSPC).
Proof.
  unfold idr_alloc. destruct nomem.
  { destruct (i >=? 0); cbn [fst snd]; unfold ENOMEM;
      (split; [intros; lia|split; [reflexivity|discriminate]]). }
  destruct (i >=? 0) eqn:Ei.
  - rewrite Z.geb_leb in Ei. apply Z.leb_le in Ei.
    destruct (i + 1 =? 0) eqn:E1; [apply Z.eqb_eq in E1; lia|].
    destruct (idr_find t i) as [ent|] eqn:Ef; cbn [fst snd].
    + unfold ENOSPC. split; [intros; lia|]. split; reflexivity.
    + split; [|split; [intros; lia|intros _ _ H; contradiction]].
      intros _. repeat split; [assumption|intros; lia|].
      intros id. rewrite idr_find_store, Z2Nat.id by assumption. reflexivity.
  - rewrite Z.geb_leb in Ei. apply Z.leb_gt in Ei. cbn [Z.eqb].
    destruct (idr_first_free_find t) as (Hnone & Hbelow).
    destruct (Z.of_nat (idr_first_free t O) >? 2 ^ 31 - 1); cbn [fst snd].
    + unfold ENOSPC. split; [intros; lia|]. split; [reflexivity|intros; lia].
    + split; [|split; intros; lia].
      intros _. repeat split; [assumption|intros; lia|intros _; exact Hbelow|].
      intros id. apply idr_find_store.
Qed.

(** What [loop_add] returns and how it leaves the index. *)
Lemma loop_add_spec (part_shift : Z) (e : add_env)
    (t : list (option idr_entry)) (i : Z) :
  ctl_lock_err e <= 0 -> tag_set_err e <= 0 -> alloc_disk_err e <= 0 ->
  let r := loop_add part_shift e t i in
  (0 <= r.1 ->
     idr_find t r.1 = None
     /\ (0 <= i -> r.1 = i)
     /\ (i < 0 -> forall id, 0 <= id < r.1 -> idr_find t id <> None)
     /\ forall id,
          idr_find r.2 id
          = if decide (id = r.1)
            then Some {| ent_lo := loop_add_device part_shift r.1; idr_visible := true |}
            else idr_find t id)
  /\ (r.1 < 0 -> forall id, idr_find r.2 id = idr_find t id)
  /\ (add_kzalloc_ok e = true -> ctl_lock_err e = 0 -> idr_nomem e = false ->
      0 <= i -> idr_find t i <> None -> r.1 = - EEXIST /\ r.2 = t).
Proof.
  intros Hc Ht Hd. unfold loop_add.
  destruct (add_kzalloc_ok e); cbn [negb].
  2:{ cbn [fst snd]. unfold ENOMEM. split; [intros; lia|]. split; [reflexivity|discriminate]. }
  destruct (ctl_lock_err e =? 0) eqn:Ec; cbn [negb].
  2:{ apply Z.eqb_neq in Ec. cbn [fst snd]. split; [intros; lia|].
      split; [reflexivity|intros; contradiction]. }
  set (hidden := {| ent_lo := set_lo_state Lo_unbound lo_fresh; idr_visible := false |}).
  pose proof (idr_alloc_spec (idr_nomem e) t hidden i) as Ha. cbv zeta in Ha.
  assert (Hsplit :
    (if i >=? 0
     then let '(err, t1) := idr_alloc (idr_nomem e) t hidden i (i + 1) in
          (if err =? - ENOSPC then - EEXIST else err, t1)
     else idr_alloc (idr_nomem e) t hidden 0 0)
    = let r := if i >=? 0 then idr_alloc (idr_nomem e) t hidden i (i + 1)
               else idr_alloc (idr_nomem e) t hidden 0 0 in
      (if (i >=? 0) && (r.1 =? - ENOSPC) then - EEXIST else r.1, r.2)).
  { destruct (i >=? 0); cbn [andb]; [|apply surjective_pairing].
    destruct (idr_alloc (idr_nomem e) t hidden i (i + 1)); reflexivity. }
  rewrite Hsplit. clear Hsplit. cbv zeta.
  destruct (if i >=? 0 then idr_alloc (idr_nomem e) t hidden i (i + 1)
            else idr_alloc (idr_nomem e) t hidden 0 0) as [err t1].
  cbn [fst snd] in *. destruct Ha as (Hok & Hfail & Hbusy).
  destruct ((i >=? 0) && (err =? - ENOSPC)) eqn:Ex.
  { apply andb_prop in Ex. destruct Ex as [_ Ex]. apply Z.eqb_eq in Ex.
    assert (Hneg : (- EEXIST <? 0) = true) by reflexivity. rewrite Hneg. cbn [fst snd].
    unfold EEXIST, ENOSPC in *. split; [intros; lia|].
    rewrite Hfail by lia. split; [reflexivity|]. intros; split; reflexivity. }
  destruct (err <? 0) eqn:En; cbn [fst snd].
  { apply Z.ltb_lt in En. rewrite (Hfail En). split; [intros; lia|].
    split; [reflexivity|]. intros _ _ Hn Hi Hf. specialize (Hbusy Hn Hi Hf).
    subst err. apply andb_false_iff in Ex. destruct Ex as [Ex|Ex].
    - rewrite Z.geb_leb in Ex. apply Z.leb_gt in Ex. lia.
    - rewrite Z.eqb_refl in Ex. discriminate. }
  apply Z.ltb_ge in En. destruct (Hok En) as (Hfree & Hi & Hsmall & Hfind).
  assert (Hback : forall id, idr_find (idr_remove t1 err) id = idr_find t id).
  { intros id. rewrite idr_find_remove. destruct (decide (id = err)) as [->|Hne].
    - symmetry. assumption.
    - rewrite Hfind, decide_False by assumption. reflexivity. }
  assert (Hnot : idr_nomem e = false -> 0 <= i -> idr_find t i <> None -> False).
  { intros Hn H0 Hf. specialize (Hbusy Hn H0 Hf). unfold ENOSPC in Hbusy. lia. }
  destruct (tag_set_err e =? 0) eqn:Et; cbn [negb fst snd].
  2:{ apply Z.eqb_neq in Et. split; [intros; lia|]. split; [intros _; exact Hback|].
      intros _ _ H3 H4 H5; exact (False_ind _ (Hnot H3 H4 H5)). }
  destruct (alloc_disk_err e =? 0) eqn:Ed; cbn [negb fst snd].
  2:{ apply Z.eqb_neq in Ed. split; [intros; lia|]. split; [intros _; exact Hback|].
      intros _ _ H3 H4 H5; exact (False_ind _ (Hnot H3 H4 H5)). }
  split; [|split; [intros; lia|intros _ _ H3 H4 H5; exact (False_ind _ (Hnot H3 H4 H5))]].
  intros _. repeat split; try assumption.
  intros id. rewrite idr_find_store, Z2Nat.id by assumption.
  destruct (decide (id = err)); [reflexivity|]. rewrite Hfind, decide_False by assumption.
  reflexivity.
Qed.

(** X24.  The kernel's statuses being zero or negative, [loop_add] either
    returns an id that was free, the id asked for or else the smallest free
    one, and stores under it a visible Unbound device with that number; or
    it returns a negative status and the index holds what it held.  An id
    already in use is answered with [-EEXIST]. *)
Theorem loop_add_result (part_shift : Z) (e : add_env)
    (t : list (option idr_entry)) (i : Z) :
  ctl_lock_err e <= 0 -> tag_set_err e <= 0 -> alloc_disk_err e <= 0 ->
  let r := loop_add part_shift e t i in
  (0 <= r.1 ->
     idr_find t r.1 = None
     /\ (0 <= i -> r.1 = i)
     /\ (i < 0 -> forall id, 0 <= id < r.1 -> idr_find t id <> None)
     /\ forall id,
          idr_find r.2 id
          = if decide (id = r.1)
            then Some {| ent_lo := loop_add_device part_shift r.1; idr_visible := true |}
            else idr_find t id)
  /\ (r.1 < 0 -> forall id, idr_find r.2 id = idr_find t id)
  /\ (add_kzalloc_ok e = true -> ctl_lock_err e = 0 -> idr_nomem e = false ->
      0 <= i -> idr_find t i <> None -> r.1 = - EEXIST /\ r.2 = t).
Proof. exact (loop_add_spec part_shift e t i). Qed.


Lemma loop_add_result_witness :
  (loop_add 0 add_env_ok idr_sample (- 1)).1 = 1
  /\ (loop_add 0 add_env_ok idr_sample 2).1 = - EEXIST.
Proof.
  pose proof (loop_add_result 0 add_env_ok idr_sample (- 1)
                ltac:(cbn; lia) ltac:(cbn; lia) ltac:(cbn; lia)) as Hfree.
  pose proof (loop_add_result 0 add_env_ok idr_sample 2
                ltac:(cbn; lia) ltac:(cbn; lia) ltac:(cbn; lia)) as Hused.
  split.
  - assert (H : 0 <= (loop_add 0 add_env_ok idr_sample (- 1)).1) by (vm_compute; discriminate).
    destruct (proj1 Hfree H) as (_ & _ & Hsmall & _). reflexivity.
  - apply (proj2 (proj2 Hused)); try reflexivity; [lia|discriminate].
Defined.

(** ** Asking for a free device *)

Lemma idr_find_Some (t : list (option idr_entry)) (id : Z) (ent : idr_entry) :
  idr_find t id = Some ent <-> 0 <= id /\ t !! Z.to_nat id = Some (Some ent).
Proof.
  split.
  - intros H. destruct (Z.neg_nonneg_cases id) as [Hneg|Hpos].
    + rewrite idr_find_neg in H by assumption. discriminate.
    + split; [assumption|]. rewrite idr_find_nat in H by assumption.
      destruct (t !! Z.to_nat id) as [[x|]|]; cbn in H; congruence.
  - intros [Hpos H]. rewrite idr_find_nat by assumption. rewrite H. reflexivity.
Qed.

(** X25.  The kernel's statuses being zero or negative, an id returned by
    [loop_control_get_free] names a visible Unbound device, and no smaller
    id named one.  When the index holds such a device the index is left as
    it is and, the lock taken, the id returned is at most that device's. *)
Theorem loop_control_get_free_result (part_shift : Z) (e : add_env) (ctl_lock : Z)
    (t : list (option idr_entry)) :
  ctl_lock <= 0 -> ctl_lock_err e <= 0 -> tag_set_err e <= 0 -> alloc_disk_err e <= 0 ->
  let r := loop_control_get_free part_shift e ctl_lock t in
  (0 <= r.1 ->
     (exists ent, idr_find r.2 r.1 = Some ent /\ ent_free ent = true)
     /\ forall id ent, id < r.1 -> idr_find t id = Some ent -> ent_free ent = false)
  /\ (forall id ent, idr_find t id = Some ent -> ent_free ent = true ->
      r.2 = t /\ (ctl_lock = 0 -> 0 <= r.1 <= id)).
Proof.
  intros Hl Hc Ht Hd. unfold loop_control_get_free.
  destruct (ctl_lock =? 0) eqn:El; cbn [negb].
  2:{ apply Z.eqb_neq in El. cbn [fst snd]. split; [intros; lia|].
      intros; split; [reflexivity|intros; contradiction]. }
  fold ent_free. change (fun ent => ent_free ent) with ent_free.
  pose proof (idr_first_spec ent_free t O) as Hs.
  destruct (idr_first ent_free t O) as [id0|].
  - destruct Hs as (_ & (ent0 & Hent0 & Hfree0) & Hbelow).
    rewrite Nat.sub_0_r in Hent0, Hbelow. cbn [fst snd]. split.
    + intros _. split.
      * exists ent0. split; [|assumption]. apply idr_find_Some.
        rewrite Nat2Z.id. split; [lia|assumption].
      * intros id ent Hid Hf. apply idr_find_Some in Hf. destruct Hf as [Hpos Hf].
        apply (Hbelow (Z.to_nat id)); [lia|assumption].
    + intros id ent Hf Hfree. split; [reflexivity|]. intros _.
      apply idr_find_Some in Hf. destruct Hf as [Hpos Hf].
      destruct (decide (Z.of_nat id0 <= id)) as [Hle|Hgt]; [lia|].
      assert (Hx : ent_free ent = false) by (apply (Hbelow (Z.to_nat id)); [lia|assumption]).
      congruence.
  - destruct (loop_add_spec part_shift e t (- 1) Hc Ht Hd) as (Hok & _ & _).
    split.
    + intros Hr. destruct (Hok Hr) as (_ & _ & _ & Hfind). split.
      * eexists. split; [rewrite Hfind, decide_True by reflexivity; reflexivity|].
        reflexivity.
      * intros id ent _ Hf. apply idr_find_Some in Hf. destruct Hf as [_ Hf].
        exact (Hs _ _ Hf).
    + intros id ent Hf Hfree. apply idr_find_Some in Hf. destruct Hf as [_ Hf].
      rewrite (Hs _ _ Hf) in Hfree. discriminate.
Qed.

Lemma loop_control_get_free_result_witness :
  (loop_control_get_free 0 add_env_ok 0 idr_sample).2 = idr_sample
  /\ 0 <= (loop_control_get_free 0 add_env_ok 0 idr_sample).1 <= 2.
Proof.
  pose proof (loop_control_get_free_result 0 add_env_ok 0 idr_sample
                ltac:(lia) ltac:(cbn; lia) ltac:(cbn; lia) ltac:(cbn; lia)) as H.
  destruct (proj2 H 2 {| ent_lo := loop_add_device 0 2; idr_visible := true |}
              eq_refl eq_refl) as [Hsame Hid].
  split; [exact Hsame|exact (Hid eq_refl)].
Defined.

(** ** The numbering of the devices *)

Lemma idr_numbered_ext (t t' : list (option idr_entry)) :
  (forall id, idr_find t' id = idr_find t id) -> idr_numbered t -> idr_numbered t'.
Proof. intros H Hn id ent Hf. rewrite H in Hf. exact (Hn _ _ Hf). Qed.

(** X26.  Every device of the index being stored under its own
    [lo_number], it is so again after any [loop_control_ioctl] call, the
    kernel's statuses being zero or negative. *)
Theorem loop_control_ioctl_numbered (part_shift : Z) (e : add_env)
    (ctl_lock lo_lock : Z) (t : list (option idr_entry)) (cmd parm : Z) :
  ctl_lock_err e <= 0 -> tag_set_err e <= 0 -> alloc_disk_err e <= 0 ->
  idr_numbered t ->
  idr_numbered (loop_control_ioctl part_shift e ctl_lock lo_lock t cmd parm).2.
Proof.
  intros Hc Ht Hd Hn.
  assert (Hadd : forall i, idr_numbered (loop_add part_shift e t i).2).
  { intros i. destruct (loop_add_spec part_shift e t i Hc Ht Hd) as (Hok & Hfail & _).
    destruct (Z.neg_nonneg_cases (loop_add part_shift e t i).1) as [Hneg|Hpos].
    - exact (idr_numbered_ext _ _ (Hfail Hneg) Hn).
    - destruct (Hok Hpos) as (_ & _ & _ & Hfind). intros id ent Hf.
      rewrite Hfind in Hf. destruct (decide (id = (loop_add part_shift e t i).1)) as [->|].
      + injection Hf as <-. reflexivity.
      + exact (Hn _ _ Hf). }
  unfold loop_control_ioctl.
  destruct (cmd =? LOOP_CTL_ADD); [apply Hadd|].
  destruct (cmd =? LOOP_CTL_REMOVE).
  - destruct (loop_control_remove_spec ctl_lock lo_lock t (wrap_s32 parm) Hn)
      as (Hok & Hfail & _).
    destruct (Z.eq_dec (loop_control_remove ctl_lock lo_lock t (wrap_s32 parm)).1 0)
      as [H0|H0].
    + destruct (Hok H0) as (ent0 & _ & _ & _ & _ & Hfind).
      intros id ent Hf. rewrite Hfind in Hf.
      destruct (decide (id = wrap_s32 parm)); [discriminate|]. exact (Hn _ _ Hf).
    + exact (idr_numbered_ext _ _ (Hfail H0) Hn).
  - destruct (cmd =? LOOP_CTL_GET_FREE); [|exact Hn].
    unfold loop_control_get_free. destruct (negb (ctl_lock =? 0)); [exact Hn|].
    destruct (idr_first _ t O); [exact Hn|apply Hadd].
Qed.

Lemma loop_control_ioctl_numbered_witness :
  idr_numbered (loop_control_ioctl 0 add_env_ok 0 0 idr_sample LOOP_CTL_GET_FREE 0).2.
Proof.
  apply (loop_control_ioctl_numbered 0 add_env_ok 0 0 idr_sample LOOP_CTL_GET_FREE 0);
    [cbn; lia|cbn; lia|cbn; lia|exact idr_sample_numbered].
Defined.

(** ** Direct I/O is on only where [__loop_update_dio] granted it *)

Lemma dio_checked_unbound lo : lo_state lo <> Lo_bound -> dio_checked lo.
Proof. intros H Hs. contradiction. Qed.

(** [dio_checked] looks at six fields only, and a transfer that went away
    does not hurt. *)
Lemma dio_checked_frame lo lo' :
  (lo_state lo' = Lo_bound -> lo_state lo = Lo_bound) ->
  use_dio lo' = use_dio lo ->
  lo_backing_file lo' = lo_backing_file lo ->
  lo_offset lo' = lo_offset lo ->
  logical_block_size (lo_queue lo') = logical_block_size (lo_queue lo) ->
  transfer lo' = transfer lo \/ transfer lo' = None ->
  dio_checked lo -> dio_checked lo'.
Proof.
  intros Hs Hu Hf Ho Hl Ht H Hs' Hu'.
  destruct (H (Hs Hs') ltac:(congruence)) as (f & F1 & F2 & F3 & F4 & F5).
  exists f. rewrite Hf, Ho, Hl. repeat split; try assumption.
  destruct Ht; congruence.
Qed.

Lemma __loop_update_dio_block_size lo dio :
  logical_block_size (lo_queue (__loop_update_dio lo dio))
  = logical_block_size (lo_queue lo).
Proof.
  unfold __loop_update_dio. destruct (lo_backing_file lo) as [f|]; [|reflexivity].
  destruct (s_bdev_lbs f) as [b|];
    match goal with
    | |- context [Bool.eqb (use_dio lo) ?n] => generalize n
    end;
    intros n; destruct (Bool.eqb (use_dio lo) n); try reflexivity;
    destruct n; reflexivity.
Qed.

(** Past [__loop_update_dio] a device with a backing file has [use_dio]
    set only where the conditions hold, and so has every device that
    agrees with it on the fields the conditions read. *)
Lemma __loop_update_dio_then lo dio f lo' :
  lo_backing_file lo = Some f ->
  use_dio lo' = use_dio (__loop_update_dio lo dio) ->
  lo_backing_file lo' = lo_backing_file (__loop_update_dio lo dio) ->
  lo_offset lo' = lo_offset (__loop_update_dio lo dio) ->
  logical_block_size (lo_queue lo')
  = logical_block_size (lo_queue (__loop_update_dio lo dio)) ->
  transfer lo' = transfer (__loop_update_dio lo dio) ->
  dio_checked lo'.
Proof.
  intros Hf Eu Ef Eo El Et _ Hu. rewrite Eu in Hu.
  rewrite (__loop_update_dio_use_dio lo dio f Hf) in Hu.
  destruct dio; [|discriminate].
  apply andb_prop in Hu. destruct Hu as [Hu H4].
  apply andb_prop in Hu. destruct Hu as [Hu H3].
  apply andb_prop in Hu. destruct Hu as [H1 H2].
  destruct (__loop_update_dio_config lo true)
    as (_ & Bf & _ & _ & Bo & _ & _ & _ & _ & Bt & _).
  exists f. rewrite Ef, Eo, El, Et, __loop_update_dio_block_size, Bf, Bo, Bt.
  split; [assumption|]. split; [assumption|]. split.
  - destruct (transfer lo); [discriminate|reflexivity].
  - rewrite Z.geb_leb in H1. apply Z.leb_le in H1. apply Z.eqb_eq in H2. auto.
Qed.

Lemma __loop_update_dio_bound lo dio f :
  lo_backing_file lo = Some f -> dio_checked (__loop_update_dio lo dio).
Proof. intros Hf. apply (__loop_update_dio_then lo dio f); auto. Qed.

Lemma __loop_update_dio_checked lo0 lo dio :
  dio_checked lo0 ->
  (lo_state lo = Lo_bound -> lo_state lo0 = Lo_bound) ->
  use_dio lo = use_dio lo0 -> lo_backing_file lo = lo_backing_file lo0 ->
  dio_checked (__loop_update_dio lo dio).
Proof.
  intros H0 Hs Hu Hf. destruct (lo_backing_file lo) as [f|] eqn:Ef.
  - exact (__loop_update_dio_bound lo dio f Ef).
  - unfold __loop_update_dio. rewrite Ef. intros Hs' Hu'.
    destruct (H0 (Hs Hs') ltac:(congruence)) as (f & F1 & _). congruence.
Qed.

Lemma loop_set_dio_checked lo arg : dio_checked lo -> dio_checked (loop_set_dio lo arg).2.
Proof.
  intros H. unfold loop_set_dio.
  destruct (negb (lo_state_eqb (lo_state lo) Lo_bound)); [exact H|].
  cbv zeta. break_if; cbn [snd]; apply (__loop_update_dio_checked lo); auto.
Qed.

Lemma loop_set_block_size_checked env lo arg :
  dio_checked lo -> dio_checked (loop_set_block_size env lo arg).2.
Proof.
  intros H. unfold loop_set_block_size.
  repeat (break_if; [exact H|]). cbn [snd]. unfold loop_update_dio.
  apply (__loop_update_dio_checked lo); auto.
Qed.

Lemma loop_set_capacity_checked lo : dio_checked lo -> dio_checked (loop_set_capacity lo).2.
Proof.
  intros H. unfold loop_set_capacity. break_if; [exact H|]. cbn [snd].
  unfold loop_set_size. revert H. apply dio_checked_frame; auto.
Qed.

Lemma lo_simple_ioctl_checked env ret lo cmd arg :
  dio_checked lo -> dio_checked (lo_simple_ioctl env ret lo cmd arg).2.
Proof.
  intros H. unfold lo_simple_ioctl.
  break_if; [exact H|]. break_if; [apply loop_set_capacity_checked; exact H|].
  break_if; [apply loop_set_dio_checked; exact H|].
  break_if; [apply loop_set_block_size_checked; exact H|]. exact H.
Qed.

Lemma loop_change_fd_checked env lo bdev :
  dio_checked lo -> dio_checked (loop_change_fd env lo bdev).2.
Proof.
  intros H. unfold loop_change_fd.
  destruct (fget_file env) as [file0|]; [|exact H].
  repeat (break_if; [exact H|]).
  destruct (match real_file env with
            | Some f => (f, Some file0)
            | None => (file0, None)
            end) as [f virt].
  break_if; [exact H|]. destruct (lo_backing_file lo) as [old|]; [|exact H].
  break_if; [exact H|]. cbn [snd]. unfold loop_update_dio.
  apply (__loop_update_dio_bound _ _ f). reflexivity.
Qed.

Lemma loop_clr_fd_checked part_shift lock lo :
  dio_checked lo -> dio_checked (loop_clr_fd part_shift lock lo).2.
Proof.
  intros H. unfold loop_clr_fd.
  break_if; [exact H|]. break_if; [exact H|]. break_if.
  - cbn [snd]. revert H. apply dio_checked_frame; auto.
  - unfold __loop_clr_fd.
    destruct (__loop_clr_fd_locked1 (set_lo_state Lo_rundown lo))
      as [[[err partscan] filp] lo1].
    cbn [snd]. apply dio_checked_unbound. unfold __loop_clr_fd_locked2.
    cbn. discriminate.
Qed.

(** What [loop_set_status_from_info] does to the fields [dio_checked] looks
    at. *)
Lemma loop_set_status_from_info_dio xfer_funcs lo info uid :
  let r := loop_set_status_from_info xfer_funcs lo info uid in
  use_dio r.2 = use_dio lo
  /\ logical_block_size (lo_queue r.2) = logical_block_size (lo_queue lo)
  /\ (r.1 <> 0 ->
      lo_offset r.2 = lo_offset lo
      /\ (transfer r.2 = transfer lo \/ transfer r.2 = None)).
Proof.
  unfold loop_set_status_from_info.
  break_if; [cbn [fst snd]; auto|].
  assert (H1 : use_dio (loop_release_xfer lo).2 = use_dio lo
               /\ lo_queue (loop_release_xfer lo).2 = lo_queue lo
               /\ lo_offset (loop_release_xfer lo).2 = lo_offset lo
               /\ (transfer (loop_release_xfer lo).2 = transfer lo
                   \/ transfer (loop_release_xfer lo).2 = None)).
  { unfold loop_release_xfer. destruct (lo_encryption lo); cbn; auto. }
  destruct (loop_release_xfer lo) as [e1 lo1]. cbn [fst snd] in H1.
  destruct H1 as (U1 & Q1 & O1 & T1).
  break_if.
  { cbn [fst snd]. rewrite U1, Q1. auto. }
  break_if.
  { cbn [fst snd]. rewrite U1, Q1. auto. }
  break_if.
  { cbn [fst snd]. rewrite U1, Q1. auto. }
  match goal with
  | |- context [loop_init_xfer lo1 ?x info] => set (xfer := x)
  end.
  assert (H2 : use_dio (loop_init_xfer lo1 xfer info).2 = use_dio lo1
               /\ lo_queue (loop_init_xfer lo1 xfer info).2 = lo_queue lo1
               /\ lo_offset (loop_init_xfer lo1 xfer info).2 = lo_offset lo1
               /\ transfer (loop_init_xfer lo1 xfer info).2 = transfer lo1).
  { unfold loop_init_xfer. destruct xfer as [x|]; [|cbn; auto].
    repeat break_if; cbn; auto. }
  destruct (loop_init_xfer lo1 xfer info) as [e2 lo2]. cbn [fst snd] in H2.
  destruct H2 as (U2 & Q2 & O2 & T2).
  assert (T : transfer lo2 = transfer lo \/ transfer lo2 = None)
    by (rewrite T2; exact T1).
  break_if.
  { cbn [fst snd]. rewrite U2, U1, Q2, Q1, O2, O1. auto. }
  break_if.
  { cbn [fst snd]. rewrite U2, U1, Q2, Q1, O2, O1. auto. }
  cbn [fst snd]. split; [|split; [|intros; contradiction]].
  - rewrite <- U1, <- U2. unfold loop_set_status_assign. break_if; reflexivity.
  - rewrite <- Q1, <- Q2. unfold loop_set_status_assign. break_if; reflexivity.
Qed.

Lemma loop_set_status_checked xfer_funcs env lo info :
  dio_checked lo -> dio_checked (loop_set_status xfer_funcs env lo info).2.
Proof.
  intros H. unfold loop_set_status.
  repeat (break_if; [exact H|]).
  destruct (loop_set_status_from_info_dio xfer_funcs lo info (current_uid env))
    as (U1 & Q1 & E1).
  destruct (loop_set_status_from_info xfer_funcs lo info (current_uid env))
    as [e lo1] eqn:Einfo.
  destruct (loop_set_status_from_info_cases _ _ _ _ _ _ Einfo) as ((S1 & F1 & _) & _).
  cbn [fst snd] in *.
  destruct (e =? 0) eqn:Ee; cbn [negb snd].
  2:{ apply Z.eqb_neq in Ee. destruct (E1 Ee) as [O1 T1]. revert H.
      apply dio_checked_frame; auto. congruence. }
  match goal with
  | |- context [loop_config_discard ?x] => set (X := x)
  end.
  assert (HX : lo_state X = lo_state lo /\ use_dio X = use_dio lo
               /\ lo_backing_file X = lo_backing_file lo).
  { subst X. unfold loop_set_size. break_if; cbn; auto. }
  destruct HX as (SX & UX & FX). clearbody X.
  destruct (loop_config_discard_queue X) as [q ->].
  set (D := set_lo_queue q X).
  assert (HU : dio_checked (__loop_update_dio D (use_dio D))).
  { apply (__loop_update_dio_checked lo); [exact H| | |]; subst D; cbn; congruence. }
  break_if; [|exact HU]. revert HU. apply dio_checked_frame; auto.
Qed.

Lemma loop_configure_checked xfer_funcs part_shift env lo mode bdev config :
  dio_checked lo ->
  dio_checked (loop_configure xfer_funcs part_shift env lo mode bdev config).2.
Proof.
  intros H.
  destruct (loop_configure xfer_funcs part_shift env lo mode bdev config)
    as [e lo'] eqn:Hc. cbn [snd].
  destruct (loop_configure_cases _ _ _ _ _ _ _ _ _ Hc)
    as [(_ & [->|[(Hs & Hinfo)|(Hs & _ & _ & f & virt & lo1 & _ & Hinfo & ->)]])
       |(_ & Hs & _ & f & virt & lo1 & _ & Hinfo & ->)].
  - exact H.
  - destruct (loop_set_status_from_info_cases _ _ _ _ _ _ Hinfo) as ((S1 & _) & _).
    apply dio_checked_unbound. congruence.
  - destruct (loop_set_status_from_info_cases _ _ _ _ _ _ Hinfo) as ((S1 & _) & _).
    apply dio_checked_unbound.
    assert (Hst : lo_state (set_workqueue false (force_read_only f mode lo1))
                  = lo_state lo1) by (unfold force_read_only; break_if; reflexivity).
    congruence.
  - unfold loop_configure_commit.
    match goal with
    | |- context [loop_config_discard ?x] => set (lo0 := x)
    end.
    assert (F0 : lo_backing_file lo0 = Some f).
    { subst lo0. repeat break_if; reflexivity. }
    pose proof (loop_config_discard_core lo0) as (_ & C1 & _).
    pose proof (loop_update_rotational_core (loop_config_discard lo0))
      as ((_ & C2 & _) & _).
    set (A := loop_update_rotational (loop_config_discard lo0)) in *.
    assert (FA : lo_backing_file A = Some f) by congruence.
    clearbody A. clear C1 C2. clearbody lo0. unfold loop_update_dio.
    set (dio := match lo_backing_file A with
                | Some f0 => f_o_direct f0
                | None => false
                end || use_dio A).
    clearbody dio.
    apply (__loop_update_dio_then A dio f _ FA);
      unfold loop_set_size; repeat break_if; reflexivity.
Qed.

Lemma lo_release_checked part_shift lo :
  dio_checked lo -> dio_checked (lo_release part_shift lo).2.
Proof.
  intros H. unfold lo_release. cbv zeta.
  assert (H1 : dio_checked (set_lo_refcnt (lo_refcnt lo - 1) lo))
    by (revert H; apply dio_checked_frame; auto).
  break_if; [exact H1|]. break_if; [|exact H1]. break_if; [exact H1|].
  unfold __loop_clr_fd.
  match goal with
  | |- context [__loop_clr_fd_locked1 ?x] =>
      destruct (__loop_clr_fd_locked1 x) as [[[err partscan] filp] lo1]
  end.
  cbn [snd]. apply dio_checked_unbound. unfold __loop_clr_fd_locked2.
  cbn. discriminate.
Qed.

(** Where the block size of the file system's device fits an [unsigned
    short], what [__loop_update_dio] checked is what [dio_sound] asks
    for. *)
Lemma dio_checked_sound lo :
  (forall f b, lo_backing_file lo = Some f -> s_bdev_lbs f = Some b ->
     0 <= b < 2 ^ 16) ->
  dio_checked lo -> dio_sound lo.
Proof.
  intros Hb H Hs Hu. destruct (H Hs Hu) as (f & F1 & F2 & F3 & F4 & F5).
  exists f. split; [assumption|]. split; [assumption|]. split; [assumption|].
  destruct (s_bdev_lbs f) as [b|] eqn:Eb; [|auto].
  rewrite (wrap_u_small 16 b) in F4, F5 by (apply (Hb f b); assumption). auto.
Qed.

(** X27.  On a bound device [use_dio] is set only where
    [__loop_update_dio] granted direct I/O: the backing file supports it, no
    transfer is selected, the offset is aligned to the block size of the
    file system's device and the loop device's block size is not below it,
    that block size being taken as the [unsigned short] the function keeps
    it in.  No [lo_ioctl] or [lo_compat_ioctl] call, whatever the command,
    its argument and its outcome, and neither [lo_open] nor [lo_release],
    takes a device where this holds to one where it does not.  Where the
    block size fits an [unsigned short] this is [dio_sound]. *)
Theorem lo_ioctl_keeps_dio_checked (xfer_funcs : list (option loop_func_table))
    (part_shift : Z) (a : abi) (e : ioctl_env)
    (user_compat : option compat_loop_info) (lo : loop_device)
    (bdev mode cmd arg lock : Z) :
  dio_checked lo ->
  dio_checked (lo_ioctl xfer_funcs part_shift a e lo bdev mode cmd arg).1.2
  /\ dio_checked
       (lo_compat_ioctl xfer_funcs part_shift a e user_compat lo bdev mode cmd arg).1.2
  /\ dio_checked (lo_open lock lo).2
  /\ dio_checked (lo_release part_shift lo).2
  /\ ((forall f b, lo_backing_file lo = Some f -> s_bdev_lbs f = Some b ->
         0 <= b < 2 ^ 16) -> dio_sound lo).
Proof.
  intros H.
  assert (Hio : forall cmd arg,
            dio_checked (lo_ioctl xfer_funcs part_shift a e lo bdev mode cmd arg).1.2).
  { clear cmd arg. intros cmd arg. unfold lo_ioctl. cbv zeta.
    break_if; [cbn [fst snd]; apply loop_configure_checked; exact H|].
    break_if.
    { destruct (user_config e) as [config|]; cbn [fst snd];
        [apply loop_configure_checked|]; exact H. }
    break_if; [cbn [fst snd]; apply loop_change_fd_checked; exact H|].
    break_if.
    { pose proof (loop_clr_fd_checked part_shift (lock_err (cfg e)) lo H) as Hc.
      destruct (loop_clr_fd part_shift (lock_err (cfg e)) lo) as [[err u] lo'].
      exact Hc. }
    break_if.
    { break_if; [|exact H]. cbn [fst snd]. unfold loop_set_status_old.
      destruct (user_info e); [apply loop_set_status_checked|]; exact H. }
    break_if.
    { destruct (loop_get_status_old _ _ _ _ _ _ _ _) as [err out]. exact H. }
    break_if.
    { break_if; [|exact H]. cbn [fst snd]. unfold loop_set_status64.
      destruct (user_info64 e); [apply loop_set_status_checked|]; exact H. }
    break_if.
    { destruct (loop_get_status64 _ _ _ _ _ _ _) as [err out]. exact H. }
    break_if; [exact H|]. cbn [fst snd]. apply lo_simple_ioctl_checked. exact H. }
  split; [apply Hio|]. split; [|split; [|split]].
  - unfold lo_compat_ioctl. cbv zeta.
    break_if.
    { cbn [fst snd]. unfold loop_set_status_compat.
      destruct (loop_info64_from_compat user_compat) as [ret [info64|]];
        [apply loop_set_status_checked|]; exact H. }
    break_if.
    { destruct (loop_get_status_compat _ _ _ _ _ _ _ _) as [err out]. exact H. }
    break_if; [apply Hio|]. break_if; [apply Hio|]. exact H.
  - unfold lo_open. break_if; [exact H|]. break_if; [exact H|]. cbn [snd].
    revert H. apply dio_checked_frame; auto.
  - apply lo_release_checked. exact H.
  - intros Hb. apply dio_checked_sound; assumption.
Qed.

Lemma lo_ioctl_keeps_dio_checked_witness :
  use_dio lo_bound_dio = true
  /\ dio_checked
       (lo_ioctl xfer_funcs_init 0 abi_lp64
          {| cfg := env_ok (image_file 1048576); user_config := None;
             user_info := None; user_info64 := Some info_sample;
             copy_out_ok := true; getattr := stat_sample;
             stack_info64 := loop_info64_zero; xfer_ioctl_ret := 0 |}
          lo_bound_dio 7 FMODE_WRITE LOOP_SET_STATUS64 0).1.2.
Proof.
  split; [reflexivity|].
  refine (proj1 (lo_ioctl_keeps_dio_checked xfer_funcs_init 0 abi_lp64 _ None
                   lo_bound_dio 7 FMODE_WRITE LOOP_SET_STATUS64 0 0 _)).
  intros _ _. exists (image_file 1048576).
  split; [reflexivity|]. split; [reflexivity|]. split; [reflexivity|].
  split; [vm_compute; discriminate|reflexivity].
Defined.

(** X28.  Where [use_dio] is set only when direct I/O is possible, a
    request that [loop_queue_rq] accepts and marks for asynchronous I/O is
    neither a flush, a discard nor a write-zeroes request, and the device
    has no transfer and a backing file that supports direct I/O. *)
Theorem loop_queue_rq_use_aio (blkcg_root_css : Z) (kzalloc_ok : bool)
    (lo : loop_device) (rq_id : Z) (rq : blk_rq) (bio_css bio_memcg : Z)
    (cmd : loop_cmd) :
  dio_sound lo ->
  (loop_queue_rq blkcg_root_css kzalloc_ok lo rq_id rq bio_css bio_memcg).2 = Some cmd ->
  use_aio cmd = true ->
  rq_op rq <> REQ_OP_FLUSH /\ rq_op rq <> REQ_OP_DISCARD
  /\ rq_op rq <> REQ_OP_WRITE_ZEROES
  /\ transfer lo = None
  /\ exists f, lo_backing_file lo = Some f /\ a_ops_direct_IO f = true.
Proof.
  intros H Hq Ha. unfold loop_queue_rq in Hq.
  destruct (lo_state_eqb (lo_state lo) Lo_bound) eqn:Es; cbn [negb] in Hq;
    [|discriminate].
  apply lo_state_eqb_eq in Es.
  match type of Hq with
  | context [loop_queue_work _ _ _ ?c] => set (c0 := c) in Hq
  end.
  assert (Hu : use_aio (loop_queue_work blkcg_root_css kzalloc_ok lo c0).2
               = use_aio c0).
  { unfold loop_queue_work. repeat break_if; reflexivity. }
  destruct (loop_queue_work blkcg_root_css kzalloc_ok lo c0) as [lo' cmd'].
  cbn [snd] in Hq, Hu. injection Hq as ->. rewrite Hu in Ha. subst c0.
  cbn [use_aio] in Ha.
  destruct (rq_op rq =? REQ_OP_FLUSH) eqn:E1; [discriminate|].
  destruct (rq_op rq =? REQ_OP_DISCARD) eqn:E2; [discriminate|].
  destruct (rq_op rq =? REQ_OP_WRITE_ZEROES) eqn:E3; [discriminate|].
  cbn [orb] in Ha. apply Z.eqb_neq in E1, E2, E3.
  destruct (H Es Ha) as (f & F1 & F2 & F3 & _).
  repeat split; try assumption. exists f. auto.
Qed.

Lemma loop_queue_rq_use_aio_witness :
  rq_op rq_read_1024 <> REQ_OP_FLUSH /\ rq_op rq_read_1024 <> REQ_OP_DISCARD
  /\ rq_op rq_read_1024 <> REQ_OP_WRITE_ZEROES
  /\ transfer lo_bound_dio = None
  /\ exists f, lo_backing_file lo_bound_dio = Some f /\ a_ops_direct_IO f = true.
Proof.
  apply (loop_queue_rq_use_aio 1 true lo_bound_dio 5 rq_read_1024 0 0
           {| cmd_rq := 5; use_aio := true; blkcg_css := 0; memcg_css := 0 |}).
  - intros _ _. exists (image_file 1048576).
    split; [reflexivity|]. split; [reflexivity|]. split; [reflexivity|].
    split; [vm_compute; discriminate|reflexivity].
  - reflexivity.
  - reflexivity.
Defined.

(** ** Loading the module *)

Lemma fls_spec (x : Z) :
  0 < x < 2 ^ 31 -> 1 <= fls x <= 31 /\ 2 ^ (fls x - 1) <= x < 2 ^ fls x.
Proof.
  intros Hx. unfold fls. rewrite wrap_u32_small by lia.
  destruct (x =? 0) eqn:E; [apply Z.eqb_eq in E; lia|].
  pose proof (Z.log2_spec x ltac:(lia)) as [Hlo Hhi].
  pose proof (Z.log2_nonneg x) as Hn.
  replace (Z.log2 x + 1 - 1) with (Z.log2 x) by lia.
  replace (Z.log2 x + 1) with (Z.succ (Z.log2 x)) by lia.
  repeat split; try lia.
  assert (Hlt : Z.log2 x < 31) by (apply Z.log2_lt_pow2; lia). lia.
Qed.

Lemma pow2_shift_bound (ps n : Z) :
  0 <= ps <= 8 -> 0 <= n <= 2 ^ (MINORBITS - ps) ->
  forall i, 0 <= i < n -> Z.shiftl i ps + Z.shiftl 1 ps <= 2 ^ MINORBITS.
Proof.
  intros Hps Hn i Hi. rewrite !Z.shiftl_mul_pow2 by lia.
  assert (Hp : 0 < 2 ^ ps) by (apply Z.pow_pos_nonneg; lia).
  replace (2 ^ MINORBITS) with (2 ^ (MINORBITS - ps) * 2 ^ ps).
  - nia.
  - rewrite <- Z.pow_add_r by (unfold MINORBITS; lia). f_equal. lia.
Qed.

(** X29.  [loop_init] accepts its parameters only within the minor space:
    it fails with [-EINVAL] when [max_part] exceeds 255 or [max_loop] is
    negative or exceeds [2 ^ (MINORBITS - part_shift)].  When it returns 0,
    [part_shift] is at most 8, a positive [max_part] was raised to the next
    [2 ^ part_shift - 1], and the [2 ^ part_shift] minors from
    [i << part_shift] on of every device [i] below [max_loop] fit in
    [MINORBITS] bits. *)
Theorem loop_init_limits (a : abi) (e : init_env) (max_part max_loop : Z)
    (t : list (option idr_entry)) :
  32 <= long_bits a <= 64 -> is_int max_part -> is_int max_loop ->
  let r := loop_init a e max_part max_loop t in
  let ps := mod_part_shift r.2 in
  (255 < max_part \/ max_loop < 0 \/ 2 ^ (MINORBITS - ps) < max_loop ->
   r.1 = - EINVAL)
  /\ (r.1 = 0 ->
      0 <= ps <= 8
      /\ (max_part <= 0 -> ps = 0 /\ mod_max_part r.2 = max_part)
      /\ (0 < max_part ->
          mod_max_part r.2 = 2 ^ ps - 1
          /\ max_part <= mod_max_part r.2 <= 2 * max_part - 1)
      /\ 0 <= max_loop
      /\ forall i, 0 <= i < max_loop ->
           Z.shiftl i ps + Z.shiftl 1 ps <= 2 ^ MINORBITS).
Proof.
  intros HL Hmp Hml. unfold is_int in Hmp, Hml.
  assert (H32 : 2 ^ 32 <= 2 ^ long_bits a) by (apply Z.pow_le_mono_r; lia).
  set (ps0 := if max_part >? 0 then fls max_part else 0).
  assert (Hps0 : 0 <= ps0 <= 31
                 /\ (max_part <= 0 -> ps0 = 0)
                 /\ (0 < max_part -> 2 ^ (ps0 - 1) <= max_part < 2 ^ ps0 /\ 1 <= ps0)).
  { subst ps0. destruct (max_part >? 0) eqn:E; rewrite Z.gtb_ltb in E.
    - apply Z.ltb_lt in E. destruct (fls_spec max_part ltac:(lia)) as [H1 H2].
      repeat split; lia.
    - apply Z.ltb_ge in E. repeat split; lia. }
  destruct Hps0 as (Hr & Hz & Hp).
  assert (Hpow : 0 < 2 ^ ps0 <= 2 ^ 31)
    by (split; [apply Z.pow_pos_nonneg; lia|apply Z.pow_le_mono_r; lia]).
  assert (Hsh : wrap_u (long_bits a) (Z.shiftl 1 ps0) = 2 ^ ps0).
  { rewrite Z.shiftl_1_l. apply wrap_u_small. lia. }
  unfold loop_init. cbv zeta. fold ps0. rewrite Hsh.
  destruct (2 ^ ps0 >? DISK_MAX_PARTS) eqn:E1; rewrite Z.gtb_ltb in E1.
  { apply Z.ltb_lt in E1. cbn [fst snd mod_part_shift mod_max_part]. split; [reflexivity|].
    unfold EINVAL. intros; lia. }
  apply Z.ltb_ge in E1. unfold DISK_MAX_PARTS in E1.
  assert (Hps8 : ps0 <= 8).
  { destruct (Z.le_gt_cases ps0 8) as [|Hgt]; [assumption|].
    assert (2 ^ 9 <= 2 ^ ps0) by (apply Z.pow_le_mono_r; lia). lia. }
  assert (Hm : 0 < 2 ^ (MINORBITS - ps0) <= 2 ^ 20).
  { unfold MINORBITS.
    split; [apply Z.pow_pos_nonneg; lia|apply Z.pow_le_mono_r; lia]. }
  assert (Hsh2 : wrap_u (long_bits a) (Z.shiftl 1 (MINORBITS - ps0))
                 = 2 ^ (MINORBITS - ps0)).
  { rewrite Z.shiftl_1_l. apply wrap_u_small. lia. }
  rewrite Hsh2.
  assert (Hlow : max_part <= 255).
  { destruct (Z.le_gt_cases max_part 0) as [|Hpos]; [lia|].
    destruct (Hp Hpos) as [[_ Hlt] _]. lia. }
  assert (Hwl : wrap_u (long_bits a) max_loop
                = if max_loop <? 0 then max_loop + 2 ^ long_bits a else max_loop).
  { unfold wrap_u. destruct (max_loop <? 0) eqn:En.
    - apply Z.ltb_lt in En.
      rewrite <- (Z_mod_plus_full max_loop 1 (2 ^ long_bits a)).
      rewrite Z.mul_1_l. apply Z.mod_small. lia.
    - apply Z.ltb_ge in En. apply Z.mod_small. lia. }
  rewrite Hwl.
  destruct (_ >? 2 ^ (MINORBITS - ps0)) eqn:E2; rewrite Z.gtb_ltb in E2.
  { cbn [fst snd mod_part_shift mod_max_part]. split; [reflexivity|]. unfold EINVAL. intros; lia. }
  apply Z.ltb_ge in E2.
  assert (Hml0 : 0 <= max_loop <= 2 ^ (MINORBITS - ps0)).
  { destruct (max_loop <? 0) eqn:En; [apply Z.ltb_lt in En; lia|].
    apply Z.ltb_ge in En. lia. }
  set (mp := if max_part >? 0
             then wrap_s32 (wrap_u (long_bits a) (2 ^ ps0 - 1)) else max_part).
  assert (Hgood :
            0 <= ps0 <= 8
            /\ (max_part <= 0 -> ps0 = 0 /\ mp = max_part)
            /\ (0 < max_part ->
                mp = 2 ^ ps0 - 1 /\ max_part <= mp <= 2 * max_part - 1)
            /\ 0 <= max_loop
            /\ forall i, 0 <= i < max_loop ->
                 Z.shiftl i ps0 + Z.shiftl 1 ps0 <= 2 ^ MINORBITS).
  { subst mp. split; [lia|]. split; [|split; [|split; [lia|]]].
    - intros Hle. split; [auto|].
      destruct (max_part >? 0) eqn:E; [|reflexivity].
      rewrite Z.gtb_ltb in E. apply Z.ltb_lt in E. lia.
    - intros Hpos. destruct (Hp Hpos) as [[Hlo Hhi] H1].
      replace (max_part >? 0) with true
        by (symmetry; rewrite Z.gtb_ltb; apply Z.ltb_lt; lia).
      rewrite wrap_u_small by lia. rewrite wrap_s32_small by (unfold is_int; lia).
      split; [reflexivity|].
      assert (Hd : 2 ^ ps0 = 2 * 2 ^ (ps0 - 1)).
      { rewrite <- Z.pow_succ_r by lia. f_equal. lia. }
      lia.
    - apply pow2_shift_bound; lia. }
  clearbody mp.
  destruct (misc_register_err e <? 0) eqn:E3.
  { apply Z.ltb_lt in E3. cbn [fst snd mod_part_shift mod_max_part]. split; [intros; lia|].
    intros; lia. }
  destruct (register_blkdev_err e =? 0) eqn:E4; cbn [negb fst snd mod_part_shift mod_max_part].
  2:{ split; [intros; lia|]. unfold EIO. intros; lia. }
  split; [intros; lia|]. intros _. exact Hgood.
Qed.

Lemma loop_init_limits_witness :
  let r := loop_init abi_lp64 init_env_ok 15 8 [] in
  0 <= mod_part_shift r.2 <= 8
  /\ (15 <= 0 -> mod_part_shift r.2 = 0 /\ mod_max_part r.2 = 15)
  /\ (0 < 15 ->
      mod_max_part r.2 = 2 ^ mod_part_shift r.2 - 1
      /\ 15 <= mod_max_part r.2 <= 2 * 15 - 1)
  /\ 0 <= 8
  /\ forall i, 0 <= i < 8 ->
       Z.shiftl i (mod_part_shift r.2) + Z.shiftl 1 (mod_part_shift r.2)
       <= 2 ^ MINORBITS.
Proof.
  refine (proj2 (loop_init_limits abi_lp64 init_env_ok 15 8 [] _ _ _) _).
  - cbn; lia.
  - unfold is_int; lia.
  - unfold is_int; lia.
  - reflexivity.
Defined.

(** [loop_add] of an id that is free, when nothing fails. *)
Lemma loop_add_free (part_shift : Z) (e : add_env) (t : list (option idr_entry))
    (i : Z) :
  add_env_succeeds e -> 0 <= i -> idr_find t i = None ->
  loop_add part_shift e t i
  = (i, idr_store (idr_store t (Z.to_nat i)
                     (Some {| ent_lo := set_lo_state Lo_unbound lo_fresh;
                              idr_visible := false |}))
          (Z.to_nat i)
          (Some {| ent_lo := loop_add_device part_shift i; idr_visible := true |})).
Proof.
  intros (H1 & H2 & H3 & H4 & H5) Hi Hf. unfold loop_add, idr_alloc.
  rewrite H1, H2, H3, H4, H5, Hf. cbn [negb Z.eqb].
  replace (i >=? 0) with true by (symmetry; rewrite Z.geb_leb; apply Z.leb_le; lia).
  replace (i + 1 =? 0) with false by (symmetry; apply Z.eqb_neq; lia).
  replace (i =? - ENOSPC) with false
    by (symmetry; apply Z.eqb_neq; unfold ENOSPC; lia).
  replace (i <? 0) with false by (symmetry; apply Z.ltb_ge; lia).
  reflexivity.
Qed.

Lemma loop_init_adds_find (part_shift : Z) (envs : Z -> add_env) (n : nat) :
  (forall i, add_env_succeeds (envs i)) ->
  forall (t : list (option idr_entry)) (i : Z),
    0 <= i -> (forall id, i <= id -> idr_find t id = None) ->
    forall id,
      idr_find (loop_init_adds part_shift envs t i n) id
      = if decide (i <= id < i + Z.of_nat n)
        then Some {| ent_lo := loop_add_device part_shift id; idr_visible := true |}
        else idr_find t id.
Proof.
  intros He. induction n as [|n IH]; intros t i Hi Hfree id.
  - cbn [loop_init_adds]. rewrite decide_False by lia. reflexivity.
  - cbn [loop_init_adds].
    rewrite (loop_add_free part_shift (envs i) t i (He i) Hi (Hfree i ltac:(lia))).
    cbn [snd]. rewrite IH; [|lia|].
    + rewrite !idr_find_store, Z2Nat.id by lia.
      destruct (decide (id = i)) as [->|Hne].
      * rewrite decide_False by lia. rewrite decide_True by lia. reflexivity.
      * destruct (decide (i + 1 <= id < i + 1 + Z.of_nat n)).
        -- rewrite decide_True by lia. reflexivity.
        -- rewrite (decide_False (P := i <= id < i + Z.of_nat (S n))) by lia.
           reflexivity.
    + intros id' Hid'. rewrite !idr_find_store, Z2Nat.id by lia.
      rewrite !decide_False by lia. apply Hfree. lia.
Qed.

(** X30.  When [loop_init] returns 0 on an empty index and no [loop_add]
    fails, the index holds under every id below [max_loop], and under no
    other, a visible Unbound device with that number; with [max_loop]
    positive [loop_control_get_free] then answers 0 and adds nothing. *)
Theorem loop_init_devices (a : abi) (e : init_env) (max_part max_loop : Z)
    (ge : add_env) :
  (forall i, add_env_succeeds (init_add_env e i)) ->
  let r := loop_init a e max_part max_loop [] in
  r.1 = 0 ->
  (forall id,
     idr_find (mod_index r.2) id
     = if decide (0 <= id < max_loop)
       then Some {| ent_lo := loop_add_device (mod_part_shift r.2) id;
                    idr_visible := true |}
       else None)
  /\ (0 < max_loop ->
      loop_control_get_free (mod_part_shift r.2) ge 0 (mod_index r.2)
      = (0, mod_index r.2)).
Proof.
  intros He r Hr.
  assert (Hfind : forall id,
            idr_find (mod_index r.2) id
            = if decide (0 <= id < max_loop)
              then Some {| ent_lo := loop_add_device (mod_part_shift r.2) id;
                           idr_visible := true |}
              else None).
  { subst r. unfold loop_init in *. cbv zeta in *.
    destruct (_ >? DISK_MAX_PARTS); [cbn [fst] in Hr; unfold EINVAL in Hr; lia|].
    destruct (_ >? _); [cbn [fst] in Hr; unfold EINVAL in Hr; lia|].
    destruct (misc_register_err e <? 0) eqn:Em.
    { apply Z.ltb_lt in Em. cbn [fst] in Hr. lia. }
    destruct (negb (register_blkdev_err e =? 0));
      [cbn [fst] in Hr; unfold EIO in Hr; lia|].
    cbn [snd mod_index mod_part_shift]. intros id.
    rewrite loop_init_adds_find; [|assumption|lia|].
    - destruct (decide (0 <= id < max_loop)).
      + rewrite decide_True by lia. reflexivity.
      + rewrite decide_False by lia. unfold idr_find.
        destruct (id <? 0); reflexivity.
    - intros id' _. unfold idr_find. destruct (id' <? 0); reflexivity. }
  split; [exact Hfind|]. intros Hpos.
  unfold loop_control_get_free. cbn [Z.eqb negb].
  pose proof (Hfind 0) as H0. rewrite decide_True in H0 by lia.
  apply idr_find_Some in H0. destruct H0 as [_ H0]. cbn [Z.to_nat] in H0.
  destruct (mod_index r.2) as [|x rest]; [discriminate|].
  cbn in H0. injection H0 as ->. reflexivity.
Qed.

Lemma loop_init_devices_witness :
  let r := loop_init abi_lp64 init_env_ok 0 8 [] in
  (forall id,
     idr_find (mod_index r.2) id
     = if decide (0 <= id < 8)
       then Some {| ent_lo := loop_add_device (mod_part_shift r.2) id;
                    idr_visible := true |}
       else None)
  /\ (0 < 8 ->
      loop_control_get_free (mod_part_shift r.2) add_env_ok 0 (mod_index r.2)
      = (0, mod_index r.2)).
Proof.
  apply (loop_init_devices abi_lp64 init_env_ok 0 8 add_env_ok).
  - intros i. repeat split.
  - reflexivity.
Defined.
